(* ===== verification/_CoqProject ===== *)
-Q . S2P
Prelude.v
PyStd.v
PyText.v
Domain.v
Models.v
Migrations.v
Session.v
MigrationTheorems.v
Ledger.v
Journal.v
Fixtures.v
LedgerTheorems.v
Psp.v
Idempotency.v
Saga.v
Waiting.v
Locks.v
Interleave.v
Concurrency.v
ConcurrencyTheorems.v
Schemas.v
Payments.v
PaymentTheorems.v
PspTheorems.v
Refunds.v
RefundTheorems.v
PayloadHash.v
Lifecycle.v
Spec.v
Webhooks.v
WebhookTheorems.v
Reconciliation.v
ReconciliationTheorems.v
LockOrder.v
ServiceJobs.v
HookJobs.v
OutboxRelay.v
OutboxTheorems.v
PyConfig.v
AlembicEnv.v
Startup.v
StartupTheorems.v
System.v
SystemTheorems.v
AnswerTheorems.v
RelayWorkers.v
ServiceTheorems.v
HookTheorems.v
Api.v
ApiTheorems.v
DailyPush.v
DailyPushTheorems.v
