(* ===== verification/Prelude.v ===== *)
(** * Apex Payments Engine: a verification library

    The engine (under [src/]) is a FastAPI service over PostgreSQL and Redis: a
    double-entry ledger with materialized account balances, payments that hold their amount
    in a suspense account while a provider is asked to authorize them, refunds, webhooks of
    the provider, an outbox relay, and a reconciliation service.  This library is a shallow
    embedding of its services, schema and HTTP interface, with the theorems that make them
    correct.  This file is also the prelude: the result and statement monads with their
    inversion tactics ([minv], [inv_bind_as]), BIGINT bounds, sums over lists and maps, and
    the hint database [apex].

    ** How the program works, and where each part is modelled

    - [PyStd], [PyText]: the Python the program uses: [uuid.UUID] and its text, UTF-8,
      SHA-256, HMAC, JSON values, [json.dumps(sort_keys=True)]; [str.strip], [splitlines],
      slices, [range].
    - [Domain]: [domain/enums.py], [domain/exceptions.py].
    - [Models]: [domain/models.py] and the two migrations: rows, the tables ([DB]), the
      declared constraints each statement is checked against ([op_checks]), the deferred
      trigger [assert_ledger_balanced], the seeded rows.  [schema_ok] is the invariant the
      constraints give.
    - [Migrations]: [alembic/versions/*.py] as lists of operations, [upgrade] and [downgrade],
      run along the chain of revisions as [alembic/env.py] runs them; the metadata of the
      classes of [domain/models.py].  What PostgreSQL makes of an operation and of a row
      ([exec_ddl], [row_fits], [fits], [checks_hold], [references_hold], [unique_keys]) is an
      interpreter on a catalog of tables, columns and constraints, and translates no code of
      the repository.
      [MigrationTheorems]: the checks of [Models] are those of the migrated tables.
    - [Session]: [infrastructure/database.py]: an [AsyncSession] without autoflush, as the
      monad [M]; [in_transaction] is [async with session.begin()]: commit, or roll back on
      an exception.  A COMMIT whose answer is lost is [in_transaction_lost]; it leaves a state
      of [System] too ([lost_answers_are_system_runs]), but its request answers an error
      although it changed the tables, which the theorems on requests do not speak of.
    - [Ledger], [Journal]: [application/ledger_service.py] ([validate_balanced], [post]); the
      conservation of money and the journal sums.  [Locks]: the order of row locks.
    - [Waiting]: why ordered waiting ends.  [Interleave]: transactions that interleave
      statement by statement under READ COMMITTED with row locks, for any rows and jobs that
      satisfy an interface ([Rows], [Jobs] and their laws).  A job's plan of rows is written
      down, and proved to be the locks that the service's code records ([plans_are_locked],
      [deliveries_are_locked]).  [Concurrency] instantiates it with ledger postings,
      [ServiceJobs] with the payment and refund services (unique idempotency keys are rows
      too), [HookJobs] with webhooks beside them (the rows of their events too).
    - [Psp]: [config.py], [infrastructure/psp/*.py]: settings, the provider interface
      ([PaymentProvider], a class with the mock and the Stripe provider as instances),
      signature verifiers.
    - [Idempotency]: [application/idempotency_service.py] and the Redis lock.
    - [Saga]: [application/payment_saga.py] ([hold], [settle], [reverse]).
    - [Schemas]: [application/schemas.py]; [PydanticModel] is the interface (dump, validate,
      round trip) the replay of stored responses relies on.
    - [Payments]: [application/payment_service.py]: [create] is transaction 1 (claim the key,
      hold), the provider call outside any transaction, transaction 2 (settle, reverse or
      park, complete the key).
    - [Refunds]: [application/refund_service.py].  [Webhooks]:
      [application/webhook_service.py].  [Reconciliation]:
      [application/reconciliation_service.py].  [OutboxRelay]:
      [application/outbox_relay.py].  [RelayWorkers]: several relays whose batches interleave
      with each other and with the services, and may fail anywhere.
    - [Lifecycle]: the steps a payment takes, as one relation on tables, and what they
      preserve; every service is proved to make such steps only.  [Spec]: the abstract
      payment machine, balances and payments only.  [System]: the whole engine as a step
      relation: the transactions of all services in any order, with the payments whose
      provider call is under way ([InFlight]) between transaction 1 and transaction 2.
    - [Api]: [api/*.py] and the handlers of [main.py]: one definition per endpoint, [serve].
    - [PyConfig], [AlembicEnv]: [alembic/env.py]: the URL through Python's [configparser] and
      its interpolation, the online and the offline run of the migrations.
    - [Startup]: the Redis pool of [infrastructure/redis_client.py] and [lifespan] of
      [main.py], with the cancellation of the relay's task.
    - [DailyPush]: [scripts/daily_push.py], on a machine (git, files) that is an interface.
    - [Fixtures]: concrete tables and environments for the witnesses.

    A service method that raises is an [Err] of the monad; what it draws from outside
    (UUIDs, times, statements that fail) comes from an [Env], an arbitrary stream.

    ** What the theorems show

    - Safety of the whole engine ([SystemTheorems]): in every reachable state balances are in
      range and never negative, money is conserved, each journal transaction nets to zero,
      each payment has the amounts its status says and is never refunded beyond its amount;
      suspense covers the open holds; the journal is append-only and balances move with it;
      a payment only moves along its life cycle; an answered payment or refund is never
      executed twice.  [AnswerTheorems]: what a key stores is nothing while it is in progress,
      and afterwards the true response of the payment or refund it was asked for.
      The engine refines the abstract machine.
    - Concurrency ([Interleave], [ConcurrencyTheorems], [ServiceTheorems], [HookTheorems],
      [LockOrder]): interleaved postings, payments, refunds and webhooks are equivalent to a
      serial order that is a run of [System], always finish, never oversell an account, at
      most one of the first requests with a key goes through, and at most one of the
      deliveries of an event takes effect; several relays announce each event once, and once
      more for each batch that is rolled back ([RelayWorkers]); the transactions of the
      services take their row locks in one order and therefore never deadlock, except the
      expiry of several holds, which can.
    - The schema ([MigrationTheorems], [AlembicEnv]): the checks of every statement are those
      of the migrated tables, the migrations and the models agree but for two indexes, the
      downgrades undo the upgrades, and [alembic/env.py] migrates the database of the service,
      online and by an offline script, unless the password is percent-encoded, a bug that is
      stated.
    - Each service on every branch ([LedgerTheorems], [PaymentTheorems], [PspTheorems],
      [RefundTheorems], [WebhookTheorems], [ReconciliationTheorems], [OutboxTheorems]):
      what success changes, which error is raised when, and that errors change nothing.
    - Identity of requests and round trips ([PayloadHash]): the request hash is injective up
      to SHA-256 collisions; stored responses read back.
    - The HTTP interface ([ApiTheorems]): any sequence of requests is a run of the system;
      what is refused changes nothing; what the endpoints answer.
    - The process and its tools ([StartupTheorems], [DailyPushTheorems]): a shutdown ends,
      loses no event and leaves no client open; the commit script queues what git reports
      of plain paths (renames and paths that git quotes are outside [entry_ok], and dropped;
      and there is one bug, stated), runs what it announces, and ends with a clean tree.

    ** Bounds and fuel

    Integers are [Z]; BIGINT bounds ([int64_ok]) are checks of the statements that store
    them, and the theorems that say a request succeeds assume room for its amounts and
    versions ([version_room], [total_balance]), never the result.  No definition needs
    fuel: the loops of the program run over lists.  The relay's [run_loop] and [serve_all]
    take the list of their turns; [relay_publishes_everything] and [shutdown_loses_nothing]
    say how many turns are enough, [services_always_finish] how many statements an
    interleaving has, and [pushes_commit_everything] how many days the commit script needs.

    ** What is assumed of code outside the repository

    Parameters, quantified in every theorem: the reply of the Stripe SDK, of Redis and of
    [json.loads]; the order of rows a query leaves open; the responses of the framework to
    exceptions without a handler; the text of a datetime, with the laws that it parses back and
    has no U+0000; git and the file system ([Machine], with the laws of a [Repository] where a
    theorem needs git to work).
    PostgreSQL is READ COMMITTED with the row locks the program asks for.

    ** What is not modelled

    - Interleaving inside a transaction of the expiry, and of a webhook with the very second
      transaction that gives a payment the reference the webhook looks for: [System] takes
      whole transactions as steps.  For payments and refunds, for webhooks with them but for
      that race, and for the relay with all of them this is proved
      ([interleavings_are_system_runs], [webhooks_serialize], [relays_are_system_runs]); for
      the others [LockOrder] shows the order of their locks only, and [early_event_is_lost]
      how the race ends when the webhook comes first.
    - Sequence gaps: a ledger entry's id is its position, although a rolled back transaction
      consumes ids in PostgreSQL.  Characters above U+00FF in text.  The character U+0000, which
      PostgreSQL refuses in every text and JSON value, is refused in the rows and in the
      search for a provider reference; in the search for a key or an event id it finds
      nothing, and the INSERT that follows is refused instead.  Time zones.  The rows of
      [processed_events], which no code writes.
    - Metrics and logging (that of [alembic.ini] too), the texts [print] puts around the
      values it shows, [argparse]: no state of the program.  The [__init__] files of the packages only export names. *)

From stdpp Require Export base tactics option list gmap strings pretty sorting fin_maps.
From Stdlib Require Export ZArith Lia.

Declare Scope apex_scope.
Delimit Scope apex_scope with apex.
#[global] Open Scope Z_scope.

Create HintDb apex.
Create Rewrite HintDb apex.

(** ** Results: a Python call returns a value or raises *)

Inductive result (E A : Type) : Type :=
| Ok (a : A)
| Err (e : E).
Arguments Ok {E A} a.
Arguments Err {E A} e.

#[global] Instance result_ret E : MRet (result E) := fun A a => Ok a.
#[global] Instance result_bind E : MBind (result E) := fun A B f r =>
  match r with Ok a => f a | Err e => Err e end.
#[global] Instance result_throw E : MThrow E (result E) := fun A e => Err e.
#[global] Instance result_eq_dec {E A} `{EqDecision E, EqDecision A} : EqDecision (result E A).
Proof. solve_decision. Defined.

Definition is_ok {E A : Type} (r : result E A) : bool :=
  match r with Ok _ => true | Err _ => false end.

(** ** State passing over results: [stm S E A] runs in state [S], may raise [E].
    A raised exception loses the state: every caller in the program sits inside
    [async with session.begin()], which rolls the transaction back. *)

Definition stm (S E A : Type) : Type := S -> result E (A * S).

#[global] Instance stm_ret S E : MRet (stm S E) := fun A a s => Ok (a, s).
#[global] Instance stm_bind S E : MBind (stm S E) := fun A B f m s =>
  match m s with Ok (a, s') => f a s' | Err e => Err e end.
#[global] Instance stm_throw S E : MThrow E (stm S E) := fun A e s => Err e.

(** [gets f] reads the state, [modify f] changes it, [lift r] raises [r]'s error. *)
Definition gets {S E A : Type} (f : S -> A) : stm S E A := fun s => Ok (f s, s).
Definition modify {S E : Type} (f : S -> S) : stm S E unit := fun s => Ok (tt, f s).
Definition lift {S E A : Type} (r : result E A) : stm S E A := fun s =>
  match r with Ok a => Ok (a, s) | Err e => Err e end.

(** ** Machine width: PostgreSQL BIGINT *)

Definition int64_min : Z := - 2 ^ 63.
Definition int64_max : Z := 2 ^ 63 - 1.
Definition int64_ok (z : Z) : bool := (int64_min <=? z) && (z <=? int64_max).

(** PostgreSQL INTEGER *)
Definition int32_ok (z : Z) : bool := (- 2 ^ 31 <=? z) && (z <=? 2 ^ 31 - 1).

(** ** Sums over lists and over the rows of a table *)

Definition lsum {A : Type} (f : A -> Z) (l : list A) : Z := foldr (fun a acc => f a + acc) 0 l.

Definition msum {K V : Type} `{Countable K} (f : K -> V -> Z) (m : gmap K V) : Z :=
  map_fold (fun k v acc => f k v + acc) 0 m.

(** ** Generic lemmas *)

Section monad_laws.
  Context {S E A B : Type}.
  Implicit Types (m : stm S E A) (f : A -> stm S E B) (s : S).

Lemma bind_Ok_inv m f s (b : B) s2 :
  (m ≫= f) s = Ok (b, s2) -> exists a s1, m s = Ok (a, s1) /\ f a s1 = Ok (b, s2).
Proof. unfold mbind, stm_bind. destruct (m s) as [[a s1]|e]; [eauto | done]. Qed.

Lemma bind_Ok m f s a s1 : m s = Ok (a, s1) -> (m ≫= f) s = f a s1.
Proof. unfold mbind, stm_bind. by intros ->. Qed.

Lemma bind_gets (g : S -> A) f s : (gets g ≫= f) s = f (g s) s.
Proof. done. Qed.

Lemma bind_Err m f s e : m s = Err e -> (m ≫= f) s = Err e.
Proof. unfold mbind, stm_bind. by intros ->. Qed.

Lemma ret_Ok_inv (a a' : A) s s' : (mret a : stm S E A) s = Ok (a', s') -> a' = a /\ s' = s.
Proof. unfold mret, stm_ret. naive_solver. Qed.

Lemma lift_Ok_inv (r : result E A) s a s' : lift r s = Ok (a, s') -> r = Ok a /\ s' = s.
Proof. unfold lift. destruct r; naive_solver. Qed.

Lemma opt_bind_Some (o : option A) (g : A -> option B) a : o = Some a -> (o ≫= g) = g a.
Proof. by intros ->. Qed.

Lemma result_bind_Ok_inv (r : result E A) (g : A -> result E B) b :
  (r ≫= g) = Ok b -> exists a, r = Ok a /\ g a = Ok b.
Proof. destruct r; [eauto | done]. Qed.
End monad_laws.

(** Invert one [bind] of a computation known to succeed, then simplify. *)
Ltac inv_bind_as H a s Ha Hk :=
  apply bind_Ok_inv in H; destruct H as (a & s & Ha & Hk).

(** Invert every [bind], [ret] and [lift] in the hypotheses. *)
Ltac minv_step :=
  match goal with
  | H : (_ ≫= _) _ = Ok (_, _) |- _ =>
      let a := fresh "a" in let s := fresh "s" in
      let H1 := fresh "Hm" in let H2 := fresh "Hk" in
      apply bind_Ok_inv in H; destruct H as (a & s & H1 & H2)
  | H : mret _ _ = Ok (_, _) |- _ =>
      let H1 := fresh in apply ret_Ok_inv in H; destruct H as [H H1]; subst
  | H : lift _ _ = Ok (_, _) |- _ =>
      let H1 := fresh "Hl" in apply lift_Ok_inv in H; destruct H as [H1 H]; subst
  | H : gets _ _ = Ok (_, _) |- _ => unfold gets in H; simplify_eq
  | H : modify _ _ = Ok (_, _) |- _ => unfold modify in H; simplify_eq
  | H : mthrow _ _ = Ok _ |- _ => discriminate H
  end.
Ltac minv := repeat minv_step.

Section list_sums.
  Context {A : Type}.
  Implicit Types (f g : A -> Z) (l : list A).

Lemma lsum_nil f : lsum f [] = 0.
Proof. done. Qed.

Lemma lsum_cons f a l : lsum f (a :: l) = f a + lsum f l.
Proof. done. Qed.

Lemma lsum_app f l k : lsum f (l ++ k) = lsum f l + lsum f k.
Proof. induction l as [|a l IH]; simpl; [done|]. rewrite IH. lia. Qed.

Lemma lsum_perm f l k : l ≡ₚ k -> lsum f l = lsum f k.
Proof. induction 1; simpl in *; lia. Qed.

Lemma lsum_ext f g l : (forall a, a ∈ l -> f a = g a) -> lsum f l = lsum g l.
Proof.
  induction l as [|a l IH]; intros Hfg; [done|].
  rewrite !lsum_cons, (Hfg a), IH; [done| |left].
  intros b Hb. apply Hfg. by right.
Qed.

Lemma lsum_add f g l : lsum (fun a => f a + g a) l = lsum f l + lsum g l.
Proof. induction l as [|a l IH]; simpl; [done|]. rewrite IH. lia. Qed.

Lemma lsum_opp f l : lsum (fun a => - f a) l = - lsum f l.
Proof. induction l as [|a l IH]; simpl; [done|]. rewrite IH. lia. Qed.

Lemma lsum_zero l : lsum (fun _ => 0) l = 0.
Proof. induction l; simpl; lia. Qed.

Lemma lsum_nonneg f l : (forall a, a ∈ l -> 0 <= f a) -> 0 <= lsum f l.
Proof.
  induction l as [|a l IH]; intros Hf; [done|]. rewrite lsum_cons.
  assert (0 <= f a) by (apply Hf; left).
  assert (0 <= lsum f l) by (apply IH; intros; apply Hf; by right). lia.
Qed.

Lemma lsum_filter (P : A -> Prop) `{!forall a, Decision (P a)} f l :
  lsum f (filter P l) = lsum (fun a => if decide (P a) then f a else 0) l.
Proof.
  induction l as [|a l IH]; [done|]. rewrite filter_cons, lsum_cons.
  destruct (decide (P a)); [rewrite lsum_cons|]; rewrite IH; lia.
Qed.
End list_sums.

Lemma lsum_map {A B} (g : A -> B) (f : B -> Z) (l : list A) :
  lsum f (map g l) = lsum (fun a => f (g a)) l.
Proof. induction l as [|a l IH]; simpl; [done|]. by rewrite IH. Qed.

Section map_sums.
  Context {K V : Type} `{Countable K}.
  Implicit Types (f : K -> V -> Z) (m : gmap K V).

Lemma msum_empty f : msum f ∅ = 0.
Proof. apply map_fold_empty. Qed.

Lemma msum_insert_new f m k v :
  m !! k = None -> msum f (<[k:=v]> m) = f k v + msum f m.
Proof. intros Hk. unfold msum. apply (map_fold_insert_L (fun k v acc => f k v + acc)); [intros; lia | done]. Qed.

Lemma msum_delete f m k v :
  m !! k = Some v -> msum f m = f k v + msum f (delete k m).
Proof. intros Hk. unfold msum. apply (map_fold_delete_L (fun k v acc => f k v + acc)); [intros; lia | done]. Qed.

Lemma msum_insert f m k v :
  msum f (<[k:=v]> m) = msum f m + f k v - from_option (f k) 0 (m !! k).
Proof.
  destruct (m !! k) as [w|] eqn:Hk; simpl.
  - rewrite (msum_delete f m k w Hk), <- insert_delete_eq.
    rewrite msum_insert_new by apply lookup_delete_eq. lia.
  - rewrite msum_insert_new by done. lia.
Qed.

Lemma msum_ext f g m :
  (forall k v, m !! k = Some v -> f k v = g k v) -> msum f m = msum g m.
Proof.
  induction m as [|k v m Hk IH] using map_ind; intros Hfg; [done|].
  rewrite !msum_insert_new by done. rewrite (Hfg k v) by apply lookup_insert_eq.
  rewrite IH; [done|]. intros j w Hj. apply Hfg.
  rewrite lookup_insert_ne; [done | congruence].
Qed.

Lemma msum_nonneg f m :
  (forall k v, m !! k = Some v -> 0 <= f k v) -> 0 <= msum f m.
Proof.
  induction m as [|k v m Hk IH] using map_ind; intros Hf; [done|].
  rewrite msum_insert_new by done.
  assert (0 <= f k v) by (apply Hf; apply lookup_insert_eq).
  assert (0 <= msum f m); [|lia].
  apply IH. intros j w Hj. apply Hf. rewrite lookup_insert_ne; [done|congruence].
Qed.

Lemma msum_add f g m :
  msum (fun k v => f k v + g k v) m = msum f m + msum g m.
Proof.
  induction m as [|k v m Hk IH] using map_ind; [done|].
  rewrite !msum_insert_new by done. lia.
Qed.

Lemma msum_lookup_le f m k v :
  (forall k v, m !! k = Some v -> 0 <= f k v) -> m !! k = Some v -> f k v <= msum f m.
Proof.
  intros Hf Hk. rewrite (msum_delete f m k v Hk).
  assert (0 <= msum f (delete k m)); [|lia].
  apply msum_nonneg. intros j w [_ Hj]%lookup_delete_Some. eauto.
Qed.
End map_sums.

Lemma int64_ok_spec z : int64_ok z = true <-> int64_min <= z <= int64_max.
Proof. unfold int64_ok. rewrite andb_true_iff, !Z.leb_le. done. Qed.

#[export] Hint Rewrite @lsum_nil @lsum_cons @lsum_app : apex.

(** ** Sums over a list, and lists put in another order *)

Lemma sum_list_insert {A} (f : A -> nat) l i x y :
  l !! i = Some x -> (sum_list_with f (<[i := y]> l) + f x = sum_list_with f l + f y)%nat.
Proof.
  revert i. induction l as [|z l IH]; intros [|i] H; simpl in *; [done|done|injection H as ->; lia|].
  specialize (IH i H). lia.
Qed.

Lemma omap_lookup_seq {A} (l k : list A) :
  omap (fun i => (k ++ l) !! i) (seq (List.length k) (List.length l)) = l.
Proof.
  revert k. induction l as [|x l IH]; intros k; [done|]. simpl.
  rewrite list_lookup_middle by done. f_equal.
  specialize (IH (k ++ [x])). rewrite length_app, Nat.add_1_r, <- app_assoc in IH. exact IH.
Qed.

Lemma omap_lookup_perm {A} (l : list A) order :
  order ≡ₚ seq 0 (List.length l) -> omap (fun i => l !! i) order ≡ₚ l.
Proof. intros ->. pose proof (omap_lookup_seq l []) as H. simpl in H. by rewrite H. Qed.

Lemma omap_lookup_map {A B} (f : A -> B) (l : list A) order :
  omap (fun i => map f l !! i) order = map f (omap (fun i => l !! i) order).
Proof.
  induction order as [|i order IH]; [done|]. simpl. rewrite list_lookup_fmap.
  destruct (l !! i); simpl; [f_equal|]; exact IH.
Qed.


(** At most one element satisfies [P] when no two positions do. *)
Lemma filter_at_most_one {A} (P : A -> Prop) `{!forall x, Decision (P x)} (l : list A) :
  (forall i j x y, l !! i = Some x -> l !! j = Some y -> P x -> P y -> i = j) ->
  (List.length (filter P l) <= 1)%nat.
Proof.
  induction l as [|x l IH]; intros Hone; [simpl; lia|]. rewrite filter_cons.
  assert (Hl : (List.length (filter P l) <= 1)%nat).
  { apply IH. intros i j y z Hi Hj Hy Hz. specialize (Hone (S i) (S j) y z Hi Hj Hy Hz). lia. }
  destruct (decide (P x)) as [Hx|Hx]; [|exact Hl].
  assert (Hnil : filter P l = []).
  { destruct (filter P l) as [|y k] eqn:Hf; [done|].
    assert (Hy : y ∈ filter P l) by (rewrite Hf; by left).
    apply list_elem_of_filter in Hy as [Hy Hin]. apply list_elem_of_lookup in Hin as [n Hn].
    specialize (Hone 0%nat (S n) x y eq_refl Hn Hx Hy). lia. }
  rewrite Hnil. simpl. lia.
Qed.
