(* ===== verification/PyStd.v ===== *)
(** * The parts of Python's language and standard library the program uses

    [uuid.UUID] and its text form, [str.lower], [hashlib.sha256] and [hmac]
    (FIPS 180-4, RFC 2104), JSON values with Python's truthiness, [in], [[]] and
    [.get], and [json.dumps(..., sort_keys=True)].  Strings are Rocq strings whose
    characters are the code points 0..255; [utf8] is [str.encode("utf-8")] there.
    Nothing in this file has lines under [src/]: the components use it. *)

From S2P Require Import Prelude.
From Stdlib Require Import Ascii String.

(** ** UUIDs: 128-bit numbers ordered by [UUID.int], as Python orders them *)

Abbreviation uuid := N (only parsing).

Definition hex_digit (d : N) : ascii :=
  if (d <? 10)%N then ascii_of_N (48 + d) else ascii_of_N (87 + d).

(** [k] hexadecimal digits of [n], most significant first. *)
Fixpoint hex_fixed (k : nat) (n : N) : string :=
  match k with
  | O => EmptyString
  | S k' => String (hex_digit (N.shiftr n (4 * N.of_nat k') mod 16)) (hex_fixed k' n)
  end.

(** [str(uuid)]: 8-4-4-4-12 lower-case hexadecimal digits. *)
Definition uuid_str (u : uuid) : string :=
  hex_fixed 8 (N.shiftr u 96) +:+ "-" +:+ hex_fixed 4 (N.shiftr u 80) +:+ "-" +:+
  hex_fixed 4 (N.shiftr u 64) +:+ "-" +:+ hex_fixed 4 (N.shiftr u 48) +:+ "-" +:+
  hex_fixed 12 u.

Definition hex_value (c : ascii) : option N :=
  let n := N_of_ascii c in
  if (48 <=? n)%N && (n <=? 57)%N then Some (n - 48)%N
  else if (97 <=? n)%N && (n <=? 102)%N then Some (n - 87)%N
  else if (65 <=? n)%N && (n <=? 70)%N then Some (n - 55)%N
  else None.

(** The digits of a hexadecimal numeral, dashes skipped, and how many there are. *)
Fixpoint hex_scan (s : string) (acc : N) (count : nat) : option (N * nat) :=
  match s with
  | EmptyString => Some (acc, count)
  | String c s' =>
      if ascii_dec c "-" then hex_scan s' acc count
      else match hex_value c with
           | Some d => hex_scan s' (16 * acc + d)%N (S count)
           | None => None
           end
  end.

(** [uuid.UUID(text)] on the canonical form: 32 hexadecimal digits. *)
Definition uuid_of_str (s : string) : option uuid :=
  match hex_scan s 0 0 with
  | Some (n, 32%nat) => Some n
  | _ => None
  end.

(** ** Strings *)

Definition lower_char (c : ascii) : ascii :=
  let n := N_of_ascii c in
  if (65 <=? n)%N && (n <=? 90)%N then ascii_of_N (n + 32) else c.

Fixpoint str_lower (s : string) : string :=
  match s with
  | EmptyString => EmptyString
  | String c s' => String (lower_char c) (str_lower s')
  end.

Definition str_len (s : string) : Z := Z.of_nat (String.length s).

(** [s[a:b]] of a list. *)
Definition slice {A : Type} (a b : nat) (l : list A) : list A := take (b - a) (drop a l).

Fixpoint utf8 (s : string) : list N :=
  match s with
  | EmptyString => []
  | String c s' =>
      let n := N_of_ascii c in
      if (n <? 128)%N then n :: utf8 s'
      else (192 + N.shiftr n 6)%N :: (128 + n mod 64)%N :: utf8 s'
  end.

(** ** SHA-256 and HMAC *)

Module Sha256.

Definition mask32 : N := 4294967295.
Definition add32 (a b : N) : N := N.land (a + b) mask32.
Definition rotr (r x : N) : N :=
  N.lor (N.shiftr x r) (N.land (N.shiftl x (32 - r)) mask32).
Definition not32 (x : N) : N := N.lxor x mask32.

(** The constants, from their definition: the first 32 bits of the fractional parts of the
    cube roots of the first 64 primes, and of the square roots of the first 8. *)
Definition is_prime (n : nat) : bool :=
  forallb (fun d => negb (n mod d =? 0)%nat) (seq 2 (n - 2)).
Definition primes : list N := map N.of_nat (List.filter is_prime (seq 2 310)).

(** The largest [r] of [bits] bits with [r ^ 3 <= n], bit by bit. *)
Fixpoint cube_root (bits : nat) (r n : N) : N :=
  match bits with
  | O => r
  | S k =>
      let r' := N.setbit r (N.of_nat k) in
      cube_root k (if (r' * r' * r' <=? n)%N then r' else r) n
  end.

Definition cbrt32 (p : N) : N := N.land (cube_root 35 0 (N.shiftl p 96)) mask32.
Definition sqrt32 (p : N) : N := N.land (N.sqrt (N.shiftl p 64)) mask32.

Definition round_constants : list N := Eval vm_compute in map cbrt32 primes.
Definition initial_hash : list N := Eval vm_compute in map sqrt32 (take 8 primes).

(** The length in bits as 8 big-endian bytes. *)
Definition length_bytes (bits : N) : list N :=
  map (fun i => N.land (N.shiftr bits (8 * N.of_nat i)) 255) (rev (seq 0 8)).

Definition pad (msg : list N) : list N :=
  let len := List.length msg in
  let zeros := ((119 - len mod 64) mod 64)%nat in
  msg ++ [128%N] ++ replicate zeros 0%N ++ length_bytes (8 * N.of_nat len).

Fixpoint words (bytes : list N) : list N :=
  match bytes with
  | a :: b :: c :: d :: rest =>
      N.lor (N.shiftl a 24) (N.lor (N.shiftl b 16) (N.lor (N.shiftl c 8) d)) :: words rest
  | _ => []
  end.

Definition small_sigma0 (x : N) : N := N.lxor (rotr 7 x) (N.lxor (rotr 18 x) (N.shiftr x 3)).
Definition small_sigma1 (x : N) : N := N.lxor (rotr 17 x) (N.lxor (rotr 19 x) (N.shiftr x 10)).
Definition big_sigma0 (x : N) : N := N.lxor (rotr 2 x) (N.lxor (rotr 13 x) (rotr 22 x)).
Definition big_sigma1 (x : N) : N := N.lxor (rotr 6 x) (N.lxor (rotr 11 x) (rotr 25 x)).

(** The message schedule, newest word first. *)
Fixpoint extend (fuel : nat) (w : list N) : list N :=
  match fuel with
  | O => w
  | S fuel' =>
      let at_ i := nth i w 0%N in
      extend fuel' (add32 (small_sigma1 (at_ 1%nat))
                     (add32 (at_ 6%nat) (add32 (small_sigma0 (at_ 14%nat)) (at_ 15%nat))) :: w)
  end.

Definition schedule (block : list N) : list N := rev (extend 48 (rev block)).

Definition round (st : list N) (kw : N * N) : list N :=
  match st with
  | [a; b; c; d; e; f; g; h] =>
      let ch := N.lxor (N.land e f) (N.land (not32 e) g) in
      let maj := N.lxor (N.land a b) (N.lxor (N.land a c) (N.land b c)) in
      let t1 := add32 h (add32 (big_sigma1 e) (add32 ch (add32 kw.1 kw.2))) in
      let t2 := add32 (big_sigma0 a) maj in
      [add32 t1 t2; a; b; c; add32 d t1; e; f; g]
  | _ => st
  end.

Definition compress (hash block : list N) : list N :=
  zip_with add32 hash (foldl round hash (zip round_constants (schedule block))).

Fixpoint blocks (fuel : nat) (hash ws : list N) : list N :=
  match fuel with
  | O => hash
  | S fuel' =>
      match ws with
      | [] => hash
      | _ => blocks fuel' (compress hash (take 16 ws)) (drop 16 ws)
      end
  end.

Definition digest (msg : list N) : list N :=
  let ws := words (pad msg) in blocks (S (List.length ws / 16)) initial_hash ws.

Definition digest_bytes (msg : list N) : list N :=
  flat_map (fun w => [N.shiftr w 24; N.land (N.shiftr w 16) 255; N.land (N.shiftr w 8) 255;
                      N.land w 255]) (digest msg).

Definition hex (ws : list N) : string := foldr (fun w acc => hex_fixed 8 w +:+ acc) EmptyString ws.

End Sha256.

(** [hashlib.sha256(data).hexdigest()] *)
Definition sha256_hex (data : list N) : string := Sha256.hex (Sha256.digest data).

(** [hmac.new(key, data, hashlib.sha256).hexdigest()] *)
Definition hmac_sha256_hex (key data : list N) : string :=
  let k0 := if (64 <? List.length key)%nat then Sha256.digest_bytes key else key in
  let k := k0 ++ replicate (64 - List.length k0) 0%N in
  let inner := Sha256.digest_bytes (map (N.lxor 0x36) k ++ data) in
  sha256_hex (map (N.lxor 0x5c) k ++ inner).

(** ** JSON values as Python objects *)

Inductive json : Type :=
| JNull
| JBool (b : bool)
| JInt (z : Z)
| JFloat (repr : string)
| JStr (s : string)
| JList (l : list json)
| JObj (fields : list (string * json)).

(** Text and JSON without the character U+0000, which PostgreSQL's types refuse. *)
Definition no_nul (s : string) : bool :=
  forallb (fun c => negb (Ascii.eqb c Ascii.zero)) (list_ascii_of_string s).

Fixpoint json_no_nul (v : json) : bool :=
  match v with
  | JStr s => no_nul s
  | JList l => forallb json_no_nul l
  | JObj d => forallb (fun kv => no_nul kv.1 && json_no_nul kv.2) d
  | _ => true
  end.

(** [d.get(k)] on the fields of a dict: its keys are distinct. *)
Fixpoint dict_get (k : string) (d : list (string * json)) : option json :=
  match d with
  | [] => None
  | (k', v) :: d' => if String.eqb k k' then Some v else dict_get k d'
  end.

(** Python's truth value of an object. *)
Definition py_truthy (v : json) : bool :=
  match v with
  | JNull => false
  | JBool b => b
  | JInt z => negb (z =? 0)
  | JFloat r => negb (String.eqb r "0.0" || String.eqb r "-0.0")
  | JStr s => negb (String.eqb s "")
  | JList l => match l with [] => false | _ => true end
  | JObj d => match d with [] => false | _ => true end
  end.

(** ** [json.dumps(v, sort_keys=True)]: separators [", "] and [": "], ASCII only *)

Module Json.

Definition escape_char (c : ascii) : string :=
  let n := N_of_ascii c in
  if (n =? 34)%N then String "\" (String "034" EmptyString)
  else if (n =? 92)%N then "\\"
  else if (n =? 10)%N then "\n"
  else if (n =? 13)%N then "\r"
  else if (n =? 9)%N then "\t"
  else if (n =? 12)%N then "\f"
  else if (n =? 8)%N then "\b"
  else if (n <? 32)%N || (126 <? n)%N then "\u" +:+ hex_fixed 4 n
  else String c EmptyString.

Fixpoint escape (s : string) : string :=
  match s with
  | EmptyString => EmptyString
  | String c s' => escape_char c +:+ escape s'
  end.

Definition quote_ : string := String "034" EmptyString.
Definition quoted (s : string) : string := quote_ +:+ escape s +:+ quote_.

Fixpoint join (sep : string) (l : list string) : string :=
  match l with
  | [] => EmptyString
  | [x] => x
  | x :: l' => x +:+ sep +:+ join sep l'
  end.

(** Insertion of a key in key order: Python compares code points. *)
Fixpoint insert_key (kv : string * string) (l : list (string * string)) : list (string * string) :=
  match l with
  | [] => [kv]
  | kv' :: l' => if String.leb kv.1 kv'.1 then kv :: l else kv' :: insert_key kv l'
  end.

Definition sort_fields (l : list (string * string)) : list (string * string) :=
  foldr insert_key [] l.

Fixpoint dumps (v : json) : string :=
  match v with
  | JNull => "null"
  | JBool true => "true"
  | JBool false => "false"
  | JInt z => pretty z
  | JFloat r => r
  | JStr s => quoted s
  | JList l => "[" +:+ join ", " (map dumps l) +:+ "]"
  | JObj d =>
      let fields := sort_fields (map (fun kv => (kv.1, dumps kv.2)) d) in
      "{" +:+ join ", " (map (fun kv => quoted kv.1 +:+ ": " +:+ kv.2) fields) +:+ "}"
  end.

End Json.

(** ** Test vectors *)

Example sha256_abc :
  sha256_hex (utf8 "abc") = "ba7816bf8f01cfea414140de5dae2223b00361a396177a9cb410ff61f20015ad".
Proof. vm_compute. reflexivity. Qed.

Example sha256_two_blocks :
  sha256_hex (utf8 "abcdbcdecdefdefgefghfghighijhijkijkljklmklmnlmnomnopnopq")
  = "248d6a61d20638b8e5c026930c3e6039a33ce45964ff2167f6ecedd419db06c1".
Proof. vm_compute. reflexivity. Qed.

Example hmac_rfc4231_case2 :
  hmac_sha256_hex (utf8 "Jefe") (utf8 "what do ya want for nothing?")
  = "5bdcc146bf60754e6a042426089575c75a003f089d2739839dec58b964ec3843".
Proof. vm_compute. reflexivity. Qed.

Example uuid_str_suspense : uuid_str 1 = "00000000-0000-0000-0000-000000000001".
Proof. reflexivity. Qed.

Example dumps_sorted :
  Json.dumps (JObj [("b", JInt (-5)); ("a", JList [JNull; JStr "x"])]) =
  "{" +:+ Json.quoted "a" +:+ ": [null, " +:+ Json.quoted "x" +:+ "], " +:+ Json.quoted "b" +:+ ": -5}".
Proof. reflexivity. Qed.

(** ** Lemmas *)

Lemma str_app_nil_r s : s +:+ "" = s.
Proof. induction s as [|c s IH]; [done|]. by change (String c (s +:+ "") = String c s); rewrite IH. Qed.

Lemma str_app_cons c a b : String c a +:+ b = String c (a +:+ b).
Proof. done. Qed.

Lemma str_app_assoc a b c : (a +:+ b) +:+ c = a +:+ b +:+ c.
Proof. induction a as [|x a IH]; [done|]. by rewrite !str_app_cons, IH. Qed.

Lemma hex_digit_value d : (d < 16)%N -> hex_value (hex_digit d) = Some d.
Proof.
  intros Hd.
  assert (Hall : Forall (fun i => hex_value (hex_digit i) = Some i) (map N.of_nat (seq 0 16)))
    by (repeat constructor).
  rewrite Forall_forall in Hall. apply Hall.
  replace d with (N.of_nat (N.to_nat d)) by lia.
  apply list_elem_of_In, in_map, in_seq. lia.
Qed.

Lemma hex_digit_not_dash d : (d < 16)%N -> hex_digit d <> "-"%char.
Proof. intros Hd Heq. pose proof (hex_digit_value d Hd) as Hv. by rewrite Heq in Hv. Qed.

Lemma hex_scan_digit d s acc c :
  (d < 16)%N -> hex_scan (String (hex_digit d) s) acc c = hex_scan s (16 * acc + d)%N (S c).
Proof.
  intros Hd. cbn. destruct (ascii_dec (hex_digit d) "-") as [Heq|_].
  - by apply hex_digit_not_dash in Heq.
  - by rewrite hex_digit_value.
Qed.

Lemma hex_scan_fixed k n s acc c :
  hex_scan (hex_fixed k n +:+ s) acc c =
  hex_scan s (acc * 16 ^ N.of_nat k + n mod 16 ^ N.of_nat k)%N (c + k)%nat.
Proof.
  revert acc c. induction k as [|k IH]; intros acc c.
  - simpl. rewrite N.mod_1_r, Nat.add_0_r. f_equal; lia.
  - assert (Hd : (N.shiftr n (4 * N.of_nat k) mod 16 < 16)%N) by (apply N.mod_lt; lia).
    change (hex_fixed (S k) n +:+ s) with
      (String (hex_digit (N.shiftr n (4 * N.of_nat k) mod 16)) (hex_fixed k n +:+ s)).
    rewrite hex_scan_digit by done. rewrite IH. f_equal; [|lia].
    rewrite N.shiftr_div_pow2, N.pow_mul_r. change (2 ^ 4)%N with 16%N.
    replace (N.of_nat (S k)) with (N.succ (N.of_nat k)) by lia.
    rewrite N.pow_succ_r'.
    rewrite (N.mul_comm 16 (16 ^ _)), N.Div0.mod_mul_r. lia.
Qed.

Lemma hex_scan_dash s acc c : hex_scan ("-" +:+ s) acc c = hex_scan s acc c.
Proof. done. Qed.

Lemma hex_scan_fixed_end k n acc c :
  hex_scan (hex_fixed k n) acc c =
  Some ((acc * 16 ^ N.of_nat k + n mod 16 ^ N.of_nat k)%N, (c + k)%nat).
Proof.
  pose proof (hex_scan_fixed k n "" acc c) as H.
  by rewrite str_app_nil_r in H.
Qed.

Lemma shift_join (u i j k : N) :
  (i = j + k -> (u / 2 ^ i) * 2 ^ k + (u / 2 ^ j) mod 2 ^ k = u / 2 ^ j)%N.
Proof.
  intros ->.  rewrite N.pow_add_r, <- N.Div0.div_div, N.mul_comm. symmetry. apply N.div_mod'.
Qed.

(** Reading back a printed UUID. *)
Lemma uuid_of_str_str u : (u < 2 ^ 128)%N -> uuid_of_str (uuid_str u) = Some u.
Proof.
  intros Hu. unfold uuid_of_str, uuid_str.
  rewrite hex_scan_fixed, hex_scan_dash, hex_scan_fixed, hex_scan_dash, hex_scan_fixed,
    hex_scan_dash, hex_scan_fixed, hex_scan_dash, hex_scan_fixed_end.
  cbn [Nat.add]. f_equal. rewrite !N.shiftr_div_pow2.
  change (16 ^ N.of_nat 8)%N with (2 ^ 32)%N. change (16 ^ N.of_nat 4)%N with (2 ^ 16)%N.
  change (16 ^ N.of_nat 12)%N with (2 ^ 48)%N.
  assert (H1 : (u / 2 ^ 96 < 2 ^ 32)%N)
    by (apply N.Div0.div_lt_upper_bound; exact Hu).
  rewrite (N.mod_small (u / 2 ^ 96)) by done. rewrite N.mul_0_l, N.add_0_l.
  rewrite (shift_join u 96 80 16), (shift_join u 80 64 16), (shift_join u 64 48 16) by done.
  pose proof (shift_join u 48 0 48 eq_refl) as H0. change (2 ^ 0)%N with 1%N in H0.
  rewrite !N.div_1_r in H0. exact H0.
Qed.

Lemma uuid_str_inj u v : (u < 2 ^ 128)%N -> (v < 2 ^ 128)%N -> uuid_str u = uuid_str v -> u = v.
Proof.
  intros Hu Hv Heq. apply uuid_of_str_str in Hu, Hv. rewrite Heq in Hu. congruence.
Qed.

#[global] Arguments sha256_hex : simpl never.
#[global] Arguments hmac_sha256_hex : simpl never.
#[global] Arguments uuid_str : simpl never.
#[global] Arguments Json.dumps : simpl never.
#[global] Arguments uuid_of_str : simpl never.
#[global] Arguments hex_fixed : simpl never.

(** The text of a digest has 64 characters. *)
Lemma hex_fixed_length k n : String.length (hex_fixed k n) = k.
Proof. induction k as [|k IH]; [done|]. unfold hex_fixed. simpl. f_equal. exact IH. Qed.

Lemma str_app_length (a b : string) :
  String.length (a +:+ b) = (String.length a + String.length b)%nat.
Proof.
  induction a as [|c a IH]; [done|].
  change (String c a +:+ b) with (String c (a +:+ b)). simpl. by rewrite IH.
Qed.

Lemma round_length st kw : List.length (Sha256.round st kw) = List.length st.
Proof. by do 9 (destruct st as [|? st]; [done|]). Qed.

Lemma compress_length hash block :
  List.length (Sha256.compress hash block) = List.length hash.
Proof.
  unfold Sha256.compress. generalize (zip Sha256.round_constants (Sha256.schedule block)) as l.
  intros l. assert (Hl : forall st, List.length (foldl Sha256.round st l) = List.length st).
  { induction l as [|kw l IH]; intros st; simpl; [done|]. by rewrite IH, round_length. }
  rewrite length_zip_with, Hl. lia.
Qed.

Lemma digest_length msg : List.length (Sha256.digest msg) = 8%nat.
Proof.
  unfold Sha256.digest. generalize (Sha256.words (Sha256.pad msg)) as ws.
  intros ws. generalize (S (List.length ws / 16)) as fuel. intros fuel.
  assert (Hb : forall h, List.length h = 8%nat ->
            List.length (Sha256.blocks fuel h ws) = 8%nat); [|by apply Hb].
  revert ws. induction fuel as [|fuel IH]; intros ws h Hh; [done|]. simpl.
  destruct ws as [|w ws]; [done|]. apply IH. by rewrite compress_length.
Qed.

Lemma sha256_hex_length data : str_len (sha256_hex data) = 64.
Proof.
  unfold sha256_hex, str_len. pose proof (digest_length data) as Hd.
  assert (Hh : forall ws, String.length (Sha256.hex ws) = (8 * List.length ws)%nat).
  { induction ws as [|w ws IH]; [done|].
    change (Sha256.hex (w :: ws)) with (hex_fixed 8 w +:+ Sha256.hex ws).
    rewrite str_app_length, hex_fixed_length, IH. simpl List.length. lia. }
  rewrite Hh, Hd. done.
Qed.

(** [s.isascii()]; a digest in hexadecimal is ASCII text. *)
Definition is_ascii (s : string) : bool :=
  forallb (fun c => (N_of_ascii c <? 128)%N) (list_ascii_of_string s).

Lemma str_app_chars a b :
  list_ascii_of_string (a +:+ b) = list_ascii_of_string a ++ list_ascii_of_string b.
Proof. induction a as [|c a IH]; [done|]. simpl. by rewrite <- IH. Qed.

Lemma is_ascii_app a b : is_ascii (a +:+ b) = is_ascii a && is_ascii b.
Proof.
  unfold is_ascii. by rewrite str_app_chars, forallb_app.
Qed.

(** What holds of the sixteen digits holds of every hexadecimal numeral. *)
Lemma hex_fixed_chars (P : ascii -> bool) k n :
  forallb (fun i => P (hex_digit (N.of_nat i))) (seq 0 16) = true ->
  forallb P (list_ascii_of_string (hex_fixed k n)) = true.
Proof.
  intros Hall. induction k as [|k IH]; [done|]. rewrite forallb_forall in Hall.
  change (hex_fixed (S k) n) with
    (String (hex_digit (N.shiftr n (4 * N.of_nat k) mod 16)) (hex_fixed k n)).
  cbn [list_ascii_of_string forallb]. apply andb_true_iff. split; [|exact IH].
  set (d := (N.shiftr n (4 * N.of_nat k) mod 16)%N).
  assert (Hd : (d < 16)%N) by (apply N.mod_lt; lia). clearbody d.
  rewrite <- (N2Nat.id d). apply Hall, in_seq. lia.
Qed.

Lemma hex_words_chars (P : ascii -> bool) ws :
  forallb (fun i => P (hex_digit (N.of_nat i))) (seq 0 16) = true ->
  forallb P (list_ascii_of_string (Sha256.hex ws)) = true.
Proof.
  intros Hall. induction ws as [|w ws IH]; [done|].
  change (Sha256.hex (w :: ws)) with (hex_fixed 8 w +:+ Sha256.hex ws).
  by rewrite str_app_chars, forallb_app, hex_fixed_chars.
Qed.

Lemma sha256_hex_ascii data : is_ascii (sha256_hex data) = true.
Proof. by apply hex_words_chars. Qed.

Lemma sha256_hex_no_nul data : no_nul (sha256_hex data) = true.
Proof. by apply hex_words_chars. Qed.

Lemma no_nul_app a b : no_nul (a +:+ b) = no_nul a && no_nul b.
Proof. unfold no_nul. by rewrite str_app_chars, forallb_app. Qed.

Lemma uuid_str_no_nul u : no_nul (uuid_str u) = true.
Proof.
  assert (Hx : forall k n, no_nul (hex_fixed k n) = true) by (intros k n; by apply hex_fixed_chars).
  unfold uuid_str. by rewrite !no_nul_app, !Hx.
Qed.

Lemma hmac_ascii key data : is_ascii (hmac_sha256_hex key data) = true.
Proof. apply sha256_hex_ascii. Qed.

Lemma hmac_length key data : str_len (hmac_sha256_hex key data) = 64.
Proof. apply sha256_hex_length. Qed.
