(* ===== verification/PyText.v ===== *)
(** * PyText: more of Python's strings, lists and ranges

    [str.strip], [str.splitlines], slices, [str.endswith], [in], [os.path.basename],
    [dict.fromkeys] of a list, [range], as the commit script uses them, and the lemmas that
    say how they undo the joining of lines.  Nothing in this file has lines under [src/]. *)

From S2P Require Import Prelude PyStd.
From Stdlib Require Import Ascii String.

(** ** Definitions *)

(** [c.isspace()] for the code points 0..255. *)
Definition py_isspace (c : ascii) : bool :=
  let n := N_of_ascii c in
  (9 <=? n)%N && (n <=? 13)%N || (28 <=? n)%N && (n <=? 32)%N || (n =? 133)%N || (n =? 160)%N.

(** The line boundaries of [str.splitlines] among the code points 0..255. *)
Definition line_break (c : ascii) : bool :=
  let n := N_of_ascii c in
  (10 <=? n)%N && (n <=? 13)%N || (28 <=? n)%N && (n <=? 30)%N || (n =? 133)%N.

Fixpoint lstrip (p : ascii -> bool) (s : string) : string :=
  match s with
  | EmptyString => EmptyString
  | String c s' => if p c then lstrip p s' else s
  end.

Fixpoint rstrip (p : ascii -> bool) (s : string) : string :=
  match s with
  | EmptyString => EmptyString
  | String c s' =>
      match rstrip p s' with
      | EmptyString => if p c then EmptyString else String c EmptyString
      | kept => String c kept
      end
  end.

(** [s.strip()] and [s.strip(chars)], with the characters to strip as a predicate. *)
Definition strip (p : ascii -> bool) (s : string) : string := lstrip p (rstrip p s).

Definition double_quote : ascii := "034".
Definition newline : string := String "010" EmptyString.

Fixpoint splitlines (s : string) : list string :=
  match s with
  | EmptyString => []
  | String c s' =>
      if line_break c then
        EmptyString ::
          (if Ascii.eqb c "013" then
             match s' with
             | String d s'' => if Ascii.eqb d "010" then splitlines s'' else splitlines s'
             | EmptyString => []
             end
           else splitlines s')
      else
        match splitlines s' with
        | [] => [String c EmptyString]
        | l :: ls => String c l :: ls
        end
  end.

(** [s[n:]] *)
Fixpoint str_drop (n : nat) (s : string) : string :=
  match n, s with
  | S n', String _ s' => str_drop n' s'
  | _, _ => s
  end.

Definition endswith (suffix s : string) : bool :=
  (String.length suffix <=? String.length s)%nat &&
  String.eqb (str_drop (String.length s - String.length suffix) s) suffix.

(** [s.endswith((a, b, ...))] *)
Definition endswith_any (suffixes : list string) (s : string) : bool :=
  existsb (fun suffix => endswith suffix s) suffixes.

(** [sub in s] *)
Definition str_contains (sub s : string) : bool :=
  match String.index 0 sub s with Some _ => true | None => false end.

Definition has_slash (s : string) : bool :=
  existsb (Ascii.eqb "/") (list_ascii_of_string s).

(** [os.path.basename]: what follows the last slash. *)
Fixpoint basename (s : string) : string :=
  match s with
  | EmptyString => EmptyString
  | String c s' =>
      if has_slash s' then basename s' else if Ascii.eqb "/" c then s' else s
  end.

(** [list(dict.fromkeys(l))]: first occurrences, in order. *)
Definition fromkeys (l : list string) : list string :=
  foldl (fun seen x => if bool_decide (x ∈ seen) then seen else seen ++ [x]) [] l.

(** [l[:n]]: a negative bound counts from the end. *)
Definition py_take {A : Type} (n : Z) (l : list A) : list A :=
  take (Z.to_nat (if n <? 0 then Z.of_nat (List.length l) + n else n)) l.

(** [l[a:b]] for [0 <= a]. *)
Definition py_slice {A : Type} (a b : Z) (l : list A) : list A :=
  drop (Z.to_nat a) (py_take b l).

(** [range(0, stop, step)] for [step] other than 0. *)
Definition range_len (stop step : Z) : Z :=
  if 0 <? step then Z.max 0 ((stop + step - 1) / step)
  else Z.max 0 ((- stop + - step - 1) / - step).
Definition py_range (stop step : Z) : list Z :=
  map (fun k => Z.of_nat k * step) (seq 0 (Z.to_nat (range_len stop step))).

(** ** Examples *)

Example strip_ex : strip py_isspace (" M a.py " +:+ newline) = "M a.py".
Proof. reflexivity. Qed.
Example splitlines_ex : splitlines ("a" +:+ newline +:+ newline +:+ "b" +:+ newline) = ["a"; ""; "b"].
Proof. reflexivity. Qed.
Example basename_ex : map basename ["app/api/x.py"; "README.md"; "a/"; ""] = ["x.py"; "README.md"; ""; ""].
Proof. reflexivity. Qed.
Example fromkeys_ex : fromkeys ["b"; "a"; "b"; "c"; "a"] = ["b"; "a"; "c"].
Proof. reflexivity. Qed.
Example py_take_ex : map (fun n => py_take n [1; 2; 3]) [2; 0; -1; -5; 9] = [[1; 2]; []; [1; 2]; []; [1; 2; 3]].
Proof. reflexivity. Qed.
Example py_range_ex : (py_range 7 3, py_range 6 3, py_range 0 3, py_range 5 (-2), py_range (-5) (-2))
  = ([0; 3; 6], [0; 3], [], [], [0; -2; -4]).
Proof. reflexivity. Qed.
Example endswith_ex : map (endswith_any [".py"; ".pyi"]) ["a.py"; "a.pyc"; "py"; ".pyi"] = [true; false; false; true].
Proof. reflexivity. Qed.
Example str_contains_ex : (str_contains "test" "tests/x", str_contains "test" "tes/t") = (true, false).
Proof. reflexivity. Qed.

(** ** Lemmas *)

(** Every character of a string satisfies a predicate. *)
Definition all_chars (p : ascii -> bool) (s : string) : bool := forallb p (list_ascii_of_string s).

Lemma all_chars_app p a b : all_chars p (a +:+ b) = all_chars p a && all_chars p b.
Proof.
  unfold all_chars. induction a as [|c a IH]; [done|].
  change (String c a +:+ b) with (String c (a +:+ b)). simpl. by rewrite IH, andb_assoc.
Qed.

Lemma all_chars_drop p n s : all_chars p s = true -> all_chars p (str_drop n s) = true.
Proof.
  revert n. induction s as [|c s IH]; intros [|n] H; try done. simpl.
  apply IH. unfold all_chars in *. simpl in H. by apply andb_true_iff in H as [_ H].
Qed.

Lemma str_drop_app a b n : n = String.length a -> str_drop n (a +:+ b) = b.
Proof. intros ->. by induction a as [|c a IH]. Qed.

Lemma length_str_drop n s : String.length (str_drop n s) = (String.length s - n)%nat.
Proof. revert n. induction s as [|c s IH]; intros [|n]; try done. apply IH. Qed.

Lemma rstrip_app p a b :
  rstrip p (a +:+ b) = if decide (rstrip p b = "") then rstrip p a else a +:+ rstrip p b.
Proof.
  induction a as [|c a IH].
  - change ("" +:+ b) with b. change ("" +:+ rstrip p b) with (rstrip p b).
    by case_decide as Hb; [rewrite Hb|].
  - rewrite str_app_cons. cbn [rstrip]. rewrite IH. case_decide as Hb; [done|].
    rewrite str_app_cons. destruct (a +:+ rstrip p b) eqn:Ha; [|done].
    by destruct a.
Qed.

(** Text without the characters to strip is kept. *)
Lemma rstrip_id p s : all_chars (fun c => negb (p c)) s = true -> rstrip p s = s.
Proof.
  induction s as [|c s IH]; [done|]. unfold all_chars in *. simpl. intros [Hc Hs]%andb_true_iff.
  rewrite IH by done. destruct s; [|done]. by apply negb_true_iff in Hc as ->.
Qed.

Lemma lstrip_id p s : all_chars (fun c => negb (p c)) s = true -> lstrip p s = s.
Proof.
  destruct s as [|c s]; [done|]. unfold all_chars. simpl. intros [Hc _]%andb_true_iff.
  by apply negb_true_iff in Hc as ->.
Qed.

Lemma strip_id p s : all_chars (fun c => negb (p c)) s = true -> strip p s = s.
Proof. intros H. unfold strip. rewrite rstrip_id by done. by apply lstrip_id. Qed.

Lemma newline_app s : newline +:+ s = String "010" s.
Proof. done. Qed.

Lemma splitlines_line l s :
  all_chars (fun c => negb (line_break c)) l = true ->
  splitlines (l +:+ newline +:+ s) = l :: splitlines s.
Proof.
  unfold all_chars. induction l as [|c l IH]; [done|].
  cbn [list_ascii_of_string forallb]. intros [Hc Hl]%andb_true_iff.
  rewrite str_app_cons. cbn [splitlines]. apply negb_true_iff in Hc as ->. by rewrite IH.
Qed.

Lemma splitlines_last l :
  all_chars (fun c => negb (line_break c)) l = true -> l <> "" -> splitlines l = [l].
Proof.
  unfold all_chars. induction l as [|c l IH]; [done|].
  cbn [list_ascii_of_string forallb splitlines]. intros [Hc Hl]%andb_true_iff _.
  apply negb_true_iff in Hc as ->. destruct l; [done|]. by rewrite IH.
Qed.

(** [splitlines] undoes the joining of lines. *)
Lemma splitlines_join ls :
  Forall (fun l => all_chars (fun c => negb (line_break c)) l = true /\ l <> "") ls ->
  splitlines (Json.join newline ls) = ls.
Proof.
  induction 1 as [|l ls [Hl Hne] Hls IH]; [done|]. destruct ls as [|l' ls'].
  - by apply splitlines_last.
  - change (Json.join newline (l :: l' :: ls')) with (l +:+ newline +:+ Json.join newline (l' :: ls')).
    by rewrite splitlines_line, IH.
Qed.

Lemma fromkeys_elem l x : x ∈ fromkeys l <-> x ∈ l.
Proof.
  unfold fromkeys.
  assert (forall seen, x ∈ foldl (fun seen x => if bool_decide (x ∈ seen) then seen else seen ++ [x]) seen l
            <-> x ∈ seen \/ x ∈ l) as H; [|rewrite H; set_solver].
  induction l as [|y l IH]; intros seen; simpl; [set_solver|].
  rewrite IH. case_bool_decide; set_solver.
Qed.

Lemma fromkeys_NoDup l : NoDup (fromkeys l).
Proof.
  unfold fromkeys.
  assert (forall seen, NoDup seen ->
    NoDup (foldl (fun seen x => if bool_decide (x ∈ seen) then seen else seen ++ [x]) seen l)) as H;
    [|by apply H; constructor].
  induction l as [|y l IH]; intros seen Hs; simpl; [done|].
  apply IH. case_bool_decide; [done|]. apply NoDup_app. split; [done|]. split; [set_solver|].
  apply NoDup_singleton.
Qed.

Lemma py_take_prefix {A : Type} n (l : list A) : exists m, py_take n l = take m l.
Proof. unfold py_take. by eexists. Qed.

Lemma py_take_nonneg {A : Type} n (l : list A) : 0 <= n -> py_take n l = take (Z.to_nat n) l.
Proof. intros Hn. unfold py_take. by destruct (Z.ltb_spec n 0); [lia|]. Qed.
