(* ===== verification/Domain.v ===== *)
(** * Domain: enumerations and exceptions

    [app/domain/enums.py]: one inductive type per [Enum] class, with the value each
    member carries, and the parsing of a value back to a member.
    [app/domain/exceptions.py]: the domain exceptions with the message and HTTP status
    they carry, next to the Python and SQLAlchemy exceptions the services can raise. *)

From S2P Require Import Prelude PyStd.
From Stdlib Require Import String.

(** ** Enumerations *)

Inductive OwnerType := USER | MERCHANT | SYSTEM.
Inductive AccountType := USER_WALLET | MERCHANT_PAYABLE | PSP_SUSPENSE | FEE_INCOME.
Inductive Direction := DEBIT | CREDIT.
Inductive TransactionType := TxnPAYMENT | TxnREFUND | TxnREVERSAL | TxnFEE.

Inductive PaymentStatus :=
| CREATED | PROCESSING | AUTHORIZED | SUCCEEDED | FAILED | FUNDS_LOCKED
| REFUND_PENDING | REFUNDED.

Inductive RefundStatus := RefundPENDING | RefundSUCCEEDED | RefundFAILED.
Inductive WebhookStatus := RECEIVED | PROCESSED | WebhookFAILED.
Inductive IdempotencyStatus := IN_PROGRESS | COMPLETED.
Inductive AuthorizationOutcome := CAPTURED | PENDING | DECLINED.

#[global] Instance OwnerType_eq_dec : EqDecision OwnerType.
Proof. solve_decision. Defined.
#[global] Instance AccountType_eq_dec : EqDecision AccountType.
Proof. solve_decision. Defined.
#[global] Instance Direction_eq_dec : EqDecision Direction.
Proof. solve_decision. Defined.
#[global] Instance TransactionType_eq_dec : EqDecision TransactionType.
Proof. solve_decision. Defined.
#[global] Instance PaymentStatus_eq_dec : EqDecision PaymentStatus.
Proof. solve_decision. Defined.
#[global] Instance RefundStatus_eq_dec : EqDecision RefundStatus.
Proof. solve_decision. Defined.
#[global] Instance WebhookStatus_eq_dec : EqDecision WebhookStatus.
Proof. solve_decision. Defined.
#[global] Instance IdempotencyStatus_eq_dec : EqDecision IdempotencyStatus.
Proof. solve_decision. Defined.
#[global] Instance AuthorizationOutcome_eq_dec : EqDecision AuthorizationOutcome.
Proof. solve_decision. Defined.

(** [PaymentStatus.value] and [RefundStatus.value]: the strings of the JSON payloads. *)
Definition PaymentStatus_value (st : PaymentStatus) : string :=
  match st with
  | CREATED => "CREATED" | PROCESSING => "PROCESSING" | AUTHORIZED => "AUTHORIZED"
  | SUCCEEDED => "SUCCEEDED" | FAILED => "FAILED" | FUNDS_LOCKED => "FUNDS_LOCKED"
  | REFUND_PENDING => "REFUND_PENDING" | REFUNDED => "REFUNDED"
  end.

Definition RefundStatus_value (st : RefundStatus) : string :=
  match st with
  | RefundPENDING => "PENDING" | RefundSUCCEEDED => "SUCCEEDED" | RefundFAILED => "FAILED"
  end.

Definition all_payment_statuses : list PaymentStatus :=
  [CREATED; PROCESSING; AUTHORIZED; SUCCEEDED; FAILED; FUNDS_LOCKED; REFUND_PENDING; REFUNDED].
Definition all_refund_statuses : list RefundStatus :=
  [RefundPENDING; RefundSUCCEEDED; RefundFAILED].

(** [PaymentStatus(value)]: the member that has the value. *)
Definition PaymentStatus_of_value (s : string) : option PaymentStatus :=
  List.find (fun st => String.eqb (PaymentStatus_value st) s) all_payment_statuses.
Definition RefundStatus_of_value (s : string) : option RefundStatus :=
  List.find (fun st => String.eqb (RefundStatus_value st) s) all_refund_statuses.

(** ** Exceptions *)

(** What PostgreSQL reports when a statement violates the schema: an [IntegrityError]
    for the first four, a [DataError] for the next two, and the [RAISE EXCEPTION] of the
    ledger trigger. *)
Inductive db_error :=
| UniqueViolation | ForeignKeyViolation | CheckViolation | NotNullViolation
| NumericValueOutOfRange | DataError | DatatypeMismatch
| LedgerTransactionUnbalanced (txn_id : uuid) (net : Z)
| StaleData
| OperationalError.

Inductive exn :=
| InsufficientFundsException (account_id : uuid) (current_balance required_amount : Z)
| AccountNotFoundException (account_id : uuid)
| PaymentNotFoundException (payment_id : uuid)
| IdempotencyConflictException (key : string)
| IdempotencyMismatchException (key : string)
| InvalidSignatureException
| RefundNotAllowedException (message : string)
| LedgerImbalanceException (net_amount : Z)
| ValueError (message : string)
| RuntimeError (message : string)
| KeyError
| TypeError
| AttributeError
| ValidationError
| NoResultFound
| MultipleResultsFound
| DBAPIError (e : db_error).

#[global] Instance db_error_eq_dec : EqDecision db_error.
Proof. solve_decision. Defined.
#[global] Instance exn_eq_dec : EqDecision exn.
Proof. solve_decision. Defined.

(** [isinstance(exc, DomainException)] *)
Definition is_DomainException (e : exn) : bool :=
  match e with
  | InsufficientFundsException _ _ _ | AccountNotFoundException _ | PaymentNotFoundException _
  | IdempotencyConflictException _ | IdempotencyMismatchException _
  | InvalidSignatureException | RefundNotAllowedException _ | LedgerImbalanceException _ => true
  | _ => false
  end.

(** [exc.status_code] of a domain exception. *)
Definition status_code (e : exn) : option Z :=
  match e with
  | InsufficientFundsException _ _ _ => Some 422
  | AccountNotFoundException _ => Some 404
  | PaymentNotFoundException _ => Some 404
  | IdempotencyConflictException _ => Some 409
  | IdempotencyMismatchException _ => Some 422
  | InvalidSignatureException => Some 401
  | RefundNotAllowedException _ => Some 422
  | LedgerImbalanceException _ => Some 500
  | _ => None
  end.

(** [exc.message] of a domain exception. *)
Definition exn_message (e : exn) : string :=
  match e with
  | InsufficientFundsException a b r =>
      "Insufficient funds for account " +:+ uuid_str a +:+ ": balance=" +:+ pretty b +:+
      ", required=" +:+ pretty r
  | AccountNotFoundException a => "Account not found: " +:+ uuid_str a
  | PaymentNotFoundException p => "Payment not found: " +:+ uuid_str p
  | IdempotencyConflictException k =>
      "Concurrent request in progress for idempotency key: " +:+ k
  | IdempotencyMismatchException k =>
      "Idempotency key '" +:+ k +:+ "' was previously used with a different request payload"
  | InvalidSignatureException => "Invalid webhook signature"
  | RefundNotAllowedException m => m
  | LedgerImbalanceException n =>
      "Ledger entries are unbalanced (net = " +:+ pretty n +:+
      "). Sum of signed amounts must be zero."
  | _ => ""
  end.

(** [exc.__class__.__name__] of a domain exception. *)
Definition exn_class_name (e : exn) : string :=
  match e with
  | InsufficientFundsException _ _ _ => "InsufficientFundsException"
  | AccountNotFoundException _ => "AccountNotFoundException"
  | PaymentNotFoundException _ => "PaymentNotFoundException"
  | IdempotencyConflictException _ => "IdempotencyConflictException"
  | IdempotencyMismatchException _ => "IdempotencyMismatchException"
  | InvalidSignatureException => "InvalidSignatureException"
  | RefundNotAllowedException _ => "RefundNotAllowedException"
  | LedgerImbalanceException _ => "LedgerImbalanceException"
  | _ => ""
  end.

(** ** Lemmas *)

Lemma PaymentStatus_of_value_value st : PaymentStatus_of_value (PaymentStatus_value st) = Some st.
Proof. by destruct st. Qed.

Lemma RefundStatus_of_value_value st : RefundStatus_of_value (RefundStatus_value st) = Some st.
Proof. by destruct st. Qed.

Lemma status_code_is_domain e : is_DomainException e = true <-> is_Some (status_code e).
Proof. destruct e; simpl; split; intros H; try done; by destruct H. Qed.

#[export] Hint Resolve PaymentStatus_of_value_value RefundStatus_of_value_value : apex.
