(* ===== verification/Models.v ===== *)
(** * Models: the database schema

    Rows are the mapped classes of [app/domain/models.py]; a [DB] holds the tables that
    [alembic/versions/001_initial_schema.py] and [002_processed_events_and_refunds.py]
    create.  [op_checks] is the list of constraints those files declare (column widths,
    CHECK, UNIQUE / PRIMARY KEY, FOREIGN KEY) a statement is checked against, and
    [assert_ledger_balanced] the deferred trigger.  [schema_ok] is the invariant the
    constraints give: every executed statement preserves it. *)

From S2P Require Import Prelude PyStd Domain.
From Stdlib Require Import String.

(** ** Rows *)

Record Account := mkAccount {
  acc_id : uuid;
  acc_owner_type : OwnerType;
  acc_owner_id : string;
  acc_type : AccountType;
  acc_currency : string;
  acc_created_at : Z;
}.

Record AccountBalance := mkAccountBalance {
  ab_account_id : uuid;
  ab_balance : Z;
  ab_version : Z;
  ab_updated_at : Z;
}.

Record LedgerTransaction := mkLedgerTransaction {
  lt_id : uuid;
  lt_type : TransactionType;
  lt_reference_id : uuid;
  lt_created_at : Z;
}.

Record LedgerEntry := mkLedgerEntry {
  le_id : Z;
  le_transaction_id : uuid;
  le_account_id : uuid;
  le_direction : Direction;
  le_amount : Z;
  le_created_at : Z;
}.

Record Payment := mkPayment {
  p_id : uuid;
  p_merchant_id : string;
  p_payer_account : uuid;
  p_payee_account : uuid;
  p_amount : Z;
  p_currency : string;
  p_status : PaymentStatus;
  p_psp_reference : option string;
  p_refunded_amount : Z;
  p_version : Z;
  p_created_at : Z;
  p_updated_at : Z;
}.

Record Refund := mkRefund {
  r_id : uuid;
  r_payment_id : uuid;
  r_amount : Z;
  r_status : RefundStatus;
  r_created_at : Z;
}.

Record IdempotencyRecord := mkIdempotencyRecord {
  ir_merchant_id : string;
  ir_idem_key : string;
  ir_request_hash : string;
  ir_status : IdempotencyStatus;
  ir_resource_id : option uuid;
  ir_response_code : option Z;
  ir_response_body : option (list (string * json));
  ir_created_at : Z;
}.

Record Outbox := mkOutbox {
  o_id : uuid;
  o_aggregate_type : string;
  o_aggregate_id : uuid;
  o_event_type : string;
  o_payload : list (string * json);
  o_created_at : Z;
  o_published_at : option Z;
}.

Record WebhookEvent := mkWebhookEvent {
  we_psp_event_id : string;
  we_payload : string;
  we_status : WebhookStatus;
  we_received_at : Z;
}.

(** ** Tables.  [ledger_entries] is in id order; the idempotency table is keyed by its
    unique constraint [uq_idempotency_merchant_key]. *)

Record DB := mkDB {
  accounts : gmap uuid Account;
  account_balances : gmap uuid AccountBalance;
  ledger_transactions : gmap uuid LedgerTransaction;
  ledger_entries : list LedgerEntry;
  payments : gmap uuid Payment;
  refunds : gmap uuid Refund;
  idempotency_keys : gmap (string * string) IdempotencyRecord;
  outbox : gmap uuid Outbox;
  webhook_events : gmap string WebhookEvent;
}.

(** The two system accounts and balance rows the first migration seeds. *)
Definition seed_accounts : gmap uuid Account :=
  {[ 1%N := mkAccount 1 SYSTEM "psp" PSP_SUSPENSE "INR" 0;
     2%N := mkAccount 2 SYSTEM "fees" FEE_INCOME "INR" 0 ]}.

Definition seed_balances : gmap uuid AccountBalance :=
  {[ 1%N := mkAccountBalance 1 0 0 0; 2%N := mkAccountBalance 2 0 0 0 ]}.

Definition initial_schema : DB :=
  mkDB seed_accounts seed_balances ∅ [] ∅ ∅ ∅ ∅ ∅.

(** ** Statements of the unit of work *)

Inductive DbOp :=
| InsertAccountBalance (b : AccountBalance)
| UpdateAccountBalance (b : AccountBalance)
| InsertLedgerTransaction (t : LedgerTransaction)
| InsertLedgerEntry (e : LedgerEntry)
| InsertPayment (p : Payment)
| UpdatePayment (p : Payment)
| InsertRefund (r : Refund)
| InsertIdempotency (i : IdempotencyRecord)
| UpdateIdempotency (i : IdempotencyRecord)
| InsertOutbox (o : Outbox)
| UpdateOutbox (o : Outbox)
| InsertWebhookEvent (w : WebhookEvent).

Definition is_present {A : Type} (o : option A) : bool :=
  match o with Some _ => true | None => false end.
Definition is_absent {A : Type} (o : option A) : bool := negb (is_present o).

(** Text that a VARCHAR(n) column takes, and JSON that a JSONB column takes. *)
Definition varchar (n : Z) (s : string) : bool := no_nul s && (str_len s <=? n).
Definition jsonb (d : list (string * json)) : bool := json_no_nul (JObj d).

(** The first constraint that does not hold.  [DataError] is PostgreSQL's error for text that is
    too long or has the character U+0000. *)
Fixpoint first_violation (l : list (bool * db_error)) : option db_error :=
  match l with
  | [] => None
  | (ok, e) :: l' => if ok then first_violation l' else Some e
  end.

Definition balance_row_checks (b : AccountBalance) : list (bool * db_error) :=
  [ (int64_ok (ab_balance b) && int64_ok (ab_version b), NumericValueOutOfRange);
    (0 <=? ab_balance b, CheckViolation) ].

Definition payment_row_checks (p : Payment) (db : DB) : list (bool * db_error) :=
  [ (int64_ok (p_amount p) && int64_ok (p_refunded_amount p) && int64_ok (p_version p),
      NumericValueOutOfRange);
    (varchar 255 (p_merchant_id p) && varchar 3 (p_currency p) &&
       from_option (varchar 255) true (p_psp_reference p), DataError);
    (is_present (accounts db !! p_payer_account p), ForeignKeyViolation);
    (is_present (accounts db !! p_payee_account p), ForeignKeyViolation) ].

Definition idempotency_row_checks (i : IdempotencyRecord) : list (bool * db_error) :=
  [ (varchar 255 (ir_merchant_id i) && varchar 255 (ir_idem_key i) &&
       varchar 64 (ir_request_hash i) && from_option jsonb true (ir_response_body i), DataError);
    (from_option int32_ok true (ir_response_code i), NumericValueOutOfRange) ].

Definition outbox_row_checks (o : Outbox) : list (bool * db_error) :=
  [ (varchar 100 (o_aggregate_type o) && varchar 100 (o_event_type o) && jsonb (o_payload o), DataError) ].

(** The table of [002_processed_events_and_refunds.py]. *)
Definition refund_row_checks (r : Refund) (db : DB) : list (bool * db_error) :=
  [ (int64_ok (r_amount r), NumericValueOutOfRange);
    (0 <? r_amount r, CheckViolation);
    (is_absent (refunds db !! r_id r), UniqueViolation);
    (is_present (payments db !! r_payment_id r), ForeignKeyViolation) ].

(** The constraints a statement is checked against. *)
Definition op_checks (op : DbOp) (db : DB) : list (bool * db_error) :=
  match op with
  | InsertAccountBalance b =>
      balance_row_checks b ++
      [ (is_absent (account_balances db !! ab_account_id b), UniqueViolation);
        (is_present (accounts db !! ab_account_id b), ForeignKeyViolation) ]
  | UpdateAccountBalance b =>
      balance_row_checks b ++ [ (is_present (account_balances db !! ab_account_id b), StaleData) ]
  | InsertLedgerTransaction t =>
      [ (is_absent (ledger_transactions db !! lt_id t), UniqueViolation) ]
  | InsertLedgerEntry e =>
      [ (int64_ok (le_amount e), NumericValueOutOfRange);
        (0 <? le_amount e, CheckViolation);
        (is_present (ledger_transactions db !! le_transaction_id e), ForeignKeyViolation);
        (is_present (accounts db !! le_account_id e), ForeignKeyViolation) ]
  | InsertPayment p =>
      payment_row_checks p db ++ [ (is_absent (payments db !! p_id p), UniqueViolation) ]
  | UpdatePayment p =>
      payment_row_checks p db ++ [ (is_present (payments db !! p_id p), StaleData) ]
  | InsertRefund r => refund_row_checks r db
  | InsertIdempotency i =>
      idempotency_row_checks i ++
      [ (is_absent (idempotency_keys db !! (ir_merchant_id i, ir_idem_key i)), UniqueViolation) ]
  | UpdateIdempotency i =>
      idempotency_row_checks i ++
      [ (is_present (idempotency_keys db !! (ir_merchant_id i, ir_idem_key i)), StaleData) ]
  | InsertOutbox o =>
      outbox_row_checks o ++ [ (is_absent (outbox db !! o_id o), UniqueViolation) ]
  | UpdateOutbox o => outbox_row_checks o ++ [ (is_present (outbox db !! o_id o), StaleData) ]
  | InsertWebhookEvent w =>
      [ (varchar 255 (we_psp_event_id w) && no_nul (we_payload w), DataError);
        (is_absent (webhook_events db !! we_psp_event_id w), UniqueViolation) ]
  end.

Definition op_check (op : DbOp) (db : DB) : option db_error := first_violation (op_checks op db).

(** The row a statement writes.  A new ledger entry takes the next id. *)
Definition op_write (op : DbOp) (db : DB) : DB :=
  match op with
  | InsertAccountBalance b | UpdateAccountBalance b =>
      {| db with account_balances := <[ab_account_id b := b]> (account_balances db) |}
  | InsertLedgerTransaction t =>
      {| db with ledger_transactions := <[lt_id t := t]> (ledger_transactions db) |}
  | InsertLedgerEntry e =>
      {| db with ledger_entries := ledger_entries db ++
           [{| e with le_id := Z.of_nat (S (List.length (ledger_entries db))) |}] |}
  | InsertPayment p | UpdatePayment p =>
      {| db with payments := <[p_id p := p]> (payments db) |}
  | InsertRefund r => {| db with refunds := <[r_id r := r]> (refunds db) |}
  | InsertIdempotency i | UpdateIdempotency i =>
      {| db with idempotency_keys :=
           <[(ir_merchant_id i, ir_idem_key i) := i]> (idempotency_keys db) |}
  | InsertOutbox o | UpdateOutbox o => {| db with outbox := <[o_id o := o]> (outbox db) |}
  | InsertWebhookEvent w =>
      {| db with webhook_events := <[we_psp_event_id w := w]> (webhook_events db) |}
  end.

Definition exec_op (op : DbOp) (db : DB) : result exn DB :=
  match op_check op db with
  | None => Ok (op_write op db)
  | Some e => Err (DBAPIError e)
  end.

Fixpoint exec_ops (ops : list DbOp) (db : DB) : result exn DB :=
  match ops with
  | [] => Ok db
  | op :: ops' => db' ← exec_op op db; exec_ops ops' db'
  end.

Definition write_ops (ops : list DbOp) (db : DB) : DB := foldl (fun d op => op_write op d) db ops.

(** Ledger transactions whose entries a list of statements inserts: one trigger event
    per inserted row. *)
Definition trigger_events (ops : list DbOp) : list uuid :=
  omap (fun op => match op with InsertLedgerEntry e => Some (le_transaction_id e) | _ => None end)
       ops.

(** ** The deferred constraint trigger [trg_ledger_balanced] *)

Definition signed_amount (e : LedgerEntry) : Z :=
  match le_direction e with DEBIT => le_amount e | CREDIT => - le_amount e end.

(** Net of the entries of one ledger transaction. *)
Definition txn_net (db : DB) (txn_id : uuid) : Z :=
  lsum signed_amount (filter (fun e => le_transaction_id e = txn_id) (ledger_entries db)).

Definition assert_ledger_balanced (db : DB) (txn_id : uuid) : option db_error :=
  let net := txn_net db txn_id in
  if negb (net =? 0) then Some (LedgerTransactionUnbalanced txn_id net) else None.

Fixpoint run_triggers (db : DB) (events : list uuid) : option db_error :=
  match events with
  | [] => None
  | t :: events' =>
      match assert_ledger_balanced db t with
      | Some e => Some e
      | None => run_triggers db events'
      end
  end.

(** [exec_ops] succeeds only if every statement passes its checks, and then it writes. *)
Lemma exec_op_Ok op db db' :
  exec_op op db = Ok db' -> op_check op db = None /\ db' = op_write op db.
Proof. unfold exec_op. destruct (op_check op db); naive_solver. Qed.

Lemma exec_ops_write ops db db' : exec_ops ops db = Ok db' -> db' = write_ops ops db.
Proof.
  revert db. induction ops as [|op ops IH]; intros db H; simpl in H; [by simplify_eq|].
  apply result_bind_Ok_inv in H as (d & [_ ->]%exec_op_Ok & H). by apply IH.
Qed.

Lemma exec_ops_app ops1 ops2 db :
  exec_ops (ops1 ++ ops2) db = d ← exec_ops ops1 db; exec_ops ops2 d.
Proof.
  revert db. induction ops1 as [|op ops1 IH]; intros db; [done|]. simpl.
  destruct (exec_op op db); simpl; [apply IH | done].
Qed.

Lemma exec_ops_cons op ops db d : exec_op op db = Ok d -> exec_ops (op :: ops) db = exec_ops ops d.
Proof. intros H. simpl. by rewrite H. Qed.

Lemma write_ops_app ops1 ops2 db : write_ops (ops1 ++ ops2) db = write_ops ops2 (write_ops ops1 db).
Proof. unfold write_ops. apply foldl_app. Qed.

Lemma write_ops_cons op ops db : write_ops (op :: ops) db = write_ops ops (op_write op db).
Proof. done. Qed.

Lemma first_violation_None l :
  first_violation l = None <-> Forall (fun c => c.1 = true) l.
Proof.
  induction l as [|[ok e] l IH]; simpl; [by split|]. rewrite Forall_cons. simpl.
  destruct ok; naive_solver.
Qed.

Lemma is_present_spec {A} (o : option A) : is_present o = true <-> is_Some o.
Proof. destruct o; simpl; split; intros H; try done; by destruct H. Qed.

Lemma is_absent_spec {A} (o : option A) : is_absent o = true <-> o = None.
Proof. by destruct o. Qed.

(** ** The schema invariant *)

Record schema_ok (db : DB) : Prop := {
  so_balance : forall a b, account_balances db !! a = Some b ->
    ab_account_id b = a /\ 0 <= ab_balance b <= int64_max /\ int64_ok (ab_version b) = true /\
    is_Some (accounts db !! a);
  so_txn : forall i t, ledger_transactions db !! i = Some t -> lt_id t = i;
  so_entry : forall e, e ∈ ledger_entries db ->
    0 < le_amount e <= int64_max /\ is_Some (ledger_transactions db !! le_transaction_id e) /\
    is_Some (accounts db !! le_account_id e);
  so_entry_ids : map le_id (ledger_entries db) =
    map (fun n => Z.of_nat (S n)) (seq 0 (List.length (ledger_entries db)));
  so_payment : forall i p, payments db !! i = Some p ->
    p_id p = i /\ int64_ok (p_amount p) = true /\ int64_ok (p_refunded_amount p) = true /\
    is_Some (accounts db !! p_payer_account p) /\ is_Some (accounts db !! p_payee_account p);
  so_refund : forall i r, refunds db !! i = Some r ->
    r_id r = i /\ 0 < r_amount r /\ is_Some (payments db !! r_payment_id r);
  so_idem : forall k i, idempotency_keys db !! k = Some i -> (ir_merchant_id i, ir_idem_key i) = k;
  so_outbox : forall i o, outbox db !! i = Some o ->
    o_id o = i /\ varchar 100 (o_aggregate_type o) = true /\ varchar 100 (o_event_type o) = true /\
    jsonb (o_payload o) = true;
  so_webhook : forall i w, webhook_events db !! i = Some w -> we_psp_event_id w = i;
}.

(** Split the checks of an executed statement into facts. *)
Ltac split_checks H :=
  apply exec_op_Ok in H; destruct H as [H ->];
  unfold op_check, op_checks, refund_row_checks in H; rewrite first_violation_None in H; simpl in H;
  rewrite ?Forall_app, ?Forall_cons, ?Forall_nil in H; simpl in H;
  rewrite ?andb_true_iff, ?is_present_spec, ?is_absent_spec, ?int64_ok_spec, ?Z.leb_le,
    ?Z.ltb_lt in H;
  destruct_and? H.

Lemma is_Some_insert {K A} `{Countable K} (m : gmap K A) i j x :
  is_Some (m !! j) -> is_Some (<[i := x]> m !! j).
Proof. intros Hj. rewrite lookup_insert. by case_decide. Qed.
#[export] Hint Resolve is_Some_insert : apex.

(** Close one field of [schema_ok] after a write: the new row by the checks, the old
    rows by the old field. *)
Ltac solve_schema_field Hs :=
  intros;
  repeat match goal with
  | H : <[_ := _]> _ !! _ = Some _ |- _ =>
      rewrite lookup_insert in H; case_decide; simplify_eq
  | H : _ ∈ _ ++ [_] |- _ => apply elem_of_app in H as [H|H%list_elem_of_singleton]; subst
  end; simpl;
  try match goal with
  | H : account_balances _ !! _ = Some _ |- _ => destruct (so_balance _ Hs _ _ H) as (?&?&?&?)
  | H : _ ∈ ledger_entries _ |- _ => destruct (so_entry _ Hs _ H) as (?&?&?)
  | H : payments _ !! _ = Some _ |- _ => destruct (so_payment _ Hs _ _ H) as (?&?&?&?&?)
  | H : refunds _ !! _ = Some _ |- _ => destruct (so_refund _ Hs _ _ H) as (?&?&?)
  | H : outbox _ !! _ = Some _ |- _ => destruct (so_outbox _ Hs _ _ H) as (?&?&?&?)
  end;
  rewrite ?int64_ok_spec in *;
  repeat (split || assumption || lia || reflexivity || apply is_Some_insert);
  eauto using so_txn, so_idem, so_webhook.

Lemma so_entry_ids_insert db e :
  schema_ok db ->
  map le_id (ledger_entries (op_write (InsertLedgerEntry e) db)) =
  map (fun n => Z.of_nat (S n))
      (seq 0 (List.length (ledger_entries (op_write (InsertLedgerEntry e) db)))).
Proof.
  intros Hs. simpl. rewrite map_app, length_app, Nat.add_1_r, seq_S, map_app.
  by rewrite (so_entry_ids _ Hs).
Qed.

Lemma balance_row_account db a :
  schema_ok db -> is_Some (account_balances db !! a) -> is_Some (accounts db !! a).
Proof. intros Hs [b Hb]. by destruct (so_balance _ Hs _ _ Hb) as (_ & _ & _ & ?). Qed.

Lemma exec_op_schema_ok op db db' : schema_ok db -> exec_op op db = Ok db' -> schema_ok db'.
Proof.
  intros Hs H. destruct op; split_checks H; constructor;
    try exact (so_entry_ids _ Hs); try (apply so_entry_ids_insert, Hs);
    simpl; solve_schema_field Hs.
  by eapply balance_row_account.
Qed.
