(* ===== verification/Migrations.v ===== *)
(** * Migrations: the schema as [alembic/versions] creates it

    The operations the two migrations use, executed on a [Catalog] of tables with their
    columns, constraints, indexes, triggers and rows, with the errors PostgreSQL raises; the
    [upgrade] and [downgrade] of [001_initial_schema.py] and
    [002_processed_events_and_refunds.py]; and [alembic/env.py], which runs the revisions in
    one transaction.  [orm_tables] is what [app/domain/models.py] declares.  The theorems are
    in [MigrationTheorems]. *)

From S2P Require Import Prelude PyStd Domain Models.
From Stdlib Require Import String.

(** ** Columns, constraints, rows *)

Inductive ColumnType := UUID | VarChar (length : Z) | BigInteger | Integer | DateTime | JSONB | Text.

#[global] Instance ColumnType_eq_dec : EqDecision ColumnType.
Proof. solve_decision. Defined.

Record ForeignKey := mkForeignKey { fk_table : string; fk_column : string; fk_ondelete : option string }.

#[global] Instance ForeignKey_eq_dec : EqDecision ForeignKey.
Proof. solve_decision. Defined.

Record Column := mkColumn {
  col_name : string;
  col_type : ColumnType;
  col_primary_key : bool;
  col_autoincrement : bool;
  col_nullable : bool;
  col_foreign_key : option ForeignKey;
  col_server_default : option string;
}.

(** [balance >= 0] and [amount > 0]. *)
Inductive Condition := AtLeast (column : string) (n : Z) | MoreThan (column : string) (n : Z).

Inductive Constraint :=
| CheckConstraint (condition : Condition) (name : string)
| UniqueConstraint (columns : list string) (name : string).

#[global] Instance Condition_eq_dec : EqDecision Condition.
Proof. solve_decision. Defined.
#[global] Instance Constraint_eq_dec : EqDecision Constraint.
Proof. solve_decision. Defined.

Record Index := mkIndex { ix_name : string; ix_columns : list string; ix_where : option string }.

Record Trigger := mkTrigger { tg_name : string; tg_function : string }.

(** A value of a row, and a row by its column names. *)
Inductive value :=
| VUuid (u : uuid) | VStr (s : string) | VInt (z : Z) | VTime (t : Z)
| VJson (fields : list (string * json)) | VNull.

Abbreviation TableRow := (list (string * value)).

Record Table := mkTable {
  t_columns : list Column;
  t_constraints : list Constraint;
  t_indexes : list Index;
  t_triggers : list Trigger;
  t_rows : list TableRow;
}.

(** ** What a table accepts *)

Definition cell (row : TableRow) (column : string) : value :=
  from_option snd VNull (List.find (fun kv => String.eqb kv.1 column) row).

Definition fits (ty : ColumnType) (nullable : bool) (v : value) : bool :=
  match ty, v with
  | _, VNull => nullable
  | UUID, VUuid _ => true
  | VarChar n, VStr s => varchar n s
  | Text, VStr s => no_nul s
  | BigInteger, VInt z => int64_ok z
  | Integer, VInt z => int32_ok z
  | DateTime, VTime _ => true
  | JSONB, VJson d => jsonb d
  | _, _ => false
  end.

(** The columns hold values of their types; a sequence fills the others. *)
Definition row_fits (columns : list Column) (row : TableRow) : bool :=
  forallb (fun c => col_autoincrement c || fits (col_type c) (col_nullable c) (cell row (col_name c))) columns.

Definition condition_holds (row : TableRow) (c : Condition) : bool :=
  match c with
  | AtLeast column n => match cell row column with VInt z => n <=? z | VNull => true | _ => false end
  | MoreThan column n => match cell row column with VInt z => n <? z | VNull => true | _ => false end
  end.

Definition checks_hold (constraints : list Constraint) (row : TableRow) : bool :=
  forallb (fun k => match k with CheckConstraint c _ => condition_holds row c | UniqueConstraint _ _ => true end)
    constraints.

(** [refers table v]: the table has a row with primary key [v]. *)
Definition references_hold (refers : string -> value -> bool) (columns : list Column) (row : TableRow) : bool :=
  forallb (fun c => match col_foreign_key c, cell row (col_name c) with
                    | None, _ | _, VNull => true
                    | Some fk, v => refers (fk_table fk) v
                    end) columns.

(** The column lists no two rows agree on: the primary key and the unique constraints. *)
Definition unique_keys (columns : list Column) (constraints : list Constraint) : list (list string) :=
  map (fun c => [col_name c]) (List.filter (fun c => col_primary_key c && negb (col_autoincrement c)) columns) ++
  omap (fun k => match k with UniqueConstraint cols _ => Some cols | CheckConstraint _ _ => None end) constraints.

(** Equal values; NULL is not equal to NULL. *)
Definition same_value (v w : value) : bool :=
  match v, w with
  | VUuid a, VUuid b => N.eqb a b
  | VStr a, VStr b => String.eqb a b
  | VInt a, VInt b | VTime a, VTime b => Z.eqb a b
  | _, _ => false
  end.

Definition conflicts (t : Table) (row : TableRow) : bool :=
  existsb (fun cols => existsb (fun r => forallb (fun c => same_value (cell r c) (cell row c)) cols) (t_rows t))
    (unique_keys (t_columns t) (t_constraints t)).

(** ** The catalog and the operations on it *)

Record Catalog := mkCatalog { cat_tables : gmap string Table; cat_functions : gset string }.

Definition empty_catalog : Catalog := mkCatalog ∅ ∅.

Inductive ddl_error :=
| DuplicateRelation | UndefinedTable | UndefinedFunction | DuplicateTrigger | DependentObjects | InvalidRow.

Inductive Ddl :=
| CreateTable (name : string) (columns : list Column) (constraints : list Constraint)
| CreateIndex (name table : string) (columns : list string) (where_ : option string)
| CreateOrReplaceFunction (name : string)
| CreateTrigger (name table function : string)
| InsertOnConflictDoNothing (table : string) (row : TableRow)
| DropTriggerIfExists (name table : string)
| DropFunctionIfExists (name : string)
| DropTable (name : string).

(** Tables and indexes share their names. *)
Definition relation_exists (c : Catalog) (name : string) : bool :=
  bool_decide (is_Some (cat_tables c !! name)) ||
  existsb (fun nt => existsb (fun ix => String.eqb (ix_name ix) name) (t_indexes nt.2))
    (map_to_list (cat_tables c)).

Definition refers_to (t : Table) (name : string) : bool :=
  existsb (fun c => match col_foreign_key c with Some fk => String.eqb (fk_table fk) name | None => false end)
    (t_columns t).

(** Another table has a foreign key to [name]. *)
Definition referenced (c : Catalog) (name : string) : bool :=
  existsb (fun nt => negb (String.eqb nt.1 name) && refers_to nt.2 name) (map_to_list (cat_tables c)).

(** A trigger calls the function. *)
Definition function_used (c : Catalog) (name : string) : bool :=
  existsb (fun nt => existsb (fun tg => String.eqb (tg_function tg) name) (t_triggers nt.2))
    (map_to_list (cat_tables c)).

Definition primary_keys (t : Table) : list string := map col_name (List.filter col_primary_key (t_columns t)).

(** Every foreign key is to the primary key of a table there is. *)
Definition targets_exist (c : Catalog) (columns : list Column) : bool :=
  forallb (fun col => match col_foreign_key col with
    | None => true
    | Some fk => match cat_tables c !! fk_table fk with
                 | Some t => bool_decide (primary_keys t = [fk_column fk])
                 | None => false
                 end
    end) columns.

Definition has_key (c : Catalog) (table : string) (v : value) : bool :=
  match cat_tables c !! table with
  | Some t => match primary_keys t with
              | [pk] => existsb (fun r => same_value (cell r pk) v) (t_rows t)
              | _ => false
              end
  | None => false
  end.

(** The values of the columns a row does not give: [now()], a number, NULL. *)
Definition default_value (now : Z) (c : Column) : value :=
  match col_server_default c with
  | None => VNull
  | Some d => if String.eqb d "now()" then VTime now
              else if String.eqb d "0" then VInt 0 else VStr d
  end.

Definition with_defaults (now : Z) (columns : list Column) (row : TableRow) : TableRow :=
  map (fun c => (col_name c,
         if existsb (fun kv => String.eqb kv.1 (col_name c)) row then cell row (col_name c)
         else default_value now c)) columns.

Definition put_table (name : string) (t : Table) (c : Catalog) : Catalog :=
  mkCatalog (<[name := t]> (cat_tables c)) (cat_functions c).

Definition exec_ddl (now : Z) (d : Ddl) (c : Catalog) : result ddl_error Catalog :=
  match d with
  | CreateTable name columns constraints =>
      if relation_exists c name then Err DuplicateRelation
      else if negb (targets_exist c columns) then Err UndefinedTable
      else Ok (put_table name (mkTable columns constraints [] [] []) c)
  | CreateIndex name table columns where_ =>
      if relation_exists c name then Err DuplicateRelation
      else match cat_tables c !! table with
           | None => Err UndefinedTable
           | Some t => Ok (put_table table
               {| t with t_indexes := t_indexes t ++ [mkIndex name columns where_] |} c)
           end
  | CreateOrReplaceFunction name => Ok (mkCatalog (cat_tables c) ({[name]} ∪ cat_functions c))
  | CreateTrigger name table function =>
      match cat_tables c !! table with
      | None => Err UndefinedTable
      | Some t =>
          if negb (bool_decide (function ∈ cat_functions c)) then Err UndefinedFunction
          else if existsb (fun tg => String.eqb (tg_name tg) name) (t_triggers t) then Err DuplicateTrigger
          else Ok (put_table table {| t with t_triggers := t_triggers t ++ [mkTrigger name function] |} c)
      end
  | InsertOnConflictDoNothing table row =>
      match cat_tables c !! table with
      | None => Err UndefinedTable
      | Some t =>
          let row := with_defaults now (t_columns t) row in
          if negb (row_fits (t_columns t) row && checks_hold (t_constraints t) row) then Err InvalidRow
          else if conflicts t row then Ok c
          else if negb (references_hold (has_key c) (t_columns t) row) then Err InvalidRow
          else Ok (put_table table {| t with t_rows := t_rows t ++ [row] |} c)
      end
  | DropTriggerIfExists name table =>
      match cat_tables c !! table with
      | None => Ok c
      | Some t => Ok (put_table table
          {| t with t_triggers := List.filter (fun tg => negb (String.eqb (tg_name tg) name)) (t_triggers t) |} c)
      end
  | DropFunctionIfExists name =>
      if function_used c name then Err DependentObjects
      else Ok (mkCatalog (cat_tables c) (cat_functions c ∖ {[name]}))
  | DropTable name =>
      match cat_tables c !! name with
      | None => Err UndefinedTable
      | Some _ =>
          if referenced c name then Err DependentObjects
          else Ok (mkCatalog (delete name (cat_tables c)) (cat_functions c))
      end
  end.

Fixpoint exec_ddls (now : Z) (ds : list Ddl) (c : Catalog) : result ddl_error Catalog :=
  match ds with
  | [] => Ok c
  | d :: ds' => c' ← exec_ddl now d c; exec_ddls now ds' c'
  end.

(** ** The revisions *)

Definition column (name : string) (ty : ColumnType) : Column := mkColumn name ty false false false None None.
Definition primary_key (c : Column) : Column := {| c with col_primary_key := true |}.
Definition autoincrement (c : Column) : Column := {| c with col_autoincrement := true |}.
Definition nullable (c : Column) : Column := {| c with col_nullable := true |}.
Definition server_default (d : string) (c : Column) : Column := {| c with col_server_default := Some d |}.
Definition references (table column : string) (c : Column) : Column :=
  {| c with col_foreign_key := Some (mkForeignKey table column None) |}.
Definition references_cascade (table column : string) (c : Column) : Column :=
  {| c with col_foreign_key := Some (mkForeignKey table column (Some "CASCADE"%string)) |}.

(** [sa.Column(name, sa.DateTime(timezone=True), server_default=sa.text("now()"), nullable=False)] *)
Definition timestamp (name : string) : Column := server_default "now()" (column name DateTime).

(** [001_initial_schema.py] *)
Definition upgrade_001 : list Ddl := [
  CreateTable "accounts"
    [ primary_key (column "id" UUID); column "owner_type" (VarChar 50); column "owner_id" (VarChar 255);
      column "type" (VarChar 50); column "currency" (VarChar 3); timestamp "created_at" ]
    [ UniqueConstraint ["owner_type"; "owner_id"; "type"; "currency"] "uq_accounts_owner_type_currency" ];
  CreateTable "account_balances"
    [ primary_key (references_cascade "accounts" "id" (column "account_id" UUID));
      server_default "0" (column "balance" BigInteger); server_default "0" (column "version" BigInteger);
      timestamp "updated_at" ]
    [ CheckConstraint (AtLeast "balance" 0) "non_negative_balance" ];
  CreateTable "ledger_transactions"
    [ primary_key (column "id" UUID); column "type" (VarChar 50); column "reference_id" UUID;
      timestamp "created_at" ] [];
  CreateTable "ledger_entries"
    [ primary_key (autoincrement (column "id" BigInteger));
      references "ledger_transactions" "id" (column "transaction_id" UUID);
      references "accounts" "id" (column "account_id" UUID); column "direction" (VarChar 20);
      column "amount" BigInteger; timestamp "created_at" ]
    [ CheckConstraint (MoreThan "amount" 0) "positive_amount" ];
  CreateIndex "idx_entries_account_created" "ledger_entries" ["account_id"; "created_at"] None;
  CreateIndex "idx_entries_txn" "ledger_entries" ["transaction_id"] None;
  CreateTable "payments"
    [ primary_key (column "id" UUID); column "merchant_id" (VarChar 255);
      references "accounts" "id" (column "payer_account" UUID);
      references "accounts" "id" (column "payee_account" UUID); column "amount" BigInteger;
      column "currency" (VarChar 3); column "status" (VarChar 50);
      nullable (column "psp_reference" (VarChar 255));
      server_default "0" (column "refunded_amount" BigInteger);
      server_default "0" (column "version" BigInteger); timestamp "created_at"; timestamp "updated_at" ] [];
  CreateIndex "idx_payments_status_created" "payments" ["status"; "created_at"] None;
  CreateIndex "idx_payments_merchant" "payments" ["merchant_id"] None;
  CreateTable "idempotency_keys"
    [ primary_key (autoincrement (column "id" BigInteger)); column "merchant_id" (VarChar 255);
      column "idem_key" (VarChar 255); column "request_hash" (VarChar 64); column "status" (VarChar 50);
      nullable (column "resource_id" UUID); nullable (column "response_code" Integer);
      nullable (column "response_body" JSONB); timestamp "created_at" ]
    [ UniqueConstraint ["merchant_id"; "idem_key"] "uq_idempotency_merchant_key" ];
  CreateTable "outbox"
    [ primary_key (column "id" UUID); column "aggregate_type" (VarChar 100); column "aggregate_id" UUID;
      column "event_type" (VarChar 100); column "payload" JSONB; timestamp "created_at";
      nullable (column "published_at" DateTime) ] [];
  CreateIndex "idx_outbox_unpublished" "outbox" ["created_at"] (Some "published_at IS NULL"%string);
  CreateTable "webhook_events"
    [ primary_key (column "psp_event_id" (VarChar 255)); column "payload" Text; column "status" (VarChar 50);
      timestamp "received_at" ] [];
  CreateOrReplaceFunction "assert_ledger_balanced";
  CreateTrigger "trg_ledger_balanced" "ledger_entries" "assert_ledger_balanced";
  InsertOnConflictDoNothing "accounts"
    [ ("id", VUuid 1); ("owner_type", VStr "SYSTEM"); ("owner_id", VStr "psp");
      ("type", VStr "PSP_SUSPENSE"); ("currency", VStr "INR") ];
  InsertOnConflictDoNothing "accounts"
    [ ("id", VUuid 2); ("owner_type", VStr "SYSTEM"); ("owner_id", VStr "fees");
      ("type", VStr "FEE_INCOME"); ("currency", VStr "INR") ];
  InsertOnConflictDoNothing "account_balances"
    [ ("account_id", VUuid 1); ("balance", VInt 0); ("version", VInt 0) ];
  InsertOnConflictDoNothing "account_balances"
    [ ("account_id", VUuid 2); ("balance", VInt 0); ("version", VInt 0) ]
]%string.

Definition downgrade_001 : list Ddl := [
  DropTriggerIfExists "trg_ledger_balanced" "ledger_entries";
  DropFunctionIfExists "assert_ledger_balanced";
  DropTable "webhook_events"; DropTable "outbox"; DropTable "idempotency_keys"; DropTable "payments";
  DropTable "ledger_entries"; DropTable "ledger_transactions"; DropTable "account_balances";
  DropTable "accounts"
]%string.

(** [002_processed_events_and_refunds.py] *)
Definition upgrade_002 : list Ddl := [
  CreateTable "processed_events" [ primary_key (column "event_id" UUID); timestamp "processed_at" ] [];
  CreateTable "refunds"
    [ primary_key (column "id" UUID); references "payments" "id" (column "payment_id" UUID);
      column "amount" BigInteger; column "status" (VarChar 50); timestamp "created_at" ]
    [ CheckConstraint (MoreThan "amount" 0) "positive_refund_amount" ];
  CreateIndex "idx_refunds_payment" "refunds" ["payment_id"] None
]%string.

Definition downgrade_002 : list Ddl := [ DropTable "refunds"; DropTable "processed_events" ]%string.

(** The module variables [revision] and [down_revision] with [upgrade] and [downgrade]. *)
Record Revision := mkRevision {
  revision : string;
  down_revision : option string;
  upgrade : list Ddl;
  downgrade : list Ddl;
}.

Definition initial_schema_revision : Revision :=
  mkRevision "001_initial_schema" None upgrade_001 downgrade_001.
Definition processed_events_revision : Revision :=
  mkRevision "002_processed_events_and_refunds" (Some "001_initial_schema"%string) upgrade_002 downgrade_002.

Definition revisions : list Revision := [initial_schema_revision; processed_events_revision].

(** A database under Alembic: its catalog and the row of [alembic_version]. *)
Record Database := mkDatabase { d_catalog : Catalog; d_version : option string }.

(** Alembic runs, of the chain of revisions, those above the current one ... *)
Fixpoint upgrade_along (now : Z) (revs : list Revision) (d : Database) : result ddl_error Database :=
  match revs with
  | [] => Ok d
  | r :: revs' =>
      if decide (down_revision r = d_version d) then
        c ← exec_ddls now (upgrade r) (d_catalog d);
        upgrade_along now revs' (mkDatabase c (Some (revision r)))
      else upgrade_along now revs' d
  end.

(** ... and down again, the last one first. *)
Fixpoint downgrade_along (now : Z) (revs : list Revision) (d : Database) : result ddl_error Database :=
  match revs with
  | [] => Ok d
  | r :: revs' =>
      if decide (d_version d = Some (revision r)) then
        c ← exec_ddls now (downgrade r) (d_catalog d);
        downgrade_along now revs' (mkDatabase c (down_revision r))
      else downgrade_along now revs' d
  end.

(** [with context.begin_transaction(): context.run_migrations()] of [alembic/env.py]: DDL is
    transactional, an error leaves the database as it was. *)
Definition run_migrations (steps : Database -> result ddl_error Database) (d : Database)
  : result ddl_error unit * Database :=
  match steps d with
  | Ok d' => (Ok tt, d')
  | Err e => (Err e, d)
  end.

Definition upgrade_head (now : Z) : Database -> result ddl_error unit * Database :=
  run_migrations (upgrade_along now revisions).
Definition downgrade_base (now : Z) : Database -> result ddl_error unit * Database :=
  run_migrations (downgrade_along now (rev revisions)).

(** ** What the mapped classes declare *)

(** [SQLEnum(..., native_enum=False)] stores the names of the members in a VARCHAR. *)
Definition OwnerType_name (x : OwnerType) : string :=
  match x with USER => "USER" | MERCHANT => "MERCHANT" | SYSTEM => "SYSTEM" end.
Definition AccountType_name (x : AccountType) : string :=
  match x with USER_WALLET => "USER_WALLET" | MERCHANT_PAYABLE => "MERCHANT_PAYABLE"
  | PSP_SUSPENSE => "PSP_SUSPENSE" | FEE_INCOME => "FEE_INCOME" end.
Definition TransactionType_name (x : TransactionType) : string :=
  match x with TxnPAYMENT => "PAYMENT" | TxnREFUND => "REFUND" | TxnREVERSAL => "REVERSAL"
  | TxnFEE => "FEE" end.
Definition Direction_name (x : Direction) : string :=
  match x with DEBIT => "DEBIT" | CREDIT => "CREDIT" end.
Definition WebhookStatus_name (x : WebhookStatus) : string :=
  match x with RECEIVED => "RECEIVED" | PROCESSED => "PROCESSED" | WebhookFAILED => "FAILED" end.
Definition IdempotencyStatus_name (x : IdempotencyStatus) : string :=
  match x with IN_PROGRESS => "IN_PROGRESS" | COMPLETED => "COMPLETED" end.

Inductive OrmType := Plain (ty : ColumnType) | SQLEnum (names : list string).

Record OrmColumn := mkOrmColumn {
  oc_name : string;
  oc_type : OrmType;
  oc_primary_key : bool;
  oc_autoincrement : bool;
  oc_nullable : bool;
  oc_foreign_key : option ForeignKey;
  oc_index : bool;
}.

Record OrmTable := mkOrmTable {
  tablename : string;
  mapped_columns : list OrmColumn;
  table_constraints : list Constraint;
  table_indexes : list (list string);
}.

Definition mapped (name : string) (ty : ColumnType) : OrmColumn := mkOrmColumn name (Plain ty) false false false None false.
Definition mapped_enum (name : string) (names : list string) : OrmColumn :=
  mkOrmColumn name (SQLEnum names) false false false None false.
Definition is_key (c : OrmColumn) : OrmColumn := {| c with oc_primary_key := true |}.
Definition is_serial (c : OrmColumn) : OrmColumn := {| c with oc_autoincrement := true |}.
Definition is_optional (c : OrmColumn) : OrmColumn := {| c with oc_nullable := true |}.
Definition indexed (c : OrmColumn) : OrmColumn := {| c with oc_index := true |}.
Definition foreign_key (table : string) (ondelete : option string) (c : OrmColumn) : OrmColumn :=
  {| c with oc_foreign_key := Some (mkForeignKey table "id" ondelete) |}.

Definition direction_names : list string := map Direction_name [DEBIT; CREDIT].
Definition payment_status_names : list string := map PaymentStatus_value all_payment_statuses.
Definition refund_status_names : list string := map RefundStatus_value all_refund_statuses.

Definition account_orm : OrmTable := mkOrmTable "accounts"
  [ is_key (mapped "id" UUID); mapped_enum "owner_type" (map OwnerType_name [USER; MERCHANT; SYSTEM]);
    mapped "owner_id" (VarChar 255);
    mapped_enum "type" (map AccountType_name [USER_WALLET; MERCHANT_PAYABLE; PSP_SUSPENSE; FEE_INCOME]);
    mapped "currency" (VarChar 3); mapped "created_at" DateTime ]
  [ UniqueConstraint ["owner_type"; "owner_id"; "type"; "currency"] "uq_accounts_owner_type_currency" ] [].
Definition account_balance_orm : OrmTable := mkOrmTable "account_balances"
  [ is_key (foreign_key "accounts" (Some "CASCADE"%string) (mapped "account_id" UUID)); mapped "balance" BigInteger;
    mapped "version" BigInteger; mapped "updated_at" DateTime ]
  [ CheckConstraint (AtLeast "balance" 0) "non_negative_balance" ] [].
Definition ledger_transaction_orm : OrmTable := mkOrmTable "ledger_transactions"
  [ is_key (mapped "id" UUID);
    mapped_enum "type" (map TransactionType_name [TxnPAYMENT; TxnREFUND; TxnREVERSAL; TxnFEE]);
    mapped "reference_id" UUID; mapped "created_at" DateTime ] [] [].
Definition ledger_entry_orm : OrmTable := mkOrmTable "ledger_entries"
  [ is_key (is_serial (mapped "id" BigInteger));
    indexed (foreign_key "ledger_transactions" None (mapped "transaction_id" UUID));
    indexed (foreign_key "accounts" None (mapped "account_id" UUID));
    mapped_enum "direction" direction_names; mapped "amount" BigInteger; mapped "created_at" DateTime ]
  [ CheckConstraint (MoreThan "amount" 0) "positive_amount" ] [["account_id"; "created_at"]%string].
Definition payment_orm : OrmTable := mkOrmTable "payments"
  [ is_key (mapped "id" UUID); indexed (mapped "merchant_id" (VarChar 255));
    foreign_key "accounts" None (mapped "payer_account" UUID);
    foreign_key "accounts" None (mapped "payee_account" UUID); mapped "amount" BigInteger;
    mapped "currency" (VarChar 3); indexed (mapped_enum "status" payment_status_names);
    indexed (is_optional (mapped "psp_reference" (VarChar 255))); mapped "refunded_amount" BigInteger;
    mapped "version" BigInteger; mapped "created_at" DateTime; mapped "updated_at" DateTime ]
  [] [["status"; "created_at"]%string].
Definition refund_orm : OrmTable := mkOrmTable "refunds"
  [ is_key (mapped "id" UUID); indexed (foreign_key "payments" None (mapped "payment_id" UUID));
    mapped "amount" BigInteger; mapped_enum "status" refund_status_names; mapped "created_at" DateTime ]
  [ CheckConstraint (MoreThan "amount" 0) "positive_refund_amount" ] [].
Definition idempotency_orm : OrmTable := mkOrmTable "idempotency_keys"
  [ is_key (is_serial (mapped "id" BigInteger)); mapped "merchant_id" (VarChar 255);
    mapped "idem_key" (VarChar 255); mapped "request_hash" (VarChar 64);
    mapped_enum "status" (map IdempotencyStatus_name [IN_PROGRESS; COMPLETED]);
    is_optional (mapped "resource_id" UUID); is_optional (mapped "response_code" Integer);
    is_optional (mapped "response_body" JSONB); mapped "created_at" DateTime ]
  [ UniqueConstraint ["merchant_id"; "idem_key"] "uq_idempotency_merchant_key" ] [].
Definition outbox_orm : OrmTable := mkOrmTable "outbox"
  [ is_key (mapped "id" UUID); mapped "aggregate_type" (VarChar 100); mapped "aggregate_id" UUID;
    mapped "event_type" (VarChar 100); mapped "payload" JSONB; indexed (mapped "created_at" DateTime);
    is_optional (mapped "published_at" DateTime) ] [] [].
Definition webhook_event_orm : OrmTable := mkOrmTable "webhook_events"
  [ is_key (mapped "psp_event_id" (VarChar 255)); mapped "payload" Text;
    mapped_enum "status" (map WebhookStatus_name [RECEIVED; PROCESSED; WebhookFAILED]);
    mapped "received_at" DateTime ] [] [].
Definition processed_event_orm : OrmTable := mkOrmTable "processed_events"
  [ is_key (mapped "event_id" UUID); mapped "processed_at" DateTime ] [] [].

Definition orm_tables : list OrmTable :=
  [ account_orm; account_balance_orm; ledger_transaction_orm; ledger_entry_orm; payment_orm; refund_orm;
    idempotency_orm; outbox_orm; webhook_event_orm; processed_event_orm ].

(** A mapped column and the migrated one: the same type, or an enumeration whose names fit. *)
Definition type_conforms (o : OrmType) (ty : ColumnType) : bool :=
  match o, ty with
  | Plain ty', _ => bool_decide (ty' = ty)
  | SQLEnum names, VarChar n => forallb (varchar n) names
  | SQLEnum _, _ => false
  end.

Definition column_conforms (o : OrmColumn) (c : Column) : bool :=
  String.eqb (oc_name o) (col_name c) && type_conforms (oc_type o) (col_type c) &&
  Bool.eqb (oc_primary_key o) (col_primary_key c) && Bool.eqb (oc_autoincrement o) (col_autoincrement c) &&
  Bool.eqb (oc_nullable o) (col_nullable c) && bool_decide (oc_foreign_key o = col_foreign_key c).

Fixpoint columns_conform (os : list OrmColumn) (cs : list Column) : bool :=
  match os, cs with
  | [], [] => true
  | o :: os', c :: cs' => column_conforms o c && columns_conform os' cs'
  | _, _ => false
  end.

Definition table_conforms (c : Catalog) (o : OrmTable) : bool :=
  match cat_tables c !! tablename o with
  | Some t => columns_conform (mapped_columns o) (t_columns t) &&
              bool_decide (table_constraints o = t_constraints t)
  | None => false
  end.

(** The indexes a class asks for that no full index of the table serves: the columns asked
    for are not its first ones. *)
Definition asked_indexes (o : OrmTable) : list (list string) :=
  map (fun c => [oc_name c]) (List.filter oc_index (mapped_columns o)) ++ table_indexes o.

Definition serves (cols : list string) (ix : Index) : bool :=
  bool_decide (take (List.length cols) (ix_columns ix) = cols) && negb (is_present (ix_where ix)).

Definition missing_indexes (c : Catalog) (o : OrmTable) : list (string * list string) :=
  match cat_tables c !! tablename o with
  | Some t => map (pair (tablename o))
                (List.filter (fun cols => negb (existsb (serves cols) (t_indexes t))) (asked_indexes o))
  | None => []
  end.
