(* ===== verification/Session.v ===== *)
(** * Session: the unit of work the services run in

    A [Session] is what an [AsyncSession] with [autoflush=False]
    ([app/infrastructure/database.py]) is to the services: the tables as the open
    transaction sees them, the INSERTs and UPDATEs not yet flushed, the ledger
    transactions whose entries the deferred trigger will check at COMMIT, the rows locked
    with [FOR UPDATE] in the order they were locked, and the environment ([uuid.uuid4],
    [datetime.now], failing statements) with a tick counter.  No select of the program
    reads a row that has an unflushed change, so reading the flushed tables is reading
    what the identity map would return.

    The database engine is not code of the repository: it appears as the constraints the
    repository declares, as the order rows come back in (a parameter where it matters)
    and as [fault_at], an arbitrary schedule of failing statements. *)

From S2P Require Import Prelude PyStd Domain Models.
From Stdlib Require Import String.

Inductive row_lock := LockPayment (id : uuid) | LockBalance (id : uuid) | LockOutbox (id : uuid).
#[global] Instance row_lock_eq_dec : EqDecision row_lock.
Proof. solve_decision. Defined.

(** What a run draws from outside: [uuid.uuid4()], [datetime.now(timezone.utc)] in
    microseconds, and the statements that fail for reasons of their own. *)
Record Env := mkEnv {
  uuid4_at : nat -> uuid;
  now_at : nat -> Z;
  fault_at : nat -> option db_error;
}.

Record Session := mkSession {
  s_db : DB;
  s_pending : list DbOp;
  s_deferred : list uuid;
  s_locks : list row_lock;
  s_env : Env;
  s_tick : nat;
}.

Abbreviation M := (stm Session exn).

Definition uuid4 : M uuid := fun s =>
  Ok (uuid4_at (s_env s) (s_tick s), {| s with s_tick := S (s_tick s) |}).

Definition now : M Z := fun s =>
  Ok (now_at (s_env s) (s_tick s), {| s with s_tick := S (s_tick s) |}).

(** A round trip to the database. *)
Definition statement : M unit := fun s =>
  match fault_at (s_env s) (s_tick s) with
  | Some e => Err (DBAPIError e)
  | None => Ok (tt, {| s with s_tick := S (s_tick s) |})
  end.

(** [session.add(obj)], or the change of an attribute of a loaded object. *)
Definition session_add (op : DbOp) : M unit :=
  modify (fun s => {| s with s_pending := s_pending s ++ [op] |}).

(** [await session.flush()] *)
Definition flush_pending : M unit := fun s =>
  match exec_ops (s_pending s) (s_db s) with
  | Ok db => Ok (tt, {| s with s_db := db; s_pending := [];
                               s_deferred := s_deferred s ++ trigger_events (s_pending s) |})
  | Err e => Err e
  end.

Definition flush : M unit := statement;; flush_pending.

Definition lock_row (l : row_lock) : M unit :=
  modify (fun s => {| s with s_locks := s_locks s ++ [l] |}).

(** [select(...).where(...)], with a lock when it says [with_for_update()] and the row
    exists. *)
Definition select_balance_for_update (acc_id : uuid) : M (option AccountBalance) :=
  statement;;
  row ← gets (fun s => account_balances (s_db s) !! acc_id);
  (match row with Some _ => lock_row (LockBalance acc_id) | None => mret tt end);;
  mret row.

Definition select_payment_for_update (payment_id : uuid) : M (option Payment) :=
  statement;;
  row ← gets (fun s => payments (s_db s) !! payment_id);
  (match row with Some _ => lock_row (LockPayment payment_id) | None => mret tt end);;
  mret row.

Definition begin_session (env : Env) (db : DB) : Session := mkSession db [] [] [] env 0.

(** COMMIT: flush what is pending, then the deferred triggers. *)
Definition commit (s : Session) : result exn DB :=
  match flush s with
  | Err e => Err e
  | Ok (_, s') =>
      match run_triggers (s_db s') (s_deferred s') with
      | Some e => Err (DBAPIError e)
      | None => Ok (s_db s')
      end
  end.

(** [async with session.begin(): ...]: commit on exit, roll back on an exception.  An error at
    COMMIT is one PostgreSQL answered, and it has rolled back. *)
Definition in_transaction {A : Type} (env : Env) (m : M A) (db : DB) : result exn A * DB :=
  match m (begin_session env db) with
  | Err e => (Err e, db)
  | Ok (a, s) =>
      match commit s with
      | Err e => (Err e, db)
      | Ok db' => (Ok a, db')
      end
  end.

(** The same when the connection breaks and the answer of a COMMIT that took effect is lost. *)
Definition in_transaction_lost {A : Type} (env : Env) (m : M A) (db : DB) : result exn A * DB :=
  match in_transaction env m db with
  | (Ok _, db') => (Err (DBAPIError OperationalError), db')
  | failed => failed
  end.

(** ** What the primitives do to a session *)

Definition tick (s : Session) : Session := {| s with s_tick := S (s_tick s) |}.
Definition with_locks (ls : list row_lock) (s : Session) : Session :=
  {| s with s_locks := s_locks s ++ ls |}.
Definition with_pending (ops : list DbOp) (s : Session) : Session :=
  {| s with s_pending := s_pending s ++ ops |}.
(** After a flush that left the tables as [db]. *)
Definition flushed (db : DB) (s : Session) : Session :=
  mkSession db [] (s_deferred s ++ trigger_events (s_pending s)) (s_locks s) (s_env s)
    (S (s_tick s)).

Lemma now_eq s : now s = Ok (now_at (s_env s) (s_tick s), tick s).
Proof. done. Qed.

Lemma uuid4_eq s : uuid4 s = Ok (uuid4_at (s_env s) (s_tick s), tick s).
Proof. done. Qed.

Lemma session_add_eq op s : session_add op s = Ok (tt, with_pending [op] s).
Proof. done. Qed.

Lemma statement_Ok_inv s u s' :
  statement s = Ok (u, s') -> fault_at (s_env s) (s_tick s) = None /\ s' = tick s.
Proof. unfold statement. destruct (fault_at _ _); naive_solver. Qed.

Lemma flush_Ok_inv s u s' :
  flush s = Ok (u, s') -> exists db, exec_ops (s_pending s) (s_db s) = Ok db /\ s' = flushed db s.
Proof.
  unfold flush. intros H. minv. apply statement_Ok_inv in Hm as [_ ->].
  unfold flush_pending in Hk. simpl in Hk.
  destruct (exec_ops _ _) as [db|e] eqn:He; [|done]. simplify_eq. by exists db.
Qed.

Lemma select_balance_Ok_inv a s row s' :
  select_balance_for_update a s = Ok (row, s') ->
  row = account_balances (s_db s) !! a /\
  s' = with_locks (match row with Some _ => [LockBalance a] | None => [] end) (tick s).
Proof.
  unfold select_balance_for_update. intros H. minv.
  apply statement_Ok_inv in Hm as [_ ->]. simpl in *.
  destruct (account_balances (s_db s) !! a); unfold lock_row in *; minv; (split; [done|]).
  - done.
  - unfold with_locks. destruct s; simpl. by rewrite app_nil_r.
Qed.

Lemma select_payment_Ok_inv i s row s' :
  select_payment_for_update i s = Ok (row, s') ->
  row = payments (s_db s) !! i /\
  s' = with_locks (match row with Some _ => [LockPayment i] | None => [] end) (tick s).
Proof.
  unfold select_payment_for_update. intros H. minv.
  apply statement_Ok_inv in Hm as [_ ->]. simpl in *.
  destruct (payments (s_db s) !! i); unfold lock_row in *; minv; (split; [done|]).
  - done.
  - unfold with_locks. destruct s; simpl. by rewrite app_nil_r.
Qed.

(** Inversion of the primitives of a run that succeeded. *)
Ltac prim_step :=
  match goal with
  | H : now _ = Ok _ |- _ => rewrite now_eq in H; simplify_eq
  | H : uuid4 _ = Ok _ |- _ => rewrite uuid4_eq in H; simplify_eq
  | H : session_add _ _ = Ok _ |- _ => rewrite session_add_eq in H; simplify_eq
  | H : statement _ = Ok _ |- _ =>
      let Hf := fresh "Hf" in apply statement_Ok_inv in H; destruct H as [Hf ->]
  | H : flush _ = Ok _ |- _ =>
      let db := fresh "db" in let He := fresh "Hexec" in
      apply flush_Ok_inv in H; destruct H as (db & He & ->)
  | H : select_balance_for_update _ _ = Ok _ |- _ =>
      apply select_balance_Ok_inv in H; destruct H as [-> ->]
  | H : select_payment_for_update _ _ = Ok _ |- _ =>
      apply select_payment_Ok_inv in H; destruct H as [-> ->]
  end.
Ltac msess := repeat (minv_step || prim_step).

(** ** Everything a service does to the tables goes through [exec_op] *)

Definition exec_step (db db' : DB) : Prop := exists op, exec_op op db = Ok db'.

(** [Flushes m]: a run of [m] changes the tables by executed statements only, keeps the
    environment and does not turn the clock back.  The services are instances, so what every statement preserves,
    every service preserves. *)
Class Flushes {A : Type} (m : M A) : Prop :=
  flushes : forall s a s', m s = Ok (a, s') ->
    rtc exec_step (s_db s) (s_db s') /\ s_env s' = s_env s /\ (s_tick s <= s_tick s')%nat.
#[global] Hint Mode Flushes ! ! : typeclass_instances.

Lemma exec_ops_rtc ops db db' : exec_ops ops db = Ok db' -> rtc exec_step db db'.
Proof.
  revert db. induction ops as [|op ops IH]; intros db H; simpl in H; [by simplify_eq|].
  apply result_bind_Ok_inv in H as (d & H1 & H2).
  eapply rtc_l; [by exists op | by apply IH].
Qed.

Ltac solve_flushes_prim :=
  intros ?s ?a ?s' ?H; unfold lock_row in *; msess; simpl in *; split; [done|split; [done|lia]].

#[global] Instance Flushes_ret {A} (a : A) : Flushes (mret a).
Proof. solve_flushes_prim. Qed.

#[global] Instance Flushes_throw {A} (e : exn) : Flushes (mthrow e : M A).
Proof. intros s a s' H. done. Qed.

#[global] Instance Flushes_lift {A} (r : result exn A) : Flushes (lift r).
Proof. solve_flushes_prim. Qed.

#[global] Instance Flushes_gets {A} (f : Session -> A) : Flushes (gets f).
Proof. solve_flushes_prim. Qed.

#[global] Instance Flushes_now : Flushes now.
Proof. solve_flushes_prim. Qed.

#[global] Instance Flushes_uuid4 : Flushes uuid4.
Proof. solve_flushes_prim. Qed.

#[global] Instance Flushes_statement : Flushes statement.
Proof. solve_flushes_prim. Qed.

#[global] Instance Flushes_add op : Flushes (session_add op).
Proof. solve_flushes_prim. Qed.

#[global] Instance Flushes_lock l : Flushes (lock_row l).
Proof. solve_flushes_prim. Qed.

#[global] Instance Flushes_flush : Flushes flush.
Proof. intros s a s' H. msess. simpl. split; [by eapply exec_ops_rtc | split; [done|lia]]. Qed.

#[global] Instance Flushes_bind {A B} (m : M A) (f : A -> M B) :
  Flushes m -> (forall a, Flushes (f a)) -> Flushes (m ≫= f).
Proof.
  intros Hm Hf s b s' H. minv.
  apply Hm in Hm0 as (H1 & E1 & T1). apply Hf in Hk as (H2 & E2 & T2).
  split; [by etrans | split; [congruence|lia]].
Qed.

#[global] Instance Flushes_select_balance a : Flushes (select_balance_for_update a).
Proof. intros s r s' H. msess. split; [done|split; [done|simpl; lia]]. Qed.

#[global] Instance Flushes_select_payment i : Flushes (select_payment_for_update i).
Proof. intros s r s' H. msess. split; [done|split; [done|simpl; lia]]. Qed.

(** Prove [Flushes] of a program by its structure. *)
Ltac solve_flushes :=
  repeat match goal with
  | |- Flushes (_ ≫= _) => apply Flushes_bind; [|intros ?]
  | |- Flushes (match ?x with _ => _ end) => destruct x
  | |- Flushes (let _ := _ in _) => cbv zeta
  | |- Flushes _ => apply _
  end.

(** A transaction changes the tables by executed statements, or not at all. *)
Lemma commit_rtc s db' : commit s = Ok db' -> rtc exec_step (s_db s) db'.
Proof.
  unfold commit. destruct (flush s) as [[u s']|e] eqn:Hf; [|done].
  destruct (run_triggers _ _); [done|]. intros [= <-].
  msess. simpl. by eapply exec_ops_rtc.
Qed.

Lemma in_transaction_rtc {A} env (m : M A) `{!Flushes m} db r db' :
  in_transaction env m db = (r, db') -> rtc exec_step db db'.
Proof.
  unfold in_transaction. destruct (m _) as [[a s]|e] eqn:Hm; [|by intros [= <- <-]].
  destruct (commit s) as [d|e] eqn:Hc; [|by intros [= <- <-]].
  intros [= <- <-]. apply flushes in Hm as [H1 _]. apply commit_rtc in Hc. by etrans.
Qed.

Lemma commit_exec s db' : commit s = Ok db' -> exec_ops (s_pending s) (s_db s) = Ok db'.
Proof.
  unfold commit. destruct (flush s) as [[u s']|e] eqn:Hf; [|done].
  destruct (run_triggers _ _); [done|]. intros [= <-]. by msess.
Qed.

(** An exception leaves the tables as they were. *)
Lemma in_transaction_Err {A} env (m : M A) db e db' :
  in_transaction env m db = (Err e, db') -> db' = db.
Proof.
  unfold in_transaction. destruct (m _) as [[a s]|]; [destruct (commit s)|]; naive_solver.
Qed.

Lemma in_transaction_Ok_inv {A} env (m : M A) db a db' :
  in_transaction env m db = (Ok a, db') ->
  exists s, m (begin_session env db) = Ok (a, s) /\ commit s = Ok db'.
Proof.
  unfold in_transaction. destruct (m _) as [[a' s]|]; [|done].
  destruct (commit s) eqn:Hc; naive_solver.
Qed.

Lemma rtc_exec_ind (P : DB -> Prop) db db' :
  (forall op d d', P d -> exec_op op d = Ok d' -> P d') ->
  rtc exec_step db db' -> P db -> P db'.
Proof. intros HP Hr. induction Hr as [|d1 d2 d3 [op Hop] _ IH]; eauto. Qed.

Lemma schema_ok_rtc db db' : rtc exec_step db db' -> schema_ok db -> schema_ok db'.
Proof. intros Hr. apply rtc_exec_ind; [|done]. intros. by eapply exec_op_schema_ok. Qed.

Lemma schema_ok_exec_ops ops db db' : exec_ops ops db = Ok db' -> schema_ok db -> schema_ok db'.
Proof. intros H. by apply schema_ok_rtc, exec_ops_rtc with ops. Qed.

Lemma schema_ok_flushes {A} (m : M A) `{!Flushes m} s a s' :
  m s = Ok (a, s') -> schema_ok (s_db s) -> schema_ok (s_db s').
Proof. intros H. apply flushes in H as [H _]. by apply schema_ok_rtc. Qed.

(** No statement fails for reasons of its own. *)
Definition reliable (env : Env) : Prop := forall n, fault_at env n = None.

Lemma statement_reliable s : reliable (s_env s) -> statement s = Ok (tt, tick s).
Proof. intros Hr. unfold statement. by rewrite Hr. Qed.

Lemma flush_reliable s db :
  reliable (s_env s) -> exec_ops (s_pending s) (s_db s) = Ok db -> flush s = Ok (tt, flushed db s).
Proof.
  intros Hr He. unfold flush. rewrite (bind_Ok _ _ _ _ _ (statement_reliable s Hr)).
  unfold flush_pending. simpl. by rewrite He.
Qed.

Lemma select_balance_reliable a s :
  reliable (s_env s) ->
  select_balance_for_update a s =
  Ok (account_balances (s_db s) !! a,
      with_locks (match account_balances (s_db s) !! a with
                  | Some _ => [LockBalance a] | None => [] end) (tick s)).
Proof.
  intros Hr. unfold select_balance_for_update.
  rewrite (bind_Ok _ _ _ _ _ (statement_reliable s Hr)). unfold gets.
  unfold mbind, stm_bind. simpl. destruct (account_balances (s_db s) !! a); [done|].
  unfold mret, stm_ret, with_locks. simpl. by rewrite app_nil_r.
Qed.

Lemma select_payment_reliable i s :
  reliable (s_env s) ->
  select_payment_for_update i s =
  Ok (payments (s_db s) !! i,
      with_locks (match payments (s_db s) !! i with
                  | Some _ => [LockPayment i] | None => [] end) (tick s)).
Proof.
  intros Hr. unfold select_payment_for_update.
  rewrite (bind_Ok _ _ _ _ _ (statement_reliable s Hr)). unfold gets.
  unfold mbind, stm_bind. simpl. destruct (payments (s_db s) !! i); [done|].
  unfold mret, stm_ret, with_locks. simpl. by rewrite app_nil_r.
Qed.

(** A run that is [commit]ted without faults: what must hold for it to succeed. *)
Lemma commit_reliable s db :
  reliable (s_env s) -> exec_ops (s_pending s) (s_db s) = Ok db ->
  run_triggers db (s_deferred s ++ trigger_events (s_pending s)) = None -> commit s = Ok db.
Proof.
  intros Hr He Ht. unfold commit. rewrite (flush_reliable s db Hr He). simpl. by rewrite Ht.
Qed.

Lemma run_triggers_None db events :
  run_triggers db events = None <-> Forall (fun t => txn_net db t = 0) events.
Proof.
  induction events as [|t events IH]; simpl; [done|]. rewrite Forall_cons.
  unfold assert_ledger_balanced. destruct (Z.eqb_spec (txn_net db t) 0); simpl; [|naive_solver].
  rewrite IH. naive_solver.
Qed.

(** ** Runs between two flushes *)

(** Nothing pending at either end; environment, queued triggers and locks unchanged. *)
Record calm (s s' : Session) : Prop := {
  cm_env : s_env s' = s_env s;
  cm_pending : s_pending s' = [];
  cm_deferred : s_deferred s' = s_deferred s;
  cm_locks : s_locks s' = s_locks s;
}.

(** With nothing pending, COMMIT only runs the triggers. *)
Lemma commit_nothing_pending s db' :
  s_pending s = [] -> commit s = Ok db' -> db' = s_db s /\ run_triggers db' (s_deferred s) = None.
Proof.
  intros Hp. unfold commit. destruct (flush s) as [[u s1]|e] eqn:Hf; [|done].
  apply flush_Ok_inv in Hf as (db & Hex & ->). rewrite Hp in Hex. injection Hex as <-.
  simpl. rewrite Hp, app_nil_r. destruct (run_triggers _ _) eqn:Ht; [done|]. by intros [= <-].
Qed.

Lemma commit_nothing_pending_ok s :
  s_pending s = [] -> reliable (s_env s) -> run_triggers (s_db s) (s_deferred s) = None ->
  commit s = Ok (s_db s).
Proof. intros Hp Hr Ht. apply commit_reliable; rewrite ?Hp; simpl; rewrite ?app_nil_r; done. Qed.
