(* ===== verification/MigrationTheorems.v ===== *)
(** * MigrationTheorems: the migrations and the schema the program relies on

    Upgrading works on any database that does not use the names, and downgrading undoes it;
    the result is what the mapped classes of [app/domain/models.py] declare; and the checks
    of [Models.op_checks], which every other theorem relies on, are those the migrated
    tables make. *)

From S2P Require Import Prelude PyStd Domain Models Session Migrations.
From Stdlib Require Import String.

(** ** The migrated catalog *)

Definition migrated_tables (now : Z) : result ddl_error Catalog :=
  exec_ddls now (upgrade_001 ++ upgrade_002) empty_catalog.

Definition catalog_of (r : result ddl_error Catalog) : Catalog :=
  match r with Ok c => c | Err _ => empty_catalog end.

(** The catalog the two upgrades leave. *)
Definition migrated (now : Z) : Catalog := catalog_of (migrated_tables now).

Lemma migrated_ok now : migrated_tables now = Ok (migrated now).
Proof. reflexivity. Qed.

(** ** Other tables do not matter *)

(** Two catalogs side by side. *)
Definition beside (c e : Catalog) : Catalog :=
  mkCatalog (cat_tables c ∪ cat_tables e) (cat_functions c ∪ cat_functions e).

(** The names an operation creates or drops. *)
Definition names_of (d : Ddl) : list string :=
  match d with
  | CreateTable n _ _ | CreateIndex n _ _ _ | CreateOrReplaceFunction n | DropFunctionIfExists n
  | DropTable n => [n]
  | CreateTrigger _ t _ | InsertOnConflictDoNothing t _ | DropTriggerIfExists _ t => [t]
  end.

Definition schema_names : list string := List.concat (map names_of (upgrade_001 ++ upgrade_002)).

(** A catalog that neither has nor uses anything of these names. *)
Record apart (ns : list string) (e : Catalog) : Prop := {
  ap_tables : forall n, n ∈ ns -> cat_tables e !! n = None;
  ap_functions : forall n, n ∈ ns -> n ∉ cat_functions e;
  ap_uses : forall n k t, n ∈ ns -> cat_tables e !! k = Some t ->
    refers_to t n = false /\ existsb (fun ix => String.eqb (ix_name ix) n) (t_indexes t) = false /\
    existsb (fun tg => String.eqb (tg_function tg) n) (t_triggers t) = false;
}.

Lemma existsb_map_false {A} (f : string * A -> bool) (m : gmap string A) :
  existsb f (map_to_list m) = false <-> forall k v, m !! k = Some v -> f (k, v) = false.
Proof.
  rewrite <- not_true_iff_false, existsb_exists. split.
  - intros H k v Hk. apply not_true_iff_false. intros Hf. apply H. exists (k, v).
    by rewrite <- list_elem_of_In, elem_of_map_to_list.
  - intros H ([k v] & Hin & Hf). apply list_elem_of_In, elem_of_map_to_list in Hin.
    by rewrite (H _ _ Hin) in Hf.
Qed.

Section frame.
  Context (ns : list string) (e : Catalog) (Hap : apart ns e).

Lemma beside_lookup c k t :
  cat_tables c !! k = Some t -> cat_tables (beside c e) !! k = Some t.
Proof. intros H. simpl. by apply lookup_union_Some_l. Qed.

(** What holds of no table of [c] and of no table of [e] holds of none of both. *)
Lemma beside_existsb c f :
  existsb f (map_to_list (cat_tables c)) = false ->
  (forall k t, cat_tables e !! k = Some t -> f (k, t) = false) ->
  existsb f (map_to_list (cat_tables (beside c e))) = false.
Proof.
  rewrite !existsb_map_false. intros Hc He k t Hk. simpl in Hk.
  apply lookup_union_Some_raw in Hk as [Hk|[_ Hk]]; auto.
Qed.

Lemma beside_relation c n : n ∈ ns -> relation_exists c n = false -> relation_exists (beside c e) n = false.
Proof.
  intros Hn [H1 H2]%orb_false_iff. apply orb_false_iff. split.
  - apply bool_decide_eq_false in H1. apply bool_decide_eq_false. intros [t Ht]. simpl in Ht.
    apply lookup_union_Some_raw in Ht as [Ht|[_ Ht]]; [apply H1; by exists t|].
    by rewrite (ap_tables _ _ Hap n Hn) in Ht.
  - apply beside_existsb; [exact H2|]. intros k t Hk. by apply (ap_uses _ _ Hap n k t Hn Hk).
Qed.

Lemma beside_referenced c n : n ∈ ns -> referenced c n = false -> referenced (beside c e) n = false.
Proof.
  intros Hn H. apply beside_existsb; [exact H|]. intros k t Hk. simpl.
  destruct (ap_uses _ _ Hap n k t Hn Hk) as [-> _]. by rewrite andb_false_r.
Qed.

Lemma beside_function_used c n : n ∈ ns -> function_used c n = false -> function_used (beside c e) n = false.
Proof.
  intros Hn H. apply beside_existsb; [exact H|]. intros k t Hk. by apply (ap_uses _ _ Hap n k t Hn Hk).
Qed.

Lemma forallb_impl {A} (f g : A -> bool) l :
  (forall x, f x = true -> g x = true) -> forallb f l = true -> forallb g l = true.
Proof. intros Hfg. rewrite !forallb_forall. eauto. Qed.

Lemma beside_targets c cols : targets_exist c cols = true -> targets_exist (beside c e) cols = true.
Proof.
  apply forallb_impl. intros col. destruct (col_foreign_key col) as [fk|]; [|done].
  destruct (cat_tables c !! fk_table fk) as [t|] eqn:Ht; [|done]. by rewrite (beside_lookup _ _ _ Ht).
Qed.

Lemma beside_has_key c tbl v : has_key c tbl v = true -> has_key (beside c e) tbl v = true.
Proof.
  unfold has_key. destruct (cat_tables c !! tbl) as [t|] eqn:Ht; [|done]. by rewrite (beside_lookup _ _ _ Ht).
Qed.

Lemma beside_references c cols row :
  references_hold (has_key c) cols row = true -> references_hold (has_key (beside c e)) cols row = true.
Proof.
  apply forallb_impl. intros col. destruct (col_foreign_key col) as [fk|]; [|done].
  destruct (cell row (col_name col)); try done; apply beside_has_key.
Qed.

Lemma beside_put n t c : put_table n t (beside c e) = beside (put_table n t c) e.
Proof. unfold put_table, beside. simpl. by rewrite insert_union_l. Qed.

Lemma exec_ddl_beside now d c c' :
  Forall (fun n => n ∈ ns) (names_of d) -> exec_ddl now d c = Ok c' ->
  exec_ddl now d (beside c e) = Ok (beside c' e).
Proof.
  destruct d as [n cols ks|n tbl cols w|n|n tbl fn|tbl row|n tbl|n|n]; intros Hns; cbn [names_of] in Hns;
    apply Forall_cons in Hns as [Hns _]; unfold exec_ddl.
  - destruct (relation_exists c n) eqn:Hr; [done|]. rewrite (beside_relation _ _ Hns Hr).
    destruct (targets_exist c cols) eqn:Ht; [|done]. rewrite (beside_targets _ _ Ht).
    intros [= <-]. by rewrite beside_put.
  - destruct (relation_exists c n) eqn:Hr; [done|]. rewrite (beside_relation _ _ Hns Hr).
    destruct (cat_tables c !! tbl) as [t|] eqn:Ht; [|done]. rewrite (beside_lookup _ _ _ Ht).
    intros [= <-]. by rewrite beside_put.
  - intros [= <-]. unfold beside. simpl. by rewrite (assoc_L (∪)).
  - destruct (cat_tables c !! tbl) as [t|] eqn:Ht; [|done]. rewrite (beside_lookup _ _ _ Ht).
    destruct (bool_decide (fn ∈ cat_functions c)) eqn:Hf; [|done]. apply bool_decide_eq_true in Hf.
    rewrite bool_decide_eq_true_2 by (simpl; set_solver). simpl.
    destruct (existsb _ _); [done|]. intros [= <-]. by rewrite beside_put.
  - destruct (cat_tables c !! tbl) as [t|] eqn:Ht; [|done]. rewrite (beside_lookup _ _ _ Ht).
    destruct (negb _); [done|]. destruct (conflicts _ _); [by intros [= <-]|].
    destruct (references_hold (has_key c) (t_columns t) _) eqn:Href; [|done].
    rewrite (beside_references _ _ _ Href). intros [= <-]. by rewrite beside_put.
  - destruct (cat_tables c !! tbl) as [t|] eqn:Ht.
    + rewrite (beside_lookup _ _ _ Ht). intros [= <-]. by rewrite beside_put.
    + intros [= <-]. simpl. rewrite lookup_union_None_2; [done|done|by apply (ap_tables _ _ Hap)].
  - destruct (function_used c n) eqn:Hf; [done|]. rewrite (beside_function_used _ _ Hns Hf).
    intros [= <-]. unfold beside. simpl. do 2 f_equal. pose proof (ap_functions _ _ Hap n Hns). set_solver.
  - destruct (cat_tables c !! n) as [t|] eqn:Ht; [|done]. rewrite (beside_lookup _ _ _ Ht).
    destruct (referenced c n) eqn:Hr; [done|]. rewrite (beside_referenced _ _ Hns Hr).
    intros [= <-]. unfold beside. simpl. rewrite delete_union.
    by rewrite (delete_id (cat_tables e)) by (by apply (ap_tables _ _ Hap)).
Qed.

Lemma exec_ddls_beside now ds c c' :
  Forall (fun n => n ∈ ns) (List.concat (map names_of ds)) -> exec_ddls now ds c = Ok c' ->
  exec_ddls now ds (beside c e) = Ok (beside c' e).
Proof.
  revert c. induction ds as [|d ds IH]; intros c Hns; simpl; [by intros [= <-]|].
  simpl in Hns. apply Forall_app in Hns as [Hd Hds]. intros (c1 & H1 & H2)%result_bind_Ok_inv.
  rewrite (exec_ddl_beside _ _ _ _ Hd H1). simpl. by apply IH.
Qed.

End frame.

Lemma beside_empty e : beside empty_catalog e = e.
Proof. unfold beside. simpl. rewrite !(left_id_L ∅ (∪)). by destruct e. Qed.

(** ** Up and down *)

(** The same definitions with other rows. *)
Definition with_rows (rows : string -> list TableRow) (c : Catalog) : Catalog :=
  mkCatalog (map_imap (fun n t => Some {| t with t_rows := rows n |}) (cat_tables c)) (cat_functions c).

Lemma upgrade_001_ok now :
  exec_ddls now upgrade_001 empty_catalog = Ok (catalog_of (exec_ddls now upgrade_001 empty_catalog)).
Proof. reflexivity. Qed.

Lemma upgrade_002_ok now :
  exec_ddls now upgrade_002 (catalog_of (exec_ddls now upgrade_001 empty_catalog)) = Ok (migrated now).
Proof. reflexivity. Qed.

Lemma downgrade_002_ok now0 now rows :
  exec_ddls now downgrade_002 (with_rows rows (migrated now0)) =
  Ok (with_rows rows (catalog_of (exec_ddls now0 upgrade_001 empty_catalog))).
Proof. reflexivity. Qed.

Lemma downgrade_001_ok now0 now rows :
  exec_ddls now downgrade_001 (with_rows rows (catalog_of (exec_ddls now0 upgrade_001 empty_catalog))) =
  Ok empty_catalog.
Proof. reflexivity. Qed.

(** Every operation of the four lists names only names of the schema. *)
Lemma schema_named :
  Forall (fun ds => Forall (fun n => n ∈ schema_names) (List.concat (map names_of ds)))
    [upgrade_001; upgrade_002; downgrade_001; downgrade_002].
Proof. apply (bool_decide_eq_true_1 _). vm_compute. reflexivity. Qed.

(** The revision the chain ends with. *)
Definition head : string := revision processed_events_revision.

(** C34: the migrations go up and down.  On a database no revision has been applied to, and
    whose own tables and functions keep clear of the names, the upgrade to the head succeeds
    and adds the migrated tables; upgrading again does nothing; and whatever rows the program
    has written since, the downgrade to the base succeeds, every table dropped before the
    ones it refers to, and leaves the database as it was. *)
Theorem migrations_round_trip now now' e rows :
  apart schema_names e ->
  let upgraded c := mkDatabase (beside c e) (Some head) in
  upgrade_head now (mkDatabase e None) = (Ok tt, upgraded (migrated now)) /\
  upgrade_head now' (upgraded (migrated now)) = (Ok tt, upgraded (migrated now)) /\
  downgrade_base now' (upgraded (with_rows rows (migrated now))) = (Ok tt, mkDatabase e None).
Proof.
  intros Hap upgraded. pose proof schema_named as Hn. rewrite !Forall_cons in Hn.
  destruct Hn as (Hu1 & Hu2 & Hd1 & Hd2 & _). split; [|split; [reflexivity|]].
  - unfold upgrade_head, run_migrations, revisions. cbn [upgrade_along].
    rewrite decide_True by done. cbn [d_catalog]. rewrite <- (beside_empty e) at 1. cbn [upgrade initial_schema_revision].
    rewrite (exec_ddls_beside _ _ Hap _ _ _ _ Hu1 (upgrade_001_ok now)). cbn [mbind result_bind d_version d_catalog].
    rewrite decide_True by done. cbn [upgrade processed_events_revision].
    rewrite (exec_ddls_beside _ _ Hap _ _ _ _ Hu2 (upgrade_002_ok now)). reflexivity.
  - unfold downgrade_base, run_migrations, revisions. cbn [rev app downgrade_along].
    rewrite decide_True by done. cbn [d_catalog upgraded downgrade processed_events_revision].
    rewrite (exec_ddls_beside _ _ Hap _ _ _ _ Hd2 (downgrade_002_ok now now' rows)).
    cbn [mbind result_bind d_version d_catalog]. rewrite decide_True by done.
    cbn [downgrade initial_schema_revision].
    rewrite (exec_ddls_beside _ _ Hap _ _ _ _ Hd1 (downgrade_001_ok now now' rows)).
    cbn [mbind result_bind]. by rewrite beside_empty.
Qed.

(** A database with a table of its own and one that refers to it. *)
Definition customers : Catalog :=
  catalog_of (exec_ddls 0
    [ CreateTable "customers" [primary_key (column "id" UUID); timestamp "created_at"] [];
      CreateTable "orders" [primary_key (column "id" UUID); references "customers" "id" (column "customer" UUID)] [];
      CreateIndex "idx_orders_customer" "orders" ["customer"] None ]%string empty_catalog).

Lemma customers_apart : apart schema_names customers.
Proof.
  assert (Hall : Forall (fun n => cat_tables customers !! n = None /\ (n ∉ cat_functions customers) /\
    map_Forall (fun _ t => refers_to t n = false /\
      existsb (fun ix => String.eqb (ix_name ix) n) (t_indexes t) = false /\
      existsb (fun tg => String.eqb (tg_function tg) n) (t_triggers t) = false) (cat_tables customers)) schema_names).
  { repeat (apply Forall_cons; split; [split_and!;
      [reflexivity|by intros ?%elem_of_empty|apply (bool_decide_eq_true_1 _); vm_compute; reflexivity]|]).
    apply Forall_nil. done. }
  rewrite Forall_forall in Hall. split.
  - intros n Hn. apply (Hall n Hn).
  - intros n Hn. apply (Hall n Hn).
  - intros n k t Hn. destruct (Hall n Hn) as (_ & _ & H). exact (H k t).
Qed.

Lemma migrations_round_trip_witness :
  upgrade_head 5 (mkDatabase customers None) = (Ok tt, mkDatabase (beside (migrated 5) customers) (Some head)) /\
  downgrade_base 7 (mkDatabase (beside (with_rows (fun _ => [[("id"%string, VUuid 1)]]) (migrated 5)) customers)
    (Some head)) = (Ok tt, mkDatabase customers None).
Proof.
  destruct (migrations_round_trip 5 7 customers (fun _ => [[("id"%string, VUuid 1)]]) customers_apart)
    as (Hup & _ & Hdown).
  split; [exact Hup|exact Hdown].
Defined.

(** ** What the mapped classes ask for *)

Definition account_row (a : Account) : TableRow :=
  [ ("id", VUuid (acc_id a)); ("owner_type", VStr (OwnerType_name (acc_owner_type a)));
    ("owner_id", VStr (acc_owner_id a)); ("type", VStr (AccountType_name (acc_type a)));
    ("currency", VStr (acc_currency a)); ("created_at", VTime (acc_created_at a)) ]%string.

Definition balance_row (b : AccountBalance) : TableRow :=
  [ ("account_id", VUuid (ab_account_id b)); ("balance", VInt (ab_balance b));
    ("version", VInt (ab_version b)); ("updated_at", VTime (ab_updated_at b)) ]%string.

Definition rows_in (c : Catalog) (table : string) : list TableRow :=
  from_option t_rows [] (cat_tables c !! table).

Definition all_rows {K V} `{Countable K} (f : V -> TableRow) (m : gmap K V) : list TableRow :=
  map (fun kv => f kv.2) (map_to_list m).

(** C36: the migrations create what the models declare.  Every mapped class has its table with
    its columns in order, of the same type (or wide enough for the names of the enumeration),
    primary key, nullability and foreign key, and its constraints; there is no other table;
    the seeded rows are those of [initial_schema]; and the indexes the classes ask for are
    there but for two: on the provider reference of payments, which every webhook searches,
    and a full one on the creation time of events. *)
Theorem migrations_match_models :
  forallb (table_conforms (migrated 0)) orm_tables = true /\
  dom (cat_tables (migrated 0)) = list_to_set (map tablename orm_tables) /\
  rows_in (migrated 0) "accounts" ≡ₚ all_rows account_row (accounts initial_schema) /\
  rows_in (migrated 0) "account_balances" ≡ₚ all_rows balance_row (account_balances initial_schema) /\
  List.concat (map (missing_indexes (migrated 0)) orm_tables) =
    [("payments", ["psp_reference"]); ("outbox", ["created_at"])]%string.
Proof.
  split; [vm_compute; reflexivity|].
  split; [apply (bool_decide_eq_true_1 _); vm_compute; reflexivity|].
  split; [apply (Permutation_swap _ _ [])|]. split; [apply (Permutation_swap _ _ [])|]. vm_compute. reflexivity.
Qed.

(** ** The checks of a statement *)

Definition transaction_row (t : LedgerTransaction) : TableRow :=
  [ ("id", VUuid (lt_id t)); ("type", VStr (TransactionType_name (lt_type t)));
    ("reference_id", VUuid (lt_reference_id t)); ("created_at", VTime (lt_created_at t)) ]%string.

Definition entry_row (e : LedgerEntry) : TableRow :=
  [ ("id", VInt (le_id e)); ("transaction_id", VUuid (le_transaction_id e));
    ("account_id", VUuid (le_account_id e)); ("direction", VStr (Direction_name (le_direction e)));
    ("amount", VInt (le_amount e)); ("created_at", VTime (le_created_at e)) ]%string.

Definition or_null {A} (f : A -> value) (o : option A) : value := from_option f VNull o.

Definition payment_row (p : Payment) : TableRow :=
  [ ("id", VUuid (p_id p)); ("merchant_id", VStr (p_merchant_id p));
    ("payer_account", VUuid (p_payer_account p)); ("payee_account", VUuid (p_payee_account p));
    ("amount", VInt (p_amount p)); ("currency", VStr (p_currency p));
    ("status", VStr (PaymentStatus_value (p_status p))); ("psp_reference", or_null VStr (p_psp_reference p));
    ("refunded_amount", VInt (p_refunded_amount p)); ("version", VInt (p_version p));
    ("created_at", VTime (p_created_at p)); ("updated_at", VTime (p_updated_at p)) ]%string.

Definition refund_table_row (r : Refund) : TableRow :=
  [ ("id", VUuid (r_id r)); ("payment_id", VUuid (r_payment_id r)); ("amount", VInt (r_amount r));
    ("status", VStr (RefundStatus_value (r_status r))); ("created_at", VTime (r_created_at r)) ]%string.

Definition idempotency_row (i : IdempotencyRecord) : TableRow :=
  [ ("merchant_id", VStr (ir_merchant_id i)); ("idem_key", VStr (ir_idem_key i));
    ("request_hash", VStr (ir_request_hash i)); ("status", VStr (IdempotencyStatus_name (ir_status i)));
    ("resource_id", or_null VUuid (ir_resource_id i)); ("response_code", or_null VInt (ir_response_code i));
    ("response_body", or_null VJson (ir_response_body i)); ("created_at", VTime (ir_created_at i)) ]%string.

Definition outbox_row (o : Outbox) : TableRow :=
  [ ("id", VUuid (o_id o)); ("aggregate_type", VStr (o_aggregate_type o));
    ("aggregate_id", VUuid (o_aggregate_id o)); ("event_type", VStr (o_event_type o));
    ("payload", VJson (o_payload o)); ("created_at", VTime (o_created_at o));
    ("published_at", or_null VTime (o_published_at o)) ]%string.

Definition webhook_row (w : WebhookEvent) : TableRow :=
  [ ("psp_event_id", VStr (we_psp_event_id w)); ("payload", VStr (we_payload w));
    ("status", VStr (WebhookStatus_name (we_status w))); ("received_at", VTime (we_received_at w)) ]%string.

(** The table and the row of a statement, and whether it inserts it. *)
Definition statement_row (op : DbOp) : string * TableRow :=
  match op with
  | InsertAccountBalance b | UpdateAccountBalance b => ("account_balances", balance_row b)
  | InsertLedgerTransaction t => ("ledger_transactions", transaction_row t)
  | InsertLedgerEntry e => ("ledger_entries", entry_row e)
  | InsertPayment p | UpdatePayment p => ("payments", payment_row p)
  | InsertRefund r => ("refunds", refund_table_row r)
  | InsertIdempotency i | UpdateIdempotency i => ("idempotency_keys", idempotency_row i)
  | InsertOutbox o | UpdateOutbox o => ("outbox", outbox_row o)
  | InsertWebhookEvent w => ("webhook_events", webhook_row w)
  end%string.

Definition is_insert (op : DbOp) : bool :=
  match op with
  | UpdateAccountBalance _ | UpdatePayment _ | UpdateIdempotency _ | UpdateOutbox _ => false
  | _ => true
  end.

(** A row of the tables has the values of [row] in these columns, which are a key of the
    table; the other column lists are no keys. *)
Definition key_taken (db : DB) (table : string) (key : list value) : bool :=
  match key with
  | [VUuid i] =>
      if String.eqb table "accounts" then is_present (accounts db !! i)
      else if String.eqb table "account_balances" then is_present (account_balances db !! i)
      else if String.eqb table "ledger_transactions" then is_present (ledger_transactions db !! i)
      else if String.eqb table "payments" then is_present (payments db !! i)
      else if String.eqb table "refunds" then is_present (refunds db !! i)
      else if String.eqb table "outbox" then is_present (outbox db !! i)
      else false
  | [VStr e] => String.eqb table "webhook_events" && is_present (webhook_events db !! e)
  | [VStr m; VStr k] => String.eqb table "idempotency_keys" && is_present (idempotency_keys db !! (m, k))
  | _ => false
  end.

Definition keys_taken (db : DB) (table : string) (t : Table) (row : TableRow) : list bool :=
  map (fun cols => key_taken db table (map (cell row) cols)) (unique_keys (t_columns t) (t_constraints t)).

(** What the migrated table makes of a row: its columns, CHECKs and foreign keys accept it;
    an inserted row has new keys, an updated one is there. *)
Definition table_accepts (db : DB) (table : string) (row : TableRow) (insert : bool) : bool :=
  match cat_tables (migrated 0) !! table with
  | None => false
  | Some t =>
      row_fits (t_columns t) row && checks_hold (t_constraints t) row &&
      references_hold (fun tbl v => key_taken db tbl [v]) (t_columns t) row &&
      (if insert then negb (existsb id (keys_taken db table t row)) else forallb id (keys_taken db table t row))
  end.

Lemma bool_iff_andb (a b c d : bool) : (a = true <-> c = true) -> (b = true <-> d = true) ->
  a && b = true <-> c && d = true.
Proof. rewrite !andb_true_iff. tauto. Qed.

(** The names of every enumeration fit its column. *)
Lemma names_fit :
  (forall t, varchar 50 (TransactionType_name t) = true) /\ (forall d, varchar 20 (Direction_name d) = true) /\
  (forall s, varchar 50 (PaymentStatus_value s) = true) /\ (forall s, varchar 50 (RefundStatus_value s) = true) /\
  (forall s, varchar 50 (IdempotencyStatus_name s) = true) /\ (forall s, varchar 50 (WebhookStatus_name s) = true).
Proof. split_and!; by intros []. Qed.

Lemma optional_text_fits n (o : option string) :
  match or_null VStr o with VStr s => varchar n s | VNull => true | _ => false end = from_option (varchar n) true o.
Proof. by destruct o. Qed.

Lemma optional_int_fits (o : option Z) :
  match or_null VInt o with VInt z => int32_ok z | VNull => true | _ => false end = from_option int32_ok true o.
Proof. by destruct o. Qed.

Lemma optional_fits :
  (forall o : option uuid, match or_null VUuid o with VUuid _ => true | VNull => true | _ => false end = true) /\
  (forall o : option Z, match or_null VTime o with VTime _ => true | VNull => true | _ => false end = true) /\
  (forall o : option (list (string * json)),
     match or_null VJson o with VJson d => jsonb d | VNull => true | _ => false end =
     from_option jsonb true o).
Proof. split_and!; by intros []. Qed.

(** Evaluate what a table of the migrated catalog makes of a row. *)
Ltac eval_table :=
  unfold table_accepts;
  repeat match goal with
  | |- context [cat_tables (migrated 0) !! ?n] =>
      let t := eval vm_compute in (cat_tables (migrated 0) !! n) in
      change (cat_tables (migrated 0) !! n) with t
  end;
  cbn -[int64_ok int32_ok varchar jsonb no_nul Z.leb Z.ltb].

Ltac names_fit_done :=
  destruct names_fit as (Hn1 & Hn2 & Hn3 & Hn4 & Hn5 & Hn6); destruct optional_fits as (Ho1 & Ho2 & Ho3);
  rewrite ?Hn1, ?Hn2, ?Hn3, ?Hn4, ?Hn5, ?Hn6, ?Ho1, ?Ho2, ?Ho3, ?optional_text_fits, ?optional_int_fits.

(** C17: the checks of the model are those of the schema.  On tables that keep the schema's
    invariant, every INSERT and UPDATE of the program is accepted by [op_check], which all
    theorems about transactions go by, exactly when the table the migrations create accepts
    the row: every column of its type and width and not NULL where required, the CHECKs and
    foreign keys hold, and the primary and unique keys are new (or, for an UPDATE, there). *)
Theorem op_check_is_the_schema op db :
  schema_ok db ->
  op_check op db = None <-> table_accepts db (statement_row op).1 (statement_row op).2 (is_insert op) = true.
Proof.
  intros Hso. unfold op_check. rewrite first_violation_None.
  destruct op; unfold op_checks, refund_row_checks, payment_row_checks, balance_row_checks,
    idempotency_row_checks, outbox_row_checks, is_absent;
    cbn [statement_row fst snd is_insert]; eval_table; names_fit_done;
    rewrite ?Forall_app, ?Forall_cons, ?Forall_nil; cbn [fst];
    rewrite ?orb_false_r, ?andb_true_r, ?andb_true_iff; try tauto.
  rewrite is_present_spec. split; [|tauto]. intros H. pose proof (balance_row_account db (ab_account_id b) Hso).
  rewrite (is_present_spec (accounts db !! _)). tauto.
Qed.

(** The seeded tables of a new database keep the invariant, and take the first balance row of
    no account that does not exist. *)
Lemma initial_schema_ok : schema_ok initial_schema.
Proof.
  constructor; simpl; try (intros *; rewrite lookup_empty; done); try done.
  - intros a b Hb. unfold seed_balances in Hb. rewrite lookup_insert_Some, lookup_singleton_Some in Hb.
    unfold int64_max. destruct Hb as [[<- <-]|[_ [<- <-]]]; simpl;
      (split; [done|]; split; [lia|]; split; [done|by eexists]).
  - intros e He. by apply not_elem_of_nil in He.
Qed.

Lemma op_check_is_the_schema_witness :
  table_accepts initial_schema "account_balances" (balance_row (mkAccountBalance 7 0 0 0)) true = false /\
  table_accepts initial_schema "outbox" (outbox_row (mkOutbox 5 "payment" 9 "payment.processing" [] 0 None)) true = true.
Proof.
  split.
  - apply not_true_is_false. intros H.
    apply (op_check_is_the_schema (InsertAccountBalance (mkAccountBalance 7 0 0 0)) initial_schema initial_schema_ok) in H.
    discriminate H.
  - apply (op_check_is_the_schema (InsertOutbox (mkOutbox 5 "payment" 9 "payment.processing" [] 0 None))
      initial_schema initial_schema_ok). reflexivity.
Defined.

