(* ===== verification/Ledger.v ===== *)
(** * Ledger: [app/application/ledger_service.py]

    [validate_balanced] and [post] of [LedgerService], with the row locks in sorted
    account order, the balance rows created on first use, and the loop that writes the
    entries and maintains the materialized balances.

    The specification of a posting list is [delta]: the signed change of each account.
    [post_effect] is what a successful [post] does to the tables; [post_progress] says
    when it succeeds. *)

From S2P Require Import Prelude PyStd Domain Models Session.
From Stdlib Require Import String.

(** ** Definitions *)

Record Posting := mkPosting {
  po_account_id : uuid;
  po_direction : Direction;
  po_amount : Z;
}.

(** The loop of [validate_balanced]: debits add, credits subtract. *)
Fixpoint net_loop (net : Z) (postings : list Posting) : result exn Z :=
  match postings with
  | [] => Ok net
  | p :: ps =>
      if po_amount p <=? 0 then
        Err (ValueError ("Posting amount must be strictly positive: " +:+ pretty (po_amount p)))
      else
        match po_direction p with
        | DEBIT => net_loop (net + po_amount p) ps
        | CREDIT => net_loop (net - po_amount p) ps
        end
  end.

Definition validate_balanced (postings : list Posting) : result exn unit :=
  if (List.length postings <? 2)%nat then Err (LedgerImbalanceException 0)
  else
    net ← net_loop 0 postings;
    if negb (net =? 0) then Err (LedgerImbalanceException net) else Ok tt.

(** [sorted(list(set(p.account_id for p in postings)))] *)
Definition sorted_account_ids (postings : list Posting) : list uuid :=
  merge_sort N.le (elements (list_to_set (map po_account_id postings) : gset N)).

(** A missing balance row is created at zero and flushed; its transaction holds it. *)
Definition init_balance_row (acc_id : uuid) : M AccountBalance :=
  updated_at ← now;
  let balance_row := mkAccountBalance acc_id 0 0 updated_at in
  session_add (InsertAccountBalance balance_row);;
  flush;;
  lock_row (LockBalance acc_id);;
  mret balance_row.

Fixpoint lock_balances (ids : list uuid) (balances_map : gmap uuid AccountBalance)
  : M (gmap uuid AccountBalance) :=
  match ids with
  | [] => mret balances_map
  | acc_id :: ids' =>
      row ← select_balance_for_update acc_id;
      balance_row ← (match row with Some b => mret b | None => init_balance_row acc_id end);
      lock_balances ids' (<[acc_id := balance_row]> balances_map)
  end.

(** One iteration of the posting loop: the entry, the funds check, the new balance. *)
Definition apply_posting (txn_id : uuid) (p : Posting) (balances_map : gmap uuid AccountBalance)
  : M (gmap uuid AccountBalance) :=
  created_at ← now;
  session_add (InsertLedgerEntry
    (mkLedgerEntry 0 txn_id (po_account_id p) (po_direction p) (po_amount p) created_at));;
  match balances_map !! po_account_id p with
  | None => mthrow KeyError
  | Some bal =>
      new_balance ← (match po_direction p with
        | DEBIT =>
            if ab_balance bal <? po_amount p
            then mthrow (InsufficientFundsException (po_account_id p) (ab_balance bal)
                           (po_amount p))
            else mret (ab_balance bal - po_amount p)
        | CREDIT => mret (ab_balance bal + po_amount p)
        end);
      updated_at ← now;
      mret (<[po_account_id p :=
        mkAccountBalance (ab_account_id bal) new_balance (ab_version bal + 1) updated_at]>
        balances_map)
  end.

Fixpoint apply_postings (txn_id : uuid) (postings : list Posting)
    (balances_map : gmap uuid AccountBalance) : M (gmap uuid AccountBalance) :=
  match postings with
  | [] => mret balances_map
  | p :: ps => bm ← apply_posting txn_id p balances_map; apply_postings txn_id ps bm
  end.

(** The balance objects changed by the loop, pending as UPDATEs. *)
Fixpoint mark_dirty (ids : list uuid) (balances_map : gmap uuid AccountBalance) : M unit :=
  match ids with
  | [] => mret tt
  | acc_id :: ids' =>
      (match balances_map !! acc_id with
       | Some b => session_add (UpdateAccountBalance b)
       | None => mret tt
       end);;
      mark_dirty ids' balances_map
  end.

Definition post (transaction_type : TransactionType) (reference_id : uuid)
    (postings : list Posting) : M LedgerTransaction :=
  lift (validate_balanced postings);;
  txn_id ← uuid4;
  created_at ← now;
  let txn := mkLedgerTransaction txn_id transaction_type reference_id created_at in
  session_add (InsertLedgerTransaction txn);;
  flush;;
  let ids := sorted_account_ids postings in
  balances_map ← lock_balances ids ∅;
  balances_map ← apply_postings txn_id postings balances_map;
  mark_dirty ids balances_map;;
  flush;;
  mret txn.

(** ** Specification *)

(** Signed change of account [a] by one posting: a credit raises the balance. *)
Definition posting_delta (a : uuid) (p : Posting) : Z :=
  if decide (po_account_id p = a)
  then match po_direction p with DEBIT => - po_amount p | CREDIT => po_amount p end
  else 0.

Definition delta (postings : list Posting) (a : uuid) : Z := lsum (posting_delta a) postings.

(** The first debit its account cannot cover, with the balance it meets: what the
    posting loop raises [InsufficientFundsException] for. *)
Fixpoint first_unfunded (bal : uuid -> Z) (postings : list Posting) : option (Posting * Z) :=
  match postings with
  | [] => None
  | p :: ps =>
      let b := bal (po_account_id p) in
      if decide (po_direction p = DEBIT /\ b < po_amount p) then Some (p, b)
      else first_unfunded (fun a => bal a + posting_delta a p) ps
  end.

(** Number of postings on an account: how often its row's version is incremented. *)
Definition touches (postings : list Posting) (a : uuid) : Z :=
  lsum (fun p => if decide (po_account_id p = a) then 1 else 0) postings.

#[global] Arguments delta : simpl never.
#[global] Arguments touches : simpl never.

(** The balance and version an account has: zero when it has no row yet. *)
Definition row_balance (bm : gmap uuid AccountBalance) (a : uuid) : Z :=
  from_option ab_balance 0 (bm !! a).
Definition row_version (bm : gmap uuid AccountBalance) (a : uuid) : Z :=
  from_option ab_version 0 (bm !! a).
Definition balance_of (db : DB) (a : uuid) : Z := row_balance (account_balances db) a.
Definition version_of (db : DB) (a : uuid) : Z := row_version (account_balances db) a.

(** The entry a posting becomes. *)
Definition entry_for (txn_id : uuid) (p : Posting) (e : LedgerEntry) : Prop :=
  le_transaction_id e = txn_id /\ le_account_id e = po_account_id p /\
  le_direction e = po_direction p /\ le_amount e = po_amount p.

(** Signed amount of a posting as the trigger and the audit sign it. *)
Definition posting_signed (p : Posting) : Z :=
  match po_direction p with DEBIT => po_amount p | CREDIT => - po_amount p end.

(** Everything of [db] except the ledger's own tables is as in [db0]. *)
Record ledger_frame (db0 db : DB) : Prop := {
  lf_accounts : accounts db = accounts db0;
  lf_payments : payments db = payments db0;
  lf_refunds : refunds db = refunds db0;
  lf_idem : idempotency_keys db = idempotency_keys db0;
  lf_outbox : outbox db = outbox db0;
  lf_webhooks : webhook_events db = webhook_events db0;
}.

(** What [post] does: [db0] is the state its first flush leaves, without the new
    transaction row. *)
Record post_effect (txn : LedgerTransaction) (postings : list Posting) (db0 db : DB) : Prop := {
  pe_frame : ledger_frame db0 db;
  pe_fresh : ledger_transactions db0 !! lt_id txn = None;
  pe_txn : ledger_transactions db = <[lt_id txn := txn]> (ledger_transactions db0);
  pe_entries : exists es, ledger_entries db = ledger_entries db0 ++ es /\
    Forall2 (entry_for (lt_id txn)) postings es;
  pe_balance : forall a, balance_of db a = balance_of db0 a + delta postings a;
  pe_version : forall a, version_of db a = version_of db0 a + touches postings a;
  pe_dom : dom (account_balances db) =
    dom (account_balances db0) ∪ list_to_set (map po_account_id postings);
  pe_untouched : forall a, a ∉ map po_account_id postings ->
    account_balances db !! a = account_balances db0 !! a;
}.

(** ** [validate_balanced] *)

Lemma net_loop_Ok net ps m :
  net_loop net ps = Ok m <->
  Forall (fun p => 0 < po_amount p) ps /\ m = net + lsum posting_signed ps.
Proof.
  revert net. induction ps as [|p ps IH]; intros net; simpl.
  - split; [intros [= <-]|intros [_ ->]; f_equal]; [split; [constructor|]|]; lia.
  - rewrite Forall_cons. unfold posting_signed at 1.
    destruct (Z.leb_spec (po_amount p) 0).
    + split; [done | intros [[? _] _]; lia].
    + destruct (po_direction p); rewrite IH; intuition lia.
Qed.

Lemma validate_balanced_Ok ps :
  validate_balanced ps = Ok tt <->
  (2 <= List.length ps)%nat /\ Forall (fun p => 0 < po_amount p) ps /\ lsum posting_signed ps = 0.
Proof.
  unfold validate_balanced. destruct (Nat.ltb_spec (List.length ps) 2); [split; [done|lia]|].
  destruct (net_loop 0 ps) as [m|e] eqn:Hn; simpl.
  - apply net_loop_Ok in Hn as [Hpos ->]. destruct (Z.eqb_spec (0 + lsum posting_signed ps) 0);
      simpl; (split; [try done | try done]); intuition lia.
  - split; [done|]. intros (_ & Hpos & _).
    assert (net_loop 0 ps = Ok (0 + lsum posting_signed ps)) by (apply net_loop_Ok; done).
    congruence.
Qed.

(** ** Lock order *)

Lemma elem_of_sorted_ids ps a : a ∈ sorted_account_ids ps <-> a ∈ map po_account_id ps.
Proof.
  unfold sorted_account_ids. rewrite merge_sort_Permutation, elem_of_elements.
  apply elem_of_list_to_set.
Qed.

Lemma sorted_ids_NoDup ps : NoDup (sorted_account_ids ps).
Proof. unfold sorted_account_ids. rewrite merge_sort_Permutation. apply NoDup_elements. Qed.

Lemma sorted_ids_StronglySorted ps : StronglySorted N.lt (sorted_account_ids ps).
Proof.
  pose proof (sorted_ids_NoDup ps) as Hnd.
  assert (Hs : StronglySorted N.le (sorted_account_ids ps)) by apply (StronglySorted_merge_sort _).
  induction Hs as [|a l Hs IH Hall]; constructor.
  - apply IH. by apply NoDup_cons in Hnd as [_ ?].
  - apply NoDup_cons in Hnd as [Ha _]. rewrite Forall_forall in *. intros b Hb.
    specialize (Hall b Hb). assert (b <> a) by congruence. lia.
Qed.

(** ** The signed sums of a posting list *)

Lemma delta_cons p ps a : delta (p :: ps) a = posting_delta a p + delta ps a.
Proof. done. Qed.

Lemma posting_delta_ne a p : a <> po_account_id p -> posting_delta a p = 0.
Proof. intros Hne. unfold posting_delta. by rewrite decide_False. Qed.

Lemma delta_not_touched ps a : a ∉ map po_account_id ps -> delta ps a = 0 /\ touches ps a = 0.
Proof.
  induction ps as [|p ps IH]; [done|]. cbn [map]. rewrite not_elem_of_cons. intros [Hne Hps].
  destruct (IH Hps) as [Hd Ht]. unfold delta, touches in *. rewrite !lsum_cons.
  rewrite posting_delta_ne by done. rewrite decide_False by done. lia.
Qed.

Lemma row_balance_insert bm a b c :
  row_balance (<[a := b]> bm) c = if decide (a = c) then ab_balance b else row_balance bm c.
Proof. unfold row_balance. rewrite lookup_insert. by case_decide. Qed.

Lemma row_version_insert bm a b c :
  row_version (<[a := b]> bm) c = if decide (a = c) then ab_version b else row_version bm c.
Proof. unfold row_version. rewrite lookup_insert. by case_decide. Qed.

(** ** Locking the balance rows *)

(** Rows filed under their own account. *)
Definition keyed (bm : gmap uuid AccountBalance) : Prop :=
  forall a b, bm !! a = Some b -> ab_account_id b = a.

(** What creating missing rows changes: only new rows, all at zero. *)
Record rows_created (ids : list uuid) (db0 db : DB) : Prop := {
  rc_frame : ledger_frame db0 db;
  rc_txns : ledger_transactions db = ledger_transactions db0;
  rc_entries : ledger_entries db = ledger_entries db0;
  rc_balance : forall a, balance_of db a = balance_of db0 a;
  rc_version : forall a, version_of db a = version_of db0 a;
  rc_dom : dom (account_balances db) = dom (account_balances db0) ∪ list_to_set ids;
  rc_untouched : forall a, a ∉ ids -> account_balances db !! a = account_balances db0 !! a;
}.

#[global] Instance ledger_frame_preorder : PreOrder ledger_frame.
Proof.
  split.
  - intros db. by constructor.
  - intros d1 d2 d3 [] []. constructor; congruence.
Qed.

Lemma rows_created_skip a ids db0 db :
  is_Some (account_balances db0 !! a) -> rows_created ids db0 db -> rows_created (a :: ids) db0 db.
Proof.
  intros Ha%elem_of_dom []. constructor; try done.
  - simpl. rewrite rc_dom0. set_solver.
  - intros c Hc. apply rc_untouched0. set_solver.
Qed.

Lemma rows_created_cons a t ids db0 db :
  account_balances db0 !! a = None ->
  rows_created ids (op_write (InsertAccountBalance (mkAccountBalance a 0 0 t)) db0) db ->
  rows_created (a :: ids) db0 db.
Proof.
  intros Ha [Hf Ht He Hb Hv Hd Hu]. simpl in *. constructor; simpl in *; try done.
  - etrans; [|exact Hf]. by constructor.
  - intros c. rewrite Hb. unfold balance_of. simpl. rewrite row_balance_insert.
    case_decide; [subst; unfold row_balance; by rewrite Ha | done].
  - intros c. rewrite Hv. unfold version_of. simpl. rewrite row_version_insert.
    case_decide; [subst; unfold row_version; by rewrite Ha | done].
  - rewrite Hd. rewrite dom_insert_L. set_solver.
  - intros c [Hne Hc]%not_elem_of_cons. by rewrite Hu, lookup_insert_ne.
Qed.

Lemma rows_created_refl db : rows_created [] db db.
Proof. constructor; try done. set_solver. Qed.

(** A run of [lock_balances]: it returns the rows, locks them in the order of [ids], and
    the rows it returns are those of the table. *)
Lemma lock_balances_spec ids bm s bm' s' :
  NoDup ids -> s_pending s = [] -> lock_balances ids bm s = Ok (bm', s') ->
  rows_created ids (s_db s) (s_db s') /\
  s_pending s' = [] /\ s_deferred s' = s_deferred s /\ s_env s' = s_env s /\
  s_locks s' = s_locks s ++ map LockBalance ids /\
  (forall a, bm' !! a = if decide (a ∈ ids) then account_balances (s_db s') !! a else bm !! a) /\
  (forall a, is_Some (account_balances (s_db s) !! a) ->
     account_balances (s_db s') !! a = account_balances (s_db s) !! a).
Proof.
  revert bm s. induction ids as [|a ids IH]; intros bm s Hnd Hp H; simpl in H.
  { msess. split; [apply rows_created_refl|]. by rewrite app_nil_r. }
  apply NoDup_cons in Hnd as [Ha Hnd].
  inv_bind_as H row s1 Hrow Hk1. inv_bind_as Hk1 b s2 Hb Hk2. msess.
  destruct (account_balances (s_db s) !! a) as [row|] eqn:Hrow.
  - msess. apply IH in Hk2 as (Hrc & Hp' & Hd & He & Hl & Hbm & Hold); [|done..].
    simpl in *. rewrite <- app_assoc in Hl.
    split; [by apply rows_created_skip; [eexists|]|].
    repeat (split; [done|]). split; [|done]. intros c. rewrite Hbm.
    destruct (decide (c ∈ ids)) as [Hc|Hc].
    + rewrite decide_True; [done | by right].
    + destruct (decide (c = a)) as [->|Hne].
      * rewrite lookup_insert_eq, decide_True by left. rewrite Hold; [done | by eexists].
      * rewrite lookup_insert_ne, decide_False; [done| |done].
        rewrite not_elem_of_cons. done.
  - unfold init_balance_row, lock_row in Hb. msess. simpl in *. rewrite Hp in *.
    simpl in Hexec. apply result_bind_Ok_inv in Hexec as (d & [_ ->]%exec_op_Ok & [= <-]).
    apply IH in Hk2 as (Hrc & Hp' & Hd & He & Hl & Hbm & Hold); [|done..].
    simpl in *. rewrite app_nil_r in *. rewrite <- app_assoc in Hl.
    split; [by eapply rows_created_cons|].
    repeat (split; [done|]). split.
    + intros c. rewrite Hbm. destruct (decide (c ∈ ids)) as [Hc|Hc].
      * rewrite decide_True; [done | by right].
      * destruct (decide (c = a)) as [->|Hne].
        -- rewrite lookup_insert_eq, decide_True by left.
           rewrite Hold; rewrite lookup_insert_eq; by eexists.
        -- rewrite lookup_insert_ne, decide_False; [done| |done].
           rewrite not_elem_of_cons. done.
    + intros c Hc. assert (c <> a) by (intros ->; rewrite Hrow in Hc; by destruct Hc).
      rewrite Hold; rewrite lookup_insert_ne; done.
Qed.

(** ** The posting loop *)

Lemma first_unfunded_ext f g ps :
  (forall a, f a = g a) -> first_unfunded f ps = first_unfunded g ps.
Proof.
  revert f g. induction ps as [|p ps IH]; intros f g Hfg; simpl; [done|].
  rewrite Hfg. case_decide; [done|]. apply IH. intros a. by rewrite Hfg.
Qed.

(** The session after the loop has added the entries [es]. *)
Definition with_entries (es : list LedgerEntry) (n : nat) (s : Session) : Session :=
  mkSession (s_db s) (s_pending s ++ map InsertLedgerEntry es) (s_deferred s) (s_locks s)
    (s_env s) n.

(** [bm'] is [bm] after the postings [ps]. *)
Record postings_applied (ps : list Posting) (bm bm' : gmap uuid AccountBalance) : Prop := {
  pa_balance : forall a, row_balance bm' a = row_balance bm a + delta ps a;
  pa_version : forall a, row_version bm' a = row_version bm a + touches ps a;
  pa_dom : dom bm' = dom bm;
  pa_keyed : keyed bm -> keyed bm';
}.

Lemma postings_applied_nil bm : postings_applied [] bm bm.
Proof. constructor; [intros; unfold delta, touches; simpl; lia.. | done | done]. Qed.

Lemma postings_applied_cons p ps bm b bm' t :
  bm !! po_account_id p = Some b ->
  postings_applied ps
    (<[po_account_id p := mkAccountBalance (ab_account_id b)
         (ab_balance b + posting_delta (po_account_id p) p) (ab_version b + 1) t]> bm) bm' ->
  postings_applied (p :: ps) bm bm'.
Proof.
  intros Hb [Hbal Hver Hdom Hkey]. constructor.
  - intros a. rewrite Hbal, row_balance_insert, delta_cons. case_decide as Ha; simpl.
    + subst. unfold row_balance. rewrite Hb. simpl. lia.
    + rewrite posting_delta_ne by congruence. lia.
  - intros a. rewrite Hver, row_version_insert. unfold touches. rewrite lsum_cons.
    case_decide as Ha; [subst; unfold row_version; rewrite Hb|]; simpl; lia.
  - rewrite Hdom, dom_insert_L. assert (po_account_id p ∈ dom bm) by (apply elem_of_dom; eauto).
    set_solver.
  - intros Hk. apply Hkey. intros a c Hc. rewrite lookup_insert in Hc.
    case_decide; simplify_eq/=; [|by apply Hk]. by apply Hk.
Qed.

Lemma apply_posting_eq txn_id p bm b s :
  bm !! po_account_id p = Some b ->
  apply_posting txn_id p bm s =
  if decide (po_direction p = DEBIT /\ ab_balance b < po_amount p)
  then Err (InsufficientFundsException (po_account_id p) (ab_balance b) (po_amount p))
  else
    let e := mkLedgerEntry 0 txn_id (po_account_id p) (po_direction p) (po_amount p)
               (now_at (s_env s) (s_tick s)) in
    Ok (<[po_account_id p := mkAccountBalance (ab_account_id b)
           (ab_balance b + posting_delta (po_account_id p) p) (ab_version b + 1)
           (now_at (s_env s) (S (s_tick s)))]> bm,
        with_entries [e] (S (S (s_tick s))) s).
Proof.
  intros Hb. unfold apply_posting.
  rewrite (bind_Ok _ _ _ _ _ (now_eq s)), (bind_Ok _ _ _ _ _ (session_add_eq _ _)), Hb.
  unfold posting_delta. rewrite (decide_True (P := po_account_id p = po_account_id p)) by done.
  destruct (po_direction p).
  - destruct (Z.ltb_spec (ab_balance b) (po_amount p)).
    + by rewrite decide_True.
    + rewrite decide_False by (intros [_ ?]; lia). done.
  - by rewrite decide_False by (intros [? _]; done).
Qed.

(** The loop, on every input whose accounts have rows: it raises at the first unfunded
    debit, and otherwise adds one entry per posting and applies them to the rows. *)
Lemma apply_postings_spec txn_id ps bm s :
  (forall p, p ∈ ps -> is_Some (bm !! po_account_id p)) ->
  match first_unfunded (row_balance bm) ps with
  | Some (p, b) =>
      apply_postings txn_id ps bm s =
      Err (InsufficientFundsException (po_account_id p) b (po_amount p))
  | None =>
      exists bm' es n,
        apply_postings txn_id ps bm s = Ok (bm', with_entries es n s) /\
        Forall2 (entry_for txn_id) ps es /\ postings_applied ps bm bm'
  end.
Proof.
  revert bm s. induction ps as [|p ps IH]; intros bm s Hall; simpl.
  { exists bm, [], (s_tick s). split; [|split; [constructor | apply postings_applied_nil]].
    unfold with_entries. simpl. rewrite app_nil_r. by destruct s. }
  destruct (Hall p) as [b Hb]; [left|].
  assert (Hrb : row_balance bm (po_account_id p) = ab_balance b)
    by (unfold row_balance; by rewrite Hb).
  rewrite Hrb. unfold mbind, stm_bind. rewrite (apply_posting_eq _ _ _ _ _ Hb).
  case_decide; [done|].
  cbv zeta. set (bm1 := <[_ := _]> bm).
  match goal with |- context [with_entries ?l ?n s] => set (s1 := with_entries l n s) end.
  specialize (IH bm1 s1). rewrite (first_unfunded_ext _ (row_balance bm1)).
  2:{ intros a. unfold bm1. rewrite row_balance_insert. case_decide; simpl.
      - subst a. by rewrite Hrb.
      - rewrite posting_delta_ne by congruence. lia. }
  destruct (first_unfunded (row_balance bm1) ps) as [[q c]|].
  - apply IH. intros q' Hq. unfold bm1. apply is_Some_insert. apply Hall. by right.
  - destruct IH as (bm' & es & n & Heq & Hes & Happ).
    { intros q' Hq. unfold bm1. apply is_Some_insert. apply Hall. by right. }
    eexists bm', (_ :: es), n. split; [|split].
    + rewrite Heq. unfold s1, with_entries. simpl. by rewrite <- app_assoc.
    + constructor; [done | exact Hes].
    + by eapply postings_applied_cons.
Qed.

(** ** The final flush *)

(** The UPDATEs of the balance objects, in lock order. *)
Definition dirty_ops (ids : list uuid) (bm : gmap uuid AccountBalance) : list DbOp :=
  omap (fun a => UpdateAccountBalance <$> bm !! a) ids.

Lemma with_pending_app ops1 ops2 s :
  with_pending ops2 (with_pending ops1 s) = with_pending (ops1 ++ ops2) s.
Proof. unfold with_pending. simpl. by rewrite app_assoc. Qed.

Lemma with_pending_nil s : with_pending [] s = s.
Proof. unfold with_pending. rewrite app_nil_r. by destruct s. Qed.

Lemma mark_dirty_eq ids bm s : mark_dirty ids bm s = Ok (tt, with_pending (dirty_ops ids bm) s).
Proof.
  revert s. induction ids as [|a ids IH]; intros s; simpl; [by rewrite with_pending_nil|].
  unfold dirty_ops. simpl. destruct (bm !! a) as [b|].
  - rewrite (bind_Ok _ _ _ _ _ (session_add_eq _ _)), IH. apply f_equal. by rewrite with_pending_app.
  - apply IH.
Qed.

(** Same entry, with the id the table gives it. *)
Definition numbered (e e' : LedgerEntry) : Prop := exists i, e' = {| e with le_id := i |}.

Lemma write_entries es db :
  exists es', write_ops (map InsertLedgerEntry es) db =
    {| db with ledger_entries := ledger_entries db ++ es' |} /\ Forall2 numbered es es'.
Proof.
  revert db. induction es as [|e es IH]; intros db; simpl.
  - exists []. split; [rewrite app_nil_r; by destruct db | constructor].
  - edestruct IH as (es' & -> & Hes). eexists (_ :: es'). simpl. split.
    + by rewrite <- app_assoc.
    + constructor; [by eexists | done].
Qed.

Lemma write_dirty ids bm db :
  keyed bm -> (forall a, a ∈ ids -> is_Some (bm !! a)) ->
  exists bals, write_ops (dirty_ops ids bm) db = {| db with account_balances := bals |} /\
    forall a, bals !! a = if decide (a ∈ ids) then bm !! a else account_balances db !! a.
Proof.
  intros Hk. revert db. induction ids as [|a ids IH]; intros db Hall; simpl.
  { exists (account_balances db). split; [by destruct db | done]. }
  destruct (Hall a) as [b Hb]; [left|]. unfold dirty_ops. simpl. rewrite Hb. simpl.
  rewrite (Hk a b Hb).
  edestruct IH as (bals & Hw & Hl); [intros c Hc; apply Hall; by right|].
  unfold dirty_ops in Hw. rewrite Hw. exists bals. split; [done|]. intros c. rewrite Hl. simpl.
  destruct (decide (c ∈ ids)); [by rewrite decide_True by (by right)|].
  rewrite lookup_insert. case_decide as Hc.
  - subst. by rewrite decide_True by left.
  - rewrite decide_False; [done|]. rewrite not_elem_of_cons. split; [congruence|done].
Qed.

Lemma entry_for_numbered txn_id ps es es' :
  Forall2 (entry_for txn_id) ps es -> Forall2 numbered es es' ->
  Forall2 (entry_for txn_id) ps es'.
Proof.
  intros H. revert es'. induction H as [|p e ps es He H IH]; intros es' Hn;
    inversion Hn as [|? ? ? ? [i ->] Hn']; subst; constructor; [exact He | by apply IH].
Qed.

Lemma trigger_events_app ops1 ops2 :
  trigger_events (ops1 ++ ops2) = trigger_events ops1 ++ trigger_events ops2.
Proof. apply omap_app. Qed.

Lemma trigger_events_dirty ids bm : trigger_events (dirty_ops ids bm) = [].
Proof.
  induction ids as [|a ids IH]; [done|]. unfold dirty_ops in *. simpl.
  destruct (bm !! a); simpl; done.
Qed.

Lemma trigger_events_entries txn_id ps es :
  Forall2 (entry_for txn_id) ps es ->
  trigger_events (map InsertLedgerEntry es) = replicate (List.length ps) txn_id.
Proof. induction 1 as [|p e ps es [He _] H IH]; [done|]. simpl. by rewrite He, IH. Qed.

(** ** [post] goes through executed statements only *)

#[global] Instance Flushes_init_balance_row a : Flushes (init_balance_row a).
Proof. unfold init_balance_row. solve_flushes. Qed.

#[global] Instance Flushes_lock_balances ids bm : Flushes (lock_balances ids bm).
Proof. revert bm. induction ids as [|a ids IH]; intros bm; simpl; solve_flushes. Qed.

#[global] Instance Flushes_apply_posting i p bm : Flushes (apply_posting i p bm).
Proof. unfold apply_posting. solve_flushes. Qed.

#[global] Instance Flushes_apply_postings i ps bm : Flushes (apply_postings i ps bm).
Proof. revert bm. induction ps as [|p ps IH]; intros bm; simpl; solve_flushes. Qed.

#[global] Instance Flushes_mark_dirty ids bm : Flushes (mark_dirty ids bm).
Proof. induction ids as [|a ids IH]; simpl; solve_flushes. Qed.

#[global] Instance Flushes_post ty ref ps : Flushes (post ty ref ps).
Proof. unfold post. solve_flushes. Qed.

(** The two flushes around the loop, put together. *)
Lemma post_effect_intro txn ps db0 db1 db2 bm bm' es :
  ledger_transactions db0 !! lt_id txn = None ->
  db1 = op_write (InsertLedgerTransaction txn) db0 ->
  rows_created (sorted_account_ids ps) db1 db2 ->
  (forall a, bm !! a = if decide (a ∈ sorted_account_ids ps)
             then account_balances db2 !! a else None) ->
  keyed bm -> postings_applied ps bm bm' -> Forall2 (entry_for (lt_id txn)) ps es ->
  post_effect txn ps db0
    (write_ops (map InsertLedgerEntry es ++ dirty_ops (sorted_account_ids ps) bm') db2).
Proof.
  intros Hfresh -> [Hf Ht He Hb Hv Hd Hu] Hbm Hk [Pb Pv Pd Pk] Hes.
  set (ids := sorted_account_ids ps) in *.
  assert (Hin : forall a, a ∈ ids -> is_Some (account_balances db2 !! a)).
  { intros a Ha. apply elem_of_dom. rewrite Hd. apply elem_of_union_r.
    by apply elem_of_list_to_set. }
  assert (Hin' : forall a, a ∈ ids -> is_Some (bm' !! a)).
  { intros a Ha. apply elem_of_dom. rewrite Pd. apply elem_of_dom. rewrite Hbm.
    rewrite decide_True by done. by apply Hin. }
  rewrite write_ops_app. destruct (write_entries es db2) as (es' & -> & Hnum).
  destruct (write_dirty ids bm' {| db2 with ledger_entries := ledger_entries db2 ++ es' |})
    as (bals & -> & Hbals); [by apply Pk | exact Hin' |]. simpl in Hbals.
  destruct Hf. simpl in *. constructor; simpl; try done.
  - exists es'. rewrite He. split; [done | by eapply entry_for_numbered].
  - intros a. change (balance_of db0 a) with (balance_of (op_write (InsertLedgerTransaction txn) db0) a).
    rewrite <- Hb.
    unfold balance_of, row_balance. simpl. rewrite Hbals.
    destruct (decide (a ∈ ids)) as [Ha|Ha].
    + fold (row_balance bm' a). rewrite Pb. unfold row_balance. rewrite Hbm.
      by rewrite decide_True.
    + destruct (delta_not_touched ps a) as [-> _]; [|lia].
      by rewrite <- elem_of_sorted_ids.
  - intros a. change (version_of db0 a) with (version_of (op_write (InsertLedgerTransaction txn) db0) a).
    rewrite <- Hv.
    unfold version_of, row_version. simpl. rewrite Hbals.
    destruct (decide (a ∈ ids)) as [Ha|Ha].
    + fold (row_version bm' a). rewrite Pv. unfold row_version. rewrite Hbm.
      by rewrite decide_True.
    + destruct (delta_not_touched ps a) as [_ ->]; [|lia].
      by rewrite <- elem_of_sorted_ids.
  - apply set_eq. intros a. rewrite elem_of_dom, Hbals, elem_of_union, elem_of_list_to_set.
    rewrite <- elem_of_sorted_ids. fold ids. destruct (decide (a ∈ ids)) as [Ha|Ha].
    + split; [by right | intros _; by apply Hin'].
    + rewrite <- elem_of_dom, Hd. set_solver.
  - intros a Ha. rewrite <- elem_of_sorted_ids in Ha. fold ids in Ha.
    rewrite Hbals, decide_False by done. by apply Hu.
Qed.

(** What a successful [post] did. *)
Lemma post_Ok_inv ty ref ps s txn s' :
  schema_ok (s_db s) -> post ty ref ps s = Ok (txn, s') ->
  exists db0, exec_ops (s_pending s) (s_db s) = Ok db0 /\ post_effect txn ps db0 (s_db s') /\
    validate_balanced ps = Ok tt /\ lt_type txn = ty /\ lt_reference_id txn = ref /\
    s_pending s' = [] /\ s_env s' = s_env s /\
    s_deferred s' = s_deferred s ++ trigger_events (s_pending s) ++
                    replicate (List.length ps) (lt_id txn) /\
    s_locks s' = s_locks s ++ map LockBalance (sorted_account_ids ps).
Proof.
  intros Hso H. unfold post in H. msess.
  match goal with
  | H1 : validate_balanced _ = Ok ?u, H2 : lock_balances _ _ _ = _, H3 : apply_postings _ _ _ _ = _,
    H4 : mark_dirty _ _ _ = _, H5 : exec_ops _ _ = Ok db, H6 : exec_ops _ _ = Ok db0 |- _ =>
      rename H1 into Hval, H2 into Hlock, H3 into Happ, H4 into Hdirty, H5 into Hex2,
        H6 into Hex1; destruct u
  end.
  set (txn := mkLedgerTransaction _ _ _ _) in *. simpl in Hex1.
  rewrite exec_ops_app in Hex1. apply result_bind_Ok_inv in Hex1 as (d0 & Hex0 & Hins).
  simpl in Hins. apply result_bind_Ok_inv in Hins as (db1 & Hins & [= <-]).
  assert (Hfresh : ledger_transactions d0 !! lt_id txn = None)
    by (clear -Hins; split_checks Hins; done).
  assert (Hso1 : schema_ok db1)
    by (eapply exec_op_schema_ok; [eapply schema_ok_exec_ops; [exact Hex0|done] | exact Hins]).
  apply exec_op_Ok in Hins as [_ Hdb1].
  pose proof (schema_ok_flushes (lock_balances _ _) _ _ _ Hlock Hso1) as Hso2.
  apply lock_balances_spec in Hlock as (Hrc & Hp & Hd & He & Hl & Hbm & _);
    [|apply sorted_ids_NoDup|done]. simpl in *.
  assert (Hbm' : forall p, p ∈ ps -> is_Some (a4 !! po_account_id p)).
  { intros p Hp'. rewrite Hbm, decide_True.
    - apply elem_of_dom. rewrite (rc_dom _ _ _ Hrc).
      apply elem_of_union_r, elem_of_list_to_set, elem_of_sorted_ids.
      by apply list_elem_of_fmap_2.
    - apply elem_of_sorted_ids. by apply list_elem_of_fmap_2. }
  pose proof (apply_postings_spec (lt_id txn) ps a4 s5 Hbm') as Hspec.
  simpl in Hspec. destruct (first_unfunded _ _) as [[p b]|]; [congruence|].
  destruct Hspec as (bm' & es & n & Heq & Hes & Happd).
  rewrite Heq in Happ. injection Happ as <- <-.
  rewrite mark_dirty_eq in Hdirty. injection Hdirty as _ <-. simpl in *.
  rewrite Hp in *. simpl in *. pose proof (exec_ops_write _ _ _ Hex2) as ->.
  exists d0. split; [done|]. split.
  { eapply post_effect_intro; try done.
    intros a b Hb. rewrite Hbm in Hb. case_decide; [|done]. by apply (so_balance _ Hso2). }
  repeat (split; [done|]). split; [|done].
  rewrite Hd, !trigger_events_app, (trigger_events_entries _ _ _ Hes), trigger_events_dirty.
  simpl. rewrite !app_nil_r, app_assoc. done.
Qed.

(** ** When [post] succeeds *)

Lemma lock_balances_total ids bm s :
  NoDup ids -> reliable (s_env s) -> s_pending s = [] ->
  (forall a, a ∈ ids -> is_Some (accounts (s_db s) !! a)) ->
  exists bm' s', lock_balances ids bm s = Ok (bm', s').
Proof.
  revert bm s. induction ids as [|a ids IH]; intros bm s Hnd Hr Hp Hacc; simpl; [by eauto|].
  apply NoDup_cons in Hnd as [Ha Hnd].
  rewrite (bind_Ok _ _ _ _ _ (select_balance_reliable a s Hr)).
  destruct (account_balances (s_db s) !! a) as [b|] eqn:Hb.
  - apply IH; [done..|]. intros c Hc. apply Hacc. by right.
  - unfold init_balance_row.
    destruct (Hacc a) as [acc Hacc']; [left|].
    set (s1 := with_locks [] (tick s)).
    set (b := mkAccountBalance a 0 0 (now_at (s_env s1) (s_tick s1))).
    assert (He : exec_ops [InsertAccountBalance b] (s_db s) =
                 Ok (op_write (InsertAccountBalance b) (s_db s))).
    { simpl. unfold exec_op, op_check. simpl. by rewrite Hb, Hacc'. }
    unfold mbind at 1 2, stm_bind. rewrite now_eq. unfold mbind at 1, stm_bind.
    rewrite session_add_eq. unfold mbind at 1, stm_bind.
    rewrite (flush_reliable _ (op_write (InsertAccountBalance b) (s_db s))); [|done|].
    2:{ simpl. rewrite Hp. exact He. }
    apply IH; [done..|]. intros c Hc. simpl. apply Hacc. by right.
Qed.

Lemma exec_entries_total es db :
  (forall e, e ∈ es -> 0 < le_amount e <= int64_max /\
     is_Some (ledger_transactions db !! le_transaction_id e) /\
     is_Some (accounts db !! le_account_id e)) ->
  exec_ops (map InsertLedgerEntry es) db = Ok (write_ops (map InsertLedgerEntry es) db).
Proof.
  revert db. induction es as [|e es IH]; intros db Hall; [done|].
  destruct (Hall e) as ([Hpos Hmax] & [t Ht] & [acc Hacc]); [left|].
  assert (Hi : int64_ok (le_amount e) = true) by (apply int64_ok_spec; unfold int64_min; lia).
  cbn [map exec_ops]. unfold exec_op at 1, op_check. simpl.
  rewrite Hi, Ht, Hacc. rewrite (proj2 (Z.ltb_lt _ _) Hpos). simpl.
  apply IH. intros e' He'. apply Hall. by right.
Qed.

Definition row_in_range (b : AccountBalance) : Prop :=
  0 <= ab_balance b <= int64_max /\ int64_ok (ab_version b) = true.

Lemma exec_dirty_total ids bm db :
  (forall a b, a ∈ ids -> bm !! a = Some b ->
     row_in_range b /\ is_Some (account_balances db !! ab_account_id b)) ->
  exec_ops (dirty_ops ids bm) db = Ok (write_ops (dirty_ops ids bm) db).
Proof.
  revert db. induction ids as [|a ids IH]; intros db Hall; [done|].
  unfold dirty_ops in *. simpl. destruct (bm !! a) as [b|] eqn:Hb; simpl.
  - destruct (Hall a b) as [[[H0 H1] H2] [b' Hb']]; [left|done|].
    assert (Hi : int64_ok (ab_balance b) = true) by (apply int64_ok_spec; unfold int64_min; lia).
    unfold exec_op at 1, op_check. simpl. rewrite Hi, H2, Hb'.
    rewrite (proj2 (Z.leb_le _ _) H0). simpl. apply IH. intros c d Hc Hd.
    destruct (Hall c d) as [Hr Hs]; [by right|done|]. split; [done|]. simpl.
    by apply is_Some_insert.
  - apply IH. intros c d Hc Hd. apply (Hall c d); [by right|done].
Qed.

Lemma first_unfunded_nonneg f ps :
  Forall (fun p => 0 < po_amount p) ps -> (forall a, 0 <= f a) ->
  first_unfunded f ps = None -> forall a, 0 <= f a + delta ps a.
Proof.
  revert f. induction ps as [|p ps IH]; intros f Hpos Hf Hn a; simpl in *.
  { specialize (Hf a). unfold delta. simpl. lia. }
  apply Forall_cons in Hpos as [Hp Hpos]. case_decide as Hd; [done|].
  rewrite delta_cons, Z.add_assoc. apply (IH (fun a => f a + posting_delta a p)); [done| |done].
  intros c. unfold posting_delta. specialize (Hf c). case_decide as Hc; [subst c|lia].
  destruct (po_direction p) eqn:Hdir; [|lia].
  destruct (Z.ltb_spec (f (po_account_id p)) (po_amount p)); [|lia]. exfalso. by apply Hd.
Qed.

Lemma touches_nonneg ps a : 0 <= touches ps a.
Proof. apply lsum_nonneg. intros p _. case_decide; lia. Qed.

(** What a caller of [post] provides: a run without faults, pending statements that
    execute, a fresh transaction id, balanced postings on existing accounts. *)
Record post_ready (s : Session) (db0 : DB) (ps : list Posting) : Prop := {
  pr_reliable : reliable (s_env s);
  pr_schema : schema_ok (s_db s);
  pr_exec : exec_ops (s_pending s) (s_db s) = Ok db0;
  pr_fresh : ledger_transactions db0 !! uuid4_at (s_env s) (s_tick s) = None;
  pr_balanced : validate_balanced ps = Ok tt;
  pr_accounts : forall p, p ∈ ps -> is_Some (accounts db0 !! po_account_id p);
}.

(** No balance or version of a touched row leaves BIGINT. *)
Definition post_in_range (db0 : DB) (ps : list Posting) : Prop :=
  (forall p, p ∈ ps -> po_amount p <= int64_max) /\
  (forall a, a ∈ map po_account_id ps ->
     balance_of db0 a + delta ps a <= int64_max /\ version_of db0 a + touches ps a <= int64_max).

Definition new_txn (ty : TransactionType) (ref : uuid) (s : Session) : LedgerTransaction :=
  mkLedgerTransaction (uuid4_at (s_env s) (s_tick s)) ty ref (now_at (s_env s) (S (s_tick s))).

(** A ready [post] reaches its posting loop with every touched row locked and loaded. *)
Lemma post_reaches_loop ty ref ps s db0 :
  post_ready s db0 ps ->
  exists bm s2,
    let txn := new_txn ty ref s in
    post ty ref ps s =
      (apply_postings (lt_id txn) ps bm ≫= fun bm' =>
       mark_dirty (sorted_account_ids ps) bm';; flush;; mret txn) s2 /\
    rows_created (sorted_account_ids ps) (op_write (InsertLedgerTransaction txn) db0) (s_db s2) /\
    s_pending s2 = [] /\ reliable (s_env s2) /\ schema_ok (s_db s2) /\
    (forall a, bm !! a = if decide (a ∈ sorted_account_ids ps)
               then account_balances (s_db s2) !! a else None).
Proof.
  intros [Hr Hso Hex Hfresh Hval Hacc]. set (txn := new_txn ty ref s).
  set (db1 := op_write (InsertLedgerTransaction txn) db0).
  set (s1 := with_pending [InsertLedgerTransaction txn] (tick (tick s))).
  assert (Hop : exec_op (InsertLedgerTransaction txn) db0 = Ok db1).
  { unfold exec_op, op_check. simpl. by rewrite Hfresh. }
  assert (Hex1 : exec_ops (s_pending s1) (s_db s1) = Ok db1).
  { simpl. rewrite exec_ops_app, Hex. cbn -[exec_op]. by rewrite Hop. }
  assert (Hso1 : schema_ok db1) by (by eapply exec_op_schema_ok, Hop; eapply schema_ok_exec_ops).
  destruct (lock_balances_total (sorted_account_ids ps) ∅ (flushed db1 s1)) as (bm & s2 & Hlock);
    [apply sorted_ids_NoDup | done | done | |].
  { intros a Ha. apply elem_of_sorted_ids, list_elem_of_fmap in Ha as (p & -> & Hp).
    by apply Hacc. }
  exists bm, s2.
  pose proof (schema_ok_flushes (lock_balances _ _) _ _ _ Hlock Hso1) as Hso2.
  pose proof Hlock as Hlock'.
  apply lock_balances_spec in Hlock' as (Hrc & Hp & _ & He & _ & Hbm & _);
    [|apply sorted_ids_NoDup|done].
  split; [|split; [done|]; split; [done|]; split; [by rewrite He|]; split; [done|];
           intros a; rewrite Hbm; by case_decide].
  unfold post. rewrite Hval. unfold lift. unfold mbind at 1, stm_bind.
  unfold mbind at 1, stm_bind. rewrite uuid4_eq. unfold mbind at 1, stm_bind. rewrite now_eq.
  cbv zeta. unfold mbind at 1, stm_bind. rewrite session_add_eq. unfold mbind at 1, stm_bind.
  change (mkLedgerTransaction _ ty ref _) with txn. fold s1.
  rewrite (flush_reliable s1 db1) by done. unfold mbind at 1, stm_bind. by rewrite Hlock.
Qed.

Lemma loop_rows_present ps db0 db2 bm :
  rows_created (sorted_account_ids ps) db0 db2 ->
  (forall a, bm !! a = if decide (a ∈ sorted_account_ids ps)
             then account_balances db2 !! a else None) ->
  (forall p, p ∈ ps -> is_Some (bm !! po_account_id p)) /\
  (forall a, a ∈ map po_account_id ps ->
     row_balance bm a = balance_of db0 a /\ row_version bm a = version_of db0 a).
Proof.
  intros Hrc Hbm. split.
  - intros p Hp. assert (Hin : po_account_id p ∈ sorted_account_ids ps)
      by (apply elem_of_sorted_ids; by apply list_elem_of_fmap_2).
    rewrite Hbm, decide_True by done. apply elem_of_dom. rewrite (rc_dom _ _ _ Hrc).
    by apply elem_of_union_r, elem_of_list_to_set.
  - intros a Ha%elem_of_sorted_ids. rewrite <- (rc_balance _ _ _ Hrc), <- (rc_version _ _ _ Hrc).
    unfold balance_of, version_of, row_balance, row_version. by rewrite Hbm, decide_True.
Qed.

(** [first_unfunded] reads only the accounts of the postings. *)
Lemma first_unfunded_local f g ps :
  (forall a, a ∈ map po_account_id ps -> f a = g a) -> first_unfunded f ps = first_unfunded g ps.
Proof.
  revert f g. induction ps as [|p ps IH]; intros f g Hfg; simpl; [done|].
  rewrite (Hfg (po_account_id p)) by left. case_decide; [done|]. apply IH.
  intros a Ha. rewrite Hfg; [done | by right].
Qed.

(** A ready [post] with an uncovered debit raises for the first one. *)
Lemma post_insufficient_funds ty ref ps s db0 p b :
  post_ready s db0 ps -> first_unfunded (balance_of db0) ps = Some (p, b) ->
  post ty ref ps s = Err (InsufficientFundsException (po_account_id p) b (po_amount p)).
Proof.
  intros Hready Hfu. destruct (post_reaches_loop ty ref ps s db0 Hready)
    as (bm & s2 & -> & Hrc & _ & _ & _ & Hbm).
  destruct (loop_rows_present _ _ _ _ Hrc Hbm) as [Hrows Hvals].
  pose proof (apply_postings_spec (lt_id (new_txn ty ref s)) ps bm s2 Hrows) as Hspec.
  rewrite (first_unfunded_local _ (balance_of db0)) in Hspec by (intros; by apply Hvals).
  rewrite Hfu in Hspec. by apply bind_Err.
Qed.

Lemma delta_sorted_ids_in ps a :
  a ∈ sorted_account_ids ps \/ delta ps a = 0 /\ touches ps a = 0.
Proof.
  destruct (decide (a ∈ sorted_account_ids ps)) as [Ha|Ha]; [by left|right].
  apply delta_not_touched. by rewrite <- elem_of_sorted_ids.
Qed.

(** The statements of the last flush execute. *)
Lemma final_flush_total ps txn_id bm bm' es db2 :
  schema_ok db2 -> is_Some (ledger_transactions db2 !! txn_id) ->
  (forall p, p ∈ ps -> 0 < po_amount p <= int64_max /\ is_Some (accounts db2 !! po_account_id p)) ->
  (forall a, bm !! a = if decide (a ∈ sorted_account_ids ps)
             then account_balances db2 !! a else None) ->
  postings_applied ps bm bm' -> Forall2 (entry_for txn_id) ps es ->
  (forall a, a ∈ sorted_account_ids ps ->
     0 <= row_balance bm a + delta ps a <= int64_max /\
     row_version bm a + touches ps a <= int64_max) ->
  exists db, exec_ops (map InsertLedgerEntry es ++ dirty_ops (sorted_account_ids ps) bm') db2 = Ok db.
Proof.
  intros Hso Htxn Hps Hbm [Pb Pv Pd Pk] Hes Hrange.
  assert (Hkey : keyed bm).
  { intros a b Hb. rewrite Hbm in Hb. case_decide; [|done]. by apply (so_balance _ Hso). }
  rewrite exec_ops_app, exec_entries_total.
  2:{ intros e He. apply list_elem_of_lookup in He as [i Hi].
      destruct (Forall2_lookup_r _ _ _ _ _ Hes Hi) as (p & Hp & Ht & Ha & Hd & Hm).
      apply list_elem_of_lookup_2 in Hp. rewrite Ht, Ha, Hm. split; [|split]; [|done|];
        by apply Hps. }
  simpl. destruct (write_entries es db2) as (es' & -> & _).
  eexists. apply exec_dirty_total. intros a b Ha Hb. simpl.
  rewrite (Pk Hkey a b Hb).
  assert (Hrow : is_Some (account_balances db2 !! a)).
  { assert (Hd : a ∈ dom bm) by (rewrite <- Pd; apply elem_of_dom; eauto).
    apply elem_of_dom in Hd. rewrite Hbm, decide_True in Hd by done. done. }
  split; [|done]. destruct (Hrange a Ha) as [Hbal Hver].
  specialize (Pb a). specialize (Pv a). unfold row_balance, row_version in Pb, Pv.
  rewrite Hb in Pb, Pv. simpl in Pb, Pv. fold (row_balance bm a) in Pb.
  fold (row_version bm a) in Pv. split; [lia|]. apply int64_ok_spec.
  destruct Hrow as [r Hr]. destruct (so_balance _ Hso _ _ Hr) as (_ & _ & Hv & _).
  apply int64_ok_spec in Hv. pose proof (touches_nonneg ps a).
  assert (row_version bm a = ab_version r)
    by (unfold row_version; rewrite Hbm, decide_True by done; by rewrite Hr).
  lia.
Qed.

Lemma balance_of_nonneg db a : schema_ok db -> 0 <= balance_of db a.
Proof.
  intros Hso. unfold balance_of, row_balance. destruct (account_balances db !! a) eqn:Hb; simpl;
    [|done]. apply (so_balance _ Hso) in Hb. lia.
Qed.

(** A ready [post] whose debits are covered succeeds. *)
Lemma post_progress ty ref ps s db0 :
  post_ready s db0 ps -> first_unfunded (balance_of db0) ps = None -> post_in_range db0 ps ->
  exists s', post ty ref ps s = Ok (new_txn ty ref s, s').
Proof.
  intros Hready Hfu [Hamt Hrange].
  destruct (post_reaches_loop ty ref ps s db0 Hready)
    as (bm & s2 & -> & Hrc & Hp & Hr & Hso2 & Hbm).
  set (txn := new_txn ty ref s) in *.
  destruct (loop_rows_present _ _ _ _ Hrc Hbm) as [Hrows Hvals].
  destruct Hready as [_ Hso Hex _ Hval Hacc].
  assert (Hso0 : schema_ok db0) by (by eapply schema_ok_exec_ops).
  apply validate_balanced_Ok in Hval as (_ & Hpos & _).
  pose proof (apply_postings_spec (lt_id txn) ps bm s2 Hrows) as Hspec.
  rewrite (first_unfunded_local _ (balance_of db0)) in Hspec by (intros; by apply Hvals).
  rewrite Hfu in Hspec. destruct Hspec as (bm' & es & n & Heq & Hes & Happ).
  rewrite (bind_Ok _ _ _ _ _ Heq), (bind_Ok _ _ _ _ _ (mark_dirty_eq _ _ _)).
  destruct (final_flush_total ps (lt_id txn) bm bm' es (s_db s2)) as [db Hdb]; try done.
  - rewrite (rc_txns _ _ _ Hrc). simpl. rewrite lookup_insert_eq. by eexists.
  - intros p Hpin. split; [split; [by apply (proj1 (Forall_forall _ _) Hpos)|by apply Hamt]|].
    rewrite (lf_accounts _ _ (rc_frame _ _ _ Hrc)). by apply Hacc.
  - intros a Ha. apply elem_of_sorted_ids in Ha. destruct (Hvals a Ha) as [-> ->].
    destruct (Hrange a Ha) as [H1 H2]. split; [|done]. split; [|done].
    apply (first_unfunded_nonneg (balance_of db0) _ Hpos); [|done].
    intros c. by apply balance_of_nonneg.
  - eexists. erewrite bind_Ok by (apply (flush_reliable _ db); [done|]; simpl; by rewrite Hp).
    reflexivity.
Qed.

(** ** Transfers: the two postings every caller makes *)

Definition transfer (debited credited : uuid) (amount : Z) : list Posting :=
  [mkPosting debited DEBIT amount; mkPosting credited CREDIT amount].

Lemma transfer_balanced a b n : 0 < n -> validate_balanced (transfer a b n) = Ok tt.
Proof.
  intros Hn. apply validate_balanced_Ok. split; [simpl; lia|]. split.
  - unfold transfer. by rewrite !Forall_cons.
  - unfold transfer, posting_signed. simpl. lia.
Qed.

Lemma transfer_not_positive a b n :
  n <= 0 -> exists m, validate_balanced (transfer a b n) = Err (ValueError m).
Proof.
  intros Hn. unfold validate_balanced, transfer. simpl.
  rewrite (proj2 (Z.leb_le _ _) Hn). simpl. by eexists.
Qed.

Lemma transfer_delta a b n c :
  delta (transfer a b n) c = (if decide (c = b) then n else 0) - (if decide (c = a) then n else 0).
Proof.
  unfold delta, transfer. simpl. unfold posting_delta. simpl.
  repeat case_decide; subst; try congruence; lia.
Qed.

Lemma transfer_touches a b n c :
  touches (transfer a b n) c = (if decide (c = b) then 1 else 0) + (if decide (c = a) then 1 else 0).
Proof. unfold touches, transfer. simpl. repeat case_decide; subst; try congruence; lia. Qed.

Lemma transfer_unfunded f a b n :
  first_unfunded f (transfer a b n) =
  if decide (f a < n) then Some (mkPosting a DEBIT n, f a) else None.
Proof.
  unfold transfer. simpl. case_decide as H1; case_decide as H2; try done.
  - destruct H1 as [_ ?]. done.
  - exfalso. by apply H1.
Qed.
