(* ===== verification/Journal.v ===== *)
(** * Journal: conservation of money and the journal's sums

    What [post] means for the two global checks of the system: the sum of all balances is
    unchanged by a balanced posting list, and the sums the deferred trigger takes over
    [ledger_entries] stay zero. *)

From S2P Require Import Prelude PyStd Domain Models Session Ledger.

(** ** Conservation: a balanced posting list moves money, it does not create any *)

Definition total_balance (db : DB) : Z := msum (fun _ b => ab_balance b) (account_balances db).

Lemma msum_as_lsum (bm : gmap uuid AccountBalance) l :
  NoDup l -> dom bm ⊆ list_to_set l -> msum (fun _ b => ab_balance b) bm = lsum (row_balance bm) l.
Proof.
  revert bm. induction l as [|a l IH]; intros bm Hnd Hdom.
  { assert (Hbm : bm = ∅) by (apply dom_empty_inv_L; set_solver). by rewrite Hbm, msum_empty. }
  apply NoDup_cons in Hnd as [Ha Hnd]. rewrite lsum_cons.
  assert (Hrest : msum (fun _ b => ab_balance b) (delete a bm) = lsum (row_balance bm) l).
  { rewrite IH; [|done|rewrite dom_delete_L; set_solver].
    apply lsum_ext. intros c Hc. unfold row_balance. rewrite lookup_delete_ne; [done|].
    intros ->. done. }
  rewrite <- Hrest. unfold row_balance. destruct (bm !! a) as [b|] eqn:Hb; simpl.
  - by apply (msum_delete (fun _ b => ab_balance b)).
  - by rewrite delete_id.
Qed.

Lemma lsum_single (l : list uuid) (a : uuid) (z : Z) :
  NoDup l -> a ∈ l -> lsum (fun c => if decide (a = c) then z else 0) l = z.
Proof.
  induction l as [|c l IH]; intros Hnd Hin; [by apply not_elem_of_nil in Hin|].
  apply NoDup_cons in Hnd as [Hc Hnd]. rewrite lsum_cons. apply elem_of_cons in Hin as [->|Hin].
  - rewrite decide_True by done. rewrite (lsum_ext _ (fun _ => 0)), lsum_zero; [lia|].
    intros d Hd. rewrite decide_False; [done|]. intros ->. done.
  - rewrite decide_False by (intros ->; done). rewrite IH by done. lia.
Qed.

Lemma lsum_delta l ps :
  NoDup l -> (forall a, a ∈ map po_account_id ps -> a ∈ l) ->
  lsum (delta ps) l = - lsum posting_signed ps.
Proof.
  intros Hnd. induction ps as [|p ps IH]; intros Hin.
  { unfold delta. simpl. by rewrite lsum_zero. }
  rewrite (lsum_ext _ (fun a => posting_delta a p + delta ps a)) by (intros; apply delta_cons).
  rewrite lsum_add, lsum_cons, IH by (intros a Ha; apply Hin; by right).
  generalize (lsum posting_signed ps) as rest. intros rest.
  unfold posting_delta, posting_signed.
  rewrite lsum_single; [destruct (po_direction p); lia|done|]. apply Hin. by left.
Qed.

Lemma post_conserves txn ps db0 db :
  post_effect txn ps db0 db -> validate_balanced ps = Ok tt -> total_balance db = total_balance db0.
Proof.
  intros Hpe Hval. apply validate_balanced_Ok in Hval as (_ & _ & Hzero).
  set (l := elements (dom (account_balances db))).
  assert (Hnd : NoDup l) by apply NoDup_elements.
  assert (Hl : forall a, a ∈ l <-> a ∈ dom (account_balances db)) by (intros; apply elem_of_elements).
  unfold total_balance. rewrite (msum_as_lsum _ l), (msum_as_lsum (account_balances db0) l); try done.
  - change (row_balance (account_balances db)) with (balance_of db).
    change (row_balance (account_balances db0)) with (balance_of db0).
    rewrite (lsum_ext _ (fun a => balance_of db0 a + delta ps a)).
    + rewrite lsum_add, lsum_delta, Hzero; [lia|done|]. intros a Ha. apply Hl.
      rewrite (pe_dom _ _ _ _ Hpe). apply elem_of_union_r, elem_of_list_to_set. done.
    + intros a _. apply (pe_balance _ _ _ _ Hpe).
  - intros a Ha. apply elem_of_list_to_set, Hl. rewrite (pe_dom _ _ _ _ Hpe). set_solver.
  - intros a Ha. by apply elem_of_list_to_set, Hl.
Qed.

Lemma two_balances_le_total db a b :
  schema_ok db -> a <> b -> balance_of db a + balance_of db b <= total_balance db.
Proof.
  intros Hso Hab. set (D := ({[a; b]} ∪ dom (account_balances db) : gset N)).
  assert (Hperm : exists l, elements D ≡ₚ a :: b :: l).
  { exists (elements (dom (account_balances db) ∖ {[a; b]} : gset N)).
    unfold D. rewrite (union_difference_L {[a; b]} ({[a; b]} ∪ dom (account_balances db)))
      by set_solver.
    replace (({[a; b]} ∪ dom (account_balances db)) ∖ {[a; b]})
      with (dom (account_balances db) ∖ {[a; b]} : gset N) by set_solver.
    rewrite elements_disj_union by set_solver.
    rewrite elements_disj_union, !elements_singleton by set_solver. done. }
  destruct Hperm as [l Hl]. unfold total_balance.
  rewrite (msum_as_lsum _ (elements D)); [|apply NoDup_elements|].
  - change (row_balance (account_balances db)) with (balance_of db).
    rewrite (lsum_perm _ _ _ Hl), !lsum_cons.
    assert (0 <= lsum (balance_of db) l) by (apply lsum_nonneg; intros; by apply balance_of_nonneg).
    lia.
  - intros c Hc. apply elem_of_list_to_set, elem_of_elements. set_solver.
Qed.

(** Room for [n] more versions on every row. *)
Definition version_room (n : Z) (db : DB) : Prop := forall a, version_of db a + n <= int64_max.

(** With the whole ledger inside BIGINT, no covered transfer overflows. *)
Lemma transfer_in_range db a b n :
  schema_ok db -> 0 < n <= balance_of db a -> total_balance db <= int64_max ->
  version_room 2 db -> post_in_range db (transfer a b n).
Proof.
  intros Hso Hn Htot Hver.
  assert (Hmax : forall c, balance_of db c <= int64_max).
  { intros c. unfold balance_of, row_balance. destruct (account_balances db !! c) eqn:Hc; simpl.
    - apply (so_balance _ Hso) in Hc. lia.
    - unfold int64_max. lia. }
  split.
  - intros p Hp. specialize (Hmax a).
    apply elem_of_cons in Hp as [->|Hp%list_elem_of_singleton]; [|subst p]; simpl; lia.
  - intros c _. rewrite transfer_delta, transfer_touches. specialize (Hver c). split.
    + pose proof (Hmax a). pose proof (Hmax b). pose proof (Hmax c).
      pose proof (two_balances_le_total db a b Hso) as Htwo.
      destruct (decide (c = b)), (decide (c = a)); subst; try lia.
    + repeat case_decide; lia.
Qed.

(** ** The journal: what a posting adds to the sums the trigger and the audit take *)

Lemma entry_for_signed txn_id ps es :
  Forall2 (entry_for txn_id) ps es -> lsum signed_amount es = lsum posting_signed ps.
Proof.
  induction 1 as [|p e ps es (_ & _ & Hd & Ha) _ IH]; [done|].
  rewrite !lsum_cons, IH. unfold signed_amount, posting_signed. by rewrite Hd, Ha.
Qed.

Lemma entries_of_txn txn_id ps es t :
  Forall2 (entry_for txn_id) ps es ->
  filter (fun e => le_transaction_id e = t) es = if decide (txn_id = t) then es else [].
Proof.
  induction 1 as [|p e ps es (Ht & _) _ IH]; [by case_decide|].
  rewrite filter_cons, Ht, IH. by case_decide.
Qed.

Lemma no_entries_of_fresh_txn db t :
  schema_ok db -> ledger_transactions db !! t = None ->
  filter (fun e => le_transaction_id e = t) (ledger_entries db) = [].
Proof.
  intros Hso Ht. apply elem_of_nil_inv. intros e He%list_elem_of_filter. destruct He as [<- He].
  apply (so_entry _ Hso) in He as (_ & [x Hx] & _). congruence.
Qed.

Lemma post_txn_net txn ps db0 db t :
  post_effect txn ps db0 db -> validate_balanced ps = Ok tt -> txn_net db t = txn_net db0 t.
Proof.
  intros Hpe Hval. apply validate_balanced_Ok in Hval as (_ & _ & Hzero).
  destruct (pe_entries _ _ _ _ Hpe) as (es & Hent & Hes).
  unfold txn_net. rewrite Hent, filter_app, lsum_app, (entries_of_txn _ _ _ _ Hes).
  case_decide; [rewrite (entry_for_signed _ _ _ Hes), Hzero|]; simpl; lia.
Qed.

(** Every ledger transaction nets to zero: the trigger's invariant. *)
Definition books_balanced (db : DB) : Prop := forall t, txn_net db t = 0.

Lemma books_balanced_triggers db events : books_balanced db -> run_triggers db events = None.
Proof. intros Hb. apply run_triggers_None, Forall_forall. intros t _. apply Hb. Qed.

Lemma post_books_balanced txn ps db0 db :
  post_effect txn ps db0 db -> validate_balanced ps = Ok tt -> books_balanced db0 ->
  books_balanced db.
Proof. intros Hpe Hval Hb t. by rewrite (post_txn_net txn ps db0 db). Qed.

(** A run that leaves nothing pending and the books balanced commits. *)
Lemma in_transaction_ok {A} env (m : M A) `{!Flushes m} db a s' :
  m (begin_session env db) = Ok (a, s') -> s_pending s' = [] -> reliable env ->
  books_balanced (s_db s') -> in_transaction env m db = (Ok a, s_db s').
Proof.
  intros Hrun Hp Hr Hb. pose proof (flushes _ _ _ Hrun) as (_ & He & _). simpl in He.
  unfold in_transaction. rewrite Hrun, commit_nothing_pending_ok; [done|done|by rewrite He|].
  by apply books_balanced_triggers.
Qed.

(** A run that raises rolls back. *)
Lemma in_transaction_raises {A} env (m : M A) db e :
  m (begin_session env db) = Err e -> in_transaction env m db = (Err e, db).
Proof. unfold in_transaction. by intros ->. Qed.
