(* ===== verification/Fixtures.v ===== *)
(** * Fixtures: a concrete database and environments

    A small ledger on which the theorems of the other files are applied: the two system
    accounts of the first migration, a wallet with 100000 and a merchant account.  No
    definition of this file models code. *)

From S2P Require Import Prelude PyStd Domain Models Session Ledger Journal.
From Stdlib Require Import String.

Definition wallet : uuid := 101%N.
Definition merchant : uuid := 202%N.

Definition demo_accounts : gmap uuid Account :=
  {[ 1%N := mkAccount 1 SYSTEM "psp" PSP_SUSPENSE "INR" 0;
     2%N := mkAccount 2 SYSTEM "fees" FEE_INCOME "INR" 0;
     101%N := mkAccount 101 USER "user_1" USER_WALLET "INR" 0;
     202%N := mkAccount 202 MERCHANT "merchant_1" MERCHANT_PAYABLE "INR" 0 ]}.

Definition demo_balances : gmap uuid AccountBalance :=
  {[ 1%N := mkAccountBalance 1 0 0 0; 2%N := mkAccountBalance 2 0 0 0;
     101%N := mkAccountBalance 101 100000 0 0; 202%N := mkAccountBalance 202 0 0 0 ]}.

Definition demo_db : DB := mkDB demo_accounts demo_balances ∅ [] ∅ ∅ ∅ ∅ ∅.

(** Draws [base], [base + 1], ... and a clock that counts the ticks. *)
Definition demo_env (base : N) : Env :=
  mkEnv (fun n => (base + N.of_nat n)%N) (fun n => Z.of_nat n) (fun _ => None).

Lemma demo_reliable base : reliable (demo_env base).
Proof. done. Qed.

Lemma demo_balance_rows a b : demo_balances !! a = Some b ->
  (a = 1%N /\ b = mkAccountBalance 1 0 0 0) \/ (a = 2%N /\ b = mkAccountBalance 2 0 0 0) \/
  (a = 101%N /\ b = mkAccountBalance 101 100000 0 0) \/ (a = 202%N /\ b = mkAccountBalance 202 0 0 0).
Proof.
  unfold demo_balances. rewrite !lookup_insert_Some, lookup_singleton_Some. intuition; subst; auto.
Qed.

Lemma demo_schema_ok : schema_ok demo_db.
Proof.
  constructor; simpl; try (intros *; rewrite lookup_empty; done); try done.
  - intros a b Hb%demo_balance_rows. unfold int64_max.
    destruct Hb as [[-> ->]|[[-> ->]|[[-> ->]|[-> ->]]]]; simpl;
      (split; [done|]; split; [lia|]; split; [done|by eexists]).
  - intros e He. by apply not_elem_of_nil in He.
Qed.

Lemma demo_books : books_balanced demo_db.
Proof. done. Qed.

Lemma demo_version_room : version_room 4 demo_db.
Proof.
  intros a. unfold version_of, row_version. simpl. destruct (demo_balances !! a) as [b|] eqn:Hb.
  - apply demo_balance_rows in Hb. unfold int64_max. simpl.
    destruct Hb as [[-> ->]|[[-> ->]|[[-> ->]|[-> ->]]]]; simpl; lia.
  - simpl. unfold int64_max. lia.
Qed.

Lemma demo_total : total_balance demo_db = 100000.
Proof. by vm_compute. Qed.

(** The same accounts with other balances and with payments. *)
Definition demo_with (bals : gmap uuid AccountBalance) (pays : gmap uuid Payment) : DB :=
  mkDB demo_accounts bals ∅ [] pays ∅ ∅ ∅ ∅.

Definition balance_row_ok (a : uuid) (b : AccountBalance) : Prop :=
  ab_account_id b = a /\ (0 <=? ab_balance b) && (ab_balance b <=? 10 ^ 12) = true /\
  (0 <=? ab_version b) && (ab_version b <=? 10 ^ 12) = true /\ is_Some (demo_accounts !! a).

Definition payment_row_ok (i : uuid) (p : Payment) : Prop :=
  p_id p = i /\ int64_ok (p_amount p) = true /\ int64_ok (p_refunded_amount p) = true /\
  is_Some (demo_accounts !! p_payer_account p) /\ is_Some (demo_accounts !! p_payee_account p).

#[global] Instance balance_row_ok_dec a b : Decision (balance_row_ok a b).
Proof. unfold balance_row_ok. apply _. Defined.
#[global] Instance payment_row_ok_dec i p : Decision (payment_row_ok i p).
Proof. unfold payment_row_ok. apply _. Defined.

Definition rows_ok (db : DB) : bool :=
  bool_decide (map_Forall balance_row_ok (account_balances db)) &&
  bool_decide (map_Forall payment_row_ok (payments db)).

Lemma demo_with_schema_ok bals pays :
  rows_ok (demo_with bals pays) = true -> schema_ok (demo_with bals pays).
Proof.
  unfold rows_ok. rewrite andb_true_iff, !bool_decide_eq_true. intros [Hb Hp].
  constructor; simpl; try (intros *; rewrite lookup_empty; done); try done.
  - intros a b Hab. apply Hb in Hab as (H1 & H2 & H3 & H4).
    rewrite andb_true_iff, !Z.leb_le in H2, H3. rewrite int64_ok_spec.
    unfold int64_max, int64_min. split; [done|]. split; [lia|]. split; [lia|done].
  - intros e He. by apply not_elem_of_nil in He.
Qed.

Lemma demo_with_version_room bals pays n :
  rows_ok (demo_with bals pays) = true -> n <= 10 ^ 12 -> version_room n (demo_with bals pays).
Proof.
  unfold rows_ok. rewrite andb_true_iff, !bool_decide_eq_true. intros [Hb _] Hn a.
  unfold version_of, row_version. simpl. destruct (bals !! a) as [b|] eqn:Hab; simpl.
  - apply Hb in Hab as (_ & _ & H3 & _). rewrite andb_true_iff, !Z.leb_le in H3. unfold int64_max. lia.
  - unfold int64_max. lia.
Qed.

(** A payment of 40000 that was settled, a quarter of it refunded. *)
Definition paid_payment : Payment :=
  mkPayment 9000 "merchant_1" wallet merchant 40000 "INR" SUCCEEDED (Some "psp_1") 10000 2 0 0.

(** Two payments waiting for the provider: one old, one recent. *)
Definition old_hold : Payment :=
  mkPayment 9001 "merchant_1" wallet merchant 7000 "INR" AUTHORIZED (Some "psp_2") 0 0 0 0.
Definition new_hold : Payment :=
  mkPayment 9002 "merchant_1" wallet merchant 500 "INR" AUTHORIZED (Some "psp_3") 0 0 (10 ^ 10) 0.

Definition paid_balances : gmap uuid AccountBalance :=
  {[ 1%N := mkAccountBalance 1 7500 3 0; 2%N := mkAccountBalance 2 0 0 0;
     101%N := mkAccountBalance 101 62500 4 0; 202%N := mkAccountBalance 202 30000 2 0 ]}.

Definition paid_db : DB :=
  demo_with paid_balances {[ 9000%N := paid_payment; 9001%N := old_hold; 9002%N := new_hold ]}.

Lemma paid_schema_ok : schema_ok paid_db.
Proof. apply demo_with_schema_ok. vm_compute. reflexivity. Qed.

Lemma paid_version_room n : n <= 10 ^ 12 -> version_room n paid_db.
Proof. apply demo_with_version_room. vm_compute. reflexivity. Qed.

Lemma paid_books : books_balanced paid_db.
Proof. done. Qed.

Lemma paid_total : total_balance paid_db = 100000.
Proof. by vm_compute. Qed.
