(* ===== verification/LedgerTheorems.v ===== *)
(** * LedgerTheorems: what [LedgerService] promises

    The properties of [validate_balanced] and [post], with a concrete instance of each, and
    the competing debits of [tests/test_concurrency.py], here one after the other
    ([ConcurrencyTheorems] has them in every interleaving). *)

From S2P Require Import Prelude PyStd Domain Models Session Ledger Journal Fixtures.
From Stdlib Require Import String.

(** ** Validation *)

(** The first posting that is not strictly positive. *)
Definition first_not_positive (ps : list Posting) : option Posting :=
  List.find (fun p => po_amount p <=? 0) ps.

Lemma net_loop_verdict net ps :
  net_loop net ps =
  match first_not_positive ps with
  | Some p => Err (ValueError ("Posting amount must be strictly positive: " +:+ pretty (po_amount p)))
  | None => Ok (net + lsum posting_signed ps)
  end.
Proof.
  revert net. unfold first_not_positive. induction ps as [|p ps IH]; intros net; simpl.
  - f_equal. lia.
  - unfold posting_signed at 1. destruct (po_amount p <=? 0); [done|].
    destruct (po_direction p); rewrite IH; destruct (List.find _ ps); try done; f_equal; lia.
Qed.

(** [validate_balanced] on every input.  Fewer than two postings are refused as
    unbalanced with net 0; otherwise the first amount that is not positive is refused with
    its value; otherwise the postings are accepted exactly when debits equal credits, and
    refused with their difference when not. *)
Theorem validate_balanced_verdict ps :
  validate_balanced ps =
  if (List.length ps <? 2)%nat then Err (LedgerImbalanceException 0)
  else match first_not_positive ps with
       | Some p =>
           Err (ValueError ("Posting amount must be strictly positive: " +:+ pretty (po_amount p)))
       | None =>
           if lsum posting_signed ps =? 0 then Ok tt
           else Err (LedgerImbalanceException (lsum posting_signed ps))
       end.
Proof.
  unfold validate_balanced. destruct (List.length ps <? 2)%nat; [done|].
  rewrite net_loop_verdict. destruct (first_not_positive ps); [done|].
  unfold mbind, result_bind. rewrite Z.add_0_l. by destruct (lsum posting_signed ps =? 0).
Qed.

(** Postings that do not validate are refused before anything is read or written: the
    transaction raises the validation error and the tables are unchanged, whatever the
    environment and the tables. *)
Theorem post_refuses_invalid ty ref ps env db e :
  validate_balanced ps = Err e -> in_transaction env (post ty ref ps) db = (Err e, db).
Proof.
  intros He. apply in_transaction_raises. unfold post. rewrite He. by apply bind_Err.
Qed.

Lemma post_refuses_invalid_witness :
  in_transaction (demo_env 1000)
    (post TxnPAYMENT 7 [mkPosting wallet DEBIT 500; mkPosting merchant CREDIT 400]) demo_db =
  (Err (LedgerImbalanceException 100), demo_db).
Proof. apply (post_refuses_invalid TxnPAYMENT 7). reflexivity. Defined.

(** ** Posting *)

(** C11: [post] on valid, funded postings in BIGINT range commits, whatever the number of
    postings and accounts and whether or not their balance rows exist: it adds one
    transaction row and one entry per posting, changes every balance by the signed sum of
    its postings and its version by their number, creates the missing rows, leaves every
    other table alone, keeps the total of all balances and the books balanced, so that the
    deferred trigger accepts the commit. *)
Theorem post_commits ty ref ps env db :
  post_ready (begin_session env db) db ps -> first_unfunded (balance_of db) ps = None ->
  post_in_range db ps -> books_balanced db ->
  exists txn db',
    in_transaction env (post ty ref ps) db = (Ok txn, db') /\
    lt_type txn = ty /\ lt_reference_id txn = ref /\ post_effect txn ps db db' /\
    total_balance db' = total_balance db /\ books_balanced db' /\ schema_ok db'.
Proof.
  intros Hready Hfu Hrange Hb.
  destruct (post_progress ty ref ps _ _ Hready Hfu Hrange) as [s' Hpost].
  pose proof Hpost as Hinv. destruct Hready as [Hr Hso _ _ Hval _]. simpl in Hr, Hso.
  apply post_Ok_inv in Hinv as (db0 & [= <-] & Hpe & _ & Hty & Href & Hp & _); [|done].
  pose proof (post_books_balanced _ _ _ _ Hpe Hval Hb) as Hb'.
  exists (new_txn ty ref (begin_session env db)), (s_db s').
  split; [by apply in_transaction_ok; [apply _|..]|]. do 3 (split; [done|]).
  split; [by eapply post_conserves|]. split; [done|].
  exact (schema_ok_flushes _ _ _ _ Hpost Hso).
Qed.

(** Four postings over three accounts, one of them without a balance row. *)
Definition split_postings : list Posting :=
  [mkPosting wallet DEBIT 60000; mkPosting merchant CREDIT 50000;
   mkPosting 2 CREDIT 15000; mkPosting merchant DEBIT 5000].

Lemma demo_post_ready ps :
  validate_balanced ps = Ok tt -> forallb (fun p => is_present (demo_accounts !! po_account_id p)) ps = true ->
  post_ready (begin_session (demo_env 1000) demo_db) demo_db ps.
Proof.
  intros Hv Ha. constructor; [done|exact demo_schema_ok|done|done|exact Hv|].
  intros p Hp. apply is_present_spec. rewrite forallb_forall in Ha. apply Ha.
  by apply list_elem_of_In.
Qed.

Lemma split_postings_in_range : post_in_range demo_db split_postings.
Proof.
  split.
  - intros p Hp. unfold split_postings in Hp. unfold int64_max.
    repeat (apply elem_of_cons in Hp as [->|Hp]; [simpl; lia|]). by apply not_elem_of_nil in Hp.
  - intros a Ha. unfold split_postings in Ha. simpl in Ha. unfold int64_max.
    repeat (apply elem_of_cons in Ha as [->|Ha]; [vm_compute; split; intros; discriminate|]).
    by apply not_elem_of_nil in Ha.
Qed.

Lemma post_commits_witness :
  exists txn db',
    in_transaction (demo_env 1000) (post TxnPAYMENT 7 split_postings) demo_db = (Ok txn, db') /\
    lt_type txn = TxnPAYMENT /\ lt_reference_id txn = 7%N /\
    post_effect txn split_postings demo_db db' /\
    total_balance db' = total_balance demo_db /\ books_balanced db' /\ schema_ok db'.
Proof.
  apply (post_commits TxnPAYMENT 7 split_postings (demo_env 1000) demo_db).
  - apply demo_post_ready; reflexivity.
  - vm_compute. reflexivity.
  - exact split_postings_in_range.
  - exact demo_books.
Defined.

(** C20: [post] refuses to overdraw.  With valid postings on known accounts, as soon as one
    debit exceeds the balance its account has at that point of the list, the transaction
    raises [InsufficientFundsException] for the first such posting, with the balance it
    met and the amount it required, and the tables are unchanged. *)
Theorem post_refuses_overdraft ty ref ps env db p b :
  post_ready (begin_session env db) db ps -> first_unfunded (balance_of db) ps = Some (p, b) ->
  in_transaction env (post ty ref ps) db =
  (Err (InsufficientFundsException (po_account_id p) b (po_amount p)), db).
Proof. intros Hready Hfu. apply in_transaction_raises. by eapply post_insufficient_funds. Qed.

Lemma post_refuses_overdraft_witness :
  let ps := [mkPosting wallet DEBIT 70000; mkPosting merchant CREDIT 70000;
             mkPosting wallet DEBIT 40000; mkPosting merchant CREDIT 40000] in
  in_transaction (demo_env 1000) (post TxnPAYMENT 7 ps) demo_db =
  (Err (InsufficientFundsException wallet 30000 40000), demo_db).
Proof.
  intros ps. apply (post_refuses_overdraft TxnPAYMENT 7 ps (demo_env 1000) demo_db
    (mkPosting wallet DEBIT 40000) 30000).
  - apply demo_post_ready; reflexivity.
  - vm_compute. reflexivity.
Defined.

(** Lock discipline.  The balance rows a [post] locks are exactly those of the accounts
    it touches, each once, taken in strictly ascending order of account id after the locks
    the session already held. *)
Theorem post_locks_in_order ty ref ps s txn s' :
  schema_ok (s_db s) -> post ty ref ps s = Ok (txn, s') ->
  exists ids, s_locks s' = s_locks s ++ map LockBalance ids /\ StronglySorted N.lt ids /\
    (forall a, a ∈ ids <-> exists p, p ∈ ps /\ po_account_id p = a).
Proof.
  intros Hso Hpost. apply post_Ok_inv in Hpost as (db0 & _ & _ & _ & _ & _ & _ & _ & _ & Hl); [|done].
  exists (sorted_account_ids ps). split; [done|]. split; [apply sorted_ids_StronglySorted|].
  intros a. rewrite elem_of_sorted_ids, list_elem_of_fmap. split; intros (p & H1 & H2); exists p; done.
Qed.

Lemma post_locks_in_order_witness :
  exists txn s', post TxnPAYMENT 7 split_postings (begin_session (demo_env 1000) demo_db) = Ok (txn, s') /\
  exists ids, s_locks s' = [] ++ map LockBalance ids /\ StronglySorted N.lt ids /\
    (forall a, a ∈ ids <-> exists p, p ∈ split_postings /\ po_account_id p = a).
Proof.
  destruct (post_progress TxnPAYMENT 7 split_postings (begin_session (demo_env 1000) demo_db) demo_db)
    as [s' Hpost].
  - apply demo_post_ready; reflexivity.
  - vm_compute. reflexivity.
  - exact split_postings_in_range.
  - eexists _, s'. split; [exact Hpost|].
    apply (post_locks_in_order TxnPAYMENT 7 split_postings (begin_session (demo_env 1000) demo_db)
      _ s' demo_schema_ok Hpost).
Defined.

(** ** Concurrent debits

    Row locks serialize the transactions that debit one account: concurrent attempts are a
    sequence of them, each in its own environment. *)

Definition debit_attempt (payer payee : uuid) (amount : Z) (env : Env) (db : DB)
  : result exn LedgerTransaction * DB :=
  in_transaction env (post TxnPAYMENT 0 (transfer payer payee amount)) db.

Fixpoint debit_attempts (payer payee : uuid) (amount : Z) (envs : list Env) (db : DB)
  : list (result exn LedgerTransaction) * DB :=
  match envs with
  | [] => ([], db)
  | env :: envs' =>
      let '(r, db1) := debit_attempt payer payee amount env db in
      let '(rs, db2) := debit_attempts payer payee amount envs' db1 in
      (r :: rs, db2)
  end.

(** Every attempt runs without faults and draws a new transaction id. *)
Fixpoint attempts_ready (payer payee : uuid) (amount : Z) (envs : list Env) (db : DB) : Prop :=
  match envs with
  | [] => True
  | env :: envs' =>
      reliable env /\ ledger_transactions db !! uuid4_at env 0 = None /\
      attempts_ready payer payee amount envs' (debit_attempt payer payee amount env db).2
  end.

Definition successes {E A} (rs : list (result E A)) : Z := lsum (fun r => if is_ok r then 1 else 0) rs.

Record debit_setup (payer payee : uuid) (amount : Z) (db : DB) : Prop := {
  ds_schema : schema_ok db;
  ds_books : books_balanced db;
  ds_total : total_balance db <= int64_max;
  ds_payer : is_Some (accounts db !! payer);
  ds_payee : is_Some (accounts db !! payee);
  ds_distinct : payer <> payee;
  ds_amount : 0 < amount;
}.

Lemma debit_post_ready payer payee n env db :
  debit_setup payer payee n db -> reliable env -> ledger_transactions db !! uuid4_at env 0 = None ->
  post_ready (begin_session env db) db (transfer payer payee n).
Proof.
  intros [Hso Hb Htot Hd Hc Hne Hn] Hr Hf. constructor; try done; [by apply transfer_balanced|].
  intros p Hp. apply elem_of_cons in Hp as [->|Hp%list_elem_of_singleton]; [done|]. by subst p.
Qed.

(** One attempt: it succeeds exactly when the balance covers it. *)
Lemma debit_attempt_spec payer payee n env db :
  debit_setup payer payee n db -> version_room 2 db -> reliable env ->
  ledger_transactions db !! uuid4_at env 0 = None ->
  if decide (n <= balance_of db payer) then
    exists txn db', debit_attempt payer payee n env db = (Ok txn, db') /\
      debit_setup payer payee n db' /\ balance_of db' payer = balance_of db payer - n /\
      ledger_transactions db' = <[uuid4_at env 0 := txn]> (ledger_transactions db) /\
      (forall a, version_of db' a <= version_of db a + 2)
  else debit_attempt payer payee n env db =
    (Err (InsufficientFundsException payer (balance_of db payer) n), db).
Proof.
  intros Hset Hver Hr Hf. pose proof (debit_post_ready _ _ _ _ _ Hset Hr Hf) as Hready.
  destruct Hset as [Hso Hb Htot Hd Hc Hne Hn]. case_decide as Hcov.
  - destruct (post_progress TxnPAYMENT 0 (transfer payer payee n) (begin_session env db) db)
      as [s' Hpost]; [done| |by apply transfer_in_range|].
    { rewrite transfer_unfunded, decide_False; [done|lia]. }
    pose proof Hpost as Hinv. destruct Hready as [_ _ _ _ Hval _].
    apply post_Ok_inv in Hinv as (db0 & [= <-] & Hpe & _ & _ & _ & Hp & _); [|done].
    pose proof (post_books_balanced _ _ _ _ Hpe Hval Hb) as Hb'.
    eexists _, (s_db s'). split; [by apply in_transaction_ok; [apply _|..]|].
    pose proof (lf_accounts _ _ (pe_frame _ _ _ _ Hpe)) as Hacc.
    split; [|split; [|split; [exact (pe_txn _ _ _ _ Hpe)|]]].
    + constructor; rewrite ?Hacc; try done; [exact (schema_ok_flushes _ _ _ _ Hpost Hso)|].
      by rewrite (post_conserves _ _ _ _ Hpe Hval).
    + rewrite (pe_balance _ _ _ _ Hpe), transfer_delta, decide_False, decide_True by done. lia.
    + intros a. rewrite (pe_version _ _ _ _ Hpe), transfer_touches. repeat case_decide; lia.
  - apply in_transaction_raises.
    apply (post_insufficient_funds _ _ _ _ _ (mkPosting payer DEBIT n) _ Hready).
    rewrite transfer_unfunded, decide_True; [done|lia].
Qed.

(** No oversell.  However many attempts compete to debit [amount] from one account,
    exactly [min attempts (balance / amount)] of them succeed, every other one is refused
    with [InsufficientFundsException], and the balance ends at what the successes left,
    never below zero. *)
Theorem debits_never_oversell payer payee amount envs db :
  debit_setup payer payee amount db -> version_room (2 * Z.of_nat (List.length envs)) db ->
  attempts_ready payer payee amount envs db ->
  let '(rs, db') := debit_attempts payer payee amount envs db in
  successes rs = Z.min (Z.of_nat (List.length envs)) (balance_of db payer / amount) /\
  balance_of db' payer = balance_of db payer - amount * successes rs /\
  0 <= balance_of db' payer /\
  Forall (fun r => is_ok r = true \/ exists b, r = Err (InsufficientFundsException payer b amount)) rs.
Proof.
  revert db. induction envs as [|env envs IH]; intros db Hset Hver Hready.
  { pose proof (balance_of_nonneg db payer (ds_schema _ _ _ _ Hset)).
    pose proof (ds_amount _ _ _ _ Hset). simpl.
    assert (0 <= balance_of db payer / amount) by (apply Z.div_pos; lia).
    unfold successes. simpl. split; [lia|]. split; [lia|]. by split. }
  destruct Hready as (Hr & Hf & Hrest). cbn [debit_attempts].
  assert (Hv2 : version_room 2 db) by (intros a; specialize (Hver a); simpl List.length in Hver; lia).
  pose proof (debit_attempt_spec _ _ _ _ _ Hset Hv2 Hr Hf) as Hspec.
  pose proof (ds_amount _ _ _ _ Hset) as Hn.
  pose proof (balance_of_nonneg db payer (ds_schema _ _ _ _ Hset)) as Hnn.
  case_decide as Hcov.
  - destruct Hspec as (txn & db1 & Heq & Hset1 & Hbal & _ & Hvers). rewrite Heq in *.
    specialize (IH db1 Hset1). destruct (debit_attempts payer payee amount envs db1) as [rs db2].
    destruct IH as (Hs & Hb & H0 & Hall).
    { intros a. specialize (Hver a). specialize (Hvers a). simpl List.length in Hver. lia. }
    { exact Hrest. }
    replace (successes (Ok txn :: rs)) with (1 + successes rs) by done.
    assert (Hdiv : balance_of db payer / amount = 1 + balance_of db1 payer / amount).
    { rewrite Hbal. replace (balance_of db payer) with (balance_of db payer - amount + 1 * amount) at 1 by lia.
      rewrite Z.div_add by lia. lia. }
    rewrite Hdiv. simpl List.length. split; [lia|]. split; [lia|]. split; [done|].
    constructor; [by left|done].
  - rewrite Hspec in *. specialize (IH db Hset).
    destruct (debit_attempts payer payee amount envs db) as [rs db2].
    destruct IH as (Hs & Hb & H0 & Hall).
    { intros a. specialize (Hver a). simpl List.length in Hver. lia. }
    { exact Hrest. }
    match goal with |- context [successes (?e :: rs)] =>
      replace (successes (e :: rs)) with (successes rs) by done end.
    assert (Hdiv : balance_of db payer / amount = 0) by (apply Z.div_small; lia).
    rewrite Hdiv in *. split; [simpl List.length; lia|]. split; [lia|]. split; [done|].
    constructor; [right; by eexists|done].
Qed.

(** Distinct new transaction ids are new whenever their turn comes. *)
Lemma attempts_ready_intro payer payee amount envs db :
  debit_setup payer payee amount db -> version_room (2 * Z.of_nat (List.length envs)) db ->
  Forall reliable envs -> NoDup (map (fun env => uuid4_at env 0) envs) ->
  (forall env, env ∈ envs -> ledger_transactions db !! uuid4_at env 0 = None) ->
  attempts_ready payer payee amount envs db.
Proof.
  revert db. induction envs as [|env envs IH]; intros db Hset Hver Hrel Hnd Hfresh; [done|].
  apply Forall_cons in Hrel as [Hr Hrel]. cbn [map] in Hnd. apply NoDup_cons in Hnd as [Hni Hnd].
  assert (Hf : ledger_transactions db !! uuid4_at env 0 = None) by (apply Hfresh; left).
  split; [done|]. split; [done|].
  assert (Hv2 : version_room 2 db) by (intros a; specialize (Hver a); simpl List.length in Hver; lia).
  pose proof (debit_attempt_spec _ _ _ _ _ Hset Hv2 Hr Hf) as Hspec.
  assert (Hne : forall e, e ∈ envs -> uuid4_at e 0 <> uuid4_at env 0).
  { intros e He Heq. apply Hni. rewrite <- Heq. by apply (list_elem_of_fmap_2 (fun env => uuid4_at env 0)). }
  case_decide as Hcov.
  - destruct Hspec as (txn & db1 & -> & Hset1 & _ & Htxn & Hvers). cbn [snd]. apply IH; try done.
    + intros a. specialize (Hver a). specialize (Hvers a). simpl List.length in Hver. lia.
    + intros e He. simpl. rewrite Htxn, lookup_insert_ne by (intros Heq; by apply (Hne e)).
      apply Hfresh. by right.
  - rewrite Hspec. cbn [snd]. apply IH; try done.
    + intros a. specialize (Hver a). simpl List.length in Hver. lia.
    + intros e He. apply Hfresh. by right.
Qed.

(** Twenty attempts of 10000 on a balance of 100000: ten succeed. *)
Definition twenty_envs : list Env := map (fun n => demo_env (N.of_nat (1000 + 100 * n))) (seq 0 20).

Lemma twenty_version_room : version_room (2 * Z.of_nat (List.length twenty_envs)) demo_db.
Proof.
  intros a. pose proof (demo_version_room a). unfold version_of, row_version in *.
  destruct (account_balances demo_db !! a) as [b|] eqn:Hb; simpl in *; [|unfold int64_max; lia].
  apply demo_balance_rows in Hb. unfold int64_max.
  destruct Hb as [[-> ->]|[[-> ->]|[[-> ->]|[-> ->]]]]; simpl; lia.
Qed.

Lemma debits_never_oversell_witness :
  let '(rs, db') := debit_attempts wallet merchant 10000 twenty_envs demo_db in
  successes rs = Z.min 20 (100000 / 10000) /\
  balance_of db' wallet = 100000 - 10000 * successes rs /\
  0 <= balance_of db' wallet /\
  Forall (fun r => is_ok r = true \/ exists b, r = Err (InsufficientFundsException wallet b 10000)) rs.
Proof.
  apply (debits_never_oversell wallet merchant 10000 twenty_envs demo_db).
  - constructor; [exact demo_schema_ok|exact demo_books| |by eexists|by eexists|done|lia].
    rewrite demo_total. unfold int64_max. lia.
  - exact twenty_version_room.
  - vm_compute. repeat (split; [done|]). done.
Defined.
