(* ===== verification/Psp.v ===== *)
(** * Psp: configuration, payment providers and webhook signatures

    [app/config.py] ([Settings]), [app/infrastructure/psp/provider.py] (the
    [PaymentProvider] interface, here a type class, and [AuthorizationResult]),
    [mock_psp.py], [stripe_psp.py], [signature.py], and the provider chosen by
    [app/api/dependencies.py].  The Stripe SDK is third-party: the reply of
    [stripe.PaymentIntent.create] and the verdict of [stripe.Webhook.construct_event] are
    parameters of the definitions that use them. *)

From S2P Require Import Prelude PyStd Domain Models.
From Stdlib Require Import String Ascii.

(** ** Settings *)

Record Settings := mkSettings {
  APP_NAME : string; APP_ENV : string; PORT : Z; HOST : string;
  DB_HOST : string; DB_PORT : Z; DB_NAME : string; DB_USER : string; DB_PASSWORD : string;
  DB_POOL_SIZE : Z; DB_MAX_OVERFLOW : Z;
  REDIS_HOST : string; REDIS_PORT : Z;
  PSP_PROVIDER : string; PSP_WEBHOOK_SECRET : string;
  STRIPE_API_KEY : string; STRIPE_WEBHOOK_SECRET : string;
  OUTBOX_RELAY_INTERVAL_MS : Z; RECONCILIATION_INTERVAL_MS : Z;
  AUTHORIZED_HOLD_TIMEOUT_MINUTES : Z;
}.

(** The defaults of the class body. *)
Definition default_settings : Settings :=
  mkSettings "apex-payments-engine" "development" 8080 "0.0.0.0"
    "localhost" 5432 "payments" "payments" "payments" 20 10
    "localhost" 6379
    "stripe" "dev-webhook-secret" "" "whsec_dev"
    1000 60000 30.

Definition db_authority (st : Settings) : string :=
  DB_USER st +:+ ":" +:+ DB_PASSWORD st +:+ "@" +:+ DB_HOST st +:+ ":" +:+ pretty (DB_PORT st) +:+
  "/" +:+ DB_NAME st.

Definition DATABASE_URL (st : Settings) : string := "postgresql+asyncpg://" +:+ db_authority st.
Definition SYNC_DATABASE_URL (st : Settings) : string := "postgresql://" +:+ db_authority st.
Definition REDIS_URL (st : Settings) : string :=
  "redis://" +:+ REDIS_HOST st +:+ ":" +:+ pretty (REDIS_PORT st) +:+ "/0".

(** ** Authorization results *)

Record AuthorizationResult := mkAuthorizationResult {
  ar_outcome : AuthorizationOutcome;
  ar_psp_reference : option string;
  ar_decline_reason : option string;
}.

Definition captured (psp_reference : string) : AuthorizationResult :=
  mkAuthorizationResult CAPTURED (Some psp_reference) None.
Definition pending (psp_reference : string) : AuthorizationResult :=
  mkAuthorizationResult PENDING (Some psp_reference) None.
Definition declined (reason : string) : AuthorizationResult :=
  mkAuthorizationResult DECLINED None (Some reason).

(** [x or default] on an optional string: [None] and the empty string are false. *)
Definition str_or (o : option string) (default : string) : string :=
  match o with
  | Some s => if String.eqb s "" then default else s
  | None => default
  end.

(** ** The provider interface.  [draw] is what [uuid.uuid4()] returns during the call. *)

Class PaymentProvider (P : Type) := {
  authorize : P -> uuid -> Payment -> result exn AuthorizationResult;
}.

(** [uuid.hex[:12]] *)
Definition hex12 (draw : uuid) : string := hex_fixed 12 (N.shiftr draw 80).

(** ** [MockPspClient] *)

Inductive MockPspClient := mkMockPspClient.

Definition mock_authorize (draw : uuid) (payment : Payment) : AuthorizationResult :=
  if p_amount payment =? 40001 then declined "Card declined by mock bank"
  else if p_amount payment =? 40002 then pending ("mock_async_ref_" +:+ hex12 draw)
  else captured ("mock_psp_ref_" +:+ hex12 draw).

#[global] Instance MockPspClient_provider : PaymentProvider MockPspClient :=
  {| authorize _ draw payment := Ok (mock_authorize draw payment) |}.

(** ** [StripePaymentProvider] *)

Record PaymentIntent := mkPaymentIntent {
  pi_id : string;
  pi_status : string;
  pi_last_payment_error : option string;
}.

Record IntentRequest := mkIntentRequest {
  iq_amount : Z;
  iq_currency : string;
  iq_capture_method : string;
  iq_metadata : list (string * string);
  iq_idempotency_key : string;
}.

(** What the SDK call does: returns an intent, or raises. *)
Inductive StripeReply :=
| IntentCreated (intent : PaymentIntent)
| CardError (user_message : option string)
| StripeError (user_message : option string).

Record StripePaymentProvider := mkStripePaymentProvider {
  sp_settings : Settings;
  sp_create_intent : IntentRequest -> StripeReply;
}.

Definition str_in (s : string) (l : list string) : bool := existsb (String.eqb s) l.

(** [_map_stripe_status] *)
Definition map_stripe_status (intent : PaymentIntent) : AuthorizationResult :=
  if str_in (pi_status intent) ["succeeded"; "requires_capture"] then captured (pi_id intent)
  else if str_in (pi_status intent) ["requires_action"; "requires_confirmation"; "processing"]
  then pending (pi_id intent)
  else if str_in (pi_status intent) ["requires_payment_method"; "canceled"] then
    declined (match pi_last_payment_error intent with
              | Some message => message
              | None => "Payment declined by Stripe (status=" +:+ pi_status intent +:+ ")"
              end)
  else pending (pi_id intent).

Definition intent_request (payment : Payment) : IntentRequest :=
  mkIntentRequest (p_amount payment) (str_lower (p_currency payment)) "manual"
    [("payment_id", uuid_str (p_id payment)); ("merchant_id", p_merchant_id payment);
     ("payer_account", uuid_str (p_payer_account payment));
     ("payee_account", uuid_str (p_payee_account payment))]
    (uuid_str (p_id payment)).

Definition stripe_authorize (sp : StripePaymentProvider) (draw : uuid) (payment : Payment)
  : result exn AuthorizationResult :=
  if String.eqb (STRIPE_API_KEY (sp_settings sp)) "" then
    Ok (captured ("stripe_mock_" +:+ hex12 draw))
  else
    match sp_create_intent sp (intent_request payment) with
    | IntentCreated intent => Ok (map_stripe_status intent)
    | CardError m => Ok (declined (str_or m "Card declined"))
    | StripeError m =>
        Err (RuntimeError ("Stripe gateway error: " +:+ from_option id "None" m))
    end.

#[global] Instance StripePaymentProvider_provider : PaymentProvider StripePaymentProvider :=
  {| authorize := stripe_authorize |}.

(** ** [get_payment_provider] *)

Inductive Provider := ProviderStripe (sp : StripePaymentProvider) | ProviderMock (m : MockPspClient).

Definition get_payment_provider (st : Settings) (create_intent : IntentRequest -> StripeReply)
  : Provider :=
  if String.eqb (str_lower (PSP_PROVIDER st)) "stripe"
  then ProviderStripe (mkStripePaymentProvider st create_intent)
  else ProviderMock mkMockPspClient.

#[global] Instance Provider_provider : PaymentProvider Provider :=
  {| authorize p := match p with ProviderStripe sp => authorize sp | ProviderMock m => authorize m end |}.

(** ** Webhook signatures *)

(** [hmac.compare_digest] on two [str]: only ASCII text is accepted. *)
Definition compare_digest (a b : string) : result exn bool :=
  if is_ascii a && is_ascii b then Ok (String.eqb a b) else Err TypeError.

(** [WebhookSignatureVerifier.is_valid] *)
Definition hmac_is_valid (st : Settings) (raw_payload signature_header : string)
  : result exn bool :=
  if String.eqb raw_payload "" || String.eqb signature_header "" then Ok false
  else if String.eqb (PSP_WEBHOOK_SECRET st) "" then Ok false
  else compare_digest (hmac_sha256_hex (utf8 (PSP_WEBHOOK_SECRET st)) (utf8 raw_payload))
         signature_header.

(** [StripeWebhookSignatureVerifier.is_valid]; [construct_event payload sig_header secret
    tolerance] is false when the SDK raises.  It is the SDK's verdict at the time of this call,
    with which it compares the time in the header: another call has another [construct_event]. *)
Definition stripe_is_valid (st : Settings)
    (construct_event : string -> string -> string -> Z -> bool)
    (raw_payload signature_header : string) : bool :=
  if String.eqb raw_payload "" || String.eqb signature_header "" then false
  else if String.eqb (STRIPE_WEBHOOK_SECRET st) "" then false
  else construct_event raw_payload signature_header (STRIPE_WEBHOOK_SECRET st) 300.
