(* ===== verification/Idempotency.v ===== *)
(** * Idempotency: [app/application/idempotency_service.py] and the Redis lock

    [compute_hash], [claim_or_replay] and [complete] of [IdempotencyService], and
    [IdempotencyLock.acquire] of [app/infrastructure/redis_client.py].  Redis is a
    parameter: what [SET key value NX EX ttl] answers, or that it raised. *)

From S2P Require Import Prelude PyStd Domain Models Session.
From Stdlib Require Import String.

(** ** Definitions *)

Abbreviation dict := (list (string * json)).

Definition compute_hash (payload : dict) : string := sha256_hex (utf8 (Json.dumps (JObj payload))).

(** [redis.set(key, value, nx=True, ex=ttl)]: [None] when the call raised. *)
Definition RedisSet : Type := string -> string -> Z -> option bool.

Definition acquire (redis : RedisSet) (merchant_id idempotency_key request_hash : string)
    (ttl_seconds : Z) : bool :=
  let key := "idem:" +:+ merchant_id +:+ ":" +:+ idempotency_key in
  match redis key request_hash ttl_seconds with
  | Some acquired => acquired
  | None => true
  end.

(** A text with the character U+0000, which the statement refuses, finds no row here: the INSERT
    that follows is refused with the same error. *)
Definition select_idempotency (merchant_id idem_key : string) : M (option IdempotencyRecord) :=
  statement;; gets (fun s => idempotency_keys (s_db s) !! (merchant_id, idem_key)).

(** [x or 200] and [x or {}]. *)
Definition code_or_200 (c : option Z) : Z :=
  match c with Some z => if z =? 0 then 200 else z | None => 200 end.
Definition body_or_empty (b : option dict) : dict := from_option id [] b.

(** What [claim_or_replay] does with the row it read. *)
Definition claim_found (merchant_id idem_key req_hash : string) (record : option IdempotencyRecord)
  : M (option (Z * dict)) :=
  match record with
  | None =>
      created_at ← now;
      session_add (InsertIdempotency
        (mkIdempotencyRecord merchant_id idem_key req_hash IN_PROGRESS None None None created_at));;
      flush;;
      mret None
  | Some record =>
      if negb (String.eqb (ir_request_hash record) req_hash)
      then mthrow (IdempotencyMismatchException idem_key)
      else
        match ir_status record with
        | IN_PROGRESS => mthrow (IdempotencyConflictException idem_key)
        | COMPLETED =>
            mret (Some (code_or_200 (ir_response_code record),
                        body_or_empty (ir_response_body record)))
        end
  end.

Definition claim_or_replay (lock : option RedisSet) (merchant_id idem_key : string) (payload : dict)
  : M (option (Z * dict)) :=
  let req_hash := compute_hash payload in
  _ ← (match lock with
       | Some redis => mret (acquire redis merchant_id idem_key req_hash 60)
       | None => mret true
       end : M bool);
  record ← select_idempotency merchant_id idem_key;
  claim_found merchant_id idem_key req_hash record.

Definition complete (merchant_id idem_key : string) (resource_id : uuid) (response_code : Z)
    (response_body : dict) : M unit :=
  record ← select_idempotency merchant_id idem_key;
  match record with
  | Some r =>
      session_add (UpdateIdempotency
        {| r with ir_status := COMPLETED; ir_resource_id := Some resource_id;
                  ir_response_code := Some response_code;
                  ir_response_body := Some response_body |});;
      flush
  | None => mret tt
  end.

(** ** Statements *)

#[global] Instance Flushes_select_idempotency m k : Flushes (select_idempotency m k).
Proof. unfold select_idempotency. solve_flushes. Qed.
#[global] Instance Flushes_claim_found m k h r : Flushes (claim_found m k h r).
Proof. unfold claim_found. solve_flushes. Qed.
#[global] Instance Flushes_claim_or_replay l m k p : Flushes (claim_or_replay l m k p).
Proof. unfold claim_or_replay. solve_flushes. Qed.
#[global] Instance Flushes_complete m k i c b : Flushes (complete m k i c b).
Proof. unfold complete. solve_flushes. Qed.

Lemma select_idempotency_Ok_inv m k s row s' :
  select_idempotency m k s = Ok (row, s') ->
  row = idempotency_keys (s_db s) !! (m, k) /\ s' = tick s.
Proof. unfold select_idempotency. intros H. msess. done. Qed.

Lemma select_idempotency_reliable m k s :
  reliable (s_env s) ->
  select_idempotency m k s = Ok (idempotency_keys (s_db s) !! (m, k), tick s).
Proof.
  intros Hr. unfold select_idempotency. by rewrite (bind_Ok _ _ _ _ _ (statement_reliable s Hr)).
Qed.

(** ** [claim_or_replay] *)

(** The Redis lock is only asked: whatever it answers, the row decides. *)
Lemma claim_or_replay_lock lock m k payload s :
  claim_or_replay lock m k payload s =
  (select_idempotency m k ≫= claim_found m k (compute_hash payload)) s.
Proof. unfold claim_or_replay. by destruct lock. Qed.

(** The verdict on a key that has a row. *)
Definition replay_verdict (idem_key req_hash : string) (r : IdempotencyRecord)
  : result exn (Z * dict) :=
  if decide (ir_request_hash r = req_hash) then
    match ir_status r with
    | IN_PROGRESS => Err (IdempotencyConflictException idem_key)
    | COMPLETED => Ok (code_or_200 (ir_response_code r), body_or_empty (ir_response_body r))
    end
  else Err (IdempotencyMismatchException idem_key).

Lemma claim_found_Some m k h r s :
  claim_found m k h (Some r) s = (x ← lift (replay_verdict k h r); mret (Some x)) s.
Proof.
  unfold claim_found, replay_verdict, lift, mbind, stm_bind.
  destruct (String.eqb_spec (ir_request_hash r) h) as [Heq|Hne]; simpl.
  - rewrite decide_True by done. by destruct (ir_status r).
  - by rewrite decide_False.
Qed.

(** The row a new claim inserts. *)
Definition claim_row (m k : string) (payload : dict) (t : Z) : IdempotencyRecord :=
  mkIdempotencyRecord m k (compute_hash payload) IN_PROGRESS None None None t.

(** A claim that succeeded: a replay that changed nothing, or a new row. *)
Lemma claim_or_replay_inv lock m k payload s r s' :
  s_pending s = [] -> claim_or_replay lock m k payload s = Ok (r, s') ->
  calm s s' /\
  match idempotency_keys (s_db s) !! (m, k) with
  | Some row => exists x, replay_verdict k (compute_hash payload) row = Ok x /\ r = Some x /\
      s_db s' = s_db s
  | None => r = None /\ exists t, exec_op (InsertIdempotency (claim_row m k payload t)) (s_db s) =
      Ok (s_db s')
  end.
Proof.
  intros Hp H. rewrite claim_or_replay_lock in H. inv_bind_as H row s1 Hsel Hk.
  apply select_idempotency_Ok_inv in Hsel as [-> ->].
  destruct (idempotency_keys (s_db s) !! (m, k)) as [row|].
  - rewrite claim_found_Some in Hk. msess. split; [done|]. eauto.
  - unfold claim_found in Hk. msess. simpl in *. rewrite Hp in *. simpl in *.
    apply result_bind_Ok_inv in Hexec as (d & Hop & [= <-]).
    split; [by constructor; simpl; rewrite ?Hp, ?app_nil_r|]. split; [done|]. by eexists.
Qed.

(** A key with a row: replayed, refused, or in progress, as the row says. *)
Lemma claim_or_replay_found lock m k payload s row :
  reliable (s_env s) -> idempotency_keys (s_db s) !! (m, k) = Some row ->
  claim_or_replay lock m k payload s =
  match replay_verdict k (compute_hash payload) row with
  | Ok x => Ok (Some x, tick s)
  | Err e => Err e
  end.
Proof.
  intros Hr Hrow. rewrite claim_or_replay_lock.
  rewrite (bind_Ok _ _ _ _ _ (select_idempotency_reliable m k s Hr)), Hrow, claim_found_Some.
  unfold lift, mbind, stm_bind. by destruct (replay_verdict _ _ _).
Qed.

Lemma claim_row_fits m k payload t :
  varchar 255 m = true -> varchar 255 k = true ->
  first_violation (idempotency_row_checks (claim_row m k payload t)) = None.
Proof.
  intros Hm Hk. unfold idempotency_row_checks. simpl. rewrite Hm, Hk.
  unfold compute_hash, varchar. by rewrite sha256_hex_length, sha256_hex_no_nul.
Qed.

(** A key without a row is claimed. *)
Lemma claim_or_replay_new lock m k payload s :
  reliable (s_env s) -> s_pending s = [] -> idempotency_keys (s_db s) !! (m, k) = None ->
  varchar 255 m = true -> varchar 255 k = true ->
  exists t s', claim_or_replay lock m k payload s = Ok (None, s') /\ calm s s' /\
    s_db s' = op_write (InsertIdempotency (claim_row m k payload t)) (s_db s).
Proof.
  intros Hr Hp Hrow Hm Hk. rewrite claim_or_replay_lock.
  rewrite (bind_Ok _ _ _ _ _ (select_idempotency_reliable m k s Hr)), Hrow.
  unfold claim_found. rewrite (bind_Ok _ _ _ _ _ (now_eq _)).
  rewrite (bind_Ok _ _ _ _ _ (session_add_eq _ _)).
  set (row := claim_row m k payload (now_at (s_env (tick s)) (s_tick (tick s)))).
  set (s1 := with_pending [InsertIdempotency row] (tick (tick s))).
  assert (Hex : exec_ops (s_pending s1) (s_db s1) = Ok (op_write (InsertIdempotency row) (s_db s))).
  { simpl. rewrite Hp. simpl. unfold exec_op, op_check, op_checks.
    pose proof (claim_row_fits m k payload (ir_created_at row) Hm Hk) as Hfit.
    simpl in *. destruct (varchar 255 m && _ && _); [|done]. by rewrite Hrow. }
  rewrite (bind_Ok _ _ _ _ _ (flush_reliable s1 _ Hr Hex)).
  eexists _, _. split; [done|]. split; [|done].
  constructor; simpl; rewrite ?Hp, ?app_nil_r; done.
Qed.

(** ** [complete] *)

Definition completed_row (r : IdempotencyRecord) (resource_id : uuid) (code : Z) (body : dict)
  : IdempotencyRecord :=
  {| r with ir_status := COMPLETED; ir_resource_id := Some resource_id;
            ir_response_code := Some code; ir_response_body := Some body |}.

Lemma complete_inv m k i code body s u s' :
  trigger_events (s_pending s) = [] -> complete m k i code body s = Ok (u, s') ->
  exists row, s_env s' = s_env s /\ s_deferred s' = s_deferred s /\ s_locks s' = s_locks s /\
  match idempotency_keys (s_db s) !! (m, k) with
  | Some r => row = completed_row r i code body /\ s_pending s' = [] /\
      exec_ops (s_pending s ++ [UpdateIdempotency row]) (s_db s) = Ok (s_db s')
  | None => s' = tick s
  end.
Proof.
  intros Hq H. unfold complete in H. inv_bind_as H row s1 Hsel Hk.
  apply select_idempotency_Ok_inv in Hsel as [-> ->].
  destruct (idempotency_keys (s_db s) !! (m, k)) as [r|].
  - msess. simpl in *. exists (completed_row r i code body).
    unfold trigger_events. rewrite omap_app. unfold trigger_events in Hq. rewrite Hq.
    simpl. by rewrite app_nil_r.
  - msess. by exists (claim_row m k [] 0).
Qed.

Lemma complete_progress m k i code body s row db1 :
  reliable (s_env s) -> exec_ops (s_pending s) (s_db s) = Ok db1 ->
  idempotency_keys (s_db s) !! (m, k) = Some row -> schema_ok (s_db s) ->
  first_violation (idempotency_row_checks row) = None -> int32_ok code = true ->
  jsonb body = true -> is_Some (idempotency_keys db1 !! (m, k)) ->
  exists s', complete m k i code body s = Ok (tt, s') /\
    s_db s' = op_write (UpdateIdempotency (completed_row row i code body)) db1.
Proof.
  intros Hr Hex Hrow Hso Hfit Hcode Hbody [row1 Hrow1]. unfold complete.
  rewrite (bind_Ok _ _ _ _ _ (select_idempotency_reliable m k s Hr)), Hrow.
  rewrite (bind_Ok _ _ _ _ _ (session_add_eq _ _)).
  pose proof (so_idem _ Hso _ _ Hrow) as Hkey.
  change {| row with ir_status := COMPLETED; ir_resource_id := Some i;
            ir_response_code := Some code; ir_response_body := Some body |}
    with (completed_row row i code body).
  set (s1 := with_pending [UpdateIdempotency (completed_row row i code body)] (tick s)).
  eexists. split.
  - apply (flush_reliable s1 (op_write (UpdateIdempotency (completed_row row i code body)) db1) Hr).
    simpl. rewrite exec_ops_app, Hex. simpl. unfold exec_op, op_check, op_checks.
    unfold idempotency_row_checks in *. simpl in *. rewrite Hbody.
    destruct (varchar 255 _ && _ && _); [|done]. by rewrite Hcode, Hkey, Hrow1.
  - done.
Qed.

(** The idempotency row of the key is completed with the response, if there is one. *)
Definition completion (m k : string) (i : uuid) (body : dict) (db db' : DB) : Prop :=
  match idempotency_keys db !! (m, k) with
  | Some row => exec_op (UpdateIdempotency (completed_row row i 201 body)) db = Ok db'
  | None => db' = db
  end.

(** [complete] as the last statement of a transaction. *)
Lemma completion_committed m k i body s u s' db1 db' :
  trigger_events (s_pending s) = [] -> exec_ops (s_pending s) (s_db s) = Ok db1 ->
  idempotency_keys db1 = idempotency_keys (s_db s) ->
  complete m k i 201 body s = Ok (u, s') -> commit s' = Ok db' ->
  completion m k i body db1 db'.
Proof.
  intros Hq Hex Hidem Hc Hcommit. unfold completion. rewrite Hidem.
  apply complete_inv in Hc as (row & _ & _ & _ & Hrow); [|done].
  destruct (idempotency_keys (s_db s) !! (m, k)) as [r|].
  - destruct Hrow as (-> & Hp & Hex'). rewrite exec_ops_app, Hex in Hex'. simpl in Hex'.
    apply result_bind_Ok_inv in Hex' as (d & Hop & [= Hd]).
    apply commit_nothing_pending in Hcommit as [-> _]; [|done]. by rewrite <- Hd.
  - subst s'. unfold commit in Hcommit. destruct (flush (tick s)) as [[u' s2]|] eqn:Hf; [|done].
    destruct (run_triggers _ _); [done|]. injection Hcommit as <-.
    apply flush_Ok_inv in Hf as (d & Hd & ->). simpl in *. congruence.
Qed.

Lemma complete_executes m k i body s u s' db' :
  trigger_events (s_pending s) = [] -> complete m k i 201 body s = Ok (u, s') ->
  commit s' = Ok db' -> exists db1, exec_ops (s_pending s) (s_db s) = Ok db1.
Proof.
  intros Hq Hc Hcommit. apply complete_inv in Hc as (row & _ & _ & _ & Hrow); [|done].
  destruct (idempotency_keys (s_db s) !! (m, k)) as [r|].
  - destruct Hrow as (_ & _ & Hex). rewrite exec_ops_app in Hex.
    apply result_bind_Ok_inv in Hex as (d & Hd & _). by exists d.
  - subst s'. unfold commit in Hcommit. destruct (flush (tick s)) as [[u' s2]|] eqn:Hf; [|done].
    apply flush_Ok_inv in Hf as (d & Hd & _). by exists d.
Qed.
