(* ===== verification/Saga.v ===== *)
(** * Saga: [app/application/payment_saga.py]

    [hold], [settle] and [reverse] of [PaymentSaga]: the payment row, the ledger transfer
    through the suspense account and the outbox event of each phase. *)

From S2P Require Import Prelude PyStd Domain Models Session Ledger Journal.
From Stdlib Require Import String.

(** ** Definitions *)

Definition PSP_SUSPENSE_ACCOUNT_ID : uuid := 1%N.
Definition FEE_INCOME_ACCOUNT_ID : uuid := 2%N.

(** [session.add(Outbox(...))]: id and creation time are the column defaults. *)
Definition add_outbox (aggregate_type : string) (aggregate_id : uuid) (event_type : string)
    (payload : list (string * json)) : M unit :=
  id ← uuid4;
  created_at ← now;
  session_add (InsertOutbox
    (mkOutbox id aggregate_type aggregate_id event_type payload created_at None)).

(** Phase 1.  The payment object is changed in place: it is the result. *)
Definition hold (payment0 : Payment) : M Payment :=
  let payment := {| payment0 with p_status := PROCESSING |} in
  session_add (InsertPayment payment);;
  flush;;
  post TxnPAYMENT (p_id payment)
    [mkPosting (p_payer_account payment) DEBIT (p_amount payment);
     mkPosting PSP_SUSPENSE_ACCOUNT_ID CREDIT (p_amount payment)];;
  add_outbox "payment" (p_id payment) "payment.processing"
    [("paymentId", JStr (uuid_str (p_id payment)));
     ("merchantId", JStr (p_merchant_id payment));
     ("amount", JInt (p_amount payment));
     ("currency", JStr (p_currency payment));
     ("status", JStr (PaymentStatus_value (p_status payment)))];;
  flush;;
  mret payment.

(** Phase 3a. *)
Definition settle (payment_id : uuid) (psp_reference : string) : M Payment :=
  row ← select_payment_for_update payment_id;
  match row with
  | None => mthrow (PaymentNotFoundException payment_id)
  | Some payment0 =>
      updated_at ← now;
      let payment := {| payment0 with p_status := SUCCEEDED;
                                      p_psp_reference := Some psp_reference;
                                      p_version := p_version payment0 + 1;
                                      p_updated_at := updated_at |} in
      session_add (UpdatePayment payment);;
      post TxnPAYMENT (p_id payment)
        [mkPosting PSP_SUSPENSE_ACCOUNT_ID DEBIT (p_amount payment);
         mkPosting (p_payee_account payment) CREDIT (p_amount payment)];;
      add_outbox "payment" (p_id payment) "payment.succeeded"
        [("paymentId", JStr (uuid_str (p_id payment)));
         ("merchantId", JStr (p_merchant_id payment));
         ("amount", JInt (p_amount payment));
         ("currency", JStr (p_currency payment));
         ("status", JStr (PaymentStatus_value (p_status payment)));
         ("pspReference", JStr psp_reference)];;
      flush;;
      mret payment
  end.

(** Phase 3b. *)
Definition reverse (payment_id : uuid) : M Payment :=
  row ← select_payment_for_update payment_id;
  match row with
  | None => mthrow (PaymentNotFoundException payment_id)
  | Some payment0 =>
      updated_at ← now;
      let payment := {| payment0 with p_status := FAILED;
                                      p_version := p_version payment0 + 1;
                                      p_updated_at := updated_at |} in
      session_add (UpdatePayment payment);;
      post TxnREVERSAL (p_id payment)
        [mkPosting PSP_SUSPENSE_ACCOUNT_ID DEBIT (p_amount payment);
         mkPosting (p_payer_account payment) CREDIT (p_amount payment)];;
      add_outbox "payment" (p_id payment) "payment.failed"
        [("paymentId", JStr (uuid_str (p_id payment)));
         ("merchantId", JStr (p_merchant_id payment));
         ("amount", JInt (p_amount payment));
         ("status", JStr (PaymentStatus_value (p_status payment)))];;
      flush;;
      mret payment
  end.

(** ** Every phase goes through executed statements only *)

#[global] Instance Flushes_add_outbox a i e p : Flushes (add_outbox a i e p).
Proof. unfold add_outbox. solve_flushes. Qed.
#[global] Instance Flushes_hold p : Flushes (hold p).
Proof. unfold hold. solve_flushes. Qed.
#[global] Instance Flushes_settle i r : Flushes (settle i r).
Proof. unfold settle. solve_flushes. Qed.
#[global] Instance Flushes_reverse i : Flushes (reverse i).
Proof. unfold reverse. solve_flushes. Qed.

(** ** What one phase does: its payment statement, a posting, an outbox event *)

(** An event as [add_outbox] is asked to record it. *)
Record EventSpec := mkEventSpec {
  es_aggregate_type : string;
  es_aggregate_id : uuid;
  es_event_type : string;
  es_payload : list (string * json);
}.

Definition records_event (ev : EventSpec) (o : Outbox) : Prop :=
  o_aggregate_type o = es_aggregate_type ev /\ o_aggregate_id o = es_aggregate_id ev /\
  o_event_type o = es_event_type ev /\ o_payload o = es_payload ev /\ o_published_at o = None.

(** The tables after a phase that executed [ops], posted [ps] as [txn] and recorded [o]. *)
Record phase_effect (ops : list DbOp) (txn : LedgerTransaction) (ps : list Posting) (o : Outbox)
    (db db' : DB) : Prop := {
  ph_exec : exec_ops ops db = Ok (write_ops ops db);
  ph_valid : validate_balanced ps = Ok tt;
  ph_post : exists db1, post_effect txn ps (write_ops ops db) db1 /\
              db' = op_write (InsertOutbox o) db1;
  ph_fresh : outbox (write_ops ops db) !! o_id o = None;
  ph_rtc : rtc exec_step db db';
}.

(** An id drawn during the run from [s] to [s']. *)
Definition drawn (s s' : Session) (i : uuid) : Prop :=
  exists n, (s_tick s <= n < s_tick s')%nat /\ i = uuid4_at (s_env s) n.

(** A session run that did so, with the triggers it queued and the rows it locked. *)
Definition phase_run (ops : list DbOp) (ty : TransactionType) (ref : uuid) (ps : list Posting)
    (ev : EventSpec) (locks : list row_lock) (s s' : Session) : Prop :=
  exists txn o,
    phase_effect ops txn ps o (s_db s) (s_db s') /\
    lt_type txn = ty /\ lt_reference_id txn = ref /\ records_event ev o /\
    s_pending s' = [] /\ s_env s' = s_env s /\
    s_deferred s' = s_deferred s ++ replicate (List.length ps) (lt_id txn) /\
    s_locks s' = s_locks s ++ locks ++ map LockBalance (sorted_account_ids ps) /\
    drawn s s' (lt_id txn) /\ drawn s s' (o_id o).

(** Statements that queue no trigger. *)
Definition quiet (ops : list DbOp) : Prop := trigger_events ops = [].

Lemma exec_ops_exec_write ops db db' :
  exec_ops ops db = Ok db' -> db' = write_ops ops db /\ exec_ops ops db = Ok (write_ops ops db).
Proof. intros H. pose proof (exec_ops_write _ _ _ H) as ->. done. Qed.

Lemma drawn_wider s0 s1 s2 s3 i :
  s_env s1 = s_env s0 -> (s_tick s0 <= s_tick s1)%nat -> (s_tick s2 <= s_tick s3)%nat ->
  drawn s1 s2 i -> drawn s0 s3 i.
Proof. intros He H1 H2 (n & Hn & ->). exists n. rewrite He. split; [lia|done]. Qed.

(** A posting draws the id of its transaction. *)
Lemma post_drawn ty ref ps s txn s' : post ty ref ps s = Ok (txn, s') -> drawn s s' (lt_id txn).
Proof.
  intros H. unfold post in H. inv_bind_as H u s1 Hval H1. apply lift_Ok_inv in Hval as [_ ->].
  inv_bind_as H1 i s2 Hu H2. rewrite uuid4_eq in Hu. injection Hu as <- <-.
  inv_bind_as H2 t s3 Hn H3. rewrite now_eq in Hn. injection Hn as <- <-. cbv zeta in H3.
  match type of H3 with ?k _ = _ => assert (Hf : Flushes k) by solve_flushes end.
  pose proof (Hf _ _ _ H3) as (_ & _ & Ht). simpl in Ht. clear Hf.
  inv_bind_as H3 u1 s4 Ha H4. inv_bind_as H4 u2 s5 Hfl H5. inv_bind_as H5 bm s6 Hl H6.
  inv_bind_as H6 bm' s7 Hp H7. inv_bind_as H7 u3 s8 Hm H8. inv_bind_as H8 u4 s9 Hfl2 H9.
  apply ret_Ok_inv in H9 as [-> _]. exists (s_tick s). split; [lia|done].
Qed.

Lemma post_event_inv {A} ty ref ps a i e pl (x y : A) s s' :
  schema_ok (s_db s) -> quiet (s_pending s) ->
  (post ty ref ps;; add_outbox a i e pl;; flush;; mret x) s = Ok (y, s') ->
  y = x /\ phase_run (s_pending s) ty ref ps (mkEventSpec a i e pl) [] s s'.
Proof.
  intros Hso Hq H. assert (Hfl : Flushes (post ty ref ps;; add_outbox a i e pl;; flush;; mret x))
    by solve_flushes. apply Hfl in H as Hrtc. clear Hfl. destruct Hrtc as [Hrtc _].
  inv_bind_as H txn s1 Hpost Hk. unfold add_outbox in Hk. msess. split; [done|].
  pose proof (post_drawn _ _ _ _ _ _ Hpost) as Hdr.
  pose proof (flushes _ _ _ Hpost) as (_ & Henv & Htick).
  apply post_Ok_inv in Hpost as (db0 & Hex0 & Hpe & Hval & Hty & Href & Hp & He & Hd & Hl);
    [|done]. simpl in *. rewrite Hp in *.
  match goal with H : exec_ops _ _ = Ok db |- _ => rename H into Hfin end. simpl in Hfin.
  apply result_bind_Ok_inv in Hfin as (d & Hop & [= <-]).
  set (o := mkOutbox _ a i e pl _ None) in *.
  exists txn, o. apply exec_ops_exec_write in Hex0 as [-> Hex0].
  assert (Hfresh : outbox (s_db s1) !! o_id o = None).
  { split_checks Hop. done. }
  apply exec_op_Ok in Hop as [_ ->]. simpl.
  assert (Hdo : drawn s (flushed (op_write (InsertOutbox o) (s_db s1))
                           (with_pending [InsertOutbox o] (tick (tick s1)))) (o_id o)).
  { exists (s_tick s1). simpl. rewrite He. split; [lia|done]. }
  split; [|repeat (split; [done|]); split; [|split; [done|split; [|exact Hdo]]]].
  - constructor; [done|done|by exists (s_db s1)| |].
    + by rewrite <- (lf_outbox _ _ (pe_frame _ _ _ _ Hpe)).
    + exact Hrtc.
  - rewrite Hp. simpl. rewrite app_nil_r, Hd, Hq. done.
  - eapply drawn_wider; [..|exact Hdr]; [done|lia|simpl; lia].
Qed.

(** The rows locked before the phase started. *)
Lemma phase_run_after ops ty ref ps ev ls s0 s1 s' :
  s_db s1 = s_db s0 -> s_env s1 = s_env s0 -> s_deferred s1 = s_deferred s0 ->
  s_locks s1 = s_locks s0 ++ ls -> (s_tick s0 <= s_tick s1)%nat ->
  phase_run ops ty ref ps ev [] s1 s' -> phase_run ops ty ref ps ev ls s0 s'.
Proof.
  intros Hdb He Hd Hl Ht (txn & o & Hph & Hty & Href & Hev & Hp & He' & Hd' & Hl' & Hdr & Hdo).
  exists txn, o. rewrite Hdb in Hph. rewrite He in He'. rewrite Hd in Hd'. rewrite Hl in Hl'.
  rewrite <- app_assoc in Hl'. do 7 (split; [done|]). split; [done|].
  split; (eapply drawn_wider; [exact He|exact Ht| |]); [|exact Hdr| |exact Hdo]; done.
Qed.

(** A phase whose statements were flushed before the posting. *)
Lemma phase_run_flushed ops ty ref ps ev s0 s1 s' :
  exec_ops ops (s_db s0) = Ok (s_db s1) -> s_env s1 = s_env s0 -> s_deferred s1 = s_deferred s0 ->
  s_locks s1 = s_locks s0 -> (s_tick s0 <= s_tick s1)%nat ->
  phase_run [] ty ref ps ev [] s1 s' -> phase_run ops ty ref ps ev [] s0 s'.
Proof.
  intros Hex He Hd Hl Ht (txn & o & [_ Hv Hpost Hf Hr] & Hrest).
  assert (Hrtc : rtc exec_step (s_db s0) (s_db s')) by (etrans; [by eapply exec_ops_rtc|done]).
  apply exec_ops_exec_write in Hex as [Hdb Hex]. clear Hr.
  exists txn, o. rewrite He, Hd, Hl in Hrest.
  destruct Hrest as (H1 & H2 & H3 & H4 & H5 & H6 & H7 & Hdr & Hdo). split.
  - simpl in *. rewrite Hdb in *. by constructor.
  - do 7 (split; [done|]).
    split; (eapply drawn_wider; [exact He|exact Ht| |]); [|exact Hdr| |exact Hdo]; done.
Qed.

Definition hold_event (p : Payment) : EventSpec :=
  mkEventSpec "payment" (p_id p) "payment.processing"
    [("paymentId", JStr (uuid_str (p_id p))); ("merchantId", JStr (p_merchant_id p));
     ("amount", JInt (p_amount p)); ("currency", JStr (p_currency p));
     ("status", JStr "PROCESSING")].

Definition settle_event (p : Payment) (psp_reference : string) : EventSpec :=
  mkEventSpec "payment" (p_id p) "payment.succeeded"
    [("paymentId", JStr (uuid_str (p_id p))); ("merchantId", JStr (p_merchant_id p));
     ("amount", JInt (p_amount p)); ("currency", JStr (p_currency p));
     ("status", JStr "SUCCEEDED"); ("pspReference", JStr psp_reference)].

Definition reverse_event (p : Payment) : EventSpec :=
  mkEventSpec "payment" (p_id p) "payment.failed"
    [("paymentId", JStr (uuid_str (p_id p))); ("merchantId", JStr (p_merchant_id p));
     ("amount", JInt (p_amount p)); ("status", JStr "FAILED")].

(** The payment rows [settle] and [reverse] write. *)
Definition settled (p : Payment) (psp_reference : string) (t : Z) : Payment :=
  {| p with p_status := SUCCEEDED; p_psp_reference := Some psp_reference;
            p_version := p_version p + 1; p_updated_at := t |}.
Definition reversed (p : Payment) (t : Z) : Payment :=
  {| p with p_status := FAILED; p_version := p_version p + 1; p_updated_at := t |}.

Lemma hold_inv p0 s p s' :
  schema_ok (s_db s) -> s_pending s = [] -> hold p0 s = Ok (p, s') ->
  p = {| p0 with p_status := PROCESSING |} /\
  phase_run [InsertPayment p] TxnPAYMENT (p_id p)
    (transfer (p_payer_account p) PSP_SUSPENSE_ACCOUNT_ID (p_amount p)) (hold_event p) [] s s'.
Proof.
  intros Hso Hp H. unfold hold in H. set (q := {| p0 with p_status := PROCESSING |}) in *.
  inv_bind_as H u1 s1 Hadd H1. inv_bind_as H1 u2 s2 Hflush H2.
  rewrite session_add_eq in Hadd. injection Hadd as _ <-.
  apply flush_Ok_inv in Hflush as (d & Hex & ->). simpl in Hex. rewrite Hp in Hex.
  assert (Hso1 : schema_ok d) by (by eapply schema_ok_exec_ops).
  apply post_event_inv in H2 as [-> Hrun]; [|done|done]. split; [done|].
  eapply (phase_run_flushed [InsertPayment q]); [..|exact Hrun]; simpl;
    [exact Hex|done|by rewrite Hp, app_nil_r|done|lia].
Qed.

Lemma settle_inv i r s p s' :
  schema_ok (s_db s) -> s_pending s = [] -> settle i r s = Ok (p, s') ->
  exists p0 t, payments (s_db s) !! i = Some p0 /\ p = settled p0 r t /\
    phase_run [UpdatePayment p] TxnPAYMENT i
      (transfer PSP_SUSPENSE_ACCOUNT_ID (p_payee_account p0) (p_amount p0))
      (settle_event p0 r) [LockPayment i] s s'.
Proof.
  intros Hso Hp H. unfold settle in H. inv_bind_as H row s1 Hsel H1.
  apply select_payment_Ok_inv in Hsel as [-> ->].
  destruct (payments (s_db s) !! i) as [p0|] eqn:Hrow; [|done].
  inv_bind_as H1 t s2 Hnow H2. rewrite now_eq in Hnow. injection Hnow as <- <-.
  cbv zeta in H2. inv_bind_as H2 u s3 Hadd H3.
  rewrite session_add_eq in Hadd. injection Hadd as _ <-.
  apply post_event_inv in H3 as [-> Hrun]; simpl; [|done|by rewrite Hp].
  eexists p0, _. split; [done|]. split; [done|].
  destruct (so_payment _ Hso _ _ Hrow) as [Hid _]. simpl in Hrun. rewrite Hp, Hid in Hrun.
  unfold settle_event. rewrite Hid. eapply phase_run_after; [..|exact Hrun]; try done. simpl. lia.
Qed.

Lemma reverse_inv i s p s' :
  schema_ok (s_db s) -> s_pending s = [] -> reverse i s = Ok (p, s') ->
  exists p0 t, payments (s_db s) !! i = Some p0 /\ p = reversed p0 t /\
    phase_run [UpdatePayment p] TxnREVERSAL i
      (transfer PSP_SUSPENSE_ACCOUNT_ID (p_payer_account p0) (p_amount p0))
      (reverse_event p0) [LockPayment i] s s'.
Proof.
  intros Hso Hp H. unfold reverse in H. inv_bind_as H row s1 Hsel H1.
  apply select_payment_Ok_inv in Hsel as [-> ->].
  destruct (payments (s_db s) !! i) as [p0|] eqn:Hrow; [|done].
  inv_bind_as H1 t s2 Hnow H2. rewrite now_eq in Hnow. injection Hnow as <- <-.
  cbv zeta in H2. inv_bind_as H2 u s3 Hadd H3.
  rewrite session_add_eq in Hadd. injection Hadd as _ <-.
  apply post_event_inv in H3 as [-> Hrun]; simpl; [|done|by rewrite Hp].
  eexists p0, _. split; [done|]. split; [done|].
  destruct (so_payment _ Hso _ _ Hrow) as [Hid _]. simpl in Hrun. rewrite Hp, Hid in Hrun.
  unfold reverse_event. rewrite Hid. eapply phase_run_after; [..|exact Hrun]; try done. simpl. lia.
Qed.

(** ** The tables after a phase *)

(** Statements on payments and refunds only. *)
Definition payment_op (op : DbOp) : bool :=
  match op with InsertPayment _ | UpdatePayment _ | InsertRefund _ => true | _ => false end.

(** Everything but payments and refunds is as in [db0]. *)
Record payment_frame (db0 db : DB) : Prop := {
  pf_accounts : accounts db = accounts db0;
  pf_balances : account_balances db = account_balances db0;
  pf_txns : ledger_transactions db = ledger_transactions db0;
  pf_entries : ledger_entries db = ledger_entries db0;
  pf_idem : idempotency_keys db = idempotency_keys db0;
  pf_outbox : outbox db = outbox db0;
  pf_webhooks : webhook_events db = webhook_events db0;
}.

Lemma payment_ops_frame ops db :
  forallb payment_op ops = true -> payment_frame db (write_ops ops db).
Proof.
  revert db. induction ops as [|op ops IH]; intros db H; [by constructor|].
  simpl in H. apply andb_true_iff in H as [Hop H]. rewrite write_ops_cons.
  destruct (IH (op_write op db) H). by destruct op; try done; constructor.
Qed.

(** What the rest of the system sees of a phase. *)
Record phase_summary (ops : list DbOp) (txn : LedgerTransaction) (ps : list Posting) (o : Outbox)
    (db db' : DB) : Prop := {
  sm_exec : exec_ops ops db = Ok (write_ops ops db);
  sm_accounts : accounts db' = accounts db;
  sm_payments : payments db' = payments (write_ops ops db);
  sm_refunds : refunds db' = refunds (write_ops ops db);
  sm_idem : idempotency_keys db' = idempotency_keys db;
  sm_webhooks : webhook_events db' = webhook_events db;
  sm_outbox_fresh : outbox db !! o_id o = None;
  sm_outbox : outbox db' = <[o_id o := o]> (outbox db);
  sm_txn_fresh : ledger_transactions db !! lt_id txn = None;
  sm_txns : ledger_transactions db' = <[lt_id txn := txn]> (ledger_transactions db);
  sm_entries : exists es, ledger_entries db' = ledger_entries db ++ es /\
    Forall2 (entry_for (lt_id txn)) ps es;
  sm_balance : forall a, balance_of db' a = balance_of db a + delta ps a;
  sm_version : forall a, version_of db' a = version_of db a + touches ps a;
  sm_dom : dom (account_balances db') =
    dom (account_balances db) ∪ list_to_set (map po_account_id ps);
  sm_untouched : forall a, a ∉ map po_account_id ps ->
    account_balances db' !! a = account_balances db !! a;
  sm_valid : validate_balanced ps = Ok tt;
  sm_total : total_balance db' = total_balance db;
  sm_books : books_balanced db -> books_balanced db';
  sm_rtc : rtc exec_step db db';
}.

Lemma phase_effect_summary ops txn ps o db db' :
  forallb payment_op ops = true -> phase_effect ops txn ps o db db' ->
  phase_summary ops txn ps o db db'.
Proof.
  intros Hops [Hex Hval (db1 & Hpe & ->) Hfresh Hrtc].
  pose proof (payment_ops_frame ops db Hops) as [Fa Fb Ft Fe Fi Fo Fw].
  pose proof (post_conserves _ _ _ _ Hpe Hval) as Htot.
  pose proof (post_books_balanced _ _ _ _ Hpe Hval) as Hbooks.
  destruct Hpe as [[Pa Pp Pr Pi Po Pw] Pf Pt Pe Pb Pv Pd Pu].
  unfold balance_of, version_of, total_balance, books_balanced, txn_net in *.
  rewrite ?Fa, ?Fb, ?Ft, ?Fe, ?Fi, ?Fo, ?Fw in *.
  constructor; simpl; try congruence; try done.
Qed.

(** ** When a phase succeeds *)

(** What the ledger needs for more transfers: [room] more updates of every balance row, and
    draws that are new from number [from] on. *)
Record ledger_ready_at (room : Z) (from : nat) (env : Env) (db : DB) : Prop := {
  lr_reliable : reliable env;
  lr_schema : schema_ok db;
  lr_total : total_balance db <= int64_max;
  lr_versions : version_room room db;
  lr_suspense : is_Some (accounts db !! PSP_SUSPENSE_ACCOUNT_ID);
  lr_fresh : forall n, ledger_transactions db !! uuid4_at env (from + n) = None /\
                       outbox db !! uuid4_at env (from + n) = None;
}.

(** For one transfer, in a new session. *)
Abbreviation ledger_ready := (ledger_ready_at 2 0).

Lemma ledger_ready_later room room' from from' env db :
  ledger_ready_at room from env db -> room' <= room -> (from <= from')%nat ->
  ledger_ready_at room' from' env db.
Proof.
  intros [Hr Hso Ht Hv Hs Hf] Hroom Hfrom. constructor; try done.
  - intros a. specialize (Hv a). lia.
  - intros n. replace (from' + n)%nat with (from + (from' - from + n))%nat by lia. apply Hf.
Qed.

Lemma ledger_ready_frame room from env db db' :
  ledger_ready_at room from env db -> payment_frame db db' -> schema_ok db' ->
  ledger_ready_at room from env db'.
Proof.
  intros [Hr _ Ht Hv Hs Hf] [Fa Fb Ft Fe Fi Fo Fw] Hso.
  unfold total_balance, version_room, version_of in *.
  constructor; rewrite ?Fa, ?Fo, ?Ft; try done;
    unfold total_balance, version_room, version_of; by rewrite Fb.
Qed.

Lemma add_outbox_flush_progress {A} a i e pl (x : A) s :
  reliable (s_env s) -> s_pending s = [] ->
  outbox (s_db s) !! uuid4_at (s_env s) (s_tick s) = None ->
  varchar 100 a && varchar 100 e && jsonb pl = true ->
  exists s', (add_outbox a i e pl;; flush;; mret x) s = Ok (x, s').
Proof.
  intros Hr Hp Hf Hw.
  set (o := mkOutbox (uuid4_at (s_env s) (s_tick s)) a i e pl
              (now_at (s_env (tick s)) (s_tick (tick s))) None).
  set (s1 := with_pending [InsertOutbox o] (tick (tick s))).
  assert (Ha : add_outbox a i e pl s = Ok (tt, s1)) by done.
  assert (Hex : exec_ops (s_pending s1) (s_db s1) = Ok (op_write (InsertOutbox o) (s_db s))).
  { simpl. rewrite Hp. simpl. unfold exec_op, op_check. simpl. by rewrite Hw, Hf. }
  rewrite (bind_Ok _ _ _ _ _ Ha), (bind_Ok _ _ _ _ _ (flush_reliable s1 _ Hr Hex)). by eexists.
Qed.

(** A transfer and its event, after statements [s_pending s] that execute. *)
Lemma phase_progress {A} ty ref d c n a i e pl (x : A) s db0 :
  schema_ok (s_db s) -> exec_ops (s_pending s) (s_db s) = Ok db0 ->
  ledger_ready_at 2 (s_tick s) (s_env s) db0 -> 0 < n <= balance_of db0 d ->
  is_Some (accounts db0 !! d) -> is_Some (accounts db0 !! c) ->
  varchar 100 a && varchar 100 e && jsonb pl = true ->
  exists s', (post ty ref (transfer d c n);; add_outbox a i e pl;; flush;; mret x) s = Ok (x, s').
Proof.
  intros Hso Hex [Hr Hso0 Ht Hv _ Hf] Hn Hd Hc Hw.
  destruct (post_progress ty ref (transfer d c n) s db0) as [s1 Hpost].
  - constructor; try done.
    + rewrite <- (Nat.add_0_r (s_tick s)). by apply Hf.
    + apply transfer_balanced. lia.
    + intros p Hp. apply elem_of_cons in Hp as [->|Hp%list_elem_of_singleton]; [done|].
      by subst p.
  - rewrite transfer_unfunded, decide_False; [done|lia].
  - by apply transfer_in_range.
  - rewrite (bind_Ok _ _ _ _ _ Hpost). pose proof (flushes _ _ _ Hpost) as (_ & _ & Htick).
    apply post_Ok_inv in Hpost as (db0' & Hex' & Hpe & _ & _ & _ & Hp & He & _); [|done].
    rewrite Hex in Hex'. injection Hex' as <-.
    apply add_outbox_flush_progress; rewrite ?He; try done.
    rewrite (lf_outbox _ _ (pe_frame _ _ _ _ Hpe)).
    replace (s_tick s1) with (s_tick s + (s_tick s1 - s_tick s))%nat by lia. apply Hf.
Qed.

Lemma exec_payment_op op db :
  op_check op db = None -> exec_ops [op] db = Ok (op_write op db).
Proof. intros H. simpl. unfold exec_op. by rewrite H. Qed.

Lemma ledger_ready_op room from env op db :
  ledger_ready_at room from env db -> op_check op db = None -> payment_op op = true ->
  ledger_ready_at room from env (op_write op db).
Proof.
  intros Hlr Hop Hp. eapply ledger_ready_frame; [exact Hlr| |].
  - apply (payment_ops_frame [op]). simpl. by rewrite Hp.
  - eapply exec_op_schema_ok; [apply (lr_schema _ _ _ _ Hlr)|]. unfold exec_op. by rewrite Hop.
Qed.

(** The texts of a row the table takes, which its events and responses repeat. *)
Lemma checked_payment_text op q db :
  op = InsertPayment q \/ op = UpdatePayment q -> op_check op db = None ->
  no_nul (p_merchant_id q) = true /\ no_nul (p_currency q) = true /\
  from_option no_nul true (p_psp_reference q) = true.
Proof.
  intros Hq. unfold op_check. rewrite first_violation_None.
  destruct Hq as [-> | ->]; simpl; unfold varchar; rewrite !Forall_cons; cbn [fst];
    rewrite !andb_true_iff; intros (_ & (([Hm _] & [Hc _]) & Hr) & _); (split; [done|]; split; [done|]);
    (destruct (p_psp_reference q); simpl in *; [by apply andb_true_iff in Hr as [? _]|done]).
Qed.

(** The payload of an event: identifiers, amounts, names of states and checked texts. *)
Ltac solve_jsonb :=
  unfold jsonb; cbn [json_no_nul forallb fst snd]; rewrite ?uuid_str_no_nul;
  repeat match goal with H : no_nul _ = true |- _ => rewrite H; clear H end; reflexivity.

Lemma hold_progress p0 s :
  let q := {| p0 with p_status := PROCESSING |} in
  ledger_ready_at 2 (s_tick s) (s_env s) (s_db s) -> s_pending s = [] ->
  op_check (InsertPayment q) (s_db s) = None ->
  0 < p_amount p0 <= balance_of (s_db s) (p_payer_account p0) ->
  is_Some (accounts (s_db s) !! p_payer_account p0) ->
  exists s', hold p0 s = Ok (q, s').
Proof.
  intros q Hlr Hp Hop Hn Hacc. unfold hold. fold q.
  rewrite (bind_Ok _ _ _ _ _ (session_add_eq _ _)).
  pose proof (exec_payment_op _ _ Hop) as Hex.
  rewrite (bind_Ok _ _ _ _ _ (flush_reliable (with_pending [InsertPayment q] s) _
    (lr_reliable _ _ _ _ Hlr) ltac:(simpl; rewrite Hp; exact Hex))).
  pose proof (ledger_ready_op _ _ _ _ _ Hlr Hop eq_refl) as Hlr'.
  destruct (checked_payment_text _ _ _ (or_introl eq_refl) Hop) as (Hm & Hcur & _).
  eapply phase_progress; [| | | | | |solve_jsonb]; try done.
  - apply (lr_schema _ _ _ _ Hlr').
  - eapply ledger_ready_later; [exact Hlr'|lia|simpl; lia].
  - apply (lr_suspense _ _ _ _ Hlr').
Qed.

Lemma settle_progress i r p0 s :
  ledger_ready_at 2 (s_tick s) (s_env s) (s_db s) -> s_pending s = [] -> payments (s_db s) !! i = Some p0 ->
  (forall t, op_check (UpdatePayment (settled p0 r t)) (s_db s) = None) ->
  0 < p_amount p0 <= balance_of (s_db s) PSP_SUSPENSE_ACCOUNT_ID ->
  exists t s', settle i r s = Ok (settled p0 r t, s').
Proof.
  intros Hlr Hp Hrow Hop Hn. unfold settle.
  rewrite (bind_Ok _ _ _ _ _ (select_payment_reliable i s (lr_reliable _ _ _ _ Hlr))), Hrow.
  rewrite (bind_Ok _ _ _ _ _ (now_eq _)). cbv zeta.
  rewrite (bind_Ok _ _ _ _ _ (session_add_eq _ _)). eexists.
  match goal with |- context [UpdatePayment ?x] => set (q := x) end.
  assert (Hq : op_check (UpdatePayment q) (s_db s) = None) by apply Hop.
  destruct (checked_payment_text _ _ _ (or_intror eq_refl) Hq) as (Hm & Hcur & Href).
  change (no_nul r = true) in Href.
  pose proof (ledger_ready_op _ _ _ _ _ Hlr Hq eq_refl) as Hlr'.
  assert (Hc : is_Some (accounts (s_db s) !! p_payee_account p0))
    by apply (so_payment _ (lr_schema _ _ _ _ Hlr) _ _ Hrow).
  eapply phase_progress; [apply (lr_schema _ _ _ _ Hlr) | |
    eapply ledger_ready_later; [exact Hlr'|lia|simpl; lia] | exact Hn
    | apply (lr_suspense _ _ _ _ Hlr') | exact Hc | solve_jsonb].
  simpl. rewrite Hp. by apply exec_payment_op.
Qed.

Lemma reverse_progress i p0 s :
  ledger_ready_at 2 (s_tick s) (s_env s) (s_db s) -> s_pending s = [] -> payments (s_db s) !! i = Some p0 ->
  (forall t, op_check (UpdatePayment (reversed p0 t)) (s_db s) = None) ->
  0 < p_amount p0 <= balance_of (s_db s) PSP_SUSPENSE_ACCOUNT_ID ->
  exists t s', reverse i s = Ok (reversed p0 t, s').
Proof.
  intros Hlr Hp Hrow Hop Hn. unfold reverse.
  rewrite (bind_Ok _ _ _ _ _ (select_payment_reliable i s (lr_reliable _ _ _ _ Hlr))), Hrow.
  rewrite (bind_Ok _ _ _ _ _ (now_eq _)). cbv zeta.
  rewrite (bind_Ok _ _ _ _ _ (session_add_eq _ _)). eexists.
  match goal with |- context [UpdatePayment ?x] => set (q := x) end.
  assert (Hq : op_check (UpdatePayment q) (s_db s) = None) by apply Hop.
  destruct (checked_payment_text _ _ _ (or_intror eq_refl) Hq) as (Hm & Hcur & Href).
  pose proof (ledger_ready_op _ _ _ _ _ Hlr Hq eq_refl) as Hlr'.
  assert (Hc : is_Some (accounts (s_db s) !! p_payer_account p0))
    by apply (so_payment _ (lr_schema _ _ _ _ Hlr) _ _ Hrow).
  eapply phase_progress; [apply (lr_schema _ _ _ _ Hlr) | |
    eapply ledger_ready_later; [exact Hlr'|lia|simpl; lia] | exact Hn
    | apply (lr_suspense _ _ _ _ Hlr') | exact Hc | solve_jsonb].
  simpl. rewrite Hp. by apply exec_payment_op.
Qed.

(** A phase between two committed states. *)
Definition phase (ops : list DbOp) (ty : TransactionType) (ref : uuid) (ps : list Posting)
    (ev : EventSpec) (db db' : DB) : Prop :=
  exists txn o, phase_effect ops txn ps o db db' /\ lt_type txn = ty /\ lt_reference_id txn = ref /\
    records_event ev o.

Lemma phase_run_phase ops ty ref ps ev ls s s' :
  phase_run ops ty ref ps ev ls s s' ->
  phase ops ty ref ps ev (s_db s) (s_db s') /\ s_pending s' = [] /\ s_env s' = s_env s.
Proof. intros (txn & o & Hph & Hty & Href & Hev & Hp & He & _). split; [|done]. by exists txn, o. Qed.

(** One summary of a phase: its transaction row, its event, what it changed. *)
Lemma phase_summarised ops ty ref ps ev db db' :
  forallb payment_op ops = true -> phase ops ty ref ps ev db db' ->
  exists txn o, phase_summary ops txn ps o db db' /\ lt_type txn = ty /\ lt_reference_id txn = ref /\
    records_event ev o.
Proof.
  intros Hops (txn & o & Hph & Hrest). exists txn, o. split; [|done]. by apply phase_effect_summary.
Qed.

(** The outbox as a transaction of a service leaves it: the rows it had are as they were, the
    new ones are unpublished. *)
Record outbox_grows (db db' : DB) : Prop := {
  og_kept : forall i o, outbox db !! i = Some o -> outbox db' !! i = Some o;
  og_new : forall i o, outbox db' !! i = Some o ->
    outbox db !! i = Some o \/ outbox db !! i = None /\ o_published_at o = None;
}.

Lemma outbox_same db db' : outbox db' = outbox db -> outbox_grows db db'.
Proof. intros H. constructor; intros i o; rewrite H; [done|by left]. Qed.

#[global] Instance outbox_grows_preorder : PreOrder outbox_grows.
Proof.
  split; [intros db; by apply outbox_same|]. intros a b c [K1 N1] [K2 N2]. constructor; [by eauto|].
  intros i o Ho. destruct (N2 i o Ho) as [Hb|[Hnone Hp]]; [by apply N1|]. right. split; [|done].
  destruct (outbox a !! i) as [o'|] eqn:Ha; [|done]. apply K1 in Ha. by rewrite Hnone in Ha.
Qed.

Lemma phase_outbox ops ty ref ps ev db db' :
  forallb payment_op ops = true -> phase ops ty ref ps ev db db' -> outbox_grows db db'.
Proof.
  intros Hops Hph. apply phase_summarised in Hph as (txn & o & Hs & _ & _ & Hev); [|done].
  pose proof (sm_outbox_fresh _ _ _ _ _ _ Hs) as Hf. constructor; intros i q;
    rewrite (sm_outbox _ _ _ _ _ _ Hs).
  - intros Hq. rewrite lookup_insert_ne; [done|]. intros <-. by rewrite Hf in Hq.
  - rewrite lookup_insert_Some. intros [[<- <-]|[_ ?]]; [right|by left]. by split; [|apply Hev].
Qed.

Lemma add_outbox_inv a i e pl s u s' :
  add_outbox a i e pl s = Ok (u, s') ->
  exists o, records_event (mkEventSpec a i e pl) o /\
    s' = with_pending [InsertOutbox o] (tick (tick s)).
Proof. unfold add_outbox. intros H. msess. by eexists (mkOutbox _ a i e pl _ None). Qed.

(** A hold its payer cannot fund raises, for the payer's debit. *)
Lemma hold_unfunded p0 s :
  let q := {| p0 with p_status := PROCESSING |} in
  reliable (s_env s) -> schema_ok (s_db s) -> s_pending s = [] ->
  (forall n, ledger_transactions (s_db s) !! uuid4_at (s_env s) n = None) ->
  op_check (InsertPayment q) (s_db s) = None ->
  is_Some (accounts (s_db s) !! PSP_SUSPENSE_ACCOUNT_ID) ->
  0 < p_amount p0 -> balance_of (s_db s) (p_payer_account p0) < p_amount p0 ->
  hold p0 s = Err (InsufficientFundsException (p_payer_account p0)
                     (balance_of (s_db s) (p_payer_account p0)) (p_amount p0)).
Proof.
  intros q Hr Hso Hp Hf Hop Hsus Hpos Hn. unfold hold. fold q.
  rewrite (bind_Ok _ _ _ _ _ (session_add_eq _ _)).
  pose proof (exec_payment_op _ _ Hop) as Hex.
  rewrite (bind_Ok _ _ _ _ _ (flush_reliable (with_pending [InsertPayment q] s) _
    Hr ltac:(simpl; rewrite Hp; exact Hex))).
  apply bind_Err. set (db1 := op_write (InsertPayment q) (s_db s)).
  apply (post_insufficient_funds _ _ _ _ db1 (mkPosting (p_payer_account q) DEBIT (p_amount q))).
  - constructor; try done.
    + apply (schema_ok_exec_ops _ _ _ Hex Hso).
    + by apply transfer_balanced.
    + assert (Hpayer : is_Some (accounts (s_db s) !! p_payer_account p0)).
      { unfold op_check in Hop. rewrite first_violation_None in Hop. simpl in Hop.
        rewrite !Forall_cons in Hop. simpl in Hop. rewrite !is_present_spec in Hop. naive_solver. }
      intros p Hin. apply elem_of_cons in Hin as [->|Hin%list_elem_of_singleton]; [done|].
      by subst p.
  - change [_; _] with (transfer (p_payer_account q) PSP_SUSPENSE_ACCOUNT_ID (p_amount q)).
    rewrite transfer_unfunded, decide_True; [done|]. exact Hn.
Qed.

Lemma insert_payment_fresh q db db' :
  exec_ops [InsertPayment q] db = Ok db' -> payments db !! p_id q = None.
Proof.
  simpl. intros H. apply result_bind_Ok_inv in H as (d & Hop & _). by split_checks Hop.
Qed.

(** A row that fits can be reversed. *)
Lemma reversed_check i p0 db t :
  payments db !! i = Some p0 -> p_id p0 = i -> p_version p0 + 1 <= int64_max ->
  first_violation (payment_row_checks p0 db) = None ->
  op_check (UpdatePayment (reversed p0 t)) db = None.
Proof.
  intros Hrow Hid Hver Hfit. unfold op_check, op_checks.
  apply first_violation_None in Hfit. unfold payment_row_checks in Hfit.
  rewrite !Forall_cons in Hfit. simpl in Hfit. destruct Hfit as (H1 & H2 & H3 & H4 & _).
  rewrite !andb_true_iff in H1. destruct H1 as [[H1a H1b] H1c].
  assert (Hv : int64_ok (p_version p0 + 1) = true).
  { apply int64_ok_spec. apply int64_ok_spec in H1c. lia. }
  apply first_violation_None. unfold payment_row_checks.
  rewrite Forall_app, !Forall_cons, !Forall_nil. simpl.
  rewrite Hid, Hrow, H1a, H1b, Hv, H2, H3, H4. done.
Qed.

Lemma transfer_touches_le d c n a : touches (transfer d c n) a <= 2.
Proof. rewrite transfer_touches. repeat case_decide; lia. Qed.

Lemma drawn_not_later s s' i m :
  Inj eq eq (uuid4_at (s_env s)) -> drawn s s' i -> i <> uuid4_at (s_env s) (s_tick s' + m).
Proof. intros Hinj (n & Hn & ->) Heq%Hinj. lia. Qed.

(** After a transfer the ledger is ready for the next, with room for one update less. *)
Lemma phase_run_ready room ops ty ref d c n ev ls s s' :
  forallb payment_op ops = true -> Inj eq eq (uuid4_at (s_env s)) ->
  ledger_ready_at (room + 2) (s_tick s) (s_env s) (s_db s) ->
  phase_run ops ty ref (transfer d c n) ev ls s s' ->
  ledger_ready_at room (s_tick s') (s_env s) (s_db s').
Proof.
  intros Hops Hinj [Hr Hso Ht Hv Hs Hf]
    (txn & o & Hph & _ & _ & _ & _ & He & _ & _ & Hdt & Hdo).
  pose proof (phase_effect_summary _ _ _ _ _ _ Hops Hph) as Hsm.
  assert (Hle : (s_tick s <= s_tick s')%nat) by (destruct Hdt as (m & Hm & _); lia).
  constructor.
  - done.
  - eapply schema_ok_rtc; [apply (sm_rtc _ _ _ _ _ _ Hsm)|done].
  - by rewrite (sm_total _ _ _ _ _ _ Hsm).
  - intros a. rewrite (sm_version _ _ _ _ _ _ Hsm). specialize (Hv a).
    pose proof (transfer_touches_le d c n a). lia.
  - by rewrite (sm_accounts _ _ _ _ _ _ Hsm).
  - intros m. rewrite (sm_txns _ _ _ _ _ _ Hsm), (sm_outbox _ _ _ _ _ _ Hsm).
    rewrite !lookup_insert_ne by (by eapply drawn_not_later).
    replace (s_tick s' + m)%nat with (s_tick s + (s_tick s' - s_tick s + m))%nat by lia. apply Hf.
Qed.
