(* ===== verification/Waiting.v ===== *)
(** * Waiting: requests that take locks in turn

    A request takes the locks of its plan one after the other and waits when the next one is
    held by another.  When every plan follows one strict order, not all requests wait.  The
    locks are those of any type with a strict order: [Locks] has row locks of sessions,
    [Interleave] the rows transactions ask for. *)

From S2P Require Import Prelude.

Record Runner (L : Type) := mkRunner { plan : list L; held : nat }.
Arguments mkRunner {L}.
Arguments plan {L}.
Arguments held {L}.

Section waiting.
  Context {L : Type} (lock_lt : L -> L -> Prop) `{!StrictOrder lock_lt, !EqDecision L}.

Definition holds (r : Runner L) (l : L) : Prop := l ∈ take (held r) (plan r).
Definition wants (r : Runner L) : option L := plan r !! held r.

(** [r] waits for a lock that another of the [rs] holds. *)
Definition blocked (rs : list (Runner L)) (r : Runner L) : Prop :=
  exists l r', wants r = Some l /\ r' ∈ rs /\ holds r' l.

Lemma holds_before_wants r l l' :
  StronglySorted lock_lt (plan r) -> holds r l -> wants r = Some l' -> lock_lt l l'.
Proof.
  unfold holds, wants. destruct r as [ls n]. simpl. revert n.
  induction ls as [|a ls IH]; intros n Hs Hh Hw; [by destruct n|].
  inversion Hs as [|x y Hs' Hall]; subst. destruct n as [|n]; simpl in *.
  { by apply not_elem_of_nil in Hh. }
  apply elem_of_cons in Hh as [->|Hh]; [|by eapply IH].
  rewrite Forall_forall in Hall. by eapply Hall, list_elem_of_lookup_2.
Qed.

(** Following "waits for" from a blocked runner climbs the order: among finitely many
    runners it stops. *)
Lemma climb (rs : list (Runner L)) (ls : list L) :
  Forall (fun r => StronglySorted lock_lt (plan r)) rs ->
  (forall r, r ∈ rs -> blocked rs r) ->
  forall r l, r ∈ rs -> wants r = Some l -> exists r' l', r' ∈ rs /\ wants r' = Some l' /\ lock_lt l l'.
Proof.
  intros Hord Hall r l Hr Hw. destruct (Hall r Hr) as (l1 & r1 & Hw1 & Hr1 & Hh1).
  rewrite Hw in Hw1. injection Hw1 as <-.
  destruct (Hall r1 Hr1) as (l2 & _ & Hw2 & _). exists r1, l2. split; [done|]. split; [done|].
  rewrite Forall_forall in Hord. eapply holds_before_wants; [by apply Hord|done|done].
Qed.

Lemma no_endless_climb (l : list L) (P : L -> Prop) :
  (forall a, P a -> a ∈ l) -> (forall a, P a -> exists b, P b /\ lock_lt a b) -> forall a, ~ P a.
Proof.
  remember (List.length l) as n eqn:Hn. revert l P Hn.
  induction n as [|n IH]; intros l P Hn Hin Hup a Ha.
  - destruct l; [|done]. apply Hin in Ha. by apply not_elem_of_nil in Ha.
  - destruct (list_elem_of_split l a (Hin a Ha)) as (l1 & l2 & ->).
    destruct (Hup a Ha) as (b & Hb & Hab).
    apply (IH (l1 ++ l2) (fun c => P c /\ lock_lt a c) ltac:(rewrite length_app in *; simpl in Hn; lia))
      with b; [| |done].
    + intros c [Hc Hac]. apply Hin in Hc. apply elem_of_app in Hc as [Hc|Hc]; apply elem_of_app;
        [by left|]. apply elem_of_cons in Hc as [->|Hc]; [|by right].
      by apply (irreflexivity lock_lt) in Hac.
    + intros c [Hc Hac]. destruct (Hup c Hc) as (d & Hd & Hcd). exists d. split; [|done].
      split; [done|]. by transitivity c.
Qed.

Lemma blocked_spec rs r :
  blocked rs r <->
  match wants r with Some l => Exists (fun r' => holds r' l) rs | None => False end.
Proof.
  unfold blocked. split.
  - intros (l & r' & -> & Hr' & Hh). apply Exists_exists. eauto.
  - destruct (wants r) as [l|]; [|done]. intros (r' & Hr' & Hh)%Exists_exists. eauto 10.
Qed.

#[global] Instance holds_dec r l : Decision (holds r l).
Proof. unfold holds. apply _. Defined.

#[global] Instance blocked_dec rs r : Decision (blocked rs r).
Proof.
  assert (Hd : Decision (match wants r with
                         | Some l => Exists (fun r' => holds r' l) rs | None => False end))
    by (destruct (wants r); apply _).
  destruct Hd as [H|H]; [left; by apply blocked_spec | right; intros Hb; by apply H, blocked_spec].
Defined.

(** Among any requests that take their locks in order, not all can be blocked by locks of
    one another: whenever some are running, one is not waiting for any of the others. *)
Lemma ordered_never_blocked (rs : list (Runner L)) :
  rs <> [] -> Forall (fun r => StronglySorted lock_lt (plan r)) rs -> exists r, r ∈ rs /\ ~ blocked rs r.
Proof.
  intros Hne Hord. destruct (decide (Forall (blocked rs) rs)) as [Hall|Hsome].
  - exfalso. rewrite Forall_forall in Hall. destruct rs as [|r rs]; [done|].
    destruct (Hall r) as (l & _ & Hw & _); [by left|]. set (all := r :: rs) in *.
    apply (no_endless_climb (concat (map plan all))
             (fun l => exists r, r ∈ all /\ wants r = Some l)) with l.
    + intros a (q & Hq & Hqa). apply list_elem_of_In, in_concat. exists (plan q).
      split; apply list_elem_of_In; [by apply list_elem_of_fmap_2|].
      by eapply list_elem_of_lookup_2.
    + intros a (q & Hq & Hqa). destruct (climb all (plan q) Hord Hall q a Hq Hqa)
        as (q' & b & Hq' & Hb & Hab). eauto 10.
    + exists r. split; [by left|done].
  - apply not_Forall_Exists in Hsome; [|apply _]. by apply Exists_exists in Hsome.
Qed.

End waiting.
