(* ===== verification/Locks.v ===== *)
(** * Locks: the order rows are locked in

    The discipline that keeps concurrent requests from deadlocking: a payment row before
    any balance row, balance rows by ascending account id.  Requests that keep it cannot
    wait for each other in a circle.  Which transactions keep it is proved in [LockOrder]. *)

From S2P Require Import Prelude PyStd Domain Models Session Ledger Waiting.

(** ** The order *)

Definition lock_lt (a b : row_lock) : Prop :=
  match a, b with
  | LockPayment _, LockBalance _ => True
  | LockBalance i, LockBalance j => (i < j)%N
  | _, _ => False
  end.

#[global] Instance lock_lt_dec : RelDecision lock_lt.
Proof. intros [] []; simpl; apply _. Defined.

#[global] Instance lock_lt_strict : StrictOrder lock_lt.
Proof.
  split; [intros [i|i|i]; unfold complement; simpl; lia|].
  intros [i|i|i] [j|j|j] [k|k|k]; simpl; try done; lia.
Qed.

(** A list of locks taken in order. *)
Definition in_order (ls : list row_lock) : Prop := StronglySorted lock_lt ls.

Lemma balances_in_order ids : StronglySorted N.lt ids -> in_order (map LockBalance ids).
Proof.
  induction 1 as [|i ids Hs IH Hall]; [constructor|]. constructor; [done|].
  apply Forall_forall. intros l (j & -> & Hj)%list_elem_of_fmap.
  by apply (proj1 (Forall_forall _ _) Hall).
Qed.

Lemma payment_then_balances i ids :
  StronglySorted N.lt ids -> in_order (LockPayment i :: map LockBalance ids).
Proof.
  intros Hs. constructor; [by apply balances_in_order|].
  apply Forall_forall. by intros l (j & -> & _)%list_elem_of_fmap.
Qed.
