(* ===== verification/Interleave.v ===== *)
(** * Interleave: transactions that run at the same time, statement by statement

    The concurrency of PostgreSQL at READ COMMITTED, as the services rely on it, over any
    kind of transaction.  A transaction asks for rows in turn.  A row that is there is read
    and locked with [SELECT ... FOR UPDATE], which waits while another transaction holds it;
    some rows are only looked for, and end the transaction when they are there (a key that
    was used).  A row that is missing is read as missing: the transaction then inserts it,
    which waits for the uncommitted insert of another one and fails on the unique key once
    that has committed, or it is at its end.  At its end it does its work on what it saw
    when it read ([view]: the rows as they were read, over the current tables), and commits
    or rolls back.

    [Rows] and [Jobs] are the interface: what a transaction does when it runs alone ([run]) and the rows
    it asks for ([job_plan]), with the laws that tie the two together.  The theorems of this
    file hold of every instance: ledger postings ([Concurrency]) and the transactions of the
    payment and refund services ([ServiceJobs]). *)

From S2P Require Import Prelude Domain Waiting.

(** ** The interface *)

(** The rows of the tables. *)
Class Rows (State Res : Type) := {
  present : State -> Res -> bool;
  ends_found : Res -> bool;                 (* a row that is there ends the transaction *)
  insertable : Res -> bool;                 (* a row that is missing is inserted *)
  same : Res -> State -> State -> Prop;     (* the row is the same in both *)
  put : Res -> State -> State -> State;     (* [put r d s]: [s] with the row as in [d] *)
  good : State -> Prop;
  res_lt : Res -> Res -> Prop;
}.

(** The transactions. *)
Class Jobs (State Job Answer Res : Type) := {
  run : Job -> State -> result exn Answer * State;
  job_plan : Job -> State -> list Res;      (* the rows asked for, on these tables *)
  plan_bound : Job -> nat;
}.

Section jobs.
  Context {State Job Answer Res : Type} `{!Rows State Res, !Jobs State Job Answer Res}.

(** Nothing more is asked for once this row has been read. *)
Definition decided (s : State) (r : Res) : bool :=
  if present s r then ends_found r else negb (insertable r).

(** Jobs one after the other. *)
Fixpoint run_jobs (js : list Job) (s : State) : list (result exn Answer) * State :=
  match js with
  | [] => ([], s)
  | j :: js' =>
      let '(r, s1) := run j s in
      let '(rs, s2) := run_jobs js' s1 in
      (r :: rs, s2)
  end.

(** ** Stages and steps.  [seen]: the rows held, each with the tables it was read in. *)

Inductive Stage :=
| Running (seen : list (Res * State))
| Inserting (seen : list (Res * State)) (r : Res)
| Finished (a : result exn Answer).

Definition seen_by (st : Stage) : list (Res * State) :=
  match st with Running seen | Inserting seen _ => seen | Finished _ => [] end.

Definition view (seen : list (Res * State)) (s : State) : State :=
  foldr (fun x s' => put x.1 x.2 s') s seen.

Record Conc := mkConc { c_db : State; c_jobs : list (Job * Stage) }.

Definition start (jobs : list Job) (s : State) : Conc :=
  mkConc s (map (fun j => (j, Running [])) jobs).

(** The row a job asks for next, on what it has seen. *)
Definition next_row (c : Conc) (j : Job) (seen : list (Res * State)) : option Res :=
  job_plan j (view seen (c_db c)) !! length seen.

(** It has all it asks for. *)
Definition at_end (c : Conc) (j : Job) (seen : list (Res * State)) : Prop :=
  match next_row c j seen with None => True | Some r => decided (c_db c) r = true end.

(** No other job holds the row, or its key. *)
Definition free (c : Conc) (i : nat) (r : Res) : Prop :=
  forall k x, k <> i -> c_jobs c !! k = Some x -> r ∉ (seen_by x.2).*1.

(** Job [i] goes to stage [st], leaving the tables as [s]. *)
Definition goes (c : Conc) (i : nat) (j : Job) (st : Stage) (s : State) : Conc :=
  mkConc s (<[i := (j, st)]> (c_jobs c)).

Inductive conc_step (c : Conc) : Conc -> Prop :=
| step_lock i j seen r :
    c_jobs c !! i = Some (j, Running seen) -> next_row c j seen = Some r ->
    present (c_db c) r = true -> ends_found r = false -> free c i r ->
    conc_step c (goes c i j (Running (seen ++ [(r, c_db c)])) (c_db c))
| step_missing i j seen r :
    c_jobs c !! i = Some (j, Running seen) -> next_row c j seen = Some r ->
    present (c_db c) r = false -> insertable r = true ->
    conc_step c (goes c i j (Inserting seen r) (c_db c))
| step_insert i j seen r :
    c_jobs c !! i = Some (j, Inserting seen r) -> present (c_db c) r = false -> free c i r ->
    conc_step c (goes c i j (Running (seen ++ [(r, c_db c)])) (c_db c))
| step_duplicate i j seen r :
    c_jobs c !! i = Some (j, Inserting seen r) -> present (c_db c) r = true ->
    conc_step c (goes c i j (Finished (Err (DBAPIError UniqueViolation))) (c_db c))
| step_commit i j seen a s' :
    c_jobs c !! i = Some (j, Running seen) -> at_end c j seen ->
    run j (view seen (c_db c)) = (Ok a, s') ->
    conc_step c (goes c i j (Finished (Ok a)) s')
| step_rollback i j seen e s' :
    c_jobs c !! i = Some (j, Running seen) -> at_end c j seen ->
    run j (view seen (c_db c)) = (Err e, s') ->
    conc_step c (goes c i j (Finished (Err e)) (c_db c)).

End jobs.

Arguments Stage : clear implicits.
Arguments Conc : clear implicits.

(** ** The laws *)

Class RowLaws (State Res : Type) `{!Rows State Res} := {
  res_lt_strict :: StrictOrder res_lt;
  same_refl r s : same r s s;
  same_trans r s1 s2 s3 : same r s1 s2 -> same r s2 s3 -> same r s1 s3;
  same_present r s s' : same r s s' -> present s' r = present s r;
  put_same r d s : same r d s -> put r d s = s;
}.

Class JobLaws (State Job Answer Res : Type) `{!Rows State Res, !Jobs State Job Answer Res} := {
  run_rollback j s e s' : run j s = (Err e, s') -> s' = s;
  run_good j s a s' : good s -> run j s = (Ok a, s') -> good s';
  run_keeps j s a s' r : good s -> run j s = (Ok a, s') -> present s r = true -> present s' r = true;
  run_frame j s a s' r : good s -> run j s = (Ok a, s') ->
    decided s r = false -> r ∉ job_plan j s -> same r s s';
  plan_stable j s s' n : good s -> good s' -> Forall (fun r => same r s s') (take n (job_plan j s)) ->
    take (S n) (job_plan j s') = take (S n) (job_plan j s);
  plan_decided j s n r : good s -> job_plan j s !! n = Some r -> decided s r = true ->
    length (job_plan j s) = S n;
  plan_sorted j s : good s -> StronglySorted res_lt (job_plan j s);
  plan_bounded j s : good s -> (length (job_plan j s) <= plan_bound j)%nat;
}.

(** ** The invariant of an interleaving *)

Section proofs.
  Context {State Job Answer Res : Type} `{!Rows State Res, !Jobs State Job Answer Res}.
  Context `{!RowLaws State Res, !JobLaws State Job Answer Res, !EqDecision Res}.

  Implicit Types (s : State) (j : Job) (r : Res) (c : Conc State Job Answer Res).

Lemma run_jobs_snoc js j s :
  run_jobs (js ++ [j]) s =
  let '(rs, d) := run_jobs js s in let '(a, d') := run j d in (rs ++ [a], d').
Proof.
  revert s. induction js as [|j' js IH]; intros s; simpl; [by destruct (run j s)|].
  destruct (run j' s) as [r1 d1]. rewrite IH. destruct (run_jobs js d1) as [rs d].
  by destruct (run j d).
Qed.

(** The rows held are as they were read, and rows that can be held. *)
Definition holds_now s (seen : list (Res * State)) : Prop :=
  Forall (fun x => same x.1 x.2 s /\ decided s x.1 = false) seen.

Lemma view_accurate seen s : holds_now s seen -> view seen s = s.
Proof.
  induction 1 as [|x seen [Hx _] _ IH]; [done|]. simpl. rewrite IH. by apply put_same.
Qed.

(** Where a job stands: it holds the first rows of its plan. *)
Definition stage_ok (s0 s : State) j (st : Stage State Answer Res) : Prop :=
  match st with
  | Running seen => holds_now s seen /\ seen.*1 = take (length seen) (job_plan j s)
  | Inserting seen r =>
      holds_now s seen /\ seen.*1 ++ [r] = take (S (length seen)) (job_plan j s) /\
      insertable r = true /\ present s0 r = false
  | Finished _ => True
  end.

(** A job that lost the race to insert a row. *)
Definition lost_race (s0 : State) j (a : result exn Answer) : Prop :=
  a = Err (DBAPIError UniqueViolation) /\
  exists s r, r ∈ job_plan j s /\ insertable r = true /\ present s0 r = false.

(** The jobs that have ended so far did so as if run one after the other, in [order]. *)
Record serial_upto (jobs : list Job) (s0 : State) (order : list nat)
    (rs : list (result exn Answer)) c : Prop := {
  su_jobs : (c_jobs c).*1 = jobs;
  su_serial : run_jobs (omap (fun i => jobs !! i) order) s0 = (rs, c_db c);
  su_results : Forall2 (fun i a => exists j, c_jobs c !! i = Some (j, Finished a)) order rs;
  su_order : NoDup order;
  su_finished : forall i j a, c_jobs c !! i = Some (j, Finished a) -> i ∈ order \/ lost_race s0 j a;
  su_stage : forall i j st, c_jobs c !! i = Some (j, st) -> stage_ok s0 (c_db c) j st;
  su_disjoint : forall i k x y r, c_jobs c !! i = Some x -> c_jobs c !! k = Some y -> i <> k ->
    r ∈ (seen_by x.2).*1 -> r ∉ (seen_by y.2).*1;
  su_rows : forall r, present s0 r = true -> present (c_db c) r = true;
  su_good : good (c_db c);
}.

Lemma start_lookup jobs s i j (st : Stage State Answer Res) :
  c_jobs (start jobs s) !! i = Some (j, st) -> st = Running [].
Proof. simpl. rewrite list_lookup_fmap. intros H. destruct (jobs !! i); simpl in H; naive_solver. Qed.

Lemma serial_start jobs s : good s -> serial_upto jobs s [] [] (start jobs s).
Proof.
  intros Hso. constructor; try done; try by constructor.
  - simpl. rewrite <- list_fmap_compose. apply list_fmap_id.
  - intros i j r H. by apply start_lookup in H.
  - intros i j st H. apply start_lookup in H as ->. by split; [constructor|].
  - intros i k [j st] y r H. apply start_lookup in H as ->. by intros _ _ ?%not_elem_of_nil.
Qed.

(** The stage of every job after one has moved. *)
Lemma goes_lookup c i j0 st0 j st s k x :
  c_jobs c !! i = Some (j0, st0) -> c_jobs (goes c i j st s) !! k = Some x ->
  (k = i /\ x = (j, st)) \/ (k <> i /\ c_jobs c !! k = Some x).
Proof.
  simpl. intros Hi Hk. apply list_lookup_insert_Some in Hk as [(-> & <- & _)|[Hne Hk]]; [by left|].
  right. done.
Qed.

Lemma goes_jobs c i j st0 st s :
  c_jobs c !! i = Some (j, st0) -> (c_jobs (goes c i j st s)).*1 = (c_jobs c).*1.
Proof.
  intros Hi. simpl. rewrite list_fmap_insert. simpl. apply list_insert_id.
  by rewrite list_lookup_fmap, Hi.
Qed.

Lemma not_in_order jobs s0 order rs c i j st :
  serial_upto jobs s0 order rs c -> c_jobs c !! i = Some (j, st) ->
  (forall a, st <> Finished a) -> i ∉ order.
Proof.
  intros Hs Hi Hst Hin. apply list_elem_of_lookup in Hin as [n Hn].
  destruct (Forall2_lookup_l _ _ _ _ _ (su_results _ _ _ _ _ Hs) Hn) as (a & _ & j' & Hf).
  rewrite Hi in Hf. injection Hf as _ ->. by apply (Hst a).
Qed.

(** The results of the order are not touched by a job outside it. *)
Lemma results_keep c i j st s order (rs : list (result exn Answer)) :
  i ∉ order ->
  Forall2 (fun k a => exists j', c_jobs c !! k = Some (j', Finished a)) order rs ->
  Forall2 (fun k a => exists j', c_jobs (goes c i j st s) !! k = Some (j', Finished a)) order rs.
Proof.
  intros Hi H. induction H as [|k a order rs (j' & Hk) _ IH]; constructor.
  - apply not_elem_of_cons in Hi as [Hne _]. exists j'. simpl. by rewrite list_lookup_insert_ne.
  - apply IH. by apply not_elem_of_cons in Hi as [_ ?].
Qed.

Lemma decided_same s s' r : same r s s' -> decided s' r = decided s r.
Proof. intros H. unfold decided. by rewrite (same_present _ _ _ H). Qed.

(** A job stands where it stood while the rows it holds do not change. *)
Lemma stage_ok_keeps s0 s s' j st :
  good s -> good s' -> (forall r, r ∈ (seen_by st).*1 -> same r s s') ->
  stage_ok s0 s j st -> stage_ok s0 s' j st.
Proof.
  intros Hg Hg' Hsame.
  assert (Hnow : forall seen, seen = seen_by st -> holds_now s seen -> holds_now s' seen).
  { intros seen -> H. unfold holds_now in *. rewrite Forall_forall in *. intros x Hx.
    destruct (H x Hx) as [H1 H2].
    assert (Hr : same x.1 s s') by (by apply Hsame, list_elem_of_fmap_2).
    split; [by eapply same_trans|by rewrite (decided_same _ _ _ Hr)]. }
  assert (Hplan : forall seen, seen = seen_by st -> seen.*1 = take (length seen) (job_plan j s) ->
            take (S (length seen)) (job_plan j s') = take (S (length seen)) (job_plan j s)).
  { intros seen -> Heq. apply plan_stable; [done..|]. rewrite <- Heq. by apply Forall_forall. }
  destruct st as [seen|seen r|a]; simpl; [| |done].
  - intros [H1 H2]. split; [by apply Hnow|]. pose proof (Hplan seen eq_refl H2) as Heq.
    apply (f_equal (take (length seen))) in Heq. rewrite !take_take, Nat.min_l in Heq by lia.
    by rewrite Heq.
  - intros (H1 & H2 & H3). split; [by apply Hnow|]. split; [|done].
    rewrite (Hplan seen); [done|done|]. apply (f_equal (take (length seen))) in H2.
    rewrite take_take, Nat.min_l in H2 by lia. rewrite <- H2.
    rewrite take_app_length'; [done|by rewrite length_fmap].
Qed.

(** The rows held are undecided, so that nobody else changes them at a commit. *)
Lemma held_undecided s0 s j st r : stage_ok s0 s j st -> r ∈ (seen_by st).*1 -> decided s r = false.
Proof.
  intros Hok Hr. assert (H : holds_now s (seen_by st)) by (destruct st; [apply Hok|apply Hok|constructor]).
  apply list_elem_of_fmap in Hr as (x & -> & Hx). unfold holds_now in H. rewrite Forall_forall in H. by apply H.
Qed.

(** A job moves to a stage in which it has not ended, or in which it has lost a race; what
    it now holds it held before or nobody else holds. *)
Lemma serial_moves jobs s0 order rs c i j st0 st :
  serial_upto jobs s0 order rs c -> c_jobs c !! i = Some (j, st0) ->
  (forall a, st0 <> Finished a) -> (forall a, st = Finished a -> lost_race s0 j a) ->
  stage_ok s0 (c_db c) j st ->
  (forall r, r ∈ (seen_by st).*1 -> r ∈ (seen_by st0).*1 \/ free c i r) ->
  serial_upto jobs s0 order rs (goes c i j st (c_db c)).
Proof.
  intros Hs Hi Hst0 Hst Hok Hseen. pose proof (not_in_order _ _ _ _ _ _ _ _ Hs Hi Hst0) as Hni.
  destruct Hs as [Hj Hser Hres Hnd Hfin Hstage Hdis Hrows Hg].
  constructor; try done.
  - by rewrite (goes_jobs _ _ _ _ _ _ Hi).
  - by apply results_keep.
  - intros k j' a Hk. destruct (goes_lookup _ _ _ _ _ _ _ _ _ Hi Hk) as [[_ [= -> Heq]]|[_ Hk']];
      [right; by apply Hst|by apply (Hfin k)].
  - intros k j' st' Hk. destruct (goes_lookup _ _ _ _ _ _ _ _ _ Hi Hk) as [[-> [= -> ->]]|[_ Hk']];
      [done|by apply (Hstage k)].
  - intros k l x y r Hk Hl Hne Hr.
    destruct (goes_lookup _ _ _ _ _ _ _ _ _ Hi Hk) as [[-> ->]|[Hki Hk']],
      (goes_lookup _ _ _ _ _ _ _ _ _ Hi Hl) as [[-> ->]|[Hli Hl']]; [done|..|by eapply (Hdis k l)].
    + simpl in Hr. destruct (Hseen r Hr) as [Hr'|Hfree]; [|by eapply Hfree].
      by eapply (Hdis i l _ _ r Hi Hl' Hne).
    + intros Hsr. destruct (Hseen r Hsr) as [Hr'|Hfree]; [|by eapply Hfree].
      by eapply (Hdis k i _ _ r Hk' Hi Hki).
Qed.

(** A job ends: with the result it has when run alone on the tables as they are. *)
Lemma serial_ends jobs s0 order rs c i j st0 a s' :
  serial_upto jobs s0 order rs c -> c_jobs c !! i = Some (j, st0) ->
  (forall a', st0 <> Finished a') -> run j (c_db c) = (a, s') ->
  (forall r, decided (c_db c) r = false -> r ∈ (seen_by st0).*1 \/ same r (c_db c) s') ->
  (forall r, present (c_db c) r = true -> present s' r = true) -> good s' ->
  serial_upto jobs s0 (order ++ [i]) (rs ++ [a]) (goes c i j (Finished a) s').
Proof.
  intros Hs Hi Hst0 Hrun Hold Hkeep Hg'. pose proof (not_in_order _ _ _ _ _ _ _ _ Hs Hi Hst0) as Hni.
  destruct Hs as [Hj Hser Hres Hnd Hfin Hstage Hdis Hrows Hg].
  assert (Hji : jobs !! i = Some j) by (rewrite <- Hj, list_lookup_fmap, Hi; done).
  constructor; try done.
  - by rewrite (goes_jobs _ _ _ _ _ _ Hi).
  - rewrite omap_app. simpl. rewrite Hji. by rewrite run_jobs_snoc, Hser, Hrun.
  - apply Forall2_app; [by apply results_keep|]. constructor; [|constructor].
    exists j. simpl. apply list_lookup_insert_eq. by eapply lookup_lt_Some.
  - apply NoDup_app. split; [done|]. split; [|apply NoDup_singleton].
    intros k Hk ->%list_elem_of_singleton. done.
  - intros k j' r' Hk. destruct (goes_lookup _ _ _ _ _ _ _ _ _ Hi Hk) as [[-> [= -> ->]]|[_ Hk']].
    + left. apply elem_of_app. right. by apply list_elem_of_singleton.
    + destruct (Hfin k j' r' Hk') as [Hin|Hlost]; [left; apply elem_of_app; by left|by right].
  - intros k j' st' Hk. destruct (goes_lookup _ _ _ _ _ _ _ _ _ Hi Hk) as [[-> [= -> ->]]|[Hne Hk']]; [done|].
    pose proof (Hstage k j' st' Hk') as Hok'. apply stage_ok_keeps with (c_db c); try done.
    intros r Hr. destruct (Hold r) as [Hin|Hsame]; [by eapply held_undecided| |done].
    exfalso. by eapply (Hdis k i _ _ r Hk' Hi Hne).
  - intros k l x y r Hk Hl Hne Hr.
    destruct (goes_lookup _ _ _ _ _ _ _ _ _ Hi Hk) as [[-> ->]|[Hki Hk']]; [by apply not_elem_of_nil in Hr|].
    destruct (goes_lookup _ _ _ _ _ _ _ _ _ Hi Hl) as [[-> ->]|[Hli Hl']]; [by apply not_elem_of_nil|].
    by eapply (Hdis k l).
  - simpl. intros r Hr. by apply Hkeep, Hrows.
Qed.

(** At its end a job holds every row of its plan that is not decided. *)
Lemma end_plan s0 c j seen r :
  good (c_db c) -> stage_ok s0 (c_db c) j (Running seen) -> at_end c j seen ->
  r ∈ job_plan j (c_db c) -> decided (c_db c) r = false -> r ∈ seen.*1.
Proof.
  unfold at_end, next_row. intros Hg [Hnow Hseen] Hend Hr Hd. rewrite view_accurate in Hend by done.
  rewrite Hseen. destruct (job_plan j (c_db c) !! length seen) as [r0|] eqn:Hnext.
  - pose proof (plan_decided _ _ _ _ Hg Hnext Hend) as Hlen.
    rewrite <- (take_ge (job_plan j (c_db c)) (S (length seen))) in Hr by lia.
    rewrite (take_S_r _ _ _ Hnext) in Hr. apply elem_of_app in Hr as [Hr|Hr]; [done|].
    apply list_elem_of_singleton in Hr as ->. congruence.
  - apply lookup_ge_None in Hnext. by rewrite take_ge.
Qed.

(** A job that takes its next row has the first rows of its plan still. *)
Lemma stage_takes s0 c j seen r :
  stage_ok s0 (c_db c) j (Running seen) -> next_row c j seen = Some r ->
  seen.*1 ++ [r] = take (S (length seen)) (job_plan j (c_db c)).
Proof.
  unfold next_row. intros [Hnow Hseen] Hnext. rewrite view_accurate in Hnext by done.
  by rewrite (take_S_r _ _ _ Hnext), Hseen.
Qed.

Lemma stage_locked s0 s j seen r :
  holds_now s seen -> seen.*1 ++ [r] = take (S (length seen)) (job_plan j s) -> decided s r = false ->
  stage_ok s0 s j (Running (seen ++ [(r, s)])).
Proof.
  intros Hnow Htake Hd. split.
  - apply Forall_app. split; [done|]. repeat constructor; [apply same_refl|done].
  - rewrite fmap_app, length_app, Nat.add_1_r. exact Htake.
Qed.

Lemma serial_step jobs s0 order rs c c' :
  serial_upto jobs s0 order rs c -> conc_step c c' ->
  exists order' rs', serial_upto jobs s0 order' rs' c'.
Proof.
  intros Hs Hstep. pose proof (su_good _ _ _ _ _ Hs) as Hg.
  assert (Hlocked : forall seen r i, free c i r -> forall r', r' ∈ (seen ++ [(r, c_db c)]).*1 -> r' ∈ seen.*1 \/ free c i r').
  { intros seen r i Hfree r' Hr'. rewrite fmap_app in Hr'. apply elem_of_app in Hr' as [?|Hr']; [by left|].
    apply list_elem_of_singleton in Hr' as ->. by right. }
  destruct Hstep as [i j seen r Hi Hnext Hp He Hfree|i j seen r Hi Hnext Hp Hins|i j seen r Hi Hp Hfree
    |i j seen r Hi Hp|i j seen a s' Hi Hend Hrun|i j seen e s' Hi Hend Hrun];
    pose proof (su_stage _ _ _ _ _ Hs i _ _ Hi) as Hok.
  - exists order, rs. eapply serial_moves; [exact Hs|exact Hi|done|done| |by apply Hlocked].
    apply stage_locked; [apply Hok|by eapply stage_takes|]. unfold decided. by rewrite Hp.
  - exists order, rs. eapply serial_moves; [exact Hs|exact Hi|done|done| |by left].
    split; [apply Hok|]. split; [by eapply stage_takes|]. split; [done|].
    destruct (present s0 r) eqn:Hp0; [|done]. apply (su_rows _ _ _ _ _ Hs) in Hp0. congruence.
  - exists order, rs. destruct Hok as (Hnow & Htake & Hins & _).
    eapply serial_moves; [exact Hs|exact Hi|done|done| |by apply Hlocked].
    apply stage_locked; [done|done|]. unfold decided. by rewrite Hp, Hins.
  - exists order, rs. destruct Hok as (Hnow & Htake & Hins & Hp0).
    eapply serial_moves; [exact Hs|exact Hi|done| |done|by intros r' ?%not_elem_of_nil].
    intros a [= <-]. split; [done|]. exists (c_db c), r. split; [|done].
    assert (Hr : r ∈ seen.*1 ++ [r]) by (apply elem_of_app; right; by apply list_elem_of_singleton).
    rewrite Htake in Hr. by apply elem_of_take in Hr as (n & Hr & _); apply list_elem_of_lookup_2 in Hr.
  - exists (order ++ [i]), (rs ++ [Ok a]).
    rewrite view_accurate in Hrun by apply Hok.
    eapply serial_ends; [exact Hs|exact Hi|done|exact Hrun| | |by eapply run_good].
    + intros r Hd. destruct (decide (r ∈ job_plan j (c_db c))) as [Hin|Hout];
        [left; by eapply end_plan|right; by eapply run_frame].
    + intros r. by eapply run_keeps.
  - exists (order ++ [i]), (rs ++ [Err e]).
    rewrite view_accurate in Hrun by apply Hok. pose proof (run_rollback _ _ _ _ Hrun) as ->.
    eapply serial_ends; [exact Hs|exact Hi|done|exact Hrun| |done|done]. intros r _. right. apply same_refl.
Qed.

Lemma serial_run jobs s0 c :
  good s0 -> rtc conc_step (start jobs s0) c -> exists order rs, serial_upto jobs s0 order rs c.
Proof.
  intros Hg Hrun. refine (rtc_ind_r (R := conc_step) (fun c => exists order rs,
    serial_upto jobs s0 order rs c) _ _ _ c Hrun).
  - exists [], []. by apply serial_start.
  - intros c1 c2 _ Hstep (order & rs & Hs). by eapply serial_step.
Qed.

(** ** Every interleaving ends, and none gets stuck *)

Definition ended (st : Stage State Answer Res) : bool := match st with Finished _ => true | _ => false end.

(** Statements a job has left to do, at most. *)
Definition weight (x : Job * Stage State Answer Res) : nat :=
  match x.2 with
  | Running seen => 2 * (plan_bound x.1 - length seen) + 1
  | Inserting seen _ => 2 * (plan_bound x.1 - length seen)
  | Finished _ => 0
  end.

Definition work c : nat := sum_list_with weight (c_jobs c).

Lemma start_work jobs s : work (start jobs s) = sum_list_with (fun j => 2 * plan_bound j + 1)%nat jobs.
Proof.
  unfold work. simpl. induction jobs as [|j jobs IH]; [done|]. simpl. rewrite IH. unfold weight. simpl. lia.
Qed.

Lemma next_row_bound s0 c j seen r :
  good (c_db c) -> stage_ok s0 (c_db c) j (Running seen) -> next_row c j seen = Some r ->
  (length seen < plan_bound j)%nat.
Proof.
  intros Hg Hok Hnext. unfold next_row in Hnext. rewrite view_accurate in Hnext by apply Hok.
  apply lookup_lt_Some in Hnext. pose proof (plan_bounded j _ Hg). lia.
Qed.

Lemma inserting_wants s0 s j seen r :
  stage_ok s0 s j (Inserting seen r) -> job_plan j s !! length seen = Some r.
Proof.
  intros (_ & Htake & _). apply (f_equal (lookup (length seen))) in Htake.
  rewrite lookup_take_lt in Htake by lia. rewrite <- Htake.
  by apply list_lookup_middle; rewrite length_fmap.
Qed.

Lemma inserting_bound s0 s j seen r :
  good s -> stage_ok s0 s j (Inserting seen r) -> (length seen < plan_bound j)%nat.
Proof.
  intros Hg Hok%inserting_wants%lookup_lt_Some. pose proof (plan_bounded j s Hg). lia.
Qed.

Lemma work_decreases jobs s0 order rs c c' :
  serial_upto jobs s0 order rs c -> conc_step c c' -> (work c' < work c)%nat.
Proof.
  intros Hs H. pose proof (su_good _ _ _ _ _ Hs) as Hg.
  assert (Hw : forall i j st st' s, c_jobs c !! i = Some (j, st) ->
            (weight (j, st') < weight (j, st) -> work (goes c i j st' s) < work c)%nat).
  { intros i j st st' s Hi Hlt. pose proof (sum_list_insert weight _ _ _ (j, st') Hi) as Hsum.
    unfold work. cbn [goes c_jobs]. lia. }
  destruct H as [i j seen r Hi Hnext|i j seen r Hi Hnext|i j seen r Hi|i j seen r Hi|i j seen a s' Hi|i j seen e s' Hi];
    apply (Hw _ _ _ _ _ Hi); pose proof (su_stage _ _ _ _ _ Hs i _ _ Hi) as Hok; unfold weight; simpl;
    rewrite ?length_app; simpl.
  - pose proof (next_row_bound _ _ _ _ _ Hg Hok Hnext). lia.
  - lia.
  - pose proof (inserting_bound _ _ _ _ _ Hg Hok). lia.
  - pose proof (inserting_bound _ _ _ _ _ Hg Hok). lia.
  - lia.
  - lia.
Qed.

Lemma steps_bounded jobs s0 order rs n c c' :
  serial_upto jobs s0 order rs c -> nsteps conc_step n c c' -> (n + work c' <= work c)%nat.
Proof.
  intros Hs H. revert order rs Hs. induction H as [c|n c1 c2 c3 H _ IH]; intros order rs Hs; [lia|].
  pose proof (work_decreases _ _ _ _ _ _ Hs H).
  destruct (serial_step _ _ _ _ _ _ Hs H) as (order' & rs' & Hs'). specialize (IH _ _ Hs'). lia.
Qed.

(** A job as a runner of [Waiting]: its rows in order, and how many it holds. *)
Definition runner s (x : Job * Stage State Answer Res) : Runner Res :=
  mkRunner (job_plan x.1 s) (length (seen_by x.2)).

Lemma runner_holds s0 s j st r :
  stage_ok s0 s j st -> r ∈ (seen_by st).*1 -> holds (runner s (j, st)) r.
Proof.
  intros Hok Hr. unfold holds. simpl. destruct st as [seen|seen r0|a]; simpl in *.
  - destruct Hok as [_ <-]. exact Hr.
  - destruct Hok as (_ & Htake & _). apply (f_equal (take (length seen))) in Htake.
    rewrite take_take, Nat.min_l, take_app_length' in Htake by (rewrite ?length_fmap; lia). by rewrite <- Htake.
  - by apply not_elem_of_nil in Hr.
Qed.

Lemma free_unblocked jobs s0 order rs c i j st r :
  serial_upto jobs s0 order rs c -> c_jobs c !! i = Some (j, st) ->
  job_plan j (c_db c) !! length (seen_by st) = Some r ->
  ~ blocked (map (runner (c_db c)) (filter (fun x => ended x.2 = false) (c_jobs c))) (runner (c_db c) (j, st)) ->
  free c i r.
Proof.
  intros Hs Hi Hw Hnb k [j' st'] Hne Hk Hr. apply Hnb.
  exists r, (runner (c_db c) (j', st')). split; [done|]. split.
  - apply list_elem_of_fmap_2, list_elem_of_filter.
    split; [by destruct st'; [..|by apply not_elem_of_nil in Hr]|by eapply list_elem_of_lookup_2].
  - by eapply runner_holds; [by eapply (su_stage _ _ _ _ _ Hs)|].
Qed.

(** A job that nobody blocks can go on. *)
Lemma unblocked_goes jobs s0 order rs c i j st :
  serial_upto jobs s0 order rs c -> c_jobs c !! i = Some (j, st) -> ended st = false ->
  (forall r, job_plan j (c_db c) !! length (seen_by st) = Some r -> free c i r) ->
  exists c', conc_step c c'.
Proof.
  intros Hs Hi Hend Hfree. pose proof (su_stage _ _ _ _ _ Hs i _ _ Hi) as Hok.
  destruct st as [seen|seen r|a]; [| |done].
  - destruct (run j (view seen (c_db c))) as [a s'] eqn:Hrun.
    assert (Hdone : at_end c j seen -> exists c', conc_step c c').
    { intros He. destruct a as [a|e]; eexists; [by eapply step_commit|by eapply step_rollback]. }
    destruct (next_row c j seen) as [r|] eqn:Hnext; [|apply Hdone; unfold at_end; by rewrite Hnext].
    destruct (decided (c_db c) r) eqn:Hd; [apply Hdone; unfold at_end; by rewrite Hnext|].
    unfold decided in Hd. destruct (present (c_db c) r) eqn:Hp; [|eexists; eapply step_missing; try done;
      by apply negb_false_iff].
    eexists. eapply step_lock; try done. apply Hfree. unfold next_row in Hnext.
    by rewrite view_accurate in Hnext by apply Hok.
  - destruct (present (c_db c) r) eqn:Hp; eexists; [by eapply step_duplicate|].
    eapply step_insert; try done. by eapply Hfree, inserting_wants.
Qed.

Lemma never_stuck jobs s0 order rs c i x :
  serial_upto jobs s0 order rs c -> c_jobs c !! i = Some x -> ended x.2 = false ->
  exists c', conc_step c c'.
Proof.
  intros Hs Hx Hend.
  set (runners := map (runner (c_db c)) (filter (fun x => ended x.2 = false) (c_jobs c))).
  destruct (ordered_never_blocked res_lt runners) as (r & Hr & Hnb).
  { intros Hnil. assert (Hin : runner (c_db c) x ∈ runners)
      by (apply list_elem_of_fmap_2, list_elem_of_filter; split; [done|by eapply list_elem_of_lookup_2]).
    rewrite Hnil in Hin. by apply not_elem_of_nil in Hin. }
  { apply Forall_forall. intros r (y & -> & _)%list_elem_of_fmap.
    apply plan_sorted, (su_good _ _ _ _ _ Hs). }
  apply list_elem_of_fmap in Hr as ([j st] & -> & [Hst Hin]%list_elem_of_filter).
  apply list_elem_of_lookup in Hin as [k Hk].
  eapply unblocked_goes; [exact Hs|exact Hk|exact Hst|].
  intros r Hr. by eapply free_unblocked.
Qed.

(** From every state there is a run to one in which all jobs have ended. *)
Lemma ends_eventually jobs s0 order rs c :
  serial_upto jobs s0 order rs c ->
  exists c' order' rs', rtc conc_step c c' /\ serial_upto jobs s0 order' rs' c' /\
    Forall (fun x => ended x.2 = true) (c_jobs c').
Proof.
  remember (work c) as n eqn:Hn. revert c order rs Hn.
  induction (Nat.lt_wf_0 n) as [n _ IH]. intros c order rs -> Hs.
  destruct (decide (Forall (fun x => ended x.2 = true) (c_jobs c))) as [Hall|Hsome];
    [by exists c, order, rs|].
  apply not_Forall_Exists in Hsome; [|apply _]. apply Exists_exists in Hsome as (x & Hin & Hx).
  apply list_elem_of_lookup in Hin as [i Hi]. apply not_true_is_false in Hx.
  destruct (never_stuck _ _ _ _ _ _ _ Hs Hi Hx) as [c1 Hstep].
  destruct (serial_step _ _ _ _ _ _ Hs Hstep) as (order1 & rs1 & Hs1).
  destruct (IH _ (work_decreases _ _ _ _ _ _ Hs Hstep) c1 order1 rs1 eq_refl Hs1) as (c' & o' & r' & Hrun & Hs' & Hall).
  exists c', o', r'. split; [by eapply rtc_l|done].
Qed.

(** What every instance gets: any interleaving is explained by an order of the jobs that
    have ended ... *)
Lemma interleaving_serializes jobs s0 c :
  good s0 -> rtc conc_step (start jobs s0) c ->
  exists order rs,
    NoDup order /\
    run_jobs (omap (fun i => jobs !! i) order) s0 = (rs, c_db c) /\
    Forall2 (fun i a => exists j, c_jobs c !! i = Some (j, Finished a)) order rs /\
    (forall i j a, c_jobs c !! i = Some (j, Finished a) -> i ∈ order \/ lost_race s0 j a).
Proof.
  intros Hg Hrun. destruct (serial_run _ _ _ Hg Hrun) as (order & rs & []). by exists order, rs.
Qed.

(** ... and comes to an end. *)
Lemma interleaving_finishes jobs s0 c :
  good s0 -> rtc conc_step (start jobs s0) c ->
  (forall n, nsteps conc_step n (start jobs s0) c ->
     (n <= sum_list_with (fun j => 2 * plan_bound j + 1) jobs)%nat) /\
  (forall i x, c_jobs c !! i = Some x -> ended x.2 = false -> exists c', conc_step c c') /\
  (exists c', rtc conc_step c c' /\ Forall (fun x => ended x.2 = true) (c_jobs c')).
Proof.
  intros Hg Hrun. destruct (serial_run _ _ _ Hg Hrun) as (order & rs & Hs). split; [|split].
  - intros n Hn. rewrite <- (start_work jobs s0).
    apply (steps_bounded _ _ _ _ _ _ _ (serial_start jobs s0 Hg)) in Hn. lia.
  - intros i x. by apply (never_stuck _ _ _ _ _ _ _ Hs).
  - destruct (ends_eventually _ _ _ _ _ Hs) as (c' & _ & _ & Hrun' & _ & Hall). by exists c'.
Qed.

Definition answer_of (x : Job * Stage State Answer Res) : option (result exn Answer) :=
  match x.2 with Finished a => Some a | _ => None end.

(** When all jobs have ended and none lost a race, the order has every job once. *)
Lemma complete_order jobs s0 order rs c :
  serial_upto jobs s0 order rs c -> Forall (fun x => ended x.2 = true) (c_jobs c) ->
  (forall j a, j ∈ jobs -> ~ lost_race s0 j a) ->
  order ≡ₚ seq 0 (length jobs) /\ rs ≡ₚ omap answer_of (c_jobs c).
Proof.
  intros Hs Hall Hrace. pose proof (su_jobs _ _ _ _ _ Hs) as Hj.
  assert (Hlen : length (c_jobs c) = length jobs) by (rewrite <- Hj; by rewrite length_fmap).
  assert (Hord : order ≡ₚ seq 0 (length jobs)).
  { apply NoDup_Permutation; [exact (su_order _ _ _ _ _ Hs)|apply NoDup_seq|].
    intros i. rewrite elem_of_seq. split.
    - intros Hin. apply list_elem_of_lookup in Hin as [n Hn].
      destruct (Forall2_lookup_l _ _ _ _ _ (su_results _ _ _ _ _ Hs) Hn) as (r & _ & j & Hf).
      apply lookup_lt_Some in Hf. lia.
    - intros [_ Hlt]. simpl in Hlt. rewrite <- Hlen in Hlt. apply lookup_lt_is_Some in Hlt as [[j st] Hi].
      rewrite Forall_lookup in Hall. specialize (Hall _ _ Hi). destruct st as [| |a]; [done..|].
      destruct (su_finished _ _ _ _ _ Hs _ _ _ Hi) as [Hin|Hlost]; [done|].
      exfalso. apply (Hrace j a); [|done].
      rewrite <- Hj. change j with ((j, Finished (State := State) (Res := Res) a).1).
      apply list_elem_of_fmap_2. by eapply list_elem_of_lookup_2. }
  split; [done|].
  rewrite <- (omap_lookup_perm (c_jobs c) order) by (by rewrite Hlen).
  pose proof (su_results _ _ _ _ _ Hs) as Hres. clear -Hres.
  induction Hres as [|i r order rs (j & Hi) _ IH]; [done|]. simpl. rewrite Hi. simpl. by rewrite IH.
Qed.

(** ** Reading the order *)

(** Rows that were there at [s] are there at [s']. *)
Definition later s s' : Prop := good s' /\ forall r, present s r = true -> present s' r = true.

Lemma later_trans s1 s2 s3 : later s1 s2 -> later s2 s3 -> later s1 s3.
Proof. intros [_ H1] [Hg H2]. split; auto. Qed.

Lemma run_later j s a s' : good s -> run j s = (a, s') -> later s s'.
Proof.
  intros Hg H. destruct a as [a|e]; [|by apply run_rollback in H as ->].
  split; [by eapply run_good|intros r; by eapply run_keeps].
Qed.

Lemma run_jobs_app js1 js2 s :
  run_jobs (js1 ++ js2) s =
  let '(rs1, s1) := run_jobs js1 s in let '(rs2, s2) := run_jobs js2 s1 in (rs1 ++ rs2, s2).
Proof.
  revert s. induction js1 as [|j js1 IH]; intros s; simpl; [by destruct (run_jobs js2 s)|].
  destruct (run j s) as [a s1]. rewrite IH. destruct (run_jobs js1 s1) as [rs1 s2].
  by destruct (run_jobs js2 s2).
Qed.

Lemma run_jobs_later js s rs s' : good s -> run_jobs js s = (rs, s') -> later s s'.
Proof.
  revert s rs. induction js as [|j js IH]; intros s rs Hg H; simpl in H; [injection H as _ <-; by split|].
  destruct (run j s) as [a s1] eqn:Hj, (run_jobs js s1) as [rs1 s2] eqn:Hjs. injection H as <- <-.
  pose proof (run_later _ _ _ _ Hg Hj) as H1. eapply later_trans; [exact H1|].
  eapply IH; [apply H1|exact Hjs].
Qed.

Lemma run_jobs_length js s rs s' : run_jobs js s = (rs, s') -> length rs = length js.
Proof.
  revert s rs. induction js as [|j js IH]; intros s rs H; simpl in H; [by injection H as <- _|].
  destruct (run j s) as [a s1], (run_jobs js s1) as [rs1 s2] eqn:Hjs. injection H as <- <-.
  simpl. f_equal. by eapply IH.
Qed.

(** The run of the job at a position, and what is left to run. *)
Lemma run_jobs_lookup js s rs s' n j :
  good s -> run_jobs js s = (rs, s') -> js !! n = Some j ->
  exists s1 a s2, later s s1 /\ run j s1 = (a, s2) /\ rs !! n = Some a /\
    run_jobs (drop (S n) js) s2 = (drop (S n) rs, s').
Proof.
  intros Hg H Hn. rewrite <- (take_drop_middle js n j Hn), run_jobs_app in H.
  destruct (run_jobs (take n js) s) as [rs1 s1] eqn:H1. simpl in H.
  destruct (run j s1) as [a s2] eqn:H2, (run_jobs (drop (S n) js) s2) as [rs2 s3] eqn:H3.
  injection H as <- <-. exists s1, a, s2.
  assert (Hlen : length rs1 = n).
  { rewrite (run_jobs_length _ _ _ _ H1), length_take. apply lookup_lt_Some in Hn. lia. }
  split; [by eapply run_jobs_later|]. split; [done|].
  split; [by rewrite list_lookup_middle|]. rewrite H3. f_equal.
  rewrite <- Hlen, <- Nat.add_1_r. by rewrite drop_app_add.
Qed.

(** The position of a job in the order. *)
Lemma order_lookup jobs s0 order rs c i j a n :
  serial_upto jobs s0 order rs c -> c_jobs c !! i = Some (j, Finished a) -> order !! n = Some i ->
  omap (fun i => jobs !! i) order !! n = Some j /\ rs !! n = Some a.
Proof.
  intros Hs Hi Hn. pose proof (su_jobs _ _ _ _ _ Hs) as Hj. pose proof (su_results _ _ _ _ _ Hs) as Hres.
  clear Hs. revert n Hn. induction Hres as [|k r order rs (j' & Hk) _ IH]; intros n Hn; [done|].
  assert (Hjk : jobs !! k = Some j') by (by rewrite <- Hj, list_lookup_fmap, Hk).
  simpl. rewrite Hjk. destruct n as [|n]; simpl in *; [|by apply IH].
  injection Hn as ->. rewrite Hi in Hk. by injection Hk as -> ->.
Qed.

(** Of two jobs in the order one has run before the other. *)
Lemma one_ran_first jobs s0 order rs c i1 i2 j1 j2 a1 a2 :
  good s0 -> serial_upto jobs s0 order rs c -> i1 <> i2 -> i1 ∈ order -> i2 ∈ order ->
  c_jobs c !! i1 = Some (j1, Finished a1) -> c_jobs c !! i2 = Some (j2, Finished a2) ->
  exists s1 s1' s2 s2', good s1 /\ good s2 /\ run j1 s1 = (a1, s1') /\ run j2 s2 = (a2, s2') /\
    (later s1' s2 \/ later s2' s1).
Proof.
  intros Hg Hs Hne Hin1 Hin2 H1 H2. pose proof (su_serial _ _ _ _ _ Hs) as Hser.
  apply list_elem_of_lookup in Hin1 as [n1 Hn1], Hin2 as [n2 Hn2].
  destruct (order_lookup _ _ _ _ _ _ _ _ _ Hs H1 Hn1) as [Hj1 Ha1],
    (order_lookup _ _ _ _ _ _ _ _ _ Hs H2 Hn2) as [Hj2 Ha2].
  assert (Hordered : forall n n' j j' a a', (n < n')%nat ->
    omap (fun i => jobs !! i) order !! n = Some j -> rs !! n = Some a ->
    omap (fun i => jobs !! i) order !! n' = Some j' -> rs !! n' = Some a' ->
    exists s s1 s' s1', good s /\ good s' /\ run j s = (a, s1) /\ run j' s' = (a', s1') /\ later s1 s').
  { intros n n' j j' a a' Hlt Hj Ha Hj' Ha'.
    destruct (run_jobs_lookup _ _ _ _ _ _ Hg Hser Hj) as (s & b & s1 & Hl & Hrun & Hb & Hrest).
    rewrite Ha in Hb. injection Hb as <-. pose proof (run_later _ _ _ _ (proj1 Hl) Hrun) as Hl1.
    assert (exists m, n' = (S n + m)%nat) as [m ->] by (exists (n' - S n)%nat; lia).
    rewrite <- (lookup_drop _ (S n)) in Hj'. rewrite <- (lookup_drop _ (S n)) in Ha'.
    destruct (run_jobs_lookup _ _ _ _ _ _ (proj1 Hl1) Hrest Hj') as (s' & b & s1' & Hl' & Hrun' & Hb & _).
    rewrite Ha' in Hb. injection Hb as <-. exists s, s1, s', s1'.
    split; [apply Hl|]. split; [apply Hl'|]. done. }
  destruct (Nat.lt_total n1 n2) as [Hlt|[->|Hlt]].
  - destruct (Hordered n1 n2 _ _ _ _ Hlt Hj1 Ha1 Hj2 Ha2) as (s & s1 & s' & s1' & ?).
    exists s, s1, s', s1'. tauto.
  - congruence.
  - destruct (Hordered n2 n1 _ _ _ _ Hlt Hj2 Ha2 Hj1 Ha1) as (s & s1 & s' & s1' & ?).
    exists s', s1', s, s1. tauto.
Qed.

(** The jobs of the order are among the jobs. *)
Lemma order_among jobs s0 order rs c :
  serial_upto jobs s0 order rs c -> exists rest, jobs ≡ₚ omap (fun i => jobs !! i) order ++ rest.
Proof.
  intros Hs. assert (Hsub : order ⊆+ seq 0 (length jobs)).
  { apply NoDup_submseteq; [apply (su_order _ _ _ _ _ Hs)|]. intros i Hin. apply elem_of_seq.
    apply list_elem_of_lookup in Hin as [n Hn].
    destruct (Forall2_lookup_l _ _ _ _ _ (su_results _ _ _ _ _ Hs) Hn) as (r & _ & j & Hf).
    apply lookup_lt_Some in Hf. rewrite <- (su_jobs _ _ _ _ _ Hs), length_fmap. lia. }
  apply submseteq_Permutation in Hsub as [k Hk]. symmetry in Hk.
  exists (omap (fun i => jobs !! i) k). rewrite <- omap_app. symmetry. by apply omap_lookup_perm.
Qed.

(** Of the jobs that find a row missing and leave it there, at most one has committed, and
    none when the row was there at the start. *)
Lemma one_inserter jobs s0 c r (P : Job * Stage State Answer Res -> Prop) `{!forall x, Decision (P x)} :
  good s0 -> rtc conc_step (start jobs s0) c ->
  (forall x, P x -> exists j a, x = (j, Finished (Ok a)) /\
     forall s s', good s -> run j s = (Ok a, s') -> present s r = false /\ present s' r = true) ->
  (length (filter P (c_jobs c)) <= if present s0 r then 0 else 1)%nat.
Proof.
  intros Hg Hrun HP. destruct (serial_run jobs s0 c Hg Hrun) as (order & rs & Hs).
  assert (Hin : forall i j a, c_jobs c !! i = Some (j, Finished (Ok a)) -> i ∈ order).
  { intros i j a Hi. by destruct (su_finished _ _ _ _ _ Hs _ _ _ Hi) as [?|[? _]]. }
  assert (Hone : (length (filter P (c_jobs c)) <= 1)%nat).
  { apply filter_at_most_one. intros i1 i2 x1 x2 H1 H2 HP1 HP2.
    destruct (decide (i1 = i2)) as [|Hne]; [done|exfalso].
    apply HP in HP1 as (j1 & a1 & -> & Hr1), HP2 as (j2 & a2 & -> & Hr2).
    destruct (one_ran_first _ _ _ _ _ _ _ _ _ _ _ Hg Hs Hne (Hin _ _ _ H1) (Hin _ _ _ H2) H1 H2)
      as (s1 & s1' & s2 & s2' & Hg1 & Hg2 & Hrun1 & Hrun2 & Hlater).
    destruct (Hr1 _ _ Hg1 Hrun1) as [Hn1 Hp1], (Hr2 _ _ Hg2 Hrun2) as [Hn2 Hp2].
    destruct Hlater as [[_ Hl]|[_ Hl]]; [specialize (Hl r Hp1)|specialize (Hl r Hp2)]; congruence. }
  destruct (present s0 r) eqn:Hr; [|exact Hone].
  destruct (filter P (c_jobs c)) as [|x l] eqn:Hf; [simpl; lia|exfalso].
  assert (Hx : x ∈ filter P (c_jobs c)) by (rewrite Hf; by left).
  apply list_elem_of_filter in Hx as [Hx Hi]. apply list_elem_of_lookup in Hi as [i Hi].
  apply HP in Hx as (j & a & -> & Hra).
  pose proof (Hin _ _ _ Hi) as Ho. apply list_elem_of_lookup in Ho as [pos Hpos].
  destruct (order_lookup _ _ _ _ _ _ _ _ _ Hs Hi Hpos) as [Hj Ha].
  destruct (run_jobs_lookup _ _ _ _ _ _ Hg (su_serial _ _ _ _ _ Hs) Hj) as (s & a' & s' & [Hgs Hl] & Hrj & Ha' & _).
  rewrite Ha in Ha'. injection Ha' as <-. destruct (Hra s s' Hgs Hrj) as [Hn _].
  rewrite (Hl r Hr) in Hn. done.
Qed.

End proofs.
