(* ===== verification/Concurrency.v ===== *)
(** * Concurrency: postings that interleave statement by statement

    Several transactions of [LedgerService.post] run at the same time on one database:
    [Interleave] with [post] for the work of a transaction.  A posting first validates its
    lines.  In the order of its account ids it then reads and locks one balance row after
    the other ([SELECT ... FOR UPDATE]); a row that does not exist is seen as missing and
    inserted, which fails once another transaction has committed that row.  What a posting
    does between its first and last statement is only visible at its commit; the uniqueness
    of its other keys is checked there. *)

From S2P Require Import Prelude PyStd Domain Models Session Ledger Journal LedgerTheorems Locks Interleave.

Record Job := mkJob {
  j_env : Env;
  j_type : TransactionType;
  j_reference : uuid;
  j_postings : list Posting;
}.

(** The balance rows a posting asks for. *)
Definition post_ids (postings : list Posting) : list uuid :=
  match validate_balanced postings with Ok _ => sorted_account_ids postings | Err _ => [] end.

Definition run_job (j : Job) (db : DB) : result exn LedgerTransaction * DB :=
  in_transaction (j_env j) (post (j_type j) (j_reference j) (j_postings j)) db.

Definition put_balance (a : uuid) (d db : DB) : DB :=
  {| db with account_balances := partial_alter (fun _ => account_balances d !! a) a (account_balances db) |}.

#[global] Instance balance_rows : Rows DB uuid := {
  present db a := bool_decide (is_Some (account_balances db !! a));
  ends_found _ := false;
  insertable _ := true;
  same a db db' := account_balances db' !! a = account_balances db !! a;
  put := put_balance;
  good := schema_ok;
  res_lt := N.lt;
}.

#[global] Instance posting_jobs : Jobs DB Job LedgerTransaction uuid := {
  run := run_job;
  job_plan j _ := post_ids (j_postings j);
  plan_bound j := length (sorted_account_ids (j_postings j));
}.

(** ** The laws *)

Lemma put_balance_same a d db :
  account_balances db !! a = account_balances d !! a -> put_balance a d db = db.
Proof.
  intros H. unfold put_balance. rewrite <- H.
  rewrite partial_alter_self. by destruct db.
Qed.

#[global] Instance balance_row_laws : RowLaws DB uuid.
Proof.
  constructor; simpl; try done.
  - apply _.
  - intros r s1 s2 s3 H1 H2. congruence.
  - intros r s s' H. by rewrite H.
  - intros r d s H. by apply put_balance_same.
Qed.

Lemma run_job_Err j db e db' : run_job j db = (Err e, db') -> db' = db.
Proof.
  unfold run_job, in_transaction. destruct (post _ _ _ _) as [[txn s]|]; [|by intros [= _ ->]].
  destruct (commit s); by intros [= _ ->].
Qed.

(** A committed job leaves the rows of other accounts alone, keeps the rows there are, and
    leaves good tables. *)
Lemma run_job_Ok j db txn db' :
  schema_ok db -> run_job j db = (Ok txn, db') ->
  schema_ok db' /\ dom (account_balances db) ⊆ dom (account_balances db') /\
  forall a, a ∉ post_ids (j_postings j) -> account_balances db' !! a = account_balances db !! a.
Proof.
  intros Hso H. split; [exact (schema_ok_rtc _ _ (in_transaction_rtc _ _ _ _ _ H) Hso)|].
  apply in_transaction_Ok_inv in H as (s & Hrun & Hc).
  assert (Hval : post_ids (j_postings j) = sorted_account_ids (j_postings j)).
  { unfold post_ids. destruct (validate_balanced (j_postings j)) eqn:Hv; [done|].
    unfold post in Hrun. simpl in Hrun. rewrite Hv in Hrun. done. }
  rewrite Hval.
  apply post_Ok_inv in Hrun as (db0 & [= <-] & Hpe & _ & _ & _ & Hp & _); [|done].
  apply commit_nothing_pending in Hc as [-> _]; [|done]. split.
  - rewrite (pe_dom _ _ _ _ Hpe). set_solver.
  - intros a Ha. apply (pe_untouched _ _ _ _ Hpe). by rewrite <- elem_of_sorted_ids.
Qed.

Lemma post_ids_sorted ps : StronglySorted N.lt (post_ids ps).
Proof. unfold post_ids. destruct (validate_balanced ps); [apply sorted_ids_StronglySorted|constructor]. Qed.

Lemma post_ids_account ps a : a ∈ post_ids ps -> a ∈ map po_account_id ps.
Proof.
  unfold post_ids. destruct (validate_balanced ps); [by rewrite elem_of_sorted_ids|].
  by intros ?%not_elem_of_nil.
Qed.

Lemma post_ids_bound ps : (length (post_ids ps) <= length (sorted_account_ids ps))%nat.
Proof. unfold post_ids. destruct (validate_balanced ps); simpl; lia. Qed.

Lemma balance_undecided (db : DB) (a : uuid) : decided db a = false.
Proof. unfold decided. simpl. by case_bool_decide. Qed.

#[global] Instance posting_laws : JobLaws DB Job LedgerTransaction uuid.
Proof.
  constructor; simpl.
  - exact run_job_Err.
  - intros j s a s' Hg H. by apply (run_job_Ok j s a s').
  - intros j s a s' r Hg H. rewrite !bool_decide_eq_true, <- !elem_of_dom.
    apply (run_job_Ok j s a s'); done.
  - intros j s a s' r Hg H _ Hr. by apply (run_job_Ok j s a s').
  - done.
  - intros j s n r _ _ Hd. by rewrite balance_undecided in Hd.
  - intros j s _. apply post_ids_sorted.
  - intros j s _. apply post_ids_bound.
Qed.

(** ** Interleaved postings *)

Abbreviation PostConc := (Conc DB Job LedgerTransaction uuid).

(** A posting that lost the race to create the first balance row of an account. *)
Definition lost_row_race (db : DB) (j : Job) (r : result exn LedgerTransaction) : Prop :=
  r = Err (DBAPIError UniqueViolation) /\
  exists a, a ∈ map po_account_id (j_postings j) /\ account_balances db !! a = None.

Lemma lost_race_row db j r : lost_race (Res := uuid) db j r -> lost_row_race db j r.
Proof.
  intros [-> (s & a & Ha & _ & Hp)]. split; [done|]. exists a. split; [by apply post_ids_account|].
  apply bool_decide_eq_false in Hp. by apply eq_None_not_Some.
Qed.
