(* ===== verification/ConcurrencyTheorems.v ===== *)
(** * ConcurrencyTheorems: what interleaved postings amount to

    Every interleaving of [Concurrency] has the effect and the results of running the jobs
    one after the other in some order, ends after a bounded number of statements without
    getting stuck, and never oversells an account. *)

From S2P Require Import Prelude PyStd Domain Models Session Ledger Journal Fixtures LedgerTheorems Interleave Concurrency.

(** Row locks make postings serializable.  Whatever the interleaving of the statements of
    any number of postings, at every moment the tables are those that the jobs that have
    committed or rolled back leave when run one after the other in some order, and each of
    these jobs has the result it has in that order: no update is lost and no stale balance
    is used.  The only job whose result is not explained by the order is one that lost the
    race to create the first balance row of an account; it leaves nothing. *)
Theorem interleaved_postings_serialize jobs db (c : PostConc) :
  schema_ok db -> rtc conc_step (start jobs db) c ->
  exists order rs,
    NoDup order /\
    run_jobs (omap (fun i => jobs !! i) order) db = (rs, c_db c) /\
    Forall2 (fun i r => exists j, c_jobs c !! i = Some (j, Finished r)) order rs /\
    (forall i j r, c_jobs c !! i = Some (j, Finished r) -> i ∈ order \/ lost_row_race db j r).
Proof.
  intros Hso Hrun. destruct (interleaving_serializes jobs db c) as (order & rs & Hnd & Hrs & Hres & Hfin); [exact Hso|exact Hrun|].
  exists order, rs. repeat (split; [done|]). intros i j r Hi.
  destruct (Hfin i j r Hi) as [?|?%lost_race_row]; [by left|by right].
Qed.

(** Interleaved postings finish.  Each statement brings the end nearer: an interleaving
    has at most two statements per account and one more per job.  And none gets stuck
    waiting for locks: as long as a job has not ended, some job can go on, so that from
    every state a run leads to one in which all jobs have ended. *)
Theorem interleavings_always_finish jobs db (c : PostConc) :
  schema_ok db -> rtc conc_step (start jobs db) c ->
  (forall n, nsteps conc_step n (start jobs db) c ->
     (n <= sum_list_with (fun j => 2 * List.length (sorted_account_ids (j_postings j)) + 1) jobs)%nat) /\
  (forall i x, c_jobs c !! i = Some x -> ended x.2 = false -> exists c', conc_step c c') /\
  (exists c', rtc conc_step c c' /\ Forall (fun x => ended x.2 = true) (c_jobs c')).
Proof. exact (interleaving_finishes jobs db c). Qed.

(** ** Competing debits *)

Definition debit_job (payer payee : uuid) (amount : Z) (env : Env) : Job :=
  mkJob env TxnPAYMENT 0 (transfer payer payee amount).

Lemma run_debit_jobs payer payee amount envs db :
  run_jobs (map (debit_job payer payee amount) envs) db = debit_attempts payer payee amount envs db.
Proof.
  revert db. induction envs as [|env envs IH]; intros db; [done|]. simpl.
  change (run_job (debit_job payer payee amount env) db) with (debit_attempt payer payee amount env db).
  destruct (debit_attempt payer payee amount env db) as [r db1]. by rewrite IH.
Qed.

(** C21: no oversell under concurrency.  However the statements of any number of attempts to
    debit [amount] from one account interleave, when they have all ended exactly
    [min attempts (balance / amount)] of them have succeeded, every other one was refused
    with [InsufficientFundsException], and the balance is what the successes left, never
    below zero. *)
Theorem concurrent_debits_never_oversell payer payee amount envs db (c : PostConc) :
  debit_setup payer payee amount db -> version_room (2 * Z.of_nat (List.length envs)) db ->
  is_Some (account_balances db !! payer) -> is_Some (account_balances db !! payee) ->
  Forall reliable envs -> NoDup (map (fun env => uuid4_at env 0) envs) ->
  (forall env, env ∈ envs -> ledger_transactions db !! uuid4_at env 0 = None) ->
  rtc conc_step (start (map (debit_job payer payee amount) envs) db) c ->
  Forall (fun x => ended x.2 = true) (c_jobs c) ->
  let rs := omap answer_of (c_jobs c) in
  List.length rs = List.length envs /\
  successes rs = Z.min (Z.of_nat (List.length envs)) (balance_of db payer / amount) /\
  balance_of (c_db c) payer = balance_of db payer - amount * successes rs /\
  0 <= balance_of (c_db c) payer /\
  Forall (fun r => is_ok r = true \/ exists b, r = Err (InsufficientFundsException payer b amount)) rs.
Proof.
  intros Hset Hver Hpayer Hpayee Hrel Hnd Hfresh Hrun Hall rs.
  destruct (serial_run (map (debit_job payer payee amount) envs) db c) as (order & rs' & Hs);
    [exact (ds_schema _ _ _ _ Hset)|exact Hrun|].
  destruct (complete_order _ _ _ _ _ Hs Hall) as [Hord Hrs].
  { intros j r (env & -> & _)%list_elem_of_fmap (_ & a & Ha & Hnone)%lost_race_row. simpl in Ha.
    rewrite eq_None_not_Some in Hnone. set_unfold. by destruct Ha as [->|[->|[]]]. }
  fold rs in Hrs. pose proof (su_serial _ _ _ _ _ Hs) as Hser. rewrite length_map in Hord.
  pose proof (omap_lookup_perm envs order Hord) as Henvs.
  rewrite omap_lookup_map, run_debit_jobs in Hser. set (envs' := omap (fun i => envs !! i) order) in *.
  pose proof (Permutation_length Henvs) as Hlen.
  pose proof (debits_never_oversell payer payee amount envs' db Hset) as Hthm.
  rewrite Hser, Hlen in Hthm. destruct Hthm as (H1 & H2 & H3 & H4).
  - exact Hver.
  - apply attempts_ready_intro; [done|by rewrite Hlen|by rewrite Henvs|by rewrite Henvs|].
    intros env Hin. apply Hfresh. by rewrite <- Henvs.
  - assert (Hsucc : successes rs = successes rs') by (by apply lsum_perm).
    rewrite Hsucc. split; [|repeat (split; [done|]); by rewrite <- Hrs].
    rewrite <- Hrs, <- (Forall2_length _ _ _ (su_results _ _ _ _ _ Hs)), Hord. apply length_seq.
Qed.

(** ** Witnesses: payments out of the wallet of the fixtures *)

Definition first_job : Job := debit_job wallet 1 60000 (demo_env 1000).
Definition second_job : Job := debit_job wallet 1 60000 (demo_env 2000).

(** The first job holds the suspense account's row; the second has to wait for it. *)
Definition first_holds : PostConc :=
  goes (start [first_job; second_job] demo_db) 0 first_job (Running [(1%N, demo_db)]) demo_db.

Lemma first_holds_reached : rtc conc_step (start [first_job; second_job] demo_db) first_holds.
Proof.
  apply rtc_once, (step_lock (start [first_job; second_job] demo_db) 0 first_job [] 1%N); try reflexivity.
  intros [|[|k]] x Hk Hx; [done| |done]. injection Hx as <-. apply not_elem_of_nil.
Qed.

Lemma interleaved_postings_serialize_witness :
  exists order rs,
    NoDup order /\
    run_jobs (omap (fun i => [first_job; second_job] !! i) order) demo_db = (rs, c_db first_holds) /\
    Forall2 (fun i r => exists j, c_jobs first_holds !! i = Some (j, Finished r)) order rs /\
    (forall i j r, c_jobs first_holds !! i = Some (j, Finished r) -> i ∈ order \/ lost_row_race demo_db j r).
Proof. exact (interleaved_postings_serialize _ _ _ demo_schema_ok first_holds_reached). Defined.

Lemma interleavings_always_finish_witness :
  exists c, conc_step first_holds c.
Proof.
  apply (proj1 (proj2 (interleavings_always_finish _ _ _ demo_schema_ok first_holds_reached))
    0%nat (first_job, Running [(1%N, demo_db)])); reflexivity.
Defined.

(** Twenty interleaved attempts of 10000 on a balance of 100000. *)
Lemma concurrent_debits_never_oversell_witness :
  exists c : PostConc, let rs := omap answer_of (c_jobs c) in
    rtc conc_step (start (map (debit_job wallet 1 10000) twenty_envs) demo_db) c /\
    List.length rs = 20%nat /\ successes rs = Z.min 20 (100000 / 10000) /\
    balance_of (c_db c) wallet = 100000 - 10000 * successes rs /\
    0 <= balance_of (c_db c) wallet /\
    Forall (fun r => is_ok r = true \/ exists b, r = Err (InsufficientFundsException wallet b 10000)) rs.
Proof.
  destruct (interleaving_finishes (map (debit_job wallet 1 10000) twenty_envs) demo_db
    (start (map (debit_job wallet 1 10000) twenty_envs) demo_db)) as (_ & _ & c & Hrun & Hall);
    [exact demo_schema_ok|reflexivity|].
  exists c. split; [exact Hrun|].
  apply (concurrent_debits_never_oversell wallet 1 10000 twenty_envs demo_db c).
  - constructor; [exact demo_schema_ok|exact demo_books| |by eexists|by eexists|done|lia].
    rewrite demo_total. unfold int64_max. lia.
  - exact twenty_version_room.
  - by eexists.
  - by eexists.
  - by repeat constructor.
  - apply (bool_decide_eq_true_1 _). vm_compute. reflexivity.
  - intros env _. reflexivity.
  - exact Hrun.
  - exact Hall.
Defined.
