(* ===== verification/Schemas.v ===== *)
(** * Schemas: [app/application/schemas.py]

    The request and response models.  [CreatePaymentRequest_valid] and
    [RefundRequest_valid] are the [Field] constraints.  [PydanticModel] is the interface
    the idempotency replay relies on: a response dumped with [model_dump(mode="json")]
    reads back with [Model( **body )] as the same response.  The text form of a [datetime]
    is Pydantic's, a parameter ([DatetimeText]) with the law that it parses back. *)

From S2P Require Import Prelude PyStd Domain Models Idempotency.
From Stdlib Require Import Ascii String.

(** ** Models *)

Record CreatePaymentRequest := mkCreatePaymentRequest {
  cq_merchantId : string;
  cq_payerAccountId : uuid;
  cq_payeeAccountId : uuid;
  cq_amount : Z;
  cq_currency : string;
}.

Record PaymentResponse := mkPaymentResponse {
  pr_id : uuid;
  pr_merchantId : string;
  pr_payerAccountId : uuid;
  pr_payeeAccountId : uuid;
  pr_amount : Z;
  pr_currency : string;
  pr_status : PaymentStatus;
  pr_pspReference : option string;
  pr_refundedAmount : Z;
  pr_createdAt : Z;
}.

Record RefundRequest := mkRefundRequest { rq_amount : Z }.

Record RefundResponse := mkRefundResponse {
  rr_id : uuid;
  rr_paymentId : uuid;
  rr_amount : Z;
  rr_status : RefundStatus;
  rr_createdAt : Z;
}.

Record BalanceResponse := mkBalanceResponse {
  br_accountId : uuid;
  br_balance : Z;
  br_currency : string;
  br_updatedAt : Z;
}.

Record LedgerEntryResponse := mkLedgerEntryResponse {
  ler_id : Z;
  ler_transactionId : uuid;
  ler_direction : Direction;
  ler_amount : Z;
  ler_createdAt : Z;
}.

Record LedgerPageResponse := mkLedgerPageResponse {
  lpr_accountId : uuid;
  lpr_entries : list LedgerEntryResponse;
}.

Record IntegrityResponse := mkIntegrityResponse {
  ig_balanced : bool;
  ig_ledgerNet : Z;
  ig_driftedAccountsCount : Z;
}.

(** ** Constraints of the request models *)

Definition CreatePaymentRequest_valid (r : CreatePaymentRequest) : bool :=
  (1 <=? str_len (cq_merchantId r)) && (0 <? cq_amount r) && (str_len (cq_currency r) =? 3).

Definition RefundRequest_valid (r : RefundRequest) : bool := 0 <? rq_amount r.

(** [request.model_dump(mode="json")] *)
Definition request_dump (r : CreatePaymentRequest) : dict :=
  [("merchantId", JStr (cq_merchantId r));
   ("payerAccountId", JStr (uuid_str (cq_payerAccountId r)));
   ("payeeAccountId", JStr (uuid_str (cq_payeeAccountId r)));
   ("amount", JInt (cq_amount r));
   ("currency", JStr (cq_currency r))].

(** ** Dumping and reading back *)

Class DatetimeText := {
  isoformat : Z -> string;
  parse_datetime : string -> option Z;
  parse_isoformat : forall t, parse_datetime (isoformat t) = Some t;
  isoformat_no_nul : forall t, no_nul (isoformat t) = true;
}.

Class PydanticModel (R : Type) := {
  model_dump : R -> dict;
  model_validate : dict -> option R;
  model_wf : R -> Prop;
  model_round_trip : forall r, model_wf r -> model_validate (model_dump r) = Some r;
}.

(** Required fields of each JSON type. *)
Definition get_str (k : string) (d : dict) : option string :=
  match dict_get k d with Some (JStr s) => Some s | _ => None end.
Definition get_int (k : string) (d : dict) : option Z :=
  match dict_get k d with Some (JInt z) => Some z | _ => None end.
Definition get_uuid (k : string) (d : dict) : option uuid := s ← get_str k d; uuid_of_str s.

(** Optional fields and their defaults. *)
Definition get_opt_str (k : string) (d : dict) : option (option string) :=
  match dict_get k d with
  | None | Some JNull => Some None
  | Some (JStr s) => Some (Some s)
  | _ => None
  end.
Definition get_int_default (k : string) (default : Z) (d : dict) : option Z :=
  match dict_get k d with
  | None => Some default
  | Some (JInt z) => Some z
  | _ => None
  end.

Section responses.
  Context `{DatetimeText}.

Definition get_datetime (k : string) (d : dict) : option Z := s ← get_str k d; parse_datetime s.

Definition payment_response_dump (r : PaymentResponse) : dict :=
  [("id", JStr (uuid_str (pr_id r)));
   ("merchantId", JStr (pr_merchantId r));
   ("payerAccountId", JStr (uuid_str (pr_payerAccountId r)));
   ("payeeAccountId", JStr (uuid_str (pr_payeeAccountId r)));
   ("amount", JInt (pr_amount r));
   ("currency", JStr (pr_currency r));
   ("status", JStr (PaymentStatus_value (pr_status r)));
   ("pspReference", match pr_pspReference r with Some s => JStr s | None => JNull end);
   ("refundedAmount", JInt (pr_refundedAmount r));
   ("createdAt", JStr (isoformat (pr_createdAt r)))].

Definition payment_response_validate (d : dict) : option PaymentResponse :=
  id ← get_uuid "id" d;
  merchantId ← get_str "merchantId" d;
  payer ← get_uuid "payerAccountId" d;
  payee ← get_uuid "payeeAccountId" d;
  amount ← get_int "amount" d;
  currency ← get_str "currency" d;
  status ← (get_str "status" d ≫= PaymentStatus_of_value);
  psp ← get_opt_str "pspReference" d;
  refunded ← get_int_default "refundedAmount" 0 d;
  created ← get_datetime "createdAt" d;
  Some (mkPaymentResponse id merchantId payer payee amount currency status psp refunded created).

Definition refund_response_dump (r : RefundResponse) : dict :=
  [("id", JStr (uuid_str (rr_id r)));
   ("paymentId", JStr (uuid_str (rr_paymentId r)));
   ("amount", JInt (rr_amount r));
   ("status", JStr (RefundStatus_value (rr_status r)));
   ("createdAt", JStr (isoformat (rr_createdAt r)))].

Definition refund_response_validate (d : dict) : option RefundResponse :=
  id ← get_uuid "id" d;
  payment ← get_uuid "paymentId" d;
  amount ← get_int "amount" d;
  status ← (get_str "status" d ≫= RefundStatus_of_value);
  created ← get_datetime "createdAt" d;
  Some (mkRefundResponse id payment amount status created).

Definition is_uuid (u : uuid) : Prop := (u < 2 ^ 128)%N.

#[global] Instance PaymentResponse_model : PydanticModel PaymentResponse.
Proof.
  refine {| model_dump := payment_response_dump;
            model_validate := payment_response_validate;
            model_wf r := is_uuid (pr_id r) /\ is_uuid (pr_payerAccountId r) /\
                          is_uuid (pr_payeeAccountId r) |}.
  intros r (H1 & H2 & H3). unfold payment_response_validate.
  rewrite (opt_bind_Some _ _ _ (uuid_of_str_str _ H1)), (opt_bind_Some _ _ (pr_merchantId r) eq_refl),
    (opt_bind_Some _ _ _ (uuid_of_str_str _ H2)), (opt_bind_Some _ _ _ (uuid_of_str_str _ H3)),
    (opt_bind_Some _ _ (pr_amount r) eq_refl), (opt_bind_Some _ _ (pr_currency r) eq_refl),
    (opt_bind_Some _ _ _ (PaymentStatus_of_value_value (pr_status r))).
  rewrite (opt_bind_Some _ _ (pr_pspReference r)) by (cbv; by destruct r as [? ? ? ? ? ? ? [|] ? ?]).
  rewrite (opt_bind_Some _ _ (pr_refundedAmount r) eq_refl),
    (opt_bind_Some (get_datetime "createdAt" (payment_response_dump r)) _ _
       (parse_isoformat (pr_createdAt r))).
  by destruct r.
Defined.

#[global] Instance RefundResponse_model : PydanticModel RefundResponse.
Proof.
  refine {| model_dump := refund_response_dump;
            model_validate := refund_response_validate;
            model_wf r := is_uuid (rr_id r) /\ is_uuid (rr_paymentId r) |}.
  intros r (H1 & H2). unfold refund_response_validate.
  rewrite (opt_bind_Some _ _ _ (uuid_of_str_str _ H1)), (opt_bind_Some _ _ _ (uuid_of_str_str _ H2)),
    (opt_bind_Some _ _ (rr_amount r) eq_refl),
    (opt_bind_Some _ _ _ (RefundStatus_of_value_value (rr_status r))),
    (opt_bind_Some (get_datetime "createdAt" (refund_response_dump r)) _ _
       (parse_isoformat (rr_createdAt r))).
  by destruct r.
Defined.

End responses.

(** ** A concrete datetime text, for evaluation: the sign and the binary digits *)

Fixpoint pos_digits (p : positive) : string :=
  match p with
  | xH => EmptyString
  | xO p' => String "0"%char (pos_digits p')
  | xI p' => String "1"%char (pos_digits p')
  end.

Fixpoint digits_pos (s : string) : option positive :=
  match s with
  | EmptyString => Some xH
  | String c s' =>
      p ← digits_pos s';
      if Ascii.eqb c "0"%char then Some (xO p) else if Ascii.eqb c "1"%char then Some (xI p) else None
  end.

Definition binary_text (z : Z) : string :=
  match z with
  | Z0 => "Z"
  | Zpos p => String "+"%char (pos_digits p)
  | Zneg p => String "-"%char (pos_digits p)
  end.

Definition parse_binary_text (s : string) : option Z :=
  match s with
  | String c s' =>
      if Ascii.eqb c "Z"%char then Some 0
      else if Ascii.eqb c "+"%char then Zpos <$> digits_pos s'
      else if Ascii.eqb c "-"%char then Zneg <$> digits_pos s'
      else None
  | EmptyString => None
  end.

Lemma digits_pos_digits p : digits_pos (pos_digits p) = Some p.
Proof. induction p as [p IH|p IH|]; simpl; rewrite ?IH; done. Qed.

Definition binary_datetime : DatetimeText.
Proof.
  refine {| isoformat := binary_text; parse_datetime := parse_binary_text |}.
  - intros [|p|p]; simpl; rewrite ?digits_pos_digits; done.
  - assert (Hp : forall p, no_nul (pos_digits p) = true) by (induction p; done).
    intros [|p|p]; [done|apply (Hp p)..].
Defined.
