(* ===== verification/Payments.v ===== *)
(** * Payments: [app/application/payment_service.py]

    [PaymentService.create] in its three parts, as the code separates them: transaction 1
    ([create_tx1]: idempotency claim and hold), the provider call outside any
    transaction, and transaction 2 ([create_tx2]: settle, reverse or park, and complete
    the idempotency record).  [create] runs them in sequence; the whole-system file
    interleaves them with everything else. *)

From S2P Require Import Prelude PyStd Domain Models Session Ledger Journal Psp Idempotency Saga Schemas.
From Stdlib Require Import String.

(** ** Definitions *)

(** [PaymentService._to_response] *)
Definition payment_to_response (payment : Payment) : PaymentResponse :=
  mkPaymentResponse (p_id payment) (p_merchant_id payment) (p_payer_account payment)
    (p_payee_account payment) (p_amount payment) (p_currency payment) (p_status payment)
    (p_psp_reference payment) (p_refunded_amount payment) (p_created_at payment).

(** [PaymentService.get_payment] *)
Definition get_payment (payment_id : uuid) : M PaymentResponse :=
  statement;;
  payment ← gets (fun s => payments (s_db s) !! payment_id);
  match payment with
  | None => mthrow (PaymentNotFoundException payment_id)
  | Some payment => mret (payment_to_response payment)
  end.

Section service.
  Context `{DatetimeText}.

(** The stored response, as the response model. *)
Definition replay_payment (body : dict) : M PaymentResponse :=
  match model_validate body with
  | Some r => mret r
  | None => mthrow ValidationError
  end.

(** Transaction 1: a replayed response, or the payment whose funds are now held. *)
Definition create_tx1 (lock : option RedisSet) (payment_id : uuid) (idempotency_key : string)
    (request : CreatePaymentRequest) : M (Z * PaymentResponse + Payment) :=
  replay ← claim_or_replay lock (cq_merchantId request) idempotency_key (request_dump request);
  match replay with
  | Some (status_code, body) =>
      response ← replay_payment body;
      mret (inl (status_code, response))
  | None =>
      created_at ← now;
      payment ← hold
        (mkPayment payment_id (cq_merchantId request) (cq_payerAccountId request)
           (cq_payeeAccountId request) (cq_amount request) (cq_currency request)
           CREATED None 0 0 created_at created_at);
      mret (inr payment)
  end.

(** The payment is parked as AUTHORIZED; [updated_at] is set by the column's [onupdate]. *)
Definition park_authorized (payment_id : uuid) (psp_reference : option string) : M Payment :=
  row ← select_payment_for_update payment_id;
  match row with
  | None => mthrow NoResultFound
  | Some payment0 =>
      updated_at ← now;
      let payment := {| payment0 with p_status := AUTHORIZED;
                                      p_psp_reference := psp_reference;
                                      p_updated_at := updated_at |} in
      session_add (UpdatePayment payment);;
      mret payment
  end.

Definition create_tx2 (payment_id : uuid) (idempotency_key merchant_id : string)
    (auth_result : AuthorizationResult) : M PaymentResponse :=
  payment ← (match ar_outcome auth_result with
    | CAPTURED => settle payment_id (str_or (ar_psp_reference auth_result) "")
    | DECLINED => reverse payment_id
    | PENDING => park_authorized payment_id (ar_psp_reference auth_result)
    end);
  let response := payment_to_response payment in
  complete merchant_id idempotency_key (p_id payment) 201 (model_dump response);;
  mret response.

(** [PaymentService.create]; [payment_id] is the [uuid.uuid4()] drawn first, [draw] the
    one the provider draws, [env1] and [env2] the environments of the transactions. *)
Definition create {P : Type} `{PaymentProvider P} (psp : P) (lock : option RedisSet)
    (env1 env2 : Env) (payment_id draw : uuid) (idempotency_key : string)
    (request : CreatePaymentRequest) (db : DB) : result exn (Z * PaymentResponse) * DB :=
  match in_transaction env1 (create_tx1 lock payment_id idempotency_key request) db with
  | (Err e, db1) => (Err e, db1)
  | (Ok (inl replayed), db1) => (Ok replayed, db1)
  | (Ok (inr payment), db1) =>
      match authorize psp draw payment with
      | Err e => (Err e, db1)
      | Ok auth_result =>
          match in_transaction env2
                  (create_tx2 payment_id idempotency_key (cq_merchantId request) auth_result) db1 with
          | (Err e, db2) => (Err e, db2)
          | (Ok response, db2) => (Ok (201, response), db2)
          end
      end
  end.

End service.

(** ** What the two transactions do *)

Section effects.
  Context {DT : DatetimeText}.

#[global] Instance Flushes_replay_payment body : Flushes (replay_payment body).
Proof. unfold replay_payment. solve_flushes. Qed.
#[global] Instance Flushes_create_tx1 lock i k rq : Flushes (create_tx1 lock i k rq).
Proof. unfold create_tx1. solve_flushes. Qed.
#[global] Instance Flushes_park_authorized i r : Flushes (park_authorized i r).
Proof. unfold park_authorized. solve_flushes. Qed.
#[global] Instance Flushes_create_tx2 i k m a : Flushes (create_tx2 i k m a).
Proof. unfold create_tx2. solve_flushes. Qed.

(** The payment a request becomes once its funds are held. *)
Definition held_payment (payment_id : uuid) (rq : CreatePaymentRequest) (t : Z) : Payment :=
  mkPayment payment_id (cq_merchantId rq) (cq_payerAccountId rq) (cq_payeeAccountId rq)
    (cq_amount rq) (cq_currency rq) PROCESSING None 0 0 t t.

Definition hold_postings (p : Payment) : list Posting :=
  transfer (p_payer_account p) PSP_SUSPENSE_ACCOUNT_ID (p_amount p).
Definition settle_postings (p : Payment) : list Posting :=
  transfer PSP_SUSPENSE_ACCOUNT_ID (p_payee_account p) (p_amount p).
Definition reverse_postings (p : Payment) : list Posting :=
  transfer PSP_SUSPENSE_ACCOUNT_ID (p_payer_account p) (p_amount p).

Definition parked (p : Payment) (psp_reference : option string) (t : Z) : Payment :=
  {| p with p_status := AUTHORIZED; p_psp_reference := psp_reference; p_updated_at := t |}.

Lemma create_tx1_inv lock i k rq s r s' :
  schema_ok (s_db s) -> s_pending s = [] -> create_tx1 lock i k rq s = Ok (r, s') ->
  s_pending s' = [] /\
  match idempotency_keys (s_db s) !! (cq_merchantId rq, k) with
  | Some row => exists code body resp,
      replay_verdict k (compute_hash (request_dump rq)) row = Ok (code, body) /\
      model_validate body = Some resp /\ r = inl (code, resp) /\ s_db s' = s_db s
  | None => exists t1 t2 db1,
      let p := held_payment i rq t2 in
      r = inr p /\
      exec_op (InsertIdempotency (claim_row (cq_merchantId rq) k (request_dump rq) t1)) (s_db s) =
        Ok db1 /\
      phase [InsertPayment p] TxnPAYMENT i (hold_postings p) (hold_event p) db1 (s_db s')
  end.
Proof.
  intros Hso Hp Hrun. unfold create_tx1 in Hrun. inv_bind_as Hrun claim s1 Hclaim Hk.
  apply claim_or_replay_inv in Hclaim as [[He Hp1 _ _] Hrow]; [|done].
  destruct (idempotency_keys (s_db s) !! (cq_merchantId rq, k)) as [row|].
  - destruct Hrow as ([code body] & Hv & -> & Hdb). unfold replay_payment in Hk.
    destruct (model_validate body) as [resp|] eqn:Hval; msess.
    split; [done|]. exists code, body, resp. done.
  - destruct Hrow as [-> [t1 Hop]]. inv_bind_as Hk t2 s2 Hnow Hk2.
    rewrite now_eq in Hnow. injection Hnow as <- <-. inv_bind_as Hk2 p s3 Hhold Hret.
    apply ret_Ok_inv in Hret as [-> ->].
    apply hold_inv in Hhold as [-> Hrun]; [|exact (exec_op_schema_ok _ _ _ Hso Hop)|done].
    apply phase_run_phase in Hrun as (Hph & Hp3 & _). split; [done|].
    exists t1, (now_at (s_env s1) (s_tick s1)), (s_db s1). split; [done|]. by split.
Qed.

(** The update of the payment by each verdict of the provider. *)
Definition resolved (p0 : Payment) (auth : AuthorizationResult) (t : Z) : Payment :=
  match ar_outcome auth with
  | CAPTURED => settled p0 (str_or (ar_psp_reference auth) "") t
  | DECLINED => reversed p0 t
  | PENDING => parked p0 (ar_psp_reference auth) t
  end.

(** From [db] to [db1]: the update with its transfer and event, if it has one. *)
Definition resolution (i : uuid) (p0 : Payment) (auth : AuthorizationResult) (t : Z) (db db1 : DB)
  : Prop :=
  match ar_outcome auth with
  | CAPTURED => phase [UpdatePayment (resolved p0 auth t)] TxnPAYMENT i (settle_postings p0)
                  (settle_event p0 (str_or (ar_psp_reference auth) "")) db db1
  | DECLINED => phase [UpdatePayment (resolved p0 auth t)] TxnREVERSAL i (reverse_postings p0)
                  (reverse_event p0) db db1
  | PENDING => exec_op (UpdatePayment (resolved p0 auth t)) db = Ok db1
  end.

Lemma resolved_id p0 auth t : p_id (resolved p0 auth t) = p_id p0.
Proof. unfold resolved. by destruct (ar_outcome auth). Qed.

Lemma resolution_idem i p0 auth t db db1 :
  resolution i p0 auth t db db1 -> idempotency_keys db1 = idempotency_keys db.
Proof.
  unfold resolution. destruct (ar_outcome auth); intros H.
  - apply phase_summarised in H as (txn & o & Hs & _); [|done]. apply (sm_idem _ _ _ _ _ _ Hs).
  - apply exec_op_Ok in H as [_ ->]. done.
  - apply phase_summarised in H as (txn & o & Hs & _); [|done]. apply (sm_idem _ _ _ _ _ _ Hs).
Qed.

(** Transaction 2, committed. *)
Lemma create_tx2_committed env i k m auth db resp db' :
  schema_ok db -> in_transaction env (create_tx2 i k m auth) db = (Ok resp, db') ->
  exists p0 t db1, payments db !! i = Some p0 /\ resolution i p0 auth t db db1 /\
    resp = payment_to_response (resolved p0 auth t) /\
    completion m k i (model_dump resp) db1 db'.
Proof.
  intros Hso Htx. apply in_transaction_Ok_inv in Htx as (s' & Hrun & Hcommit).
  unfold create_tx2 in Hrun. inv_bind_as Hrun p s1 Hstep Hk. cbv zeta in Hk.
  inv_bind_as Hk u s2 Hcomp Hret. apply ret_Ok_inv in Hret as [-> ->].
  assert (Hres : exists p0 t db1, payments db !! i = Some p0 /\ p = resolved p0 auth t /\
            resolution i p0 auth t db db1 /\ exec_ops (s_pending s1) (s_db s1) = Ok db1 /\
            trigger_events (s_pending s1) = [] /\ idempotency_keys db1 = idempotency_keys (s_db s1)).
  { unfold resolution, resolved. destruct (ar_outcome auth).
    - apply settle_inv in Hstep as (p0 & t & Hrow & -> & Hph); [|done..].
      apply phase_run_phase in Hph as (Hph & Hp & _). exists p0, t, (s_db s1). by rewrite Hp.
    - unfold park_authorized in Hstep. inv_bind_as Hstep row s3 Hsel Hk.
      apply select_payment_Ok_inv in Hsel as [-> ->]. simpl in Hk.
      destruct (payments db !! i) as [p0|] eqn:Hrow; [|done]. msess.
      edestruct complete_executes as [db1 Hex]; [|exact Hcomp|exact Hcommit|]; [done|].
      exists p0, (now_at env 1), db1. pose proof Hex as Hop. simpl in Hop.
      apply result_bind_Ok_inv in Hop as (d & Hop & [= ->]).
      repeat (split; [done|]). by apply exec_op_Ok in Hop as [_ ->].
    - apply reverse_inv in Hstep as (p0 & t & Hrow & -> & Hph); [|done..].
      apply phase_run_phase in Hph as (Hph & Hp & _). exists p0, t, (s_db s1). by rewrite Hp. }
  destruct Hres as (p0 & t & db1 & Hrow & -> & Hres & Hex & Hq & Hidem).
  exists p0, t, db1. repeat (split; [done|]).
  destruct (so_payment _ Hso _ _ Hrow) as [Hid _]. rewrite resolved_id, Hid in Hcomp.
  by eapply completion_committed.
Qed.

(** Transaction 1, committed. *)
Lemma create_tx1_committed env lock i k rq db r db' :
  schema_ok db -> in_transaction env (create_tx1 lock i k rq) db = (Ok r, db') ->
  match idempotency_keys db !! (cq_merchantId rq, k) with
  | Some row => exists code body resp,
      replay_verdict k (compute_hash (request_dump rq)) row = Ok (code, body) /\
      model_validate body = Some resp /\ r = inl (code, resp) /\ db' = db
  | None => exists t1 t2 db1,
      let p := held_payment i rq t2 in
      r = inr p /\
      exec_op (InsertIdempotency (claim_row (cq_merchantId rq) k (request_dump rq) t1)) db = Ok db1 /\
      phase [InsertPayment p] TxnPAYMENT i (hold_postings p) (hold_event p) db1 db'
  end.
Proof.
  intros Hso Htx. apply in_transaction_Ok_inv in Htx as (s' & Hrun & Hcommit).
  apply create_tx1_inv in Hrun as [Hp Hrow]; [|done..]. simpl in Hrow.
  by apply commit_nothing_pending in Hcommit as [-> _].
Qed.


(** ** When the two transactions succeed *)

Definition fresh_ids (env : Env) (db : DB) : Prop :=
  forall n, ledger_transactions db !! uuid4_at env n = None /\ outbox db !! uuid4_at env n = None.

(** A request the engine can take on: a new key and id, known accounts, texts that fit. *)
Record create_setup (env : Env) (i : uuid) (k : string) (rq : CreatePaymentRequest) (db : DB)
  : Prop := {
  cr_reliable : reliable env;
  cr_schema : schema_ok db;
  cr_books : books_balanced db;
  cr_total : total_balance db <= int64_max;
  cr_room : version_room 4 db;
  cr_suspense : is_Some (accounts db !! PSP_SUSPENSE_ACCOUNT_ID);
  cr_payer : is_Some (accounts db !! cq_payerAccountId rq);
  cr_payee : is_Some (accounts db !! cq_payeeAccountId rq);
  cr_fresh : fresh_ids env db;
  cr_id : payments db !! i = None;
  cr_key : idempotency_keys db !! (cq_merchantId rq, k) = None;
  cr_merchant : varchar 255 (cq_merchantId rq) = true;
  cr_key_fits : varchar 255 k = true;
  cr_currency : varchar 3 (cq_currency rq) = true;
}.

(** ... and serve: its payer can fund it. *)
Definition create_ready (env : Env) (i : uuid) (k : string) (rq : CreatePaymentRequest) (db : DB)
  : Prop := create_setup env i k rq db /\ 0 < cq_amount rq <= balance_of db (cq_payerAccountId rq).

Lemma amount_in_range db a n : schema_ok db -> 0 < n <= balance_of db a -> int64_ok n = true.
Proof.
  intros Hso Hn. apply int64_ok_spec. unfold balance_of, row_balance in Hn.
  destruct (account_balances db !! a) eqn:Ha; simpl in Hn; [|lia].
  apply (so_balance _ Hso) in Ha. unfold int64_min. lia.
Qed.

Lemma create_tx1_progress env lock i k rq db :
  create_ready env i k rq db ->
  exists t db1, in_transaction env (create_tx1 lock i k rq) db = (Ok (inr (held_payment i rq t)), db1).
Proof.
  intros [[Hr Hso Hb Htot Hver Hsus Hpayer Hpayee Hf Hi Hk Hm Hkf Hcur] Hn].
  destruct (claim_or_replay_new lock (cq_merchantId rq) k (request_dump rq) (begin_session env db))
    as (t0 & s1 & Hclaim & [He1 Hp1 _ _] & Hdb1); [done..|]. simpl in He1, Hdb1.
  pose proof (schema_ok_flushes _ _ _ _ Hclaim Hso) as Hso1.
  set (s2 := tick s1). set (t := now_at (s_env s1) (s_tick s1)).
  destruct (hold_progress (mkPayment i (cq_merchantId rq) (cq_payerAccountId rq)
    (cq_payeeAccountId rq) (cq_amount rq) (cq_currency rq) CREATED None 0 0 t t) s2) as [s3 Hhold].
  - constructor; simpl; rewrite ?He1, ?Hdb1; simpl; try done.
    + by rewrite <- Hdb1.
    + intros a. specialize (Hver a). unfold version_of in *. simpl. lia.
  - done.
  - unfold op_check, op_checks, payment_row_checks. simpl. rewrite Hdb1. simpl.
    rewrite (amount_in_range _ _ _ Hso Hn), Hm, Hcur, Hi.
    destruct Hpayer as [x ->], Hpayee as [y ->]. done.
  - simpl. rewrite Hdb1. exact Hn.
  - simpl. rewrite Hdb1. exact Hpayer.
  - pose proof Hhold as Hinv. apply hold_inv in Hinv as [_ Hrun]; [|done..].
    apply phase_run_phase in Hrun as (Hph & Hp3 & _).
    apply phase_summarised in Hph as (txn & o & Hs & _); [|done].
    exists t, (s_db s3). apply in_transaction_ok; [apply _| |done|done|].
    + unfold create_tx1. rewrite (bind_Ok _ _ _ _ _ Hclaim).
      rewrite (bind_Ok _ _ _ _ _ (now_eq s1)). fold s2 t. by rewrite (bind_Ok _ _ _ _ _ Hhold).
    + apply (sm_books _ _ _ _ _ _ Hs). simpl. rewrite Hdb1. exact Hb.
Qed.

(** The second transaction's side: the held payment and its claimed key. *)
Record resolve_ready (env : Env) (i : uuid) (k m : string) (p0 : Payment) (db : DB) : Prop := {
  rr_ledger : ledger_ready env db;
  rr_books : books_balanced db;
  rr_row : payments db !! i = Some p0;
  rr_version : p_version p0 + 1 <= int64_max;
  rr_fits : first_violation (payment_row_checks p0 db) = None;
  rr_key : exists row, idempotency_keys db !! (m, k) = Some row /\
             first_violation (idempotency_row_checks row) = None;
  rr_funds : 0 < p_amount p0 <= balance_of db PSP_SUSPENSE_ACCOUNT_ID;
}.

Definition reference_fits (auth : AuthorizationResult) : Prop :=
  from_option (varchar 255) true (ar_psp_reference auth) = true.

Lemma str_or_fits auth : reference_fits auth -> varchar 255 (str_or (ar_psp_reference auth) "") = true.
Proof.
  unfold reference_fits, str_or. destruct (ar_psp_reference auth) as [r|]; [|done]. simpl.
  by destruct (String.eqb r "").
Qed.

Lemma resolved_check env i k m p0 db auth t :
  resolve_ready env i k m p0 db -> reference_fits auth ->
  op_check (UpdatePayment (resolved p0 auth t)) db = None.
Proof.
  intros [Hlr _ Hrow Hver Hfit _ _] Href. unfold op_check, op_checks.
  destruct (so_payment _ (lr_schema _ _ _ _ Hlr) _ _ Hrow) as [Hid _].
  pose proof (str_or_fits _ Href) as Hsr. unfold reference_fits in Href.
  apply first_violation_None in Hfit. unfold payment_row_checks in Hfit.
  rewrite !Forall_cons in Hfit. simpl in Hfit. destruct Hfit as (H1 & H2 & H3 & H4 & _).
  rewrite !andb_true_iff in H1, H2. destruct H1 as [[H1a H1b] H1c], H2 as [[H2a H2b] H2c].
  assert (Hv : int64_ok (p_version p0 + 1) = true).
  { apply int64_ok_spec. apply int64_ok_spec in H1c. lia. }
  apply first_violation_None. unfold payment_row_checks.
  rewrite Forall_app, !Forall_cons, !Forall_nil. unfold resolved.
  destruct (ar_outcome auth); simpl; rewrite ?Hid, ?Hrow, ?H1a, ?H1b, ?H1c, ?H2a, ?H2b, ?H2c, ?Hv,
    ?Hsr, ?Href, ?H3, ?H4; done.
Qed.

(** The response of a row the table takes is a value of its JSONB column. *)
Lemma response_jsonb p db :
  op_check (UpdatePayment p) db = None -> jsonb (model_dump (payment_to_response p)) = true.
Proof.
  intros Hc. destruct (checked_payment_text _ _ _ (or_intror eq_refl) Hc) as (Hm & Hcur & Hr).
  pose proof (isoformat_no_nul (p_created_at p)) as Ht.
  assert (Hst : no_nul (PaymentStatus_value (p_status p)) = true) by (by destruct (p_status p)).
  cbn [model_dump PaymentResponse_model]. unfold payment_response_dump, payment_to_response.
  cbn [pr_id pr_merchantId pr_payerAccountId pr_payeeAccountId pr_amount pr_currency pr_status
       pr_pspReference pr_refundedAmount pr_createdAt].
  destruct (p_psp_reference p) as [r|]; cbn [from_option] in Hr; solve_jsonb.
Qed.

(** The resolving step of transaction 2 succeeds, with [db1] after its pending statements. *)
Lemma resolve_progress env i k m p0 db auth :
  resolve_ready env i k m p0 db -> reference_fits auth ->
  exists t s1 db1,
    (match ar_outcome auth with
     | CAPTURED => settle i (str_or (ar_psp_reference auth) "")
     | DECLINED => reverse i
     | PENDING => park_authorized i (ar_psp_reference auth)
     end) (begin_session env db) = Ok (resolved p0 auth t, s1) /\
    s_env s1 = env /\ schema_ok (s_db s1) /\ trigger_events (s_pending s1) = [] /\
    exec_ops (s_pending s1) (s_db s1) = Ok db1 /\
    idempotency_keys (s_db s1) = idempotency_keys db /\
    idempotency_keys db1 = idempotency_keys db /\ books_balanced db1.
Proof.
  intros Hready Href. pose proof (fun t => resolved_check _ _ _ _ _ _ _ t Hready Href) as Hop.
  destruct Hready as [Hlr Hb Hrow _ _ _ Hn]. pose proof (lr_schema _ _ _ _ Hlr) as Hso.
  unfold resolved in Hop. destruct auth as [[] psp reason]; simpl in *.
  - destruct (settle_progress i (str_or psp "") p0 (begin_session env db)) as (t & s1 & Hset); try done.
    pose proof (flushes _ _ _ Hset) as (_ & He & _). pose proof (schema_ok_flushes _ _ _ _ Hset Hso) as Hso1.
    pose proof Hset as Hinv. apply settle_inv in Hinv as (p & t' & _ & _ & Hrun); [|done..].
    apply phase_run_phase in Hrun as (Hph & Hp & _).
    apply phase_summarised in Hph as (txn & o & Hs & _); [|done].
    exists t, s1, (s_db s1). rewrite Hp. repeat (split; [done|]).
    split; [apply (sm_idem _ _ _ _ _ _ Hs)|]. split; [apply (sm_idem _ _ _ _ _ _ Hs)|].
    by apply (sm_books _ _ _ _ _ _ Hs).
  - exists (now_at env 1), (with_pending [UpdatePayment (parked p0 psp (now_at env 1))]
      (tick (with_locks [LockPayment i] (tick (begin_session env db))))),
      (op_write (UpdatePayment (parked p0 psp (now_at env 1))) db).
    split; [|do 3 (split; [done|]); split; [exact (exec_payment_op _ _ (Hop _))|done]].
    unfold park_authorized.
    rewrite (bind_Ok _ _ _ _ _ (select_payment_reliable i (begin_session env db)
      (lr_reliable _ _ _ _ Hlr))). simpl.
    by rewrite Hrow.
  - destruct (reverse_progress i p0 (begin_session env db)) as (t & s1 & Hset); try done.
    pose proof (flushes _ _ _ Hset) as (_ & He & _). pose proof (schema_ok_flushes _ _ _ _ Hset Hso) as Hso1.
    pose proof Hset as Hinv. apply reverse_inv in Hinv as (p & t' & _ & _ & Hrun); [|done..].
    apply phase_run_phase in Hrun as (Hph & Hp & _).
    apply phase_summarised in Hph as (txn & o & Hs & _); [|done].
    exists t, s1, (s_db s1). rewrite Hp. repeat (split; [done|]).
    split; [apply (sm_idem _ _ _ _ _ _ Hs)|]. split; [apply (sm_idem _ _ _ _ _ _ Hs)|].
    by apply (sm_books _ _ _ _ _ _ Hs).
Qed.

Lemma create_tx2_progress env i k m p0 db auth :
  resolve_ready env i k m p0 db -> reference_fits auth ->
  exists t db', in_transaction env (create_tx2 i k m auth) db =
    (Ok (payment_to_response (resolved p0 auth t)), db').
Proof.
  intros Hready Href. pose proof (fun t => resolved_check _ _ _ _ _ _ _ t Hready Href) as Hop.
  destruct (resolve_progress _ _ _ _ _ _ _ Hready Href)
    as (t & s1 & db1 & Hrun & He & Hso1 & Hq & Hex & Hi1 & Hi2 & Hb).
  destruct Hready as [Hlr _ Hrow _ _ (row & Hkey & Hfits) _].
  destruct (so_payment _ (lr_schema _ _ _ _ Hlr) _ _ Hrow) as [Hid _].
  set (resp := payment_to_response (resolved p0 auth t)).
  destruct (complete_progress m k i 201 (model_dump resp) s1 row db1) as (s2 & Hcomp & Hdb2);
    [rewrite He; apply (lr_reliable _ _ _ _ Hlr) | done | by rewrite Hi1 | done | done | done
    | exact (response_jsonb _ _ (Hop t)) | rewrite Hi2; by eexists |].
  exists t, (s_db s2). apply in_transaction_ok; [apply _| | |apply (lr_reliable _ _ _ _ Hlr)|].
  - unfold create_tx2. rewrite (bind_Ok _ _ _ _ _ Hrun). cbv zeta. rewrite resolved_id, Hid.
    by rewrite (bind_Ok _ _ _ _ _ Hcomp).
  - pose proof Hcomp as Hinv. apply complete_inv in Hinv as (row' & _ & _ & _ & Hrow'); [|done].
    rewrite Hi1, Hkey in Hrow'. by destruct Hrow' as (_ & Hp & _).
  - rewrite Hdb2. intros x. apply Hb.
Qed.


(** ** The two transactions together *)

(** What transaction 1 hands to transaction 2. *)
Lemma tx1_resolve_ready env1 env2 lock i k rq db t db1 :
  create_ready env1 i k rq db ->
  in_transaction env1 (create_tx1 lock i k rq) db = (Ok (inr (held_payment i rq t)), db1) ->
  reliable env2 -> fresh_ids env2 db1 ->
  resolve_ready env2 i k (cq_merchantId rq) (held_payment i rq t) db1.
Proof.
  intros Hcr Htx Hr2 Hf2. pose proof (cr_schema _ _ _ _ _ (proj1 Hcr)) as Hso.
  pose proof (schema_ok_rtc _ _ (in_transaction_rtc _ _ _ _ _ Htx) Hso) as Hso1.
  apply create_tx1_committed in Htx; [|done]. destruct Hcr as [[_ _ Hb Htot Hver Hsus Hpayer
    Hpayee _ _ Hk Hm Hkf Hcur] Hn]. rewrite Hk in Htx.
  destruct Htx as (t1 & t2 & d & [= ->] & Hop & Hph).
  apply phase_summarised in Hph as (txn & o & Hs & _); [|done].
  apply exec_op_Ok in Hop as [_ ->].
  pose proof (sm_accounts _ _ _ _ _ _ Hs) as Hacc. simpl in Hacc.
  pose proof (sm_payments _ _ _ _ _ _ Hs) as Hpay. cbn in Hpay.
  pose proof (sm_balance _ _ _ _ _ _ Hs PSP_SUSPENSE_ACCOUNT_ID) as Hbal.
  constructor; [constructor|..]; try done.
  - rewrite (sm_total _ _ _ _ _ _ Hs). exact Htot.
  - intros a. rewrite (sm_version _ _ _ _ _ _ Hs). specialize (Hver a).
    pose proof (transfer_touches_le (cq_payerAccountId rq) PSP_SUSPENSE_ACCOUNT_ID (cq_amount rq) a).
    unfold hold_postings. unfold version_of in *. simpl in *. lia.
  - by rewrite Hacc.
  - apply (sm_books _ _ _ _ _ _ Hs). exact Hb.
  - by rewrite Hpay, lookup_insert_eq.
  - unfold payment_row_checks. rewrite Hacc. simpl.
    rewrite (amount_in_range _ _ _ Hso Hn), Hm, Hcur.
    destruct Hpayer as [x ->], Hpayee as [y ->]. done.
  - exists (claim_row (cq_merchantId rq) k (request_dump rq) t1). split; [|by apply claim_row_fits].
    rewrite (sm_idem _ _ _ _ _ _ Hs). simpl. by rewrite lookup_insert_eq.
  - split; [simpl; lia|]. rewrite Hbal. unfold hold_postings. rewrite transfer_delta. simpl p_amount.
    simpl p_payer_account. rewrite (decide_True (P := PSP_SUSPENSE_ACCOUNT_ID = PSP_SUSPENSE_ACCOUNT_ID)) by done.
    unfold balance_of in *. simpl account_balances. pose proof (balance_of_nonneg db PSP_SUSPENSE_ACCOUNT_ID Hso) as Hnn.
    unfold balance_of in Hnn. case_decide as Heq; [rewrite <- Heq in Hn|]; lia.
Qed.

(** The change of each balance by the whole request, as the provider's verdict has it. *)
Definition net_effect (p : Payment) (auth : AuthorizationResult) (a : uuid) : Z :=
  match ar_outcome auth with
  | CAPTURED => delta (transfer (p_payer_account p) (p_payee_account p) (p_amount p)) a
  | PENDING => delta (hold_postings p) a
  | DECLINED => 0
  end.

(** The tables after a request that was served. *)
Record served (i : uuid) (k : string) (rq : CreatePaymentRequest) (p : Payment)
    (resp : PaymentResponse) (net : uuid -> Z) (db db' : DB) : Prop := {
  sv_payment : payments db' = <[i := p]> (payments db);
  sv_balance : forall a, balance_of db' a = balance_of db a + net a;
  sv_key : exists row, idempotency_keys db' !! (cq_merchantId rq, k) = Some row /\
    ir_request_hash row = compute_hash (request_dump rq) /\ ir_status row = COMPLETED /\
    ir_response_code row = Some 201 /\ ir_response_body row = Some (model_dump resp);
}.

Lemma resolution_balance i p0 auth t db db1 :
  schema_ok db -> payments db !! i = Some p0 -> resolution i p0 auth t db db1 ->
  payments db1 = <[i := resolved p0 auth t]> (payments db) /\
  (forall a, balance_of db1 a + delta (hold_postings p0) a = balance_of db a + net_effect p0 auth a).
Proof.
  intros Hso Hrow. destruct (so_payment _ Hso _ _ Hrow) as [<- _].
  unfold resolution, resolved, net_effect. destruct (ar_outcome auth); intros Hres.
  - apply phase_summarised in Hres as (txn & o & Hs & _); [|done].
    split; [apply (sm_payments _ _ _ _ _ _ Hs)|]. intros a. rewrite (sm_balance _ _ _ _ _ _ Hs).
    unfold settle_postings, hold_postings. rewrite !transfer_delta. lia.
  - apply exec_op_Ok in Hres as [_ ->]. split; [done|]. intros a. done.
  - apply phase_summarised in Hres as (txn & o & Hs & _); [|done].
    split; [apply (sm_payments _ _ _ _ _ _ Hs)|]. intros a. rewrite (sm_balance _ _ _ _ _ _ Hs).
    unfold reverse_postings, hold_postings. rewrite !transfer_delta. lia.
Qed.

(** A served request, from the two committed transactions. *)
Lemma served_intro env1 env2 lock i k rq db t db1 auth resp db2 :
  schema_ok db -> idempotency_keys db !! (cq_merchantId rq, k) = None ->
  in_transaction env1 (create_tx1 lock i k rq) db = (Ok (inr (held_payment i rq t)), db1) ->
  in_transaction env2 (create_tx2 i k (cq_merchantId rq) auth) db1 = (Ok resp, db2) ->
  exists t', let p := resolved (held_payment i rq t) auth t' in
    resp = payment_to_response p /\ served i k rq p resp (net_effect (held_payment i rq t) auth) db db2.
Proof.
  intros Hso Hk Htx1 Htx2.
  pose proof (schema_ok_rtc _ _ (in_transaction_rtc _ _ _ _ _ Htx1) Hso) as Hso1.
  apply create_tx1_committed in Htx1; [|done]. rewrite Hk in Htx1.
  destruct Htx1 as (t1 & t2 & d & [= ->] & Hop & Hph).
  apply phase_summarised in Hph as (txn & o & Hs & _); [|done].
  apply exec_op_Ok in Hop as [_ ->].
  pose proof (sm_payments _ _ _ _ _ _ Hs) as Hpay. cbn in Hpay.
  pose proof (sm_idem _ _ _ _ _ _ Hs) as Hidem. simpl in Hidem.
  apply create_tx2_committed in Htx2 as (p0 & t' & db1' & Hrow & Hres & -> & Hcomp); [|done].
  rewrite Hpay, lookup_insert_eq in Hrow. injection Hrow as <-.
  pose proof (resolution_idem _ _ _ _ _ _ Hres) as Hidem2.
  apply resolution_balance in Hres as [Hpay2 Hbal]; [|done|by rewrite Hpay, lookup_insert_eq].
  exists t'. split; [done|]. unfold completion in Hcomp.
  rewrite Hidem2, Hidem, lookup_insert_eq in Hcomp. apply exec_op_Ok in Hcomp as [_ ->].
  constructor; simpl.
  - by rewrite Hpay2, Hpay, insert_insert_eq.
  - intros a. specialize (Hbal a). rewrite (sm_balance _ _ _ _ _ _ Hs) in Hbal.
    unfold balance_of in *. simpl in *. lia.
  - eexists. split; [by rewrite lookup_insert_eq|]. done.
Qed.

(** A request whose key is completed is answered from the table. *)
Lemma create_tx1_replay env lock i k rq db row resp :
  reliable env -> idempotency_keys db !! (cq_merchantId rq, k) = Some row ->
  ir_request_hash row = compute_hash (request_dump rq) -> ir_status row = COMPLETED ->
  model_validate (body_or_empty (ir_response_body row)) = Some resp ->
  in_transaction env (create_tx1 lock i k rq) db =
  (Ok (inl (code_or_200 (ir_response_code row), resp)), db).
Proof.
  intros Hr Hrow Hhash Hst Hval. unfold in_transaction, create_tx1.
  pose proof (claim_or_replay_found lock (cq_merchantId rq) k (request_dump rq)
    (begin_session env db) row Hr Hrow) as Hc.
  unfold replay_verdict in Hc. rewrite decide_True, Hst in Hc by done.
  rewrite (bind_Ok _ _ _ _ _ Hc). unfold replay_payment. rewrite Hval.
  unfold mbind, stm_bind, mret, stm_ret. by rewrite commit_nothing_pending_ok.
Qed.

(** A key whose row refuses the request. *)
Lemma create_tx1_refused env lock i k rq db row e :
  reliable env -> idempotency_keys db !! (cq_merchantId rq, k) = Some row ->
  replay_verdict k (compute_hash (request_dump rq)) row = Err e ->
  in_transaction env (create_tx1 lock i k rq) db = (Err e, db).
Proof.
  intros Hr Hrow Hv. apply in_transaction_raises. unfold create_tx1.
  apply bind_Err. rewrite (claim_or_replay_found _ _ _ _ _ row) by done. by rewrite Hv.
Qed.

End effects.

