(* ===== verification/PaymentTheorems.v ===== *)
(** * PaymentTheorems: what [PaymentService] promises

    The outcome of [create] for every verdict of the provider, its refusals, the replay of
    a served request, and what is left when the provider fails. *)

From S2P Require Import Prelude PyStd Domain Models Session Ledger Journal Fixtures Psp Idempotency Saga Schemas Payments.
From Stdlib Require Import String.

Section create.
  Context {DT : DatetimeText} {P : Type} {PP : PaymentProvider P}.

(** The tables transaction 1 leaves. *)
Definition db_after_tx1 (lock : option RedisSet) (env : Env) (i : uuid) (k : string)
    (rq : CreatePaymentRequest) (db : DB) : DB :=
  (in_transaction env (create_tx1 lock i k rq) db).2.

Lemma create_served_lemma (psp : P) lock env1 env2 i draw k rq db auth :
  create_ready env1 i k rq db -> reliable env2 ->
  fresh_ids env2 (db_after_tx1 lock env1 i k rq db) ->
  (forall t, authorize psp draw (held_payment i rq t) = Ok auth) -> reference_fits auth ->
  exists t t' db2, let p := resolved (held_payment i rq t) auth t' in
    create psp lock env1 env2 i draw k rq db = (Ok (201, payment_to_response p), db2) /\
    served i k rq p (payment_to_response p) (net_effect p auth) db db2.
Proof.
  intros Hcr Hr2 Hf2 Hauth Href.
  destruct (create_tx1_progress env1 lock i k rq db Hcr) as (t & db1 & Htx1).
  unfold db_after_tx1 in Hf2. rewrite Htx1 in Hf2. simpl in Hf2.
  pose proof (tx1_resolve_ready _ _ _ _ _ _ _ _ _ Hcr Htx1 Hr2 Hf2) as Hrr.
  destruct (create_tx2_progress _ _ _ _ _ _ _ Hrr Href) as (t' & db2 & Htx2).
  destruct (served_intro _ _ _ _ _ _ _ _ _ _ _ _ (cr_schema _ _ _ _ _ (proj1 Hcr)) (cr_key _ _ _ _ _ (proj1 Hcr))
    Htx1 Htx2) as (t'' & Hresp & Hsv).
  exists t, t'', db2. unfold create. rewrite Htx1, (Hauth t), Htx2. split; [by rewrite Hresp|].
  rewrite <- Hresp. destruct Hsv as [H1 H2 H3]. constructor; try done.
  intros a. rewrite H2. unfold net_effect, hold_postings, resolved.
  by destruct (ar_outcome auth).
Qed.

(** C10: a request the engine can serve is served, for every verdict of the provider.
    [create] answers 201 with the payment; the payment row is SUCCEEDED with the
    provider's reference, FAILED, or AUTHORIZED as the verdict was captured, declined or
    pending; the amount has moved from payer to payee, not at all, or to the suspense
    account; and the idempotency key is COMPLETED with the request's hash and the response
    that was given. *)
Theorem create_served (psp : P) lock env1 env2 i draw k rq db auth :
  create_ready env1 i k rq db -> reliable env2 ->
  fresh_ids env2 (db_after_tx1 lock env1 i k rq db) ->
  (forall t, authorize psp draw (held_payment i rq t) = Ok auth) -> reference_fits auth ->
  exists t t' db2, let p := resolved (held_payment i rq t) auth t' in
    create psp lock env1 env2 i draw k rq db = (Ok (201, payment_to_response p), db2) /\
    served i k rq p (payment_to_response p) (net_effect p auth) db db2.
Proof. apply create_served_lemma. Qed.

(** Replay.  After a request was served, the same request with the same key gets the
    same status code and the same response, the tables do not change, and neither the
    provider nor the Redis lock has a say: the response that was stored as JSON reads back
    as the response that was given. *)
Theorem create_replays (psp psp' : P) lock lock' env1 env2 env3 env4 i i' draw draw' k rq db auth :
  create_ready env1 i k rq db -> reliable env2 ->
  fresh_ids env2 (db_after_tx1 lock env1 i k rq db) ->
  (forall t, authorize psp draw (held_payment i rq t) = Ok auth) -> reference_fits auth ->
  reliable env3 -> is_uuid i -> is_uuid (cq_payerAccountId rq) -> is_uuid (cq_payeeAccountId rq) ->
  exists resp db2,
    create psp lock env1 env2 i draw k rq db = (Ok (201, resp), db2) /\
    create psp' lock' env3 env4 i' draw' k rq db2 = (Ok (201, resp), db2).
Proof.
  intros Hcr Hr2 Hf2 Hauth Href Hr3 Hi Hpayer Hpayee.
  destruct (create_served_lemma _ _ _ _ _ _ _ _ _ _ Hcr Hr2 Hf2 Hauth Href)
    as (t & t' & db2 & Hcreate & [_ _ (row & Hrow & Hhash & Hst & Hcode & Hbody)]).
  eexists _, db2. split; [exact Hcreate|]. unfold create.
  rewrite (create_tx1_replay env3 lock' i' k rq db2 row
    (payment_to_response (resolved (held_payment i rq t) auth t'))); try done.
  - by rewrite Hcode.
  - rewrite Hbody. apply model_round_trip. unfold resolved. by destruct (ar_outcome auth).
Qed.

Lemma create_reused_key (psp : P) lock env1 env2 i draw k rq db row :
  reliable env1 -> idempotency_keys db !! (cq_merchantId rq, k) = Some row ->
  ir_request_hash row <> compute_hash (request_dump rq) \/ ir_status row = IN_PROGRESS ->
  create psp lock env1 env2 i draw k rq db =
  (Err (if decide (ir_request_hash row = compute_hash (request_dump rq))
        then IdempotencyConflictException k else IdempotencyMismatchException k), db).
Proof.
  intros Hr Hrow Hcase. unfold create.
  rewrite (create_tx1_refused env1 lock i k rq db row
    (if decide (ir_request_hash row = compute_hash (request_dump rq))
     then IdempotencyConflictException k else IdempotencyMismatchException k) Hr Hrow); [done|].
  unfold replay_verdict. case_decide as Hh; [|done]. by destruct Hcase as [?| ->].
Qed.

(** A reused key.  If the key has a row, [create] with another payload is refused with
    [IdempotencyMismatchException], and with the same payload while the first request is
    still IN_PROGRESS with [IdempotencyConflictException]; the tables are unchanged and
    the provider is not called. *)
Theorem create_refuses_reused_key (psp : P) lock env1 env2 i draw k rq db row :
  reliable env1 -> idempotency_keys db !! (cq_merchantId rq, k) = Some row ->
  ir_request_hash row <> compute_hash (request_dump rq) \/ ir_status row = IN_PROGRESS ->
  create psp lock env1 env2 i draw k rq db =
  (Err (if decide (ir_request_hash row = compute_hash (request_dump rq))
        then IdempotencyConflictException k else IdempotencyMismatchException k), db).
Proof. apply create_reused_key. Qed.

Lemma create_failed (psp : P) lock env1 env2 i draw k rq db e db' :
  schema_ok db -> create psp lock env1 env2 i draw k rq db = (Err e, db') ->
  db' = db \/
  exists t row, let p := held_payment i rq t in
    payments db !! i = None /\ payments db' = <[i := p]> (payments db) /\
    (forall a, balance_of db' a = balance_of db a + delta (hold_postings p) a) /\
    idempotency_keys db' = <[(cq_merchantId rq, k) := row]> (idempotency_keys db) /\
    ir_status row = IN_PROGRESS.
Proof.
  intros Hso Hc. unfold create in Hc.
  destruct (in_transaction env1 _ db) as [[[x|p]|e1] db1] eqn:Htx1; [done| |].
  2:{ injection Hc as _ <-. left. by eapply in_transaction_Err. }
  right. assert (Hdb' : db' = db1).
  { destruct (authorize psp draw p); [|by injection Hc].
    destruct (in_transaction env2 _ db1) as [[r|e2] db2] eqn:Htx2; [done|].
    injection Hc as _ <-. by eapply in_transaction_Err. }
  subst db'. clear Hc. apply create_tx1_committed in Htx1; [|done].
  destruct (idempotency_keys db !! (cq_merchantId rq, k)).
  { by destruct Htx1 as (code & body & resp & _ & _ & ? & _). }
  destruct Htx1 as (t1 & t2 & d & [= ->] & Hop & Hph).
  apply phase_summarised in Hph as (txn & o & Hs & _); [|done].
  pose proof (insert_payment_fresh _ _ _ (sm_exec _ _ _ _ _ _ Hs)) as Hf.
  apply exec_op_Ok in Hop as [_ ->]. exists t2, (claim_row (cq_merchantId rq) k (request_dump rq) t1).
  split; [exact Hf|]. split; [apply (sm_payments _ _ _ _ _ _ Hs)|].
  split; [apply (sm_balance _ _ _ _ _ _ Hs)|]. split; [|done]. apply (sm_idem _ _ _ _ _ _ Hs).
Qed.

(** All or nothing.  A request that fails, for whatever reason and at whatever point,
    either leaves the tables exactly as they were, the claim of its key included, or leaves
    the hold of its first transaction and nothing else of money and payments: the payment
    PROCESSING, its amount moved to suspense, its key IN_PROGRESS. *)
Theorem create_failure_outcomes (psp : P) lock env1 env2 i draw k rq db e db' :
  schema_ok db -> create psp lock env1 env2 i draw k rq db = (Err e, db') ->
  db' = db \/
  exists t row, let p := held_payment i rq t in
    payments db !! i = None /\ payments db' = <[i := p]> (payments db) /\
    (forall a, balance_of db' a = balance_of db a + delta (hold_postings p) a) /\
    idempotency_keys db' = <[(cq_merchantId rq, k) := row]> (idempotency_keys db) /\
    ir_status row = IN_PROGRESS.
Proof. apply create_failed. Qed.

Lemma create_unfunded (psp : P) lock env1 env2 i draw k rq db :
  create_setup env1 i k rq db ->
  balance_of db (cq_payerAccountId rq) < cq_amount rq <= int64_max ->
  create psp lock env1 env2 i draw k rq db =
  (Err (InsufficientFundsException (cq_payerAccountId rq)
          (balance_of db (cq_payerAccountId rq)) (cq_amount rq)), db).
Proof.
  intros [Hr Hso Hb Htot Hver Hsus Hpayer Hpayee Hf Hi Hk Hm Hkf Hcur] Hamt.
  pose proof (balance_of_nonneg db (cq_payerAccountId rq) Hso) as Hnn.
  assert (Htx : create_tx1 lock i k rq (begin_session env1 db) =
    Err (InsufficientFundsException (cq_payerAccountId rq)
          (balance_of db (cq_payerAccountId rq)) (cq_amount rq))).
  { destruct (claim_or_replay_new lock (cq_merchantId rq) k (request_dump rq) (begin_session env1 db))
      as (t0 & s1 & Hclaim & [He1 Hp1 _ _] & Hdb1); [done..|]. simpl in He1, Hdb1.
    pose proof (schema_ok_flushes _ _ _ _ Hclaim Hso) as Hso1.
    unfold create_tx1. rewrite (bind_Ok _ _ _ _ _ Hclaim), (bind_Ok _ _ _ _ _ (now_eq s1)).
    assert (Hbal : forall a, balance_of (s_db s1) a = balance_of db a) by (intros a; by rewrite Hdb1).
    rewrite <- Hbal in Hamt, Hnn |- *. apply bind_Err.
    match goal with |- hold ?p0 _ = _ => apply (hold_unfunded p0 (tick s1)) end;
      change (s_db (tick s1)) with (s_db s1); change (s_env (tick s1)) with (s_env s1);
      rewrite ?He1, ?Hdb1; try done.
    - by rewrite <- Hdb1.
    - intros n. apply Hf.
    - unfold op_check, op_checks, payment_row_checks. simpl.
      assert (Ha : int64_ok (cq_amount rq) = true)
        by (apply int64_ok_spec; unfold int64_min; lia).
      rewrite Ha, Hm, Hcur, Hi. destruct Hpayer as [x ->], Hpayee as [y ->]. done.
    - simpl. lia.
    - rewrite <- Hdb1. simpl. lia. }
  unfold create. by rewrite (in_transaction_raises _ _ _ _ Htx).
Qed.

(** An unfunded payer.  A request that could be served but for its amount exceeding the
    payer's balance is refused with [InsufficientFundsException] carrying the account, its
    balance and the amount; nothing is left behind, so that the key can be used again. *)
Theorem create_refuses_overdraft (psp : P) lock env1 env2 i draw k rq db :
  create_setup env1 i k rq db ->
  balance_of db (cq_payerAccountId rq) < cq_amount rq <= int64_max ->
  create psp lock env1 env2 i draw k rq db =
  (Err (InsufficientFundsException (cq_payerAccountId rq)
          (balance_of db (cq_payerAccountId rq)) (cq_amount rq)), db).
Proof. apply create_unfunded. Qed.

(** C38: what a failing provider leaves.  If the provider raises after the funds were held,
    [create] raises that error with transaction 1 committed: the payment stays PROCESSING,
    its amount stays in suspense, the key stays IN_PROGRESS, and every later request with
    that key and payload is refused with a conflict, the tables unchanged. *)
Theorem provider_failure_strands (psp psp' : P) lock lock' env1 env2 env3 env4 i i' draw draw' k rq db e :
  create_ready env1 i k rq db ->
  (forall t, authorize psp draw (held_payment i rq t) = Err e) -> reliable env3 ->
  exists t db1, let p := held_payment i rq t in
    create psp lock env1 env2 i draw k rq db = (Err e, db1) /\
    payments db1 = <[i := p]> (payments db) /\
    (forall a, balance_of db1 a = balance_of db a + delta (hold_postings p) a) /\
    create psp' lock' env3 env4 i' draw' k rq db1 = (Err (IdempotencyConflictException k), db1).
Proof.
  intros Hcr Hauth Hr3.
  destruct (create_tx1_progress env1 lock i k rq db Hcr) as (t & db1 & Htx1).
  pose proof Htx1 as Htx. apply create_tx1_committed in Htx; [|apply (cr_schema _ _ _ _ _ (proj1 Hcr))].
  rewrite (cr_key _ _ _ _ _ (proj1 Hcr)) in Htx. destruct Htx as (t1 & t2 & d & [= ->] & Hop & Hph).
  apply phase_summarised in Hph as (txn & o & Hs & _); [|done].
  apply exec_op_Ok in Hop as [_ ->].
  exists t2, db1. unfold create at 1. rewrite Htx1, Hauth. split; [done|]. split; [|split].
  - apply (sm_payments _ _ _ _ _ _ Hs).
  - apply (sm_balance _ _ _ _ _ _ Hs).
  - unfold create. rewrite (create_tx1_refused env3 lock' i' k rq db1
      (claim_row (cq_merchantId rq) k (request_dump rq) t1) (IdempotencyConflictException k)); try done.
    + rewrite (sm_idem _ _ _ _ _ _ Hs). simpl. by rewrite lookup_insert_eq.
    + unfold replay_verdict. by rewrite decide_True.
Qed.

End create.

(** ** The theorems on the fixtures, with the mock provider *)

Definition demo_request (amount : Z) : CreatePaymentRequest :=
  mkCreatePaymentRequest "merchant_1" wallet merchant amount "INR".

Lemma demo_create_setup amount : create_setup (demo_env 1000) 9000 "key-1" (demo_request amount) demo_db.
Proof.
  constructor; try done; first [exact demo_schema_ok | exact demo_version_room | by eexists].
Qed.

Lemma demo_create_ready amount :
  0 < amount <= 100000 -> create_ready (demo_env 1000) 9000 "key-1" (demo_request amount) demo_db.
Proof. intros Ha. split; [apply demo_create_setup | exact Ha]. Qed.

(** Draws of [demo_env base] are new in tables whose ids are all below [base]. *)
Definition ids_below (base : N) (db : DB) : bool :=
  bool_decide (map_Forall (fun i _ => (i < base)%N) (ledger_transactions db)) &&
  bool_decide (map_Forall (fun i _ => (i < base)%N) (outbox db)).

Lemma demo_fresh_ids base db : ids_below base db = true -> fresh_ids (demo_env base) db.
Proof.
  unfold ids_below. rewrite andb_true_iff, !bool_decide_eq_true. intros [H1 H2] n. simpl.
  split; apply eq_None_not_Some; intros [x Hx]; [apply H1 in Hx|apply H2 in Hx]; simpl in Hx; lia.
Qed.

#[local] Existing Instance binary_datetime.

Lemma create_served_witness :
  exists t t' db2, let p := resolved (held_payment 9000 (demo_request 40002) t)
                              (mock_authorize 77 (held_payment 9000 (demo_request 40002) 0)) t' in
    create mkMockPspClient None (demo_env 1000) (demo_env 5000) 9000 77 "key-1"
      (demo_request 40002) demo_db = (Ok (201, payment_to_response p), db2) /\
    served 9000 "key-1" (demo_request 40002) p (payment_to_response p)
      (net_effect p (mock_authorize 77 (held_payment 9000 (demo_request 40002) 0))) demo_db db2.
Proof.
  apply (create_served mkMockPspClient None (demo_env 1000) (demo_env 5000) 9000 77 "key-1"
    (demo_request 40002) demo_db).
  - apply demo_create_ready. lia.
  - done.
  - apply demo_fresh_ids. vm_compute. reflexivity.
  - reflexivity.
  - vm_compute. reflexivity.
Defined.

Lemma create_replays_witness :
  exists resp db2,
    create mkMockPspClient None (demo_env 1000) (demo_env 5000) 9000 77 "key-1"
      (demo_request 2500) demo_db = (Ok (201, resp), db2) /\
    create mkMockPspClient (Some (fun _ _ _ => Some false)) (demo_env 1) (demo_env 1) 9001 78 "key-1"
      (demo_request 2500) db2 = (Ok (201, resp), db2).
Proof.
  apply (create_replays mkMockPspClient mkMockPspClient None (Some (fun _ _ _ => Some false))
    (demo_env 1000) (demo_env 5000) (demo_env 1) (demo_env 1) 9000 9001 77 78 "key-1"
    (demo_request 2500) demo_db (mock_authorize 77 (held_payment 9000 (demo_request 2500) 0))).
  - apply demo_create_ready. lia.
  - done.
  - apply demo_fresh_ids. vm_compute. reflexivity.
  - reflexivity.
  - vm_compute. reflexivity.
  - done.
  - reflexivity.
  - reflexivity.
  - reflexivity.
Defined.

(** A database with one claimed key. *)
Definition claimed_db : DB :=
  {| demo_db with idempotency_keys :=
       {[ ("merchant_1", "key-1") := claim_row "merchant_1" "key-1" (request_dump (demo_request 500)) 0 ]} |}.

Lemma create_refuses_reused_key_witness :
  create mkMockPspClient None (demo_env 1000) (demo_env 5000) 9000 77 "key-1" (demo_request 700)
    claimed_db = (Err (IdempotencyMismatchException "key-1"), claimed_db) /\
  create mkMockPspClient None (demo_env 1000) (demo_env 5000) 9000 77 "key-1" (demo_request 500)
    claimed_db = (Err (IdempotencyConflictException "key-1"), claimed_db).
Proof.
  split.
  - rewrite (create_refuses_reused_key mkMockPspClient None (demo_env 1000) (demo_env 5000) 9000 77
      "key-1" (demo_request 700) claimed_db
      (claim_row "merchant_1" "key-1" (request_dump (demo_request 500)) 0)).
    + vm_compute. reflexivity.
    + done.
    + reflexivity.
    + by right.
  - rewrite (create_refuses_reused_key mkMockPspClient None (demo_env 1000) (demo_env 5000) 9000 77
      "key-1" (demo_request 500) claimed_db
      (claim_row "merchant_1" "key-1" (request_dump (demo_request 500)) 0)).
    + vm_compute. reflexivity.
    + done.
    + reflexivity.
    + by right.
Defined.

(** A provider that always raises. *)
Definition down : StripePaymentProvider :=
  mkStripePaymentProvider
    (mkSettings "" "" 0 "" "" 0 "" "" "" 0 0 "" 0 "stripe" "" "sk_live" "" 0 0 0)
    (fun _ => StripeError (Some "api down")).

Lemma create_failure_outcomes_witness :
  exists db', create down None (demo_env 1000) (demo_env 5000) 9000 77 "key-1" (demo_request 500)
      demo_db = (Err (RuntimeError "Stripe gateway error: api down"), db') /\
  (db' = demo_db \/
   exists t row, let p := held_payment 9000 (demo_request 500) t in
     payments demo_db !! 9000%N = None /\ payments db' = <[9000%N := p]> (payments demo_db) /\
     (forall a, balance_of db' a = balance_of demo_db a + delta (hold_postings p) a) /\
     idempotency_keys db' = <[("merchant_1", "key-1") := row]> (idempotency_keys demo_db) /\
     ir_status row = IN_PROGRESS).
Proof.
  destruct (create down None (demo_env 1000) (demo_env 5000) 9000 77 "key-1" (demo_request 500)
    demo_db) as [r db'] eqn:Hc.
  assert (Hr : r = Err (RuntimeError "Stripe gateway error: api down")).
  { change r with (fst (r, db')). rewrite <- Hc. vm_compute. reflexivity. }
  subst r. exists db'. split; [reflexivity|].
  exact (create_failure_outcomes down None (demo_env 1000) (demo_env 5000) 9000 77 "key-1"
    (demo_request 500) demo_db _ db' demo_schema_ok Hc).
Defined.

Lemma create_refuses_overdraft_witness :
  create mkMockPspClient None (demo_env 1000) (demo_env 5000) 9000 77 "key-1" (demo_request 100001)
    demo_db = (Err (InsufficientFundsException wallet 100000 100001), demo_db).
Proof.
  apply (create_refuses_overdraft mkMockPspClient None (demo_env 1000) (demo_env 5000) 9000 77
    "key-1" (demo_request 100001) demo_db).
  - apply demo_create_setup.
  - vm_compute. split; [reflexivity|discriminate].
Defined.

Lemma provider_failure_strands_witness :
  exists t db1, let p := held_payment 9000 (demo_request 500) t in
    create down None (demo_env 1000) (demo_env 5000) 9000 77 "key-1" (demo_request 500) demo_db =
      (Err (RuntimeError "Stripe gateway error: api down"), db1) /\
    payments db1 = <[9000%N := p]> (payments demo_db) /\
    (forall a, balance_of db1 a = balance_of demo_db a + delta (hold_postings p) a) /\
    create down None (demo_env 1) (demo_env 1) 9001 78 "key-1" (demo_request 500) db1 =
      (Err (IdempotencyConflictException "key-1"), db1).
Proof.
  apply (provider_failure_strands down down None None (demo_env 1000) (demo_env 5000) (demo_env 1)
    (demo_env 1) 9000 9001 77 78 "key-1" (demo_request 500) demo_db).
  - apply demo_create_ready. lia.
  - reflexivity.
  - done.
Defined.
