(* ===== verification/PspTheorems.v ===== *)
(** * PspTheorems: the payment that results from what Stripe answers

    [PaymentService.create] run with [StripePaymentProvider], from the status of the
    intent the SDK returned to the payment row, the balances and the response. *)

From S2P Require Import Prelude PyStd Domain Models Session Ledger Journal Fixtures Psp Idempotency Saga Schemas Payments PaymentTheorems.
From Stdlib Require Import String.

Lemma str_in_spec s l : str_in s l = true <-> s ∈ l.
Proof.
  unfold str_in. rewrite existsb_exists. split.
  - intros (x & Hx & Heq). apply String.eqb_eq in Heq as ->. by apply list_elem_of_In.
  - intros Hs. exists s. split; [by apply list_elem_of_In|apply String.eqb_refl].
Qed.

(** The statuses Stripe gives an intent, by the verdict they are mapped to. *)
Inductive intent_verdict (intent : PaymentIntent) : AuthorizationResult -> PaymentStatus -> Prop :=
| verdict_captured :
    pi_status intent ∈ ["succeeded"; "requires_capture"] ->
    intent_verdict intent (captured (pi_id intent)) SUCCEEDED
| verdict_declined reason :
    pi_status intent ∈ ["requires_payment_method"; "canceled"] ->
    intent_verdict intent (declined reason) FAILED
| verdict_pending :
    pi_status intent ∉ ["succeeded"; "requires_capture"; "requires_payment_method"; "canceled"] ->
    intent_verdict intent (pending (pi_id intent)) AUTHORIZED.

Lemma map_stripe_status_verdict intent :
  exists st, intent_verdict intent (map_stripe_status intent) st.
Proof.
  unfold map_stripe_status. destruct (str_in _ ["succeeded"; _]) eqn:H1.
  { eexists. constructor. by apply str_in_spec. }
  apply not_true_iff_false in H1. rewrite str_in_spec in H1.
  destruct (str_in _ ["requires_payment_method"; _]) eqn:H3.
  - apply str_in_spec in H3.
    assert (H2 : str_in (pi_status intent) ["requires_action"; "requires_confirmation"; "processing"] = false)
      by (set_unfold; destruct H3 as [->|[->|[]]]; reflexivity).
    rewrite H2. eexists. by constructor.
  - apply not_true_iff_false in H3. rewrite str_in_spec in H3.
    exists AUTHORIZED. case_match; apply verdict_pending; set_solver.
Qed.

Lemma verdict_disjoint s :
  s ∈ ["succeeded"; "requires_capture"] -> s ∈ ["requires_payment_method"; "canceled"] -> False.
Proof. rewrite <- !str_in_spec. unfold str_in. simpl. rewrite !orb_true_iff, !String.eqb_eq. intuition congruence. Qed.

Lemma verdict_status intent auth st :
  intent_verdict intent auth st ->
  (st = SUCCEEDED <-> pi_status intent ∈ ["succeeded"; "requires_capture"]) /\
  (st = FAILED <-> pi_status intent ∈ ["requires_payment_method"; "canceled"]) /\
  st ∈ [SUCCEEDED; FAILED; AUTHORIZED].
Proof.
  pose proof (verdict_disjoint (pi_status intent)) as Hd.
  intros [Hst|reason Hst|Hst]; (split; [|split; [|set_solver]]); split; intros H; try done;
    try (by exfalso; apply Hd); exfalso; apply Hst; set_solver.
Qed.

Lemma if_empty (s : string) : (if String.eqb s "" then ""%string else s) = s.
Proof. destruct (String.eqb_spec s ""); congruence. Qed.

(** The change of each balance, by the status the payment ends in. *)
Definition status_effect (st : PaymentStatus) (rq : CreatePaymentRequest) (a : uuid) : Z :=
  match st with
  | SUCCEEDED => delta (transfer (cq_payerAccountId rq) (cq_payeeAccountId rq) (cq_amount rq)) a
  | AUTHORIZED => delta (transfer (cq_payerAccountId rq) PSP_SUSPENSE_ACCOUNT_ID (cq_amount rq)) a
  | _ => 0
  end.

Section stripe.
  Context {DT : DatetimeText}.

(** C37: with Stripe, the status of the intent decides the payment.  A request the engine
    can serve, sent to Stripe with the payment's own id as the idempotency key, ends
    SUCCEEDED with the payee credited exactly when the intent is [succeeded] or
    [requires_capture] (the intent is created for manual capture, and nothing captures it
    later), FAILED with every balance as before exactly when it is
    [requires_payment_method] or [canceled], and AUTHORIZED with the amount in suspense
    for any other status, one Stripe may add included; the reference of the response is
    the intent's id unless the payment failed. *)
Theorem stripe_decides_payment sp lock env1 env2 i draw k rq db intent :
  create_ready env1 i k rq db -> reliable env2 ->
  fresh_ids env2 (db_after_tx1 lock env1 i k rq db) ->
  STRIPE_API_KEY (sp_settings sp) <> ""%string ->
  (forall iq, iq_idempotency_key iq = uuid_str i -> iq_amount iq = cq_amount rq ->
     sp_create_intent sp iq = IntentCreated intent) ->
  varchar 255 (pi_id intent) = true ->
  exists resp db2,
    create sp lock env1 env2 i draw k rq db = (Ok (201, resp), db2) /\
    (pr_status resp = SUCCEEDED <-> pi_status intent ∈ ["succeeded"; "requires_capture"]) /\
    (pr_status resp = FAILED <-> pi_status intent ∈ ["requires_payment_method"; "canceled"]) /\
    pr_status resp ∈ [SUCCEEDED; FAILED; AUTHORIZED] /\
    pr_pspReference resp = (if decide (pr_status resp = FAILED) then None else Some (pi_id intent)) /\
    forall a, balance_of db2 a = balance_of db a + status_effect (pr_status resp) rq a.
Proof.
  intros Hcr Hr2 Hf2 Hkey Hintent Hfits.
  assert (Hauth : forall t, authorize sp draw (held_payment i rq t) = Ok (map_stripe_status intent)).
  { intros t. change (stripe_authorize sp draw (held_payment i rq t) = Ok (map_stripe_status intent)).
    unfold stripe_authorize. apply String.eqb_neq in Hkey. rewrite Hkey.
    by rewrite Hintent by reflexivity. }
  destruct (map_stripe_status_verdict intent) as [st Hv].
  destruct (create_served_lemma sp lock env1 env2 i draw k rq db (map_stripe_status intent))
    as (t & t' & db2 & Hrun & [_ Hbal _]); [done..|by destruct Hv|].
  eexists _, db2. split; [exact Hrun|]. clear Hrun.
  pose proof (verdict_status _ _ _ Hv) as Hst.
  assert (Hp : pr_status (payment_to_response (resolved (held_payment i rq t) (map_stripe_status intent) t')) = st)
    by (by destruct Hv).
  rewrite Hp. destruct Hst as (H1 & H2 & H3). do 3 (split; [done|]).
  split; [destruct Hv; case_decide; simpl; rewrite ?if_empty; congruence|]. intros a. rewrite Hbal. destruct Hv; reflexivity.
Qed.

End stripe.

(** ** Witness: an intent that still has to be captured *)

#[local] Existing Instance binary_datetime.

Definition live_settings : Settings :=
  {| default_settings with STRIPE_API_KEY := "sk_live" |}.

Definition uncaptured : PaymentIntent := mkPaymentIntent "pi_1" "requires_capture" None.

Definition stripe_demo : StripePaymentProvider :=
  mkStripePaymentProvider live_settings (fun _ => IntentCreated uncaptured).

Lemma stripe_decides_payment_witness :
  exists resp db2,
    create stripe_demo None (demo_env 1000) (demo_env 5000) 9000 77 "key-1" (demo_request 2500) demo_db =
      (Ok (201, resp), db2) /\
    (pr_status resp = SUCCEEDED <-> pi_status uncaptured ∈ ["succeeded"; "requires_capture"]) /\
    (pr_status resp = FAILED <-> pi_status uncaptured ∈ ["requires_payment_method"; "canceled"]) /\
    pr_status resp ∈ [SUCCEEDED; FAILED; AUTHORIZED] /\
    pr_pspReference resp = (if decide (pr_status resp = FAILED) then None else Some (pi_id uncaptured)) /\
    forall a, balance_of db2 a = balance_of demo_db a + status_effect (pr_status resp) (demo_request 2500) a.
Proof.
  apply (stripe_decides_payment stripe_demo None (demo_env 1000) (demo_env 5000) 9000 77 "key-1"
    (demo_request 2500) demo_db uncaptured).
  - apply demo_create_ready. lia.
  - done.
  - apply demo_fresh_ids. vm_compute. reflexivity.
  - discriminate.
  - reflexivity.
  - reflexivity.
Defined.
