(* ===== verification/Refunds.v ===== *)
(** * Refunds: [app/application/refund_service.py]

    [RefundService.refund], run by the API inside one transaction. *)

From S2P Require Import Prelude PyStd Domain Models Session Ledger Journal Idempotency Saga Schemas.
From Stdlib Require Import String.

(** ** Definitions *)

(** The merchant every refund key is filed under. *)
Definition refund_merchant : string := "merchant_refund".

Definition refund_payload (payment_id : uuid) (amount : Z) : dict :=
  [("payment_id", JStr (uuid_str payment_id)); ("amount", JInt amount)].

(** The payment after a refund of [amount]. *)
Definition apply_refund (payment : Payment) (amount updated_at : Z) : Payment :=
  let refunded := p_refunded_amount payment + amount in
  {| payment with p_refunded_amount := refunded;
                  p_status := if refunded =? p_amount payment then REFUNDED else p_status payment;
                  p_version := p_version payment + 1;
                  p_updated_at := updated_at |}.

Definition refundable_status (st : PaymentStatus) : bool :=
  bool_decide (st = SUCCEEDED \/ st = REFUND_PENDING).

Section service.
  Context `{DatetimeText}.

(** Steps 2 to 6, after the key has been claimed. *)
Definition refund_claimed (idempotency_key : string) (payment_id : uuid) (amount : Z)
  : M (Z * RefundResponse) :=
  row ← select_payment_for_update payment_id;
  match row with
  | None => mthrow (PaymentNotFoundException payment_id)
  | Some payment0 =>
      if negb (refundable_status (p_status payment0)) then
        mthrow (RefundNotAllowedException
          ("Cannot refund payment with status: " +:+ PaymentStatus_value (p_status payment0)))
      else if p_amount payment0 <? p_refunded_amount payment0 + amount then
        mthrow (RefundNotAllowedException
          ("Refund amount " +:+ pretty amount +:+ " exceeds capturable balance (" +:+
           pretty (p_amount payment0 - p_refunded_amount payment0) +:+ ")"))
      else
        refund_id ← uuid4;
        created_at ← now;
        let refund_record := mkRefund refund_id (p_id payment0) amount RefundSUCCEEDED created_at in
        session_add (InsertRefund refund_record);;
        updated_at ← now;
        let payment := apply_refund payment0 amount updated_at in
        session_add (UpdatePayment payment);;
        post TxnREFUND refund_id
          [mkPosting (p_payee_account payment) DEBIT amount;
           mkPosting (p_payer_account payment) CREDIT amount];;
        add_outbox "refund" refund_id "refund.completed"
          [("refundId", JStr (uuid_str refund_id));
           ("paymentId", JStr (uuid_str (p_id payment)));
           ("amount", JInt amount);
           ("status", JStr (RefundStatus_value (r_status refund_record)))];;
        let response := mkRefundResponse refund_id (p_id payment) amount
                          (r_status refund_record) (r_created_at refund_record) in
        complete refund_merchant idempotency_key refund_id 201 (model_dump response);;
        mret (201, response)
  end.

Definition refund (lock : option RedisSet) (idempotency_key : string) (payment_id : uuid)
    (amount : Z) : M (Z * RefundResponse) :=
  replay ← claim_or_replay lock refund_merchant idempotency_key (refund_payload payment_id amount);
  match replay with
  | Some (code, body) =>
      match model_validate body with
      | Some response => mret (code, response)
      | None => mthrow ValidationError
      end
  | None => refund_claimed idempotency_key payment_id amount
  end.

End service.

(** ** What a refund does *)

Section effects.
  Context {DT : DatetimeText}.

#[global] Instance Flushes_refund_claimed k i n : Flushes (refund_claimed k i n).
Proof. unfold refund_claimed. solve_flushes. Qed.
#[global] Instance Flushes_refund l k i n : Flushes (refund l k i n).
Proof. unfold refund. solve_flushes. Qed.

Definition refund_postings (p : Payment) (amount : Z) : list Posting :=
  transfer (p_payee_account p) (p_payer_account p) amount.

Definition refund_event (refund_id payment_id : uuid) (amount : Z) : EventSpec :=
  mkEventSpec "refund" refund_id "refund.completed"
    [("refundId", JStr (uuid_str refund_id)); ("paymentId", JStr (uuid_str payment_id));
     ("amount", JInt amount); ("status", JStr "SUCCEEDED")].

Definition refund_row (refund_id payment_id : uuid) (amount t : Z) : Refund :=
  mkRefund refund_id payment_id amount RefundSUCCEEDED t.

Definition refund_ops (p0 : Payment) (refund_id : uuid) (amount t1 t2 : Z) : list DbOp :=
  [InsertRefund (refund_row refund_id (p_id p0) amount t1);
   UpdatePayment (apply_refund p0 amount t2)].

Definition refund_response (refund_id payment_id : uuid) (amount t : Z) : RefundResponse :=
  mkRefundResponse refund_id payment_id amount RefundSUCCEEDED t.

(** The guards a refund passed. *)
Definition refund_allowed (p0 : Payment) (amount : Z) : Prop :=
  refundable_status (p_status p0) = true /\ p_refunded_amount p0 + amount <= p_amount p0.

(** A posting, its event and the completion of the key, at the end of a transaction. *)
Lemma phase_completed {A} ty ref ps a i e pl m k rid body (x y : A) s s' db' :
  schema_ok (s_db s) -> quiet (s_pending s) ->
  (post ty ref ps;; add_outbox a i e pl;; complete m k rid 201 body;; mret x) s = Ok (y, s') ->
  commit s' = Ok db' ->
  y = x /\ exists db1, phase (s_pending s) ty ref ps (mkEventSpec a i e pl) (s_db s) db1 /\
    completion m k rid body db1 db'.
Proof.
  intros Hso Hq Hrun Hcommit. inv_bind_as Hrun txn s3 Hpost Hk.
  inv_bind_as Hk u3 s4 Hout Hk1. inv_bind_as Hk1 u4 s5 Hcomp Hret.
  apply ret_Ok_inv in Hret as [-> ->]. split; [done|].
  pose proof (flushes _ _ _ Hpost) as [Hrtc _].
  apply post_Ok_inv in Hpost as (db0 & Hex & Hpe & Hval & Hty & Href & Hp3 & _); [|done].
  apply add_outbox_inv in Hout as (o & Hev & ->).
  pose proof (exec_ops_exec_write _ _ _ Hex) as [-> Hex'].
  edestruct complete_executes as [db1 Hdb1]; [|exact Hcomp|exact Hcommit|].
  { simpl. by rewrite Hp3. }
  pose proof Hdb1 as Hins. simpl in Hins. rewrite Hp3 in Hins. simpl in Hins.
  apply result_bind_Ok_inv in Hins as (d & Hins & [= ->]).
  assert (Hfresh : outbox (s_db s3) !! o_id o = None) by (clear -Hins; split_checks Hins; done).
  assert (Hrtc' : rtc exec_step (s_db s) db1) by (etrans; [exact Hrtc|by eapply exec_ops_rtc]).
  apply exec_op_Ok in Hins as [_ ->]. eexists. split.
  - exists txn, o. split; [|done]. constructor; [done|done|by exists (s_db s3)| |exact Hrtc'].
    by rewrite <- (lf_outbox _ _ (pe_frame _ _ _ _ Hpe)).
  - eapply completion_committed; [|exact Hdb1|done|exact Hcomp|exact Hcommit].
    simpl. by rewrite Hp3.
Qed.

(** A claimed refund, committed. *)
Lemma refund_claimed_committed k i n s r s' db' :
  schema_ok (s_db s) -> s_pending s = [] -> refund_claimed k i n s = Ok (r, s') ->
  commit s' = Ok db' ->
  exists p0 rid t1 t2 db1, payments (s_db s) !! i = Some p0 /\ refund_allowed p0 n /\
    phase (refund_ops p0 rid n t1 t2) TxnREFUND rid (refund_postings p0 n)
      (refund_event rid i n) (s_db s) db1 /\
    r = (201, refund_response rid i n t1) /\
    completion refund_merchant k rid (model_dump (refund_response rid i n t1)) db1 db'.
Proof.
  intros Hso Hp Hrun Hcommit. unfold refund_claimed in Hrun. inv_bind_as Hrun row s1 Hsel Hk.
  apply select_payment_Ok_inv in Hsel as [-> ->].
  destruct (payments (s_db s) !! i) as [p0|] eqn:Hrow; [|done].
  destruct (so_payment _ Hso _ _ Hrow) as [Hid _].
  destruct (refundable_status (p_status p0)) eqn:Hst; [|done]. cbn [negb] in Hk.
  destruct (Z.ltb_spec (p_amount p0) (p_refunded_amount p0 + n)); [done|].
  inv_bind_as Hk rid s2 Hu Hk1. rewrite uuid4_eq in Hu. injection Hu as <- <-.
  inv_bind_as Hk1 t1 s2 Hn Hk. rewrite now_eq in Hn. injection Hn as <- <-. cbv zeta in Hk.
  inv_bind_as Hk u1 s2 Ha Hk1. rewrite session_add_eq in Ha. injection Ha as _ <-.
  inv_bind_as Hk1 t2 s2 Hn Hk. rewrite now_eq in Hn. injection Hn as <- <-. cbv zeta in Hk.
  inv_bind_as Hk u2 s2 Ha Hk1. rewrite session_add_eq in Ha. injection Ha as _ <-.
  eapply phase_completed in Hk1 as (-> & db1 & Hph & Hcomp); [|done| |exact Hcommit].
  2:{ simpl. by rewrite Hp. }
  simpl in Hph, Hcomp. rewrite Hp in Hph. rewrite Hid in Hph, Hcomp.
  exists p0, (uuid4_at (s_env s) (S (s_tick s))), (now_at (s_env s) (S (S (s_tick s)))),
    (now_at (s_env s) (S (S (S (s_tick s))))), db1.
  split; [done|]. split; [by split|]. unfold refund_ops. rewrite Hid. split; [exact Hph|].
  split; [|exact Hcomp]. unfold refund_response. simpl. by rewrite Hid.
Qed.

(** A refund, committed: a replay that changed nothing, or a claim and its refund. *)
Lemma refund_committed env lock k i n db r db' :
  schema_ok db -> in_transaction env (refund lock k i n) db = (Ok r, db') ->
  match idempotency_keys db !! (refund_merchant, k) with
  | Some row => exists code body resp,
      replay_verdict k (compute_hash (refund_payload i n)) row = Ok (code, body) /\
      model_validate body = Some resp /\ r = (code, resp) /\ db' = db
  | None => exists t0 p0 rid t1 t2 db1 db2,
      exec_op (InsertIdempotency (claim_row refund_merchant k (refund_payload i n) t0)) db = Ok db1 /\
      payments db !! i = Some p0 /\ refund_allowed p0 n /\
      phase (refund_ops p0 rid n t1 t2) TxnREFUND rid (refund_postings p0 n)
        (refund_event rid i n) db1 db2 /\
      r = (201, refund_response rid i n t1) /\
      completion refund_merchant k rid (model_dump (refund_response rid i n t1)) db2 db'
  end.
Proof.
  intros Hso Htx. apply in_transaction_Ok_inv in Htx as (s' & Hrun & Hcommit).
  unfold refund in Hrun. inv_bind_as Hrun claim s1 Hclaim Hk.
  apply claim_or_replay_inv in Hclaim as [[He Hp1 Hd _] Hrow]; [|done]. simpl in Hrow.
  destruct (idempotency_keys db !! (refund_merchant, k)) as [row|].
  - destruct Hrow as ([code body] & Hv & -> & Hdb).
    destruct (model_validate body) as [resp|] eqn:Hval; msess.
    apply commit_nothing_pending in Hcommit as [-> _]; [|done]. exists code, body, resp. done.
  - destruct Hrow as [-> [t0 Hop]].
    apply (refund_claimed_committed _ _ _ _ _ _ db') in Hk
      as (p0 & rid & t1 & t2 & db2 & Hrow & Hal & Hph & -> & Hcomp); [|..|done|done].
    + exists t0, p0, rid, t1, t2, (s_db s1), db2. repeat (split; [done|]).
      split; [|done]. pose proof Hop as Hop'. apply exec_op_Ok in Hop' as [_ Hw].
      by rewrite Hw in Hrow.
    + exact (exec_op_schema_ok _ _ _ Hso Hop).
Qed.

End effects.
