(* ===== verification/RefundTheorems.v ===== *)
(** * RefundTheorems: what [RefundService] promises

    The outcome of [refund] on every branch: success, replay, the guards, an unfunded
    payee. *)

From S2P Require Import Prelude PyStd Domain Models Session Ledger Journal Fixtures Psp Idempotency Saga Schemas Payments Refunds.
From Stdlib Require Import String.

(** ** When a refund succeeds *)

Lemma phase_complete_progress {A} ty ref d c n a i e pl m k rid body (x : A) s db0 row :
  schema_ok (s_db s) -> quiet (s_pending s) -> exec_ops (s_pending s) (s_db s) = Ok db0 ->
  ledger_ready (s_env s) db0 -> books_balanced db0 -> 0 < n <= balance_of db0 d ->
  is_Some (accounts db0 !! d) -> is_Some (accounts db0 !! c) ->
  varchar 100 a && varchar 100 e && jsonb pl = true ->
  idempotency_keys db0 !! (m, k) = Some row ->
  first_violation (idempotency_row_checks row) = None -> jsonb body = true ->
  exists s', (post ty ref (transfer d c n);; add_outbox a i e pl;;
              complete m k rid 201 body;; mret x) s = Ok (x, s') /\
    s_pending s' = [] /\ books_balanced (s_db s').
Proof.
  intros Hso Hq Hex [Hr Hso0 Ht Hv _ Hf] Hb Hn Hd Hc Hw Hkey Hfit Hbody.
  destruct (post_progress ty ref (transfer d c n) s db0) as [s1 Hpost].
  { constructor; try done; [by apply Hf | apply transfer_balanced; lia |].
    intros p Hp. apply elem_of_cons in Hp as [->|Hp%list_elem_of_singleton]; [done|]. by subst p. }
  { rewrite transfer_unfunded, decide_False; [done|lia]. }
  { by apply transfer_in_range. }
  rewrite (bind_Ok _ _ _ _ _ Hpost).
  pose proof (schema_ok_flushes _ _ _ _ Hpost Hso) as Hso1.
  apply post_Ok_inv in Hpost as (db0' & Hex' & Hpe & Hval & _ & _ & Hp & He & _); [|done].
  rewrite Hex in Hex'. injection Hex' as <-.
  pose proof (post_books_balanced _ _ _ _ Hpe Hval Hb) as Hb1.
  destruct Hpe as [[_ _ _ Pi Po _] _ _ _ _ _ _].
  set (o := mkOutbox (uuid4_at (s_env s1) (s_tick s1)) a i e pl
              (now_at (s_env (tick s1)) (s_tick (tick s1))) None).
  set (s2 := with_pending [InsertOutbox o] (tick (tick s1))).
  assert (Ha : add_outbox a i e pl s1 = Ok (tt, s2)) by done.
  rewrite (bind_Ok _ _ _ _ _ Ha).
  assert (Hex2 : exec_ops (s_pending s2) (s_db s2) = Ok (op_write (InsertOutbox o) (s_db s1))).
  { simpl. rewrite Hp. simpl. unfold exec_op, op_check. simpl. rewrite Hw, Po, He.
    pose proof (proj2 (Hf (s_tick s1))) as Ho. simpl in Ho. by rewrite Ho. }
  destruct (complete_progress m k rid 201 body s2 row (op_write (InsertOutbox o) (s_db s1)))
    as (s3 & Hcomp & Hdb3); [simpl; by rewrite He | done | simpl; by rewrite Pi | done | done | done | done
    | simpl; rewrite Pi; by eexists |].
  rewrite (bind_Ok _ _ _ _ _ Hcomp). exists s3. split; [done|]. split.
  - apply complete_inv in Hcomp as (row' & _ & _ & _ & Hrow'); [|simpl; by rewrite Hp].
    simpl in Hrow'. rewrite Pi, Hkey in Hrow'. by destruct Hrow' as (_ & ? & _).
  - rewrite Hdb3. intros t. apply Hb1.
Qed.

Section refunds.
  Context {DT : DatetimeText}.

(** The response is a value of its JSONB column. *)
Lemma refund_response_jsonb rid i n t : jsonb (model_dump (refund_response rid i n t)) = true.
Proof.
  pose proof (isoformat_no_nul t) as Ht. cbn [model_dump RefundResponse_model].
  unfold refund_response_dump, refund_response.
  cbn [rr_id rr_paymentId rr_amount rr_status rr_createdAt]. solve_jsonb.
Qed.

(** A refund the engine can take on: a new key, a known payment, ids that are new. *)
Record refund_setup (env : Env) (k : string) (i : uuid) (p0 : Payment) (db : DB) : Prop := {
  rs_ledger : ledger_ready env db;
  rs_books : books_balanced db;
  rs_key : idempotency_keys db !! (refund_merchant, k) = None;
  rs_key_fits : varchar 255 k = true;
  rs_row : payments db !! i = Some p0;
  rs_row_fits : first_violation (payment_row_checks p0 db) = None;
  rs_version : p_version p0 + 1 <= int64_max;
  rs_refunded : 0 <= p_refunded_amount p0;
  rs_fresh : forall n, refunds db !! uuid4_at env n = None;
}.

Lemma refund_ops_exec i p0 db n rid t1 t2 :
  schema_ok db -> payments db !! i = Some p0 ->
  first_violation (payment_row_checks p0 db) = None -> p_version p0 + 1 <= int64_max ->
  0 <= p_refunded_amount p0 -> refund_allowed p0 n -> 0 < n -> refunds db !! rid = None ->
  exec_ops (refund_ops p0 rid n t1 t2) db = Ok (write_ops (refund_ops p0 rid n t1 t2) db).
Proof.
  intros Hso Hrow Hfit Hver Href [_ Hle] Hn Hrid.
  destruct (so_payment _ Hso _ _ Hrow) as [Hid _].
  apply first_violation_None in Hfit. unfold payment_row_checks in Hfit.
  rewrite !Forall_cons in Hfit. simpl in Hfit. destruct Hfit as (H1 & H2 & H3 & H4 & _).
  rewrite !andb_true_iff, !int64_ok_spec in H1. destruct H1 as [[H1a H1b] H1c].
  assert (Hmin : int64_min < 0) by done.
  assert (Hi1 : int64_ok n = true) by (apply int64_ok_spec; lia).
  assert (Hi2 : int64_ok (p_refunded_amount p0 + n) = true) by (apply int64_ok_spec; lia).
  assert (Hi3 : int64_ok (p_version p0 + 1) = true) by (apply int64_ok_spec; lia).
  assert (Hi4 : int64_ok (p_amount p0) = true) by (apply int64_ok_spec; lia).
  set (r := refund_row rid (p_id p0) n t1). set (db1 := op_write (InsertRefund r) db).
  assert (He1 : exec_op (InsertRefund r) db = Ok db1).
  { unfold exec_op, op_check. simpl.
    by rewrite Hi1, (proj2 (Z.ltb_lt _ _) Hn), Hrid, Hid, Hrow. }
  assert (He2 : exec_op (UpdatePayment (apply_refund p0 n t2)) db1 =
                Ok (op_write (UpdatePayment (apply_refund p0 n t2)) db1)).
  { unfold exec_op, op_check, op_checks, payment_row_checks. simpl.
    by rewrite Hi2, Hi3, Hi4, H2, H3, H4, Hid, Hrow. }
  unfold refund_ops. fold r. by rewrite (exec_ops_cons _ _ _ _ He1), (exec_ops_cons _ _ _ _ He2).
Qed.

(** The steps of a claimed refund before its posting. *)
Lemma refund_claimed_posting k i n p0 s :
  reliable (s_env s) -> schema_ok (s_db s) -> s_pending s = [] ->
  payments (s_db s) !! i = Some p0 -> refund_allowed p0 n ->
  exists rid t1 t2 s4,
    rid = uuid4_at (s_env s) (S (s_tick s)) /\ s_db s4 = s_db s /\ s_env s4 = s_env s /\
    s_pending s4 = refund_ops p0 rid n t1 t2 /\
    refund_claimed k i n s =
      (post TxnREFUND rid (refund_postings p0 n);;
       add_outbox "refund" rid "refund.completed" (es_payload (refund_event rid i n));;
       complete refund_merchant k rid 201 (model_dump (refund_response rid i n t1));;
       mret (201, refund_response rid i n t1)) s4.
Proof.
  intros Hr Hso Hp Hrow [Hst Hle]. destruct (so_payment _ Hso _ _ Hrow) as [<- _].
  set (s2 := with_locks [LockPayment (p_id p0)] (tick s)).
  assert (Hsel : select_payment_for_update (p_id p0) s = Ok (Some p0, s2))
    by (rewrite select_payment_reliable by done; by rewrite Hrow).
  set (rid := uuid4_at (s_env s2) (s_tick s2)). set (t1 := now_at (s_env (tick s2)) (s_tick (tick s2))).
  set (s3 := with_pending [InsertRefund (mkRefund rid (p_id p0) n RefundSUCCEEDED t1)] (tick (tick s2))).
  set (t2 := now_at (s_env s3) (s_tick s3)).
  set (s4 := with_pending [UpdatePayment (apply_refund p0 n t2)] (tick s3)).
  exists rid, t1, t2, s4. split; [done|]. split; [done|]. split; [done|].
  split; [simpl; by rewrite Hp|].
  unfold refund_claimed. rewrite (bind_Ok _ _ _ _ _ Hsel), Hst. cbn [negb].
  destruct (Z.ltb_spec (p_amount p0) (p_refunded_amount p0 + n)); [lia|].
  rewrite (bind_Ok _ _ _ _ _ (uuid4_eq s2)), (bind_Ok _ _ _ _ _ (now_eq (tick s2))). cbv zeta.
  rewrite (bind_Ok _ _ _ _ _ (session_add_eq _ _)), (bind_Ok _ _ _ _ _ (now_eq _)). cbv zeta.
  rewrite (bind_Ok _ _ _ _ _ (session_add_eq _ _)).
  done.
Qed.

Lemma refund_progress env lock k i n p0 db :
  refund_setup env k i p0 db -> refund_allowed p0 n -> 0 < n <= balance_of db (p_payee_account p0) ->
  exists r db', in_transaction env (refund lock k i n) db = (Ok r, db').
Proof.
  intros [Hlr Hb Hk Hkf Hrow Hfit Hver Href Hf] Hal Hn.
  pose proof (lr_reliable _ _ _ _ Hlr) as Hr. pose proof (lr_schema _ _ _ _ Hlr) as Hso.
  destruct (claim_or_replay_new lock refund_merchant k (refund_payload i n) (begin_session env db))
    as (t0 & s1 & Hclaim & [He1 Hp1 _ _] & Hdb1); [done..|]. simpl in He1, Hdb1.
  pose proof (schema_ok_flushes _ _ _ _ Hclaim Hso) as Hso1.
  set (crow := claim_row refund_merchant k (refund_payload i n) t0) in *.
  destruct (so_payment _ Hso _ _ Hrow) as (Hid & _ & _ & Hpayer & Hpayee).
  destruct (refund_claimed_posting k i n p0 s1) as (rid & t1 & t2 & s4 & Hrid & Hdb4 & He4 & Hp4 & Heq);
    [by rewrite He1 | done | done | by rewrite Hdb1 | done |].
  assert (Hlr1 : ledger_ready env (s_db s1)).
  { destruct Hlr as [_ _ Ht Hv Hs Hfr]. rewrite Hdb1 in *. by constructor. }
  assert (Hex : exec_ops (refund_ops p0 rid n t1 t2) (s_db s1) =
                Ok (write_ops (refund_ops p0 rid n t1 t2) (s_db s1))).
  { apply (refund_ops_exec i); try done; try lia; rewrite Hdb1; try done.
    simpl. rewrite Hrid, He1. apply Hf. }
  pose proof (schema_ok_exec_ops _ _ _ Hex Hso1) as Hso0.
  assert (Hlr0 : ledger_ready env (write_ops (refund_ops p0 rid n t1 t2) (s_db s1)))
    by (eapply ledger_ready_frame; [exact Hlr1|by apply payment_ops_frame|done]).
  destruct (phase_complete_progress TxnREFUND rid (p_payee_account p0) (p_payer_account p0) n
    "refund" rid "refund.completed" (es_payload (refund_event rid i n)) refund_merchant k rid
    (model_dump (refund_response rid i n t1)) (201, refund_response rid i n t1) s4
    (write_ops (refund_ops p0 rid n t1 t2) (s_db s1)) crow) as (s5 & Hrun & Hp5 & Hb5).
  - by rewrite Hdb4.
  - by rewrite Hp4.
  - by rewrite Hp4, Hdb4.
  - by rewrite He4, He1.
  - rewrite Hdb1. exact Hb.
  - rewrite Hdb1. exact Hn.
  - rewrite Hdb1. exact Hpayee.
  - rewrite Hdb1. exact Hpayer.
  - cbn [refund_event es_payload]. solve_jsonb.
  - rewrite Hdb1. simpl. by rewrite lookup_insert_eq.
  - by apply claim_row_fits.
  - apply refund_response_jsonb.
  - eexists _, (s_db s5). apply in_transaction_ok; [apply _| |exact Hp5|exact Hr|exact Hb5].
    unfold refund. rewrite (bind_Ok _ _ _ _ _ Hclaim), Heq. exact Hrun.
Qed.

(** The tables after a refund that was performed. *)
Record refunded (k : string) (i : uuid) (n : Z) (p0 p1 : Payment) (resp : RefundResponse)
    (db db' : DB) : Prop := {
  rf_response : rr_paymentId resp = i /\ rr_amount resp = n /\ rr_status resp = RefundSUCCEEDED;
  rf_payments : payments db' = <[i := p1]> (payments db);
  rf_terms : p_amount p1 = p_amount p0 /\ p_refunded_amount p1 = p_refunded_amount p0 + n /\
    p_status p1 = (if decide (p_refunded_amount p0 + n = p_amount p0) then REFUNDED else p_status p0);
  rf_refunds : refunds db !! rr_id resp = None /\
    refunds db' = <[rr_id resp := refund_row (rr_id resp) i n (rr_createdAt resp)]> (refunds db);
  rf_balance : forall a, balance_of db' a = balance_of db a + delta (refund_postings p0 n) a;
  rf_key : exists row, idempotency_keys db' !! (refund_merchant, k) = Some row /\
    ir_request_hash row = compute_hash (refund_payload i n) /\ ir_status row = COMPLETED /\
    ir_response_code row = Some 201 /\ ir_response_body row = Some (model_dump resp);
}.

Lemma refunded_intro env lock k i n db r db' :
  schema_ok db -> idempotency_keys db !! (refund_merchant, k) = None ->
  in_transaction env (refund lock k i n) db = (Ok r, db') ->
  exists p0 t resp, payments db !! i = Some p0 /\ refund_allowed p0 n /\ r = (201, resp) /\
    refunded k i n p0 (apply_refund p0 n t) resp db db'.
Proof.
  intros Hso Hk Htx. apply refund_committed in Htx; [|done]. rewrite Hk in Htx.
  destruct Htx as (t0 & p0 & rid & t1 & t2 & db1 & db2 & Hop & Hrow & Hal & Hph & -> & Hcomp).
  exists p0, t2, (refund_response rid i n t1). do 3 (split; [done|]).
  apply phase_summarised in Hph as (txn & o & Hs & _); [|done].
  apply exec_op_Ok in Hop as [_ ->].
  destruct (so_payment _ Hso _ _ Hrow) as [Hid _].
  pose proof (sm_payments _ _ _ _ _ _ Hs) as Hpay. cbn in Hpay. rewrite Hid in Hpay.
  pose proof (sm_refunds _ _ _ _ _ _ Hs) as Href. cbn in Href. rewrite Hid in Href.
  pose proof (sm_idem _ _ _ _ _ _ Hs) as Hidem. simpl in Hidem.
  pose proof (sm_exec _ _ _ _ _ _ Hs) as Hex.
  unfold completion in Hcomp. rewrite Hidem, lookup_insert_eq in Hcomp.
  apply exec_op_Ok in Hcomp as [_ ->]. constructor; simpl; try done.
  - split; [done|]. split; [done|].
    destruct (Z.eqb_spec (p_refunded_amount p0 + n) (p_amount p0)); by case_decide.
  - split; [|done]. unfold refund_ops in Hex. simpl in Hex.
    apply result_bind_Ok_inv in Hex as (d & Hop & _). clear -Hop. by split_checks Hop.
  - intros a. apply (sm_balance _ _ _ _ _ _ Hs).
  - eexists. split; [by rewrite lookup_insert_eq|]. done.
Qed.

(** C13: a refund that is allowed and funded is performed.  [refund] answers 201; it records
    one refund of the amount, adds it to the payment's refunded amount, makes the payment
    REFUNDED exactly when that reaches the full amount, moves the money from payee to
    payer, and completes the key with the response it gave. *)
Theorem refund_performed env lock k i n p0 db :
  refund_setup env k i p0 db -> refund_allowed p0 n -> 0 < n <= balance_of db (p_payee_account p0) ->
  exists t resp db', in_transaction env (refund lock k i n) db = (Ok (201, resp), db') /\
    refunded k i n p0 (apply_refund p0 n t) resp db db'.
Proof.
  intros Hset Hal Hn. destruct (refund_progress env lock k i n p0 db Hset Hal Hn) as (r & db' & Htx).
  destruct (refunded_intro _ _ _ _ _ _ _ _ (lr_schema _ _ _ _ (rs_ledger _ _ _ _ _ Hset))
    (rs_key _ _ _ _ _ Hset) Htx) as (p & t & resp & Hp & _ & -> & Hrf).
  rewrite (rs_row _ _ _ _ _ Hset) in Hp. injection Hp as <-. eauto.
Qed.

(** C22: the guards of a refund.  With a new key that fits its column, and a connection that does
    not fail, a refund of an unknown payment, of one
    that is not SUCCEEDED or REFUND_PENDING, or beyond what is left of the amount is
    refused with the error the code names, and the tables are unchanged: the key can be
    used again. *)
Theorem refund_guards env lock k i n db :
  reliable env -> schema_ok db -> idempotency_keys db !! (refund_merchant, k) = None ->
  varchar 255 k = true ->
  match payments db !! i with
  | None =>
      in_transaction env (refund lock k i n) db = (Err (PaymentNotFoundException i), db)
  | Some p0 =>
      if negb (refundable_status (p_status p0)) then
        in_transaction env (refund lock k i n) db =
        (Err (RefundNotAllowedException
           ("Cannot refund payment with status: " +:+ PaymentStatus_value (p_status p0))), db)
      else if p_amount p0 <? p_refunded_amount p0 + n then
        in_transaction env (refund lock k i n) db =
        (Err (RefundNotAllowedException
           ("Refund amount " +:+ pretty n +:+ " exceeds capturable balance (" +:+
            pretty (p_amount p0 - p_refunded_amount p0) +:+ ")")), db)
      else True
  end.
Proof.
  intros Hr Hso Hk Hkf.
  destruct (claim_or_replay_new lock refund_merchant k (refund_payload i n) (begin_session env db))
    as (t0 & s1 & Hclaim & [He1 Hp1 _ _] & Hdb1); [done..|]. simpl in He1, Hdb1.
  assert (Hsel : forall e, refund_claimed k i n s1 = Err e ->
            in_transaction env (refund lock k i n) db = (Err e, db)).
  { intros e He. apply in_transaction_raises. unfold refund.
    rewrite (bind_Ok _ _ _ _ _ Hclaim). exact He. }
  pose proof (select_payment_reliable i s1) as Hrow. rewrite He1, Hdb1 in Hrow. simpl in Hrow.
  specialize (Hrow Hr). destruct (payments db !! i) as [p0|].
  - destruct (refundable_status (p_status p0)) eqn:Hst; cbn [negb].
    + destruct (p_amount p0 <? p_refunded_amount p0 + n) eqn:Hlt; [|done].
      apply Hsel. unfold refund_claimed.
      by rewrite (bind_Ok _ _ _ _ _ Hrow), Hst, Hlt.
    + apply Hsel. unfold refund_claimed. by rewrite (bind_Ok _ _ _ _ _ Hrow), Hst.
  - apply Hsel. unfold refund_claimed. by rewrite (bind_Ok _ _ _ _ _ Hrow).
Qed.

(** The id of a performed refund is a draw of its environment. *)
Lemma refund_id_drawn env lock k i n db code resp db' :
  idempotency_keys db !! (refund_merchant, k) = None ->
  in_transaction env (refund lock k i n) db = (Ok (code, resp), db') ->
  exists m, rr_id resp = uuid4_at env m.
Proof.
  intros Hk Htx. apply in_transaction_Ok_inv in Htx as (s' & Hrun & _).
  unfold refund in Hrun. inv_bind_as Hrun claim s1 Hclaim Hk1.
  pose proof (flushes _ _ _ Hclaim) as (_ & He & _).
  apply claim_or_replay_inv in Hclaim as [_ Hrow]; [|done]. simpl in Hrow, He. rewrite Hk in Hrow.
  destruct Hrow as [-> _]. unfold refund_claimed in Hk1. inv_bind_as Hk1 row s2 Hsel Hk2.
  apply select_payment_Ok_inv in Hsel as [-> ->].
  destruct (payments (s_db s1) !! i) as [p0|]; [|done].
  destruct (negb _); [done|]. destruct (_ <? _); [done|].
  inv_bind_as Hk2 rid s3 Hu Hk3. rewrite uuid4_eq in Hu. injection Hu as <- <-.
  repeat (let u := fresh "u" in let s := fresh "s" in let H1 := fresh "H" in let H2 := fresh "H" in
          match goal with H : (_ ≫= _) _ = Ok _ |- _ => inv_bind_as H u s H1 H2; cbv zeta in H2 end).
  repeat match goal with H : mret _ _ = Ok _ |- _ => apply ret_Ok_inv in H as [H _] end.
  simplify_eq. simpl in *. by eexists.
Qed.

(** What an answered refund leaves under its key, whether it was performed or replayed. *)
Definition refund_answer (k : string) (i : uuid) (n : Z) (code : Z) (resp : RefundResponse) (row : IdempotencyRecord)
  : Prop :=
  ir_request_hash row = compute_hash (refund_payload i n) /\ ir_status row = COMPLETED /\
  code_or_200 (ir_response_code row) = code /\ model_validate (body_or_empty (ir_response_body row)) = Some resp.

Lemma refund_answered env lock k i n db code resp db' :
  schema_ok db -> is_uuid i -> (forall m, is_uuid (uuid4_at env m)) ->
  in_transaction env (refund lock k i n) db = (Ok (code, resp), db') ->
  exists row, idempotency_keys db' !! (refund_merchant, k) = Some row /\ refund_answer k i n code resp row.
Proof.
  intros Hso Hi Hu Htx. destruct (idempotency_keys db !! (refund_merchant, k)) as [row|] eqn:Hk.
  - apply refund_committed in Htx; [|done]. rewrite Hk in Htx.
    destruct Htx as (code' & body & resp' & Hv & Hval & [= -> ->] & ->). exists row. split; [done|].
    unfold replay_verdict in Hv. case_decide as Hh; [|done]. unfold refund_answer.
    destruct (ir_status row); [done|]. injection Hv as <- <-. done.
  - pose proof Htx as Hnew. apply refund_id_drawn in Hnew as [m Hm]; [|done].
    destruct (refunded_intro _ _ _ _ _ _ _ _ Hso Hk Htx) as (p & t & resp' & _ & _ & [= -> <-] & Hrf).
    destruct (rf_key _ _ _ _ _ _ _ _ Hrf) as (row & Hrow & Hh & Hst & Hcode & Hbody).
    exists row. split; [done|]. unfold refund_answer. rewrite Hcode, Hbody. repeat (split; [done|]).
    apply (model_round_trip resp). split; [rewrite Hm; apply Hu|].
    by destruct (rf_response _ _ _ _ _ _ _ _ Hrf) as (-> & _).
Qed.

(** The key answers every later request: the same one as before, another one with a mismatch. *)
Lemma refund_asked_again env lock k i n i' n' code resp row db :
  reliable env -> idempotency_keys db !! (refund_merchant, k) = Some row -> refund_answer k i n code resp row ->
  in_transaction env (refund lock k i' n') db =
  (if decide (compute_hash (refund_payload i' n') = compute_hash (refund_payload i n)) then Ok (code, resp)
   else Err (IdempotencyMismatchException k), db).
Proof.
  intros Hr Hrow (Hhash & Hst & Hcode & Hval). unfold in_transaction, refund.
  pose proof (claim_or_replay_found lock refund_merchant k (refund_payload i' n')
    (begin_session env db) row Hr Hrow) as Hc.
  unfold replay_verdict in Hc. rewrite Hhash, Hst in Hc. case_decide as H1; case_decide as H2; try congruence.
  - rewrite (bind_Ok _ _ _ _ _ Hc), Hval, Hcode. unfold mret, stm_ret. by rewrite commit_nothing_pending_ok.
  - unfold mbind, stm_bind. by rewrite Hc.
Qed.

(** A replayed refund.  After a refund was performed, the same payment, amount and key
    get the same answer, and the tables do not change: no money moves twice. *)
Theorem refund_replays env env' lock lock' k i n p0 db :
  refund_setup env k i p0 db -> refund_allowed p0 n -> 0 < n <= balance_of db (p_payee_account p0) ->
  is_uuid i -> (forall m, is_uuid (uuid4_at env m)) -> reliable env' ->
  exists resp db', in_transaction env (refund lock k i n) db = (Ok (201, resp), db') /\
    in_transaction env' (refund lock' k i n) db' = (Ok (201, resp), db').
Proof.
  intros Hset Hal Hn Hi Hu Hr'.
  destruct (refund_progress env lock k i n p0 db Hset Hal Hn) as (r & db' & Htx).
  pose proof (lr_schema _ _ _ _ (rs_ledger _ _ _ _ _ Hset)) as Hso. pose proof Htx as Hans.
  destruct (refunded_intro _ _ _ _ _ _ _ _ Hso (rs_key _ _ _ _ _ Hset) Htx)
    as (p & t & resp & Hp & _ & -> & Hrf).
  apply refund_answered in Hans as (row & Hrow & Hans); [|done..].
  exists resp, db'. split; [exact Htx|].
  rewrite (refund_asked_again env' lock' k i n i n 201 resp row db') by done. by rewrite decide_True.
Qed.

End refunds.

(** ** The theorems on the fixtures *)

#[local] Existing Instance binary_datetime.

Lemma paid_ledger_ready base : ledger_ready (demo_env base) paid_db.
Proof.
  constructor; [done|exact paid_schema_ok| |by apply paid_version_room|by eexists|done].
  rewrite paid_total. unfold int64_max. lia.
Qed.

Lemma paid_refund_setup : refund_setup (demo_env 1000) "refund-1" 9000 paid_payment paid_db.
Proof.
  constructor; try done; first [by apply paid_ledger_ready | vm_compute; discriminate].
Qed.

Lemma refund_performed_witness :
  exists t resp db',
    in_transaction (demo_env 1000) (refund None "refund-1" 9000 30000) paid_db = (Ok (201, resp), db') /\
    refunded "refund-1" 9000 30000 paid_payment (apply_refund paid_payment 30000 t) resp paid_db db'.
Proof.
  apply (refund_performed (demo_env 1000) None "refund-1" 9000 30000 paid_payment paid_db).
  - exact paid_refund_setup.
  - vm_compute. split; [reflexivity|discriminate].
  - vm_compute. split; [reflexivity|discriminate].
Defined.

Lemma refund_guards_witness :
  in_transaction (demo_env 1000) (refund None "refund-1" 9000 30001) paid_db =
    (Err (RefundNotAllowedException "Refund amount 30001 exceeds capturable balance (30000)"), paid_db) /\
  in_transaction (demo_env 1000) (refund None "refund-1" 9001 1) paid_db =
    (Err (RefundNotAllowedException "Cannot refund payment with status: AUTHORIZED"), paid_db) /\
  in_transaction (demo_env 1000) (refund None "refund-1" 9999 1) paid_db =
    (Err (PaymentNotFoundException 9999), paid_db).
Proof.
  split; [|split].
  - exact (refund_guards (demo_env 1000) None "refund-1" 9000 30001 paid_db (demo_reliable _)
      paid_schema_ok eq_refl eq_refl).
  - exact (refund_guards (demo_env 1000) None "refund-1" 9001 1 paid_db (demo_reliable _)
      paid_schema_ok eq_refl eq_refl).
  - exact (refund_guards (demo_env 1000) None "refund-1" 9999 1 paid_db (demo_reliable _)
      paid_schema_ok eq_refl eq_refl).
Defined.

(** An environment whose draws are all UUIDs. *)
Definition uuid_env (base : N) : Env :=
  mkEnv (fun n => ((base + N.of_nat n) mod 2 ^ 128)%N) (fun n => Z.of_nat n) (fun _ => None).

Lemma refund_replays_witness :
  exists resp db',
    in_transaction (uuid_env 1000) (refund None "refund-1" 9000 30000) paid_db = (Ok (201, resp), db') /\
    in_transaction (demo_env 1) (refund None "refund-1" 9000 30000) db' = (Ok (201, resp), db').
Proof.
  apply (refund_replays (uuid_env 1000) (demo_env 1) None None "refund-1" 9000 30000 paid_payment paid_db).
  - destruct paid_refund_setup as [[_ H1 H2 H3 H4 _] H5 H6 H7 H8 H9 H10 H11 _].
    constructor; [constructor|..]; done.
  - vm_compute. split; [reflexivity|discriminate].
  - vm_compute. split; [reflexivity|discriminate].
  - reflexivity.
  - intros m. apply N.mod_lt. discriminate.
  - done.
Defined.
