(* ===== verification/PayloadHash.v ===== *)
(** * PayloadHash: the request hash and the stored responses

    What the idempotency replay rests on: the hash of a payload identifies the request up to
    SHA-256 collisions, and a stored response reads back as it was given.  [unescape] and
    the scanners below are proof devices for the injectivity of [json.dumps]; they model no
    code. *)

From S2P Require Import Prelude PyStd Domain Models Session Ledger Journal Idempotency Saga Schemas Refunds.
From Stdlib Require Import Ascii String.

(** ** Quoted strings delimit themselves *)

Definition hex_pair (a b : ascii) : option ascii :=
  x ← hex_value a; y ← hex_value b; Some (ascii_of_N (16 * x + y)).

(** The first character of an escaped text, and what follows it. *)
Definition unescape (s : string) : option (ascii * string) :=
  match s with
  | String b rest =>
      if Ascii.eqb b "034" then None
      else if negb (Ascii.eqb b "\") then Some (b, rest)
      else match rest with
      | String e rest' =>
          if Ascii.eqb e "n" then Some ("010"%char, rest')
          else if Ascii.eqb e "r" then Some ("013"%char, rest')
          else if Ascii.eqb e "t" then Some ("009"%char, rest')
          else if Ascii.eqb e "f" then Some ("012"%char, rest')
          else if Ascii.eqb e "b" then Some ("008"%char, rest')
          else if negb (Ascii.eqb e "u") then Some (e, rest')
          else match rest' with
          | String _ (String _ (String c (String d rest''))) =>
              x ← hex_pair c d; Some (x, rest'')
          | _ => None
          end
      | EmptyString => None
      end
  | EmptyString => None
  end.

Lemma unescape_escape c t : unescape (Json.escape_char c +:+ t) = Some (c, t).
Proof. destruct c as [[] [] [] [] [] [] [] []]; reflexivity. Qed.

Lemma unescape_quote t : unescape (Json.quote_ +:+ t) = None.
Proof. reflexivity. Qed.

Lemma escaped_inj s s' t t' :
  Json.escape s +:+ Json.quote_ +:+ t = Json.escape s' +:+ Json.quote_ +:+ t' -> s = s' /\ t = t'.
Proof.
  revert s'. induction s as [|c s IH]; intros [|c' s'] Heq; cbn [Json.escape] in Heq;
    rewrite ?str_app_assoc in Heq.
  - split; [done|]. by injection Heq.
  - apply (f_equal unescape) in Heq. change (EmptyString +:+ ?x) with x in Heq.
    rewrite unescape_quote, unescape_escape in Heq. done.
  - apply (f_equal unescape) in Heq. change (EmptyString +:+ ?x) with x in Heq.
    rewrite unescape_quote, unescape_escape in Heq. done.
  - apply (f_equal unescape) in Heq. rewrite !unescape_escape in Heq. injection Heq as -> Heq.
    apply IH in Heq as [-> ->]. done.
Qed.

Lemma quoted_inj s s' t t' :
  Json.quoted s +:+ t = Json.quoted s' +:+ t' -> s = s' /\ t = t'.
Proof.
  unfold Json.quoted. rewrite !str_app_assoc. intros Heq. injection Heq as Heq. by apply escaped_inj.
Qed.

(** ** Numbers end at the next separator *)

Fixpoint str_all (P : ascii -> bool) (s : string) : bool :=
  match s with EmptyString => true | String c s' => P c && str_all P s' end.

Definition numeral (c : ascii) : bool := negb (Ascii.eqb c "," || Ascii.eqb c "}").

Lemma pretty_N_go_numeral x s :
  str_all numeral s = true -> str_all numeral (pretty_N_go x s) = true.
Proof.
  revert s. induction (N.lt_wf_0 x) as [x _ IH]. intros s Hs.
  destruct (decide (x = 0)%N) as [->|Hx]; [by rewrite pretty_N_go_0|].
  rewrite pretty_N_go_step by lia. apply IH; [apply N.div_lt; lia|].
  cbn [str_all]. rewrite Hs, andb_true_r. unfold pretty_N_char. by repeat case_match.
Qed.

Lemma pretty_numeral (z : Z) : str_all numeral (pretty z) = true.
Proof.
  assert (Hp : forall p, str_all numeral (pretty (Npos p)) = true)
    by (intros p; unfold pretty, pretty_N; rewrite decide_False by done; by apply pretty_N_go_numeral).
  destruct z as [|p|p]; [done|apply Hp|]. change (str_all numeral (String "-" (pretty (Npos p))) = true).
  cbn [str_all]. by rewrite Hp.
Qed.

Lemma numeral_cancel s s' c t t' :
  str_all numeral s = true -> str_all numeral s' = true -> numeral c = false ->
  s +:+ String c t = s' +:+ String c t' -> s = s' /\ t = t'.
Proof.
  intros Hs Hs' Hc. revert s' Hs'. induction s as [|b s IH]; intros [|b' s'] Hs' Heq; cbn in *.
  - by injection Heq as ->.
  - injection Heq as -> _. apply andb_true_iff in Hs' as [? _]. congruence.
  - injection Heq as -> _. apply andb_true_iff in Hs as [? _]. congruence.
  - injection Heq as -> Heq. apply andb_true_iff in Hs as [_ Hs], Hs' as [_ Hs'].
    destruct (IH Hs s' Hs' Heq) as [-> ->]. done.
Qed.

Lemma number_cancel (z z' : Z) c t t' :
  numeral c = false -> pretty z +:+ String c t = pretty z' +:+ String c t' -> z = z' /\ t = t'.
Proof.
  intros Hc Heq. apply numeral_cancel in Heq as [Heq ->]; [|apply pretty_numeral..|done].
  by apply (inj pretty) in Heq as ->.
Qed.

(** ** UTF-8 is injective *)

Definition utf8_head (bs : list N) : option (ascii * list N) :=
  match bs with
  | [] => None
  | b :: bs' =>
      if (b <? 128)%N then Some (ascii_of_N b, bs')
      else match bs' with
      | [] => None
      | b' :: bs'' => Some (ascii_of_N (64 * (b mod 64) + b' mod 64), bs'')
      end
  end.

Lemma utf8_head_cons c s : utf8_head (utf8 (String c s)) = Some (c, utf8 s).
Proof. destruct c as [[] [] [] [] [] [] [] []]; reflexivity. Qed.

Lemma utf8_inj s s' : utf8 s = utf8 s' -> s = s'.
Proof.
  revert s'. induction s as [|c s IH]; intros [|c' s'] Heq; apply (f_equal utf8_head) in Heq;
    rewrite ?utf8_head_cons in Heq; try done.
  injection Heq as -> Heq. by rewrite (IH s' Heq).
Qed.

(** ** The texts that are hashed *)

Lemma str_app_cancel (p s t : string) : p +:+ s = p +:+ t -> s = t.
Proof. induction p as [|c p IH]; [done|]. intros Heq. injection Heq as Heq. by apply IH. Qed.

Lemma str_field_cancel k v v' t t' :
  Json.quoted k +:+ ": " +:+ Json.quoted v +:+ t = Json.quoted k +:+ ": " +:+ Json.quoted v' +:+ t' ->
  v = v' /\ t = t'.
Proof. intros Heq. do 2 apply str_app_cancel in Heq. by apply quoted_inj. Qed.

Lemma int_field_cancel k (z z' : Z) c t t' :
  numeral c = false ->
  Json.quoted k +:+ ": " +:+ pretty z +:+ String c t =
  Json.quoted k +:+ ": " +:+ pretty z' +:+ String c t' -> z = z' /\ t = t'.
Proof. intros Hc Heq. do 2 apply str_app_cancel in Heq. by apply (number_cancel _ _ c). Qed.

Lemma request_text r :
  Json.dumps (JObj (request_dump r)) =
  "{" +:+ Json.quoted "amount" +:+ ": " +:+ pretty (cq_amount r) +:+
  ", " +:+ Json.quoted "currency" +:+ ": " +:+ Json.quoted (cq_currency r) +:+
  ", " +:+ Json.quoted "merchantId" +:+ ": " +:+ Json.quoted (cq_merchantId r) +:+
  ", " +:+ Json.quoted "payeeAccountId" +:+ ": " +:+ Json.quoted (uuid_str (cq_payeeAccountId r)) +:+
  ", " +:+ Json.quoted "payerAccountId" +:+ ": " +:+ Json.quoted (uuid_str (cq_payerAccountId r)) +:+
  "}".
Proof.
  transitivity ("{" +:+ Json.join ", "
    (map (fun kv => Json.quoted kv.1 +:+ ": " +:+ kv.2)
      [("amount", pretty (cq_amount r)); ("currency", Json.quoted (cq_currency r));
       ("merchantId", Json.quoted (cq_merchantId r));
       ("payeeAccountId", Json.quoted (uuid_str (cq_payeeAccountId r)));
       ("payerAccountId", Json.quoted (uuid_str (cq_payerAccountId r)))]) +:+ "}").
  { reflexivity. }
  cbn [map Json.join fst snd]. by rewrite !str_app_assoc.
Qed.

Lemma refund_text payment_id amount :
  Json.dumps (JObj (refund_payload payment_id amount)) =
  "{" +:+ Json.quoted "amount" +:+ ": " +:+ pretty amount +:+
  ", " +:+ Json.quoted "payment_id" +:+ ": " +:+ Json.quoted (uuid_str payment_id) +:+ "}".
Proof.
  transitivity ("{" +:+ Json.join ", "
    (map (fun kv => Json.quoted kv.1 +:+ ": " +:+ kv.2)
      [("amount", pretty amount); ("payment_id", Json.quoted (uuid_str payment_id))]) +:+ "}").
  { reflexivity. }
  cbn [map Json.join fst snd]. by rewrite !str_app_assoc.
Qed.

(** The account ids a request carries are 128-bit. *)
Definition request_ids (r : CreatePaymentRequest) : Prop :=
  is_uuid (cq_payerAccountId r) /\ is_uuid (cq_payeeAccountId r).

Lemma request_text_inj r r' :
  request_ids r -> request_ids r' ->
  Json.dumps (JObj (request_dump r)) = Json.dumps (JObj (request_dump r')) -> r = r'.
Proof.
  intros [H1 H2] [H1' H2']. rewrite !request_text. intros Heq. apply (str_app_cancel "{") in Heq.
  apply (int_field_cancel "amount" _ _ ",") in Heq as [Ha Heq]; [|done].
  apply (str_app_cancel " ") in Heq.
  apply (str_field_cancel "currency") in Heq as [Hc Heq]. apply (str_app_cancel ", ") in Heq.
  apply (str_field_cancel "merchantId") in Heq as [Hm Heq]. apply (str_app_cancel ", ") in Heq.
  apply (str_field_cancel "payeeAccountId") in Heq as [Hp Heq]. apply (str_app_cancel ", ") in Heq.
  apply (str_field_cancel "payerAccountId") in Heq as [Hq _].
  apply uuid_str_inj in Hp, Hq; [|done..]. destruct r, r'. cbn in *. by subst.
Qed.

Lemma refund_text_inj p a p' a' :
  is_uuid p -> is_uuid p' ->
  Json.dumps (JObj (refund_payload p a)) = Json.dumps (JObj (refund_payload p' a')) ->
  p = p' /\ a = a'.
Proof.
  intros H1 H2. rewrite !refund_text. intros Heq. apply (str_app_cancel "{") in Heq.
  apply (int_field_cancel "amount" _ _ ",") in Heq as [-> Heq]; [|done].
  apply (str_app_cancel " ") in Heq. apply (str_field_cancel "payment_id") in Heq as [Hp _].
  by apply uuid_str_inj in Hp.
Qed.

(** Two different byte sequences with one SHA-256 digest. *)
Definition collision (bs bs' : list N) : Prop := bs <> bs' /\ sha256_hex bs = sha256_hex bs'.

Lemma compute_hash_inj payload payload' :
  compute_hash payload = compute_hash payload' ->
  Json.dumps (JObj payload) = Json.dumps (JObj payload') \/
  collision (utf8 (Json.dumps (JObj payload))) (utf8 (Json.dumps (JObj payload'))).
Proof.
  intros Heq. destruct (decide (Json.dumps (JObj payload) = Json.dumps (JObj payload'))) as [|Hne];
    [by left|]. right. split; [|exact Heq]. intros Hu. by apply Hne, utf8_inj.
Qed.

(** * Properties *)

(** C25: The request hash identifies the request.  Two create requests, or two refund
    requests, with the same [compute_hash] are the same request, unless the texts hashed
    are an explicit SHA-256 collision: the JSON text with sorted keys is injective on the
    payloads the services hash. *)
Theorem payload_hash_identifies_request :
  (forall r r', request_ids r -> request_ids r' ->
     compute_hash (request_dump r) = compute_hash (request_dump r') ->
     r = r' \/ collision (utf8 (Json.dumps (JObj (request_dump r))))
                         (utf8 (Json.dumps (JObj (request_dump r'))))) /\
  (forall p a p' a', is_uuid p -> is_uuid p' ->
     compute_hash (refund_payload p a) = compute_hash (refund_payload p' a') ->
     (p = p' /\ a = a') \/ collision (utf8 (Json.dumps (JObj (refund_payload p a))))
                                     (utf8 (Json.dumps (JObj (refund_payload p' a'))))).
Proof.
  split.
  - intros r r' Hr Hr' Heq. apply compute_hash_inj in Heq as [Heq|]; [left|by right].
    by apply request_text_inj.
  - intros p a p' a' Hp Hp' Heq. apply compute_hash_inj in Heq as [Heq|]; [left|by right].
    by apply refund_text_inj.
Qed.

(** C26: A stored response reads back as it was given: [model_validate] of the
    [model_dump] of a payment or refund response, which is what [complete] stores and a
    replay returns, is the response, whatever its status and reference. *)
Theorem stored_responses_read_back `{DatetimeText} :
  (forall r : PaymentResponse,
     is_uuid (pr_id r) /\ is_uuid (pr_payerAccountId r) /\ is_uuid (pr_payeeAccountId r) ->
     payment_response_validate (payment_response_dump r) = Some r) /\
  (forall r : RefundResponse,
     is_uuid (rr_id r) /\ is_uuid (rr_paymentId r) ->
     refund_response_validate (refund_response_dump r) = Some r).
Proof. split; intros r Hr; exact (model_round_trip r Hr). Qed.

(** ** Witnesses *)

#[local] Existing Instance binary_datetime.

Definition hashed_request : CreatePaymentRequest := mkCreatePaymentRequest "m1" 10 11 2500 "USD".

Lemma payload_hash_identifies_request_witness :
  hashed_request = hashed_request \/
  collision (utf8 (Json.dumps (JObj (request_dump hashed_request))))
            (utf8 (Json.dumps (JObj (request_dump hashed_request)))).
Proof.
  apply (proj1 payload_hash_identifies_request); [split; reflexivity..|reflexivity].
Defined.

Lemma stored_responses_read_back_witness :
  refund_response_validate (refund_response_dump (mkRefundResponse 20 21 500 RefundSUCCEEDED 77)) =
  Some (mkRefundResponse 20 21 500 RefundSUCCEEDED 77).
Proof. apply (proj2 stored_responses_read_back). split; reflexivity. Defined.
