(* ===== verification/Lifecycle.v ===== *)
(** * Lifecycle: the steps a payment takes, and what every step preserves

    The specification of the payment engine as one step relation on committed states:
    hold, settle, reverse, park, refund, and steps that leave money and payments alone.
    The services are proved to make sequences of these steps, so the invariants of this
    file hold of the whole system. *)

From S2P Require Import Prelude PyStd Domain Models Session Ledger Journal Psp Idempotency Saga Schemas Payments Refunds.
From Stdlib Require Import String.

(** ** Steps *)

(** A payment whose amount sits in the suspense account. *)
Definition is_open (st : PaymentStatus) : bool :=
  match st with PROCESSING | AUTHORIZED => true | _ => false end.

(** Only the idempotency, outbox and webhook tables change. *)
Record quiet_frame (db db' : DB) : Prop := {
  qf_accounts : accounts db' = accounts db;
  qf_balances : account_balances db' = account_balances db;
  qf_txns : ledger_transactions db' = ledger_transactions db;
  qf_entries : ledger_entries db' = ledger_entries db;
  qf_payments : payments db' = payments db;
  qf_refunds : refunds db' = refunds db;
}.

(** Who may end a hold: a parked payment, anyone who locks it; a PROCESSING one, only the
    request [own]ing it. *)
Definition may_close (own : uuid -> Prop) (i : uuid) (st : PaymentStatus) : Prop :=
  match st with AUTHORIZED => True | PROCESSING => own i | _ => False end.

Definition nobody (i : uuid) : Prop := False.

Inductive payment_step (own : uuid -> Prop) (db db' : DB) : Prop :=
| step_quiet : quiet_frame db db' -> rtc exec_step db db' -> payment_step own db db'
| step_hold i rq t :
    phase [InsertPayment (held_payment i rq t)] TxnPAYMENT i (hold_postings (held_payment i rq t))
      (hold_event (held_payment i rq t)) db db' ->
    payment_step own db db'
| step_settle i p0 r t :
    payments db !! i = Some p0 -> may_close own i (p_status p0) ->
    phase [UpdatePayment (settled p0 r t)] TxnPAYMENT i (settle_postings p0) (settle_event p0 r)
      db db' ->
    payment_step own db db'
| step_reverse i p0 t :
    payments db !! i = Some p0 -> may_close own i (p_status p0) ->
    phase [UpdatePayment (reversed p0 t)] TxnREVERSAL i (reverse_postings p0) (reverse_event p0)
      db db' ->
    payment_step own db db'
| step_park i p0 r t :
    payments db !! i = Some p0 -> p_status p0 = PROCESSING -> own i ->
    exec_op (UpdatePayment (parked p0 r t)) db = Ok db' ->
    payment_step own db db'
| step_refund i p0 rid n t1 t2 :
    payments db !! i = Some p0 -> refund_allowed p0 n ->
    phase (refund_ops p0 rid n t1 t2) TxnREFUND rid (refund_postings p0 n) (refund_event rid i n)
      db db' ->
    payment_step own db db'.

(** ** Invariants *)

(** Refunds recorded against a payment. *)
Definition refunds_of (db : DB) (i : uuid) : Z :=
  msum (fun _ r => if decide (r_payment_id r = i) then r_amount r else 0) (refunds db).

(** What a status says about the amounts of its payment. *)
Definition status_shape (p : Payment) : Prop :=
  0 < p_amount p /\
  match p_status p with
  | PROCESSING | AUTHORIZED | FAILED => p_refunded_amount p = 0
  | SUCCEEDED => 0 <= p_refunded_amount p < p_amount p
  | REFUNDED => p_refunded_amount p = p_amount p
  | CREATED | FUNDS_LOCKED | REFUND_PENDING => False
  end.

Definition payments_ok (db : DB) : Prop :=
  forall i p, payments db !! i = Some p ->
    p_id p = i /\ status_shape p /\ p_refunded_amount p = refunds_of db i.

(** No refund row refers to a payment that is not there: [refunds_of] of a new id is 0. *)
Definition open_holds (db : DB) : Z :=
  msum (fun _ p => if is_open (p_status p) then p_amount p else 0) (payments db).

(** A payment between accounts of customers, not the engine's own. *)
Definition external (p : Payment) : Prop :=
  p_payer_account p <> PSP_SUSPENSE_ACCOUNT_ID /\ p_payee_account p <> PSP_SUSPENSE_ACCOUNT_ID.

Definition all_external (db : DB) : Prop :=
  forall i p, payments db !! i = Some p -> external p.

(** The part of the suspense balance that is not the holds of open payments. *)
Definition suspense_surplus (db : DB) : Z :=
  balance_of db PSP_SUSPENSE_ACCOUNT_ID - open_holds db.

Lemma may_close_open own i st : may_close own i st -> is_open st = true.
Proof. by destruct st. Qed.

(** ** Every step is still or a transfer *)

Section steps.
  Context {own : uuid -> Prop}.

Definition still (db db' : DB) : Prop :=
  accounts db' = accounts db /\ account_balances db' = account_balances db /\
  ledger_transactions db' = ledger_transactions db /\ ledger_entries db' = ledger_entries db.

Lemma payment_step_moves db db' :
  payment_step own db db' ->
  still db db' \/ exists ops txn d c n o, phase_summary ops txn (transfer d c n) o db db'.
Proof.
  intros [[] _|i rq t Hph|i p0 r t _ _ Hph|i p0 t _ _ Hph|i p0 r t _ _ _ Hop|i p0 rid n t1 t2 _ _ Hph].
  - left. done.
  - right. apply phase_summarised in Hph as (txn & o & Hs & _); [|done]. unfold hold_postings in Hs. eauto 10.
  - right. apply phase_summarised in Hph as (txn & o & Hs & _); [|done]. unfold settle_postings in Hs. eauto 10.
  - right. apply phase_summarised in Hph as (txn & o & Hs & _); [|done]. unfold reverse_postings in Hs. eauto 10.
  - left. apply exec_op_Ok in Hop as [_ ->]. done.
  - right. apply phase_summarised in Hph as (txn & o & Hs & _); [|done]. unfold refund_postings in Hs. eauto 10.
Qed.

Lemma still_balance db db' a : still db db' -> balance_of db' a = balance_of db a.
Proof. intros (_ & Hb & _). unfold balance_of. by rewrite Hb. Qed.

Lemma step_schema_ok db db' : payment_step own db db' -> schema_ok db -> schema_ok db'.
Proof.
  intros Hst. apply schema_ok_rtc. destruct Hst as
    [_ Hr|i rq t Hph|i p0 r t _ _ Hph|i p0 t _ _ Hph|i p0 r t _ _ _ Hop|i p0 rid n t1 t2 _ _ Hph];
    [done| | | |by apply rtc_once; eexists|];
    destruct Hph as (txn & o & Hph & _); apply (ph_rtc _ _ _ _ _ _ Hph).
Qed.

Lemma step_conserves db db' : payment_step own db db' -> total_balance db' = total_balance db.
Proof.
  intros [(_ & Hb & _)|(ops & txn & d & c & n & o & Hs)]%payment_step_moves.
  - unfold total_balance. by rewrite Hb.
  - apply (sm_total _ _ _ _ _ _ Hs).
Qed.

Lemma step_books_balanced db db' : payment_step own db db' -> books_balanced db -> books_balanced db'.
Proof.
  intros [(_ & _ & _ & He)|(ops & txn & d & c & n & o & Hs)]%payment_step_moves.
  - unfold books_balanced, txn_net. by rewrite He.
  - apply (sm_books _ _ _ _ _ _ Hs).
Qed.

Lemma steps_books_balanced db db' :
  rtc (payment_step own) db db' -> books_balanced db -> books_balanced db'.
Proof. induction 1; eauto using step_books_balanced. Qed.

Lemma step_journal_grows db db' :
  payment_step own db db' -> exists es, ledger_entries db' = ledger_entries db ++ es.
Proof.
  intros [(_ & _ & _ & He)|(ops & txn & d & c & n & o & Hs)]%payment_step_moves.
  - exists []. by rewrite app_nil_r.
  - destruct (sm_entries _ _ _ _ _ _ Hs) as (es & He & _). by exists es.
Qed.

Lemma step_txns_grow db db' :
  payment_step own db db' -> ledger_transactions db ⊆ ledger_transactions db'.
Proof.
  intros [(_ & _ & Ht & _)|(ops & txn & d & c & n & o & Hs)]%payment_step_moves.
  - by rewrite Ht.
  - rewrite (sm_txns _ _ _ _ _ _ Hs). apply insert_subseteq, (sm_txn_fresh _ _ _ _ _ _ Hs).
Qed.

Lemma step_accounts db db' : payment_step own db db' -> accounts db' = accounts db.
Proof.
  intros [(Ha & _)|(ops & txn & d & c & n & o & Hs)]%payment_step_moves; [done|].
  apply (sm_accounts _ _ _ _ _ _ Hs).
Qed.

(** ** The rows of payments and refunds *)

Lemma transfer_valid_pos d c n : validate_balanced (transfer d c n) = Ok tt -> 0 < n.
Proof. intros (_ & Hpos & _)%validate_balanced_Ok. by apply Forall_cons in Hpos as [Hpos _]. Qed.

Lemma insert_refund_fresh r ops db db' :
  exec_ops (InsertRefund r :: ops) db = Ok db' -> refunds db !! r_id r = None /\ 0 < r_amount r.
Proof.
  simpl. intros H. apply result_bind_Ok_inv in H as (d & Hop & _). by split_checks Hop.
Qed.

(** The rows a step writes, of payments and of refunds. *)
Inductive rows_step (db db' : DB) : Prop :=
| rows_same : payments db' = payments db -> refunds db' = refunds db -> rows_step db db'
| rows_hold i rq t :
    0 < cq_amount rq -> payments db !! i = None ->
    payments db' = <[i := held_payment i rq t]> (payments db) -> refunds db' = refunds db ->
    rows_step db db'
| rows_update i p0 q :
    payments db !! i = Some p0 -> payments db' = <[i := q]> (payments db) ->
    refunds db' = refunds db -> is_open (p_status p0) = true ->
    ((exists r t, q = settled p0 r t) \/ (exists t, q = reversed p0 t) \/
     (p_status p0 = PROCESSING /\ exists r t, q = parked p0 r t)) ->
    rows_step db db'
| rows_refund i p0 rid n t1 t2 :
    payments db !! i = Some p0 -> refund_allowed p0 n -> 0 < n -> refunds db !! rid = None ->
    payments db' = <[i := apply_refund p0 n t2]> (payments db) ->
    refunds db' = <[rid := refund_row rid i n t1]> (refunds db) ->
    rows_step db db'.

Lemma payment_step_rows db db' : schema_ok db -> payment_step own db db' -> rows_step db db'.
Proof.
  intros Hso [[] _|i rq t Hph|i p0 r t Hr Ho Hph|i p0 t Hr Ho Hph|i p0 r t Hr Hst _ Hop
             |i p0 rid n t1 t2 Hr Hal Hph].
  - by apply rows_same.
  - apply phase_summarised in Hph as (txn & o & Hs & _); [|done].
    pose proof (insert_payment_fresh _ _ _ (sm_exec _ _ _ _ _ _ Hs)) as Hf.
    apply (rows_hold _ _ i rq t);
      [apply (transfer_valid_pos _ _ _ (sm_valid _ _ _ _ _ _ Hs)) | done
      | apply (sm_payments _ _ _ _ _ _ Hs) | apply (sm_refunds _ _ _ _ _ _ Hs)].
  - apply phase_summarised in Hph as (txn & o & Hs & _); [|done].
    destruct (so_payment _ Hso _ _ Hr) as [<- _]. eapply rows_update; [exact Hr
      | apply (sm_payments _ _ _ _ _ _ Hs) | apply (sm_refunds _ _ _ _ _ _ Hs)
      | by eapply may_close_open | eauto].
  - apply phase_summarised in Hph as (txn & o & Hs & _); [|done].
    destruct (so_payment _ Hso _ _ Hr) as [<- _]. eapply rows_update; [exact Hr
      | apply (sm_payments _ _ _ _ _ _ Hs) | apply (sm_refunds _ _ _ _ _ _ Hs)
      | by eapply may_close_open | eauto].
  - apply exec_op_Ok in Hop as [_ ->]. destruct (so_payment _ Hso _ _ Hr) as [<- _].
    eapply rows_update; [exact Hr | done | done | by rewrite Hst | eauto 10].
  - apply phase_summarised in Hph as (txn & o & Hs & _); [|done].
    destruct (so_payment _ Hso _ _ Hr) as [<- _].
    destruct (insert_refund_fresh _ _ _ _ (sm_exec _ _ _ _ _ _ Hs)) as [Hf Hn].
    eapply rows_refund; [exact Hr | done | exact Hn | exact Hf
      | apply (sm_payments _ _ _ _ _ _ Hs) | apply (sm_refunds _ _ _ _ _ _ Hs)].
Qed.

Lemma refunds_of_ext db db' i : refunds db' = refunds db -> refunds_of db' i = refunds_of db i.
Proof. unfold refunds_of. by intros ->. Qed.

Lemma refunds_of_absent db i : schema_ok db -> payments db !! i = None -> refunds_of db i = 0.
Proof.
  intros Hso Hi. unfold refunds_of. rewrite (msum_ext _ (fun _ _ => 0)).
  - induction (refunds db) as [|k v m Hk IH] using map_ind; [done|].
    rewrite msum_insert_new by done. lia.
  - intros k v Hk. rewrite decide_False; [done|]. intros <-.
    apply (so_refund _ Hso) in Hk as (_ & _ & [x Hx]). congruence.
Qed.

Lemma apply_refund_shape p n t :
  status_shape p -> refund_allowed p n -> 0 < n -> status_shape (apply_refund p n t).
Proof.
  unfold status_shape, refund_allowed, refundable_status, apply_refund. simpl.
  intros [Hpos Hst] [Hok Hle] Hn. split; [done|].
  destruct (Z.eqb_spec (p_refunded_amount p + n) (p_amount p)); [done|].
  destruct (p_status p); simpl in *; try done. lia.
Qed.

Lemma rows_step_payments_ok db db' :
  schema_ok db -> rows_step db db' -> payments_ok db -> payments_ok db'.
Proof.
  intros Hso Hrows Hok j p Hp. destruct Hrows as
    [Hpay Href|i rq t Hn Hnone Hpay Href|i p0 q Hi Hpay Href Ho Hq|i p0 rid n t1 t2 Hi Hal Hn Hf Hpay Href];
    rewrite Hpay in Hp.
  - destruct (Hok _ _ Hp) as (H1 & H2 & H3). by rewrite (refunds_of_ext _ _ _ Href).
  - rewrite (refunds_of_ext _ _ _ Href). rewrite lookup_insert in Hp. case_decide; [|by apply Hok].
    simplify_eq. split; [done|]. split; [by split|]. simpl. symmetry. by apply refunds_of_absent.
  - rewrite (refunds_of_ext _ _ _ Href). rewrite lookup_insert in Hp. case_decide; [|by apply Hok].
    simplify_eq. destruct (Hok _ _ Hi) as (Hid & [Hpos Hsh] & Hsum).
    assert (Hz : p_refunded_amount p0 = 0) by (destruct (p_status p0); done).
    destruct Hq as [(r & t & ->)|[(t & ->)|(_ & r & t & ->)]]; unfold status_shape; simpl;
      (split; [done|]; split; [|done]); split; lia.
  - unfold refunds_of. rewrite Href, msum_insert, Hf. simpl.
    rewrite lookup_insert in Hp. case_decide as Hij.
    + simplify_eq. destruct (Hok _ _ Hi) as (Hid & Hsh & Hsum). split; [done|].
      split; [by apply apply_refund_shape|]. simpl.
      unfold refunds_of in Hsum. lia.
    + destruct (Hok _ _ Hp) as (H1 & H2 & H3).
      unfold refunds_of in H3. split; [done|]. split; [done|]. lia.
Qed.

Lemma step_payments_ok db db' :
  schema_ok db -> payment_step own db db' -> payments_ok db -> payments_ok db'.
Proof. intros Hso Hst. by apply rows_step_payments_ok, payment_step_rows. Qed.

(** ** The status machine *)

Inductive status_edge : PaymentStatus -> PaymentStatus -> Prop :=
| edge_park : status_edge PROCESSING AUTHORIZED
| edge_capture : status_edge PROCESSING SUCCEEDED
| edge_decline : status_edge PROCESSING FAILED
| edge_settle : status_edge AUTHORIZED SUCCEEDED
| edge_release : status_edge AUTHORIZED FAILED
| edge_refund_all : status_edge SUCCEEDED REFUNDED.

(** What never changes in a payment. *)
Definition same_terms (p q : Payment) : Prop :=
  p_id q = p_id p /\ p_merchant_id q = p_merchant_id p /\ p_payer_account q = p_payer_account p /\
  p_payee_account q = p_payee_account p /\ p_amount q = p_amount p /\
  p_currency q = p_currency p /\ p_created_at q = p_created_at p.

Record evolves (p q : Payment) : Prop := {
  ev_terms : same_terms p q;
  ev_status : rtc status_edge (p_status p) (p_status q);
  ev_refunded : p_refunded_amount p <= p_refunded_amount q;
}.

#[global] Instance evolves_preorder : PreOrder evolves.
Proof.
  split.
  - intros p. constructor; [by repeat split | done | done].
  - intros p q r [(A1&A2&A3&A4&A5&A6&A7) As Ar] [(B1&B2&B3&B4&B5&B6&B7) Bs Br].
    constructor; [repeat split; congruence | by etrans | lia].
Qed.

Lemma update_evolves p0 q :
  is_open (p_status p0) = true ->
  ((exists r t, q = settled p0 r t) \/ (exists t, q = reversed p0 t) \/
   (p_status p0 = PROCESSING /\ exists r t, q = parked p0 r t)) ->
  evolves p0 q.
Proof.
  intros Ho Hq. destruct Hq as [(r & t & ->)|[(t & ->)|(Hst & r & t & ->)]];
    (constructor; simpl; [by repeat split | | done]); destruct (p_status p0); try done;
    apply rtc_once; constructor.
Qed.

Lemma refund_evolves p0 n t :
  status_shape p0 -> refund_allowed p0 n -> 0 < n -> evolves p0 (apply_refund p0 n t).
Proof.
  intros [_ Hsh] [Hst _] Hn. unfold apply_refund, refundable_status in *.
  constructor; simpl; [by repeat split | | lia].
  destruct (Z.eqb_spec (p_refunded_amount p0 + n) (p_amount p0)); [|done].
  destruct (p_status p0); try done. apply rtc_once, edge_refund_all.
Qed.

(** No payment disappears; each evolves along the machine. *)
Lemma step_evolves db db' i p :
  schema_ok db -> payments_ok db -> payment_step own db db' -> payments db !! i = Some p ->
  exists q, payments db' !! i = Some q /\ evolves p q.
Proof.
  intros Hso Hok Hst%payment_step_rows Hp; [|done]. destruct Hst as
    [Hpay _|j rq t _ Hnone Hpay _|j p0 q Hj Hpay _ Ho Hq|j p0 rid n t1 t2 Hj Hal Hn _ Hpay _];
    rewrite Hpay.
  - by exists p.
  - exists p. split; [|done]. rewrite lookup_insert_ne; [done|congruence].
  - rewrite lookup_insert. case_decide; [|by exists p]. simplify_eq.
    exists q. split; [done|]. by apply update_evolves.
  - rewrite lookup_insert. case_decide; [|by exists p]. simplify_eq.
    eexists. split; [done|]. apply refund_evolves; [by apply (Hok _ _ Hj)|done..].
Qed.

(** ** The suspense account *)

Lemma all_external_before db db' :
  schema_ok db -> payments_ok db -> payment_step own db db' -> all_external db' -> all_external db.
Proof.
  intros Hso Hok Hst Hext i p Hp.
  destruct (step_evolves _ _ _ _ Hso Hok Hst Hp) as (q & Hq & [(_ & _ & Hpayer & Hpayee & _) _ _]).
  apply Hext in Hq. unfold external in *. congruence.
Qed.

Lemma open_holds_update db db' i p q :
  payments db !! i = Some p -> payments db' = <[i := q]> (payments db) ->
  open_holds db' = open_holds db + (if is_open (p_status q) then p_amount q else 0)
                   - (if is_open (p_status p) then p_amount p else 0).
Proof. intros Hp Hpay. unfold open_holds. by rewrite Hpay, msum_insert, Hp. Qed.

Lemma open_holds_insert db db' i q :
  payments db !! i = None -> payments db' = <[i := q]> (payments db) ->
  open_holds db' = open_holds db + (if is_open (p_status q) then p_amount q else 0).
Proof. intros Hp Hpay. unfold open_holds. rewrite Hpay, msum_insert, Hp. simpl. lia. Qed.

Lemma summary_suspense ops txn d c n o db db' :
  phase_summary ops txn (transfer d c n) o db db' ->
  balance_of db' PSP_SUSPENSE_ACCOUNT_ID =
  balance_of db PSP_SUSPENSE_ACCOUNT_ID
  + (if decide (PSP_SUSPENSE_ACCOUNT_ID = c) then n else 0)
  - (if decide (PSP_SUSPENSE_ACCOUNT_ID = d) then n else 0).
Proof. intros Hs. rewrite (sm_balance _ _ _ _ _ _ Hs), transfer_delta. lia. Qed.

Lemma step_suspense db db' :
  schema_ok db -> payment_step own db db' -> all_external db' ->
  suspense_surplus db' = suspense_surplus db.
Proof.
  intros Hso Hst Hext. unfold suspense_surplus. destruct Hst as
    [[] _|i rq t Hph|i p0 r t Hr Ho Hph|i p0 t Hr Ho Hph|i p0 r t Hr Hst _ Hop|i p0 rid n t1 t2 Hr Hal Hph].
  - unfold open_holds, balance_of. congruence.
  - apply phase_summarised in Hph as (txn & o & Hs & _); [|done].
    pose proof (insert_payment_fresh _ _ _ (sm_exec _ _ _ _ _ _ Hs)) as Hf.
    pose proof (sm_payments _ _ _ _ _ _ Hs) as Hpay. cbn in Hpay.
    rewrite (open_holds_insert _ _ _ _ Hf Hpay), (summary_suspense _ _ _ _ _ _ _ _ Hs).
    destruct (Hext i (held_payment i rq t)) as [Hx _]; [by rewrite Hpay, lookup_insert_eq|].
    rewrite decide_True by done. rewrite decide_False by congruence. simpl. lia.
  - apply phase_summarised in Hph as (txn & o & Hs & _); [|done].
    destruct (so_payment _ Hso _ _ Hr) as [<- _].
    pose proof (sm_payments _ _ _ _ _ _ Hs) as Hpay. cbn in Hpay.
    rewrite (open_holds_update _ _ _ _ _ Hr Hpay), (summary_suspense _ _ _ _ _ _ _ _ Hs),
      (may_close_open _ _ _ Ho).
    destruct (Hext (p_id p0) (settled p0 r t)) as [_ Hx]; [by rewrite Hpay, lookup_insert_eq|].
    simpl in Hx. rewrite decide_False by congruence. simpl. lia.
  - apply phase_summarised in Hph as (txn & o & Hs & _); [|done].
    destruct (so_payment _ Hso _ _ Hr) as [<- _].
    pose proof (sm_payments _ _ _ _ _ _ Hs) as Hpay. cbn in Hpay.
    rewrite (open_holds_update _ _ _ _ _ Hr Hpay), (summary_suspense _ _ _ _ _ _ _ _ Hs),
      (may_close_open _ _ _ Ho).
    destruct (Hext (p_id p0) (reversed p0 t)) as [Hx _]; [by rewrite Hpay, lookup_insert_eq|].
    simpl in Hx. rewrite decide_False by congruence. simpl. lia.
  - apply exec_op_Ok in Hop as [_ ->]. destruct (so_payment _ Hso _ _ Hr) as [<- _].
    rewrite (open_holds_update db _ _ p0 (parked p0 r t) Hr) by done. simpl. rewrite Hst. simpl.
    unfold balance_of. simpl. lia.
  - apply phase_summarised in Hph as (txn & o & Hs & _); [|done].
    destruct (so_payment _ Hso _ _ Hr) as [<- _].
    pose proof (sm_payments _ _ _ _ _ _ Hs) as Hpay. cbn in Hpay.
    rewrite (open_holds_update _ _ _ _ _ Hr Hpay), (summary_suspense _ _ _ _ _ _ _ _ Hs).
    destruct (Hext (p_id p0) (apply_refund p0 n t2)) as [Hx1 Hx2];
      [by rewrite Hpay, lookup_insert_eq|].
    simpl in Hx1, Hx2. rewrite !decide_False by congruence.
    destruct Hal as [Hrs _]. unfold refundable_status in Hrs. simpl.
    destruct (p_refunded_amount p0 + n =? p_amount p0), (p_status p0); simpl; lia || done.
Qed.

End steps.

(** ** The payment and refund services make steps *)

(** Statements on the idempotency, outbox and webhook tables. *)
Definition quiet_op (op : DbOp) : bool :=
  match op with
  | InsertIdempotency _ | UpdateIdempotency _ | InsertOutbox _ | UpdateOutbox _
  | InsertWebhookEvent _ => true
  | _ => false
  end.

Lemma exec_quiet_step own op db db' :
  quiet_op op = true -> exec_op op db = Ok db' -> payment_step own db db'.
Proof. intros Hq Hop. apply step_quiet; [|by apply rtc_once; exists op].
  apply exec_op_Ok in Hop as [_ ->]. by destruct op. Qed.

Lemma exec_quiet_steps own ops db db' :
  forallb quiet_op ops = true -> exec_ops ops db = Ok db' -> rtc (payment_step own) db db'.
Proof.
  revert db. induction ops as [|op ops IH]; intros db Hq H; simpl in *; [by simplify_eq|].
  apply andb_true_iff in Hq as [Hop Hq]. apply result_bind_Ok_inv in H as (d & H1 & H2).
  eapply rtc_l; [exact (exec_quiet_step _ _ _ _ Hop H1) | by apply IH].
Qed.

Lemma completion_steps own m k i body db db' : completion m k i body db db' -> rtc (payment_step own) db db'.
Proof.
  unfold completion. destruct (idempotency_keys db !! (m, k)); [|by intros ->].
  intros H. by eapply rtc_once, exec_quiet_step; [|exact H].
Qed.

Section services.
  Context {DT : DatetimeText}.

Lemma create_tx1_steps env lock i k rq db r db' :
  schema_ok db -> in_transaction env (create_tx1 lock i k rq) db = (r, db') ->
  rtc (payment_step nobody) db db'.
Proof.
  intros Hso Htx. destruct r as [r|e]; [|by apply in_transaction_Err in Htx as ->].
  apply create_tx1_committed in Htx; [|done].
  destruct (idempotency_keys db !! (cq_merchantId rq, k)).
  - destruct Htx as (code & body & resp & _ & _ & _ & ->). done.
  - destruct Htx as (t1 & t2 & db1 & _ & Hop & Hph).
    eapply rtc_l; [by eapply exec_quiet_step; [|exact Hop]|].
    eapply rtc_once, step_hold, Hph.
Qed.

Lemma resolution_step i p0 auth t db db1 :
  payments db !! i = Some p0 -> p_status p0 = PROCESSING -> resolution i p0 auth t db db1 ->
  payment_step (eq i) db db1.
Proof.
  intros Hrow Hst. assert (Ho : may_close (eq i) i (p_status p0)) by (by rewrite Hst).
  unfold resolution, resolved. destruct (ar_outcome auth); intros Hres.
  - by eapply step_settle.
  - by eapply step_park.
  - by eapply step_reverse.
Qed.

Lemma create_tx2_steps env i k m auth db r db' p0 :
  schema_ok db -> payments db !! i = Some p0 -> p_status p0 = PROCESSING ->
  in_transaction env (create_tx2 i k m auth) db = (r, db') ->
  rtc (payment_step (eq i)) db db'.
Proof.
  intros Hso Hrow Hst Htx. destruct r as [r|e]; [|by apply in_transaction_Err in Htx as ->].
  apply create_tx2_committed in Htx as (p & t & db1 & Hp & Hres & _ & Hcomp); [|done].
  simplify_eq. eapply rtc_l; [by eapply resolution_step | by eapply completion_steps].
Qed.

Lemma refund_steps env lock k i n db r db' :
  schema_ok db -> in_transaction env (refund lock k i n) db = (r, db') -> rtc (payment_step nobody) db db'.
Proof.
  intros Hso Htx. destruct r as [r|e]; [|by apply in_transaction_Err in Htx as ->].
  apply refund_committed in Htx; [|done].
  destruct (idempotency_keys db !! (refund_merchant, k)).
  - destruct Htx as (code & body & resp & _ & _ & _ & ->). done.
  - destruct Htx as (t0 & p0 & rid & t1 & t2 & db1 & db2 & Hop & Hrow & Hal & Hph & _ & Hcomp).
    eapply rtc_l; [by eapply exec_quiet_step; [|exact Hop]|].
    eapply rtc_l; [|by eapply completion_steps].
    eapply step_refund; [|done|exact Hph]. by apply exec_op_Ok in Hop as [_ ->].
Qed.

End services.
