(* ===== verification/Spec.v ===== *)
(** * Spec: the abstract payment machine

    What the engine promises, without tables: account balances and payments, and the five
    ways they may change.  [step_refines]: every step of the life cycle is a step of this
    machine under the abstraction [abs]; the whole-system file lifts it to runs. *)

From S2P Require Import Prelude PyStd Domain Models Session Ledger Journal Psp Idempotency Saga Schemas Payments Refunds Lifecycle.

Record APayment := mkAPayment {
  ap_payer : uuid;
  ap_payee : uuid;
  ap_amount : Z;
  ap_status : PaymentStatus;
  ap_refunded : Z;
}.

Record AState := mkAState {
  as_balance : uuid -> Z;
  as_payments : gmap uuid APayment;
}.

(** [n] moves from account [d] to account [c], and no account is left negative. *)
Definition moved (d c : uuid) (n : Z) (s s' : AState) : Prop :=
  0 < n /\
  (forall a, as_balance s' a =
     as_balance s a + (if decide (a = c) then n else 0) - (if decide (a = d) then n else 0)) /\
  (forall a, 0 <= as_balance s' a).

Definition with_status (st : PaymentStatus) (q : APayment) : APayment := {| q with ap_status := st |}.

(** The payment after [n] more of it was refunded. *)
Definition with_refund (n : Z) (q : APayment) : APayment :=
  let r := ap_refunded q + n in
  {| q with ap_refunded := r; ap_status := if decide (r = ap_amount q) then REFUNDED else ap_status q |}.

Inductive astep (s s' : AState) : Prop :=
| AStutter :
    (forall a, as_balance s' a = as_balance s a) -> as_payments s' = as_payments s -> astep s s'
| AHold i q :
    as_payments s !! i = None -> ap_status q = PROCESSING -> ap_refunded q = 0 ->
    moved (ap_payer q) PSP_SUSPENSE_ACCOUNT_ID (ap_amount q) s s' ->
    as_payments s' = <[i := q]> (as_payments s) -> astep s s'
| ASettle i q :
    as_payments s !! i = Some q -> is_open (ap_status q) = true ->
    moved PSP_SUSPENSE_ACCOUNT_ID (ap_payee q) (ap_amount q) s s' ->
    as_payments s' = <[i := with_status SUCCEEDED q]> (as_payments s) -> astep s s'
| ARelease i q :
    as_payments s !! i = Some q -> is_open (ap_status q) = true ->
    moved PSP_SUSPENSE_ACCOUNT_ID (ap_payer q) (ap_amount q) s s' ->
    as_payments s' = <[i := with_status FAILED q]> (as_payments s) -> astep s s'
| APark i q :
    as_payments s !! i = Some q -> ap_status q = PROCESSING ->
    (forall a, as_balance s' a = as_balance s a) ->
    as_payments s' = <[i := with_status AUTHORIZED q]> (as_payments s) -> astep s s'
| ARefund i q n :
    as_payments s !! i = Some q -> ap_status q = SUCCEEDED ->
    ap_refunded q + n <= ap_amount q ->
    moved (ap_payee q) (ap_payer q) n s s' ->
    as_payments s' = <[i := with_refund n q]> (as_payments s) -> astep s s'.

(** ** Abstraction *)

Definition abs_payment (p : Payment) : APayment :=
  mkAPayment (p_payer_account p) (p_payee_account p) (p_amount p) (p_status p) (p_refunded_amount p).

Definition abs (db : DB) : AState := mkAState (balance_of db) (abs_payment <$> payments db).

Lemma abs_lookup db i p : payments db !! i = Some p -> as_payments (abs db) !! i = Some (abs_payment p).
Proof. intros Hp. simpl. by rewrite lookup_fmap, Hp. Qed.

Lemma abs_insert db db' i p :
  payments db' = <[i := p]> (payments db) ->
  as_payments (abs db') = <[i := abs_payment p]> (as_payments (abs db)).
Proof. intros Hp. simpl. by rewrite Hp, fmap_insert. Qed.

Lemma summary_moved ops txn d c n o db db' :
  schema_ok db' -> phase_summary ops txn (transfer d c n) o db db' -> moved d c n (abs db) (abs db').
Proof.
  intros Hso Hs. split; [apply (transfer_valid_pos _ _ _ (sm_valid _ _ _ _ _ _ Hs))|]. split.
  - intros a. simpl. rewrite (sm_balance _ _ _ _ _ _ Hs), transfer_delta. lia.
  - intros a. by apply balance_of_nonneg.
Qed.

Lemma abs_refund p n t :
  abs_payment (apply_refund p n t) = with_refund n (abs_payment p).
Proof.
  unfold abs_payment, apply_refund, with_refund. simpl.
  destruct (Z.eqb_spec (p_refunded_amount p + n) (p_amount p)); [by rewrite decide_True|].
  by rewrite decide_False.
Qed.

Lemma step_refines own db db' :
  schema_ok db -> payments_ok db -> payment_step own db db' -> astep (abs db) (abs db').
Proof.
  intros Hso Hok Hst. pose proof (step_schema_ok _ _ Hst Hso) as Hso'. destruct Hst as
    [[Ha Hb _ _ Hp _] _|i rq t Hph|i p0 r t Hr Ho Hph|i p0 t Hr Ho Hph|i p0 r t Hr Hst _ Hop
    |i p0 rid n t1 t2 Hr Hal Hph].
  - apply AStutter; simpl; [intros a; unfold balance_of; by rewrite Hb | by rewrite Hp].
  - apply phase_summarised in Hph as (txn & o & Hs & _); [|done].
    pose proof (insert_payment_fresh _ _ _ (sm_exec _ _ _ _ _ _ Hs)) as Hf. cbn in Hf.
    apply (AHold _ _ i (abs_payment (held_payment i rq t))); try done.
    + simpl. by rewrite lookup_fmap, Hf.
    + by eapply summary_moved.
    + apply abs_insert, (sm_payments _ _ _ _ _ _ Hs).
  - apply phase_summarised in Hph as (txn & o & Hs & _); [|done].
    destruct (so_payment _ Hso _ _ Hr) as [<- _]. apply abs_lookup in Hr.
    eapply ASettle; [exact Hr | by eapply may_close_open | by eapply summary_moved |].
    apply (abs_insert _ _ _ (settled p0 r t)), (sm_payments _ _ _ _ _ _ Hs).
  - apply phase_summarised in Hph as (txn & o & Hs & _); [|done].
    destruct (so_payment _ Hso _ _ Hr) as [<- _]. apply abs_lookup in Hr.
    eapply ARelease; [exact Hr | by eapply may_close_open | by eapply summary_moved |].
    apply (abs_insert _ _ _ (reversed p0 t)), (sm_payments _ _ _ _ _ _ Hs).
  - apply exec_op_Ok in Hop as [_ ->]. destruct (so_payment _ Hso _ _ Hr) as [<- _].
    eapply APark; [by apply abs_lookup | done | done |].
    by apply (abs_insert _ _ _ (parked p0 r t)).
  - apply phase_summarised in Hph as (txn & o & Hs & _); [|done].
    destruct (so_payment _ Hso _ _ Hr) as [<- _].
    pose proof (Hok _ _ Hr) as (_ & [_ Hsh] & _). destruct Hal as [Hrs Hle].
    apply abs_lookup in Hr. eapply (ARefund _ _ _ _ n); [exact Hr | | done | by eapply summary_moved |].
    + simpl. unfold refundable_status in Hrs. by destruct (p_status p0).
    + rewrite <- (abs_refund p0 n t2). apply abs_insert, (sm_payments _ _ _ _ _ _ Hs).
Qed.
