(* ===== verification/Webhooks.v ===== *)
(** * Webhooks: [app/application/webhook_service.py]

    [WebhookService.handle]: signature, JSON payload, deduplication on [psp_event_id], and
    the transition of an AUTHORIZED payment.  The payload is an arbitrary JSON value: the
    Python operations the handler applies to it ([in], [[]], [.get], truth value) are
    modelled with the exceptions they raise.  [json.loads] and the Stripe SDK's
    [construct_event] are parameters. *)

From S2P Require Import Prelude PyStd Domain Models Session Ledger Journal Psp Idempotency Saga Schemas Payments Refunds Lifecycle.
From Stdlib Require Import String.

(** ** Python operations on a parsed payload *)

Fixpoint str_prefix (k s : string) : bool :=
  match k, s with
  | EmptyString, _ => true
  | String a k', String b s' => Ascii.eqb a b && str_prefix k' s'
  | _, _ => false
  end.

(** [k in s] for two strings. *)
Fixpoint substring_of (k s : string) : bool :=
  str_prefix k s || match s with EmptyString => false | String _ s' => substring_of k s' end.

Definition json_is_str (k : string) (v : json) : bool :=
  match v with JStr s => String.eqb k s | _ => false end.

(** [k in v] *)
Definition py_in (k : string) (v : json) : result exn bool :=
  match v with
  | JObj d => Ok (is_present (dict_get k d))
  | JStr s => Ok (substring_of k s)
  | JList l => Ok (existsb (json_is_str k) l)
  | _ => Err TypeError
  end.

(** [v[k]] *)
Definition py_getitem (k : string) (v : json) : result exn json :=
  match v with
  | JObj d => match dict_get k d with Some x => Ok x | None => Err KeyError end
  | _ => Err TypeError
  end.

(** [v.get(k, default)] *)
Definition py_get (k : string) (default v : json) : result exn json :=
  match v with
  | JObj d => Ok (from_option id default (dict_get k d))
  | _ => Err AttributeError
  end.

(** [v in {...}] for a set of strings: lists and dicts are not hashable. *)
Definition py_in_set (v : json) (set : list string) : result exn bool :=
  match v with
  | JList _ | JObj _ => Err TypeError
  | JStr s => Ok (str_in s set)
  | _ => Ok false
  end.

Definition capture_events : list string :=
  ["payment.captured"; "payment_intent.succeeded"; "payment_intent.amount_capturable_updated";
   "charge.captured"].
Definition fail_events : list string :=
  ["payment.failed"; "payment_intent.payment_failed"; "payment_intent.canceled"].

(** ** The event: id, type and provider reference, in the Stripe or the generic form *)

Record Event := mkEvent { ev_id : json; ev_type : json; ev_reference : json }.

(** ["data" in data and "object" in data["data"]] *)
Definition is_stripe_format (data : json) : result exn bool :=
  has_data ← py_in "data" data;
  if (has_data : bool) then (inner ← py_getitem "data" data; py_in "object" inner) else Ok false.

Definition parse_event (fresh : uuid) (data : json) : result exn Event :=
  let default_id := JStr (uuid_str fresh) in
  stripe ← is_stripe_format data;
  if (stripe : bool) then
    event_id ← py_get "id" default_id data;
    event_type ← py_get "type" (JStr "") data;
    inner ← py_getitem "data" data;
    object ← py_getitem "object" inner;
    psp_reference ← py_get "id" (JStr "") object;
    Ok (mkEvent event_id event_type psp_reference)
  else
    alt_id ← py_get "eventId" default_id data;
    event_id ← py_get "pspEventId" alt_id data;
    alt_type ← py_get "eventType" (JStr "") data;
    event_type ← py_get "type" alt_type data;
    psp_reference ← py_get "pspReference" (JStr "") data;
    Ok (mkEvent event_id event_type psp_reference).

(** ** Queries *)

(** [select(WebhookEvent).where(psp_event_id == event_id)]: a parameter that is not text is
    refused by the driver; [None] compares as IS NULL.  Text with the character U+0000, which
    this statement refuses too, finds no row here, and the INSERT that follows is refused with
    the same error. *)
Definition select_webhook_event (event_id : json) : M (option WebhookEvent) :=
  statement;;
  match event_id with
  | JStr s => gets (fun s' => webhook_events (s_db s') !! s)
  | JNull => mret None
  | _ => mthrow (DBAPIError DatatypeMismatch)
  end.

Definition payments_by_reference (db : DB) (psp_reference : string) : list Payment :=
  filter (fun p => p_psp_reference p = Some psp_reference) (map snd (map_to_list (payments db))).

Fixpoint lock_payments (ps : list Payment) : M unit :=
  match ps with
  | [] => mret tt
  | p :: ps' => lock_row (LockPayment (p_id p));; lock_payments ps'
  end.

(** [select(Payment).where(psp_reference == ...).with_for_update()], [scalar_one_or_none];
    PostgreSQL refuses a text parameter with the character U+0000. *)
Definition select_payment_by_reference (psp_reference : json) : M (option Payment) :=
  statement;;
  match psp_reference with
  | JStr r =>
      if no_nul r then
        rows ← gets (fun s => payments_by_reference (s_db s) r);
        lock_payments rows;;
        match rows with
        | [] => mret None
        | [p] => mret (Some p)
        | _ => mthrow MultipleResultsFound
        end
      else mthrow (DBAPIError DataError)
  | _ => mthrow (DBAPIError DatatypeMismatch)
  end.

(** The row of a new event; a NULL key is refused. *)
Definition record_webhook (event_id : json) (raw_body : string) (received_at : Z) : M unit :=
  match event_id with
  | JStr s => session_add (InsertWebhookEvent (mkWebhookEvent s raw_body PROCESSED received_at))
  | _ => mthrow (DBAPIError NotNullViolation)
  end.

(** ** The handler *)

(** Step 5: the transition of the payment the event refers to. *)
Definition apply_event (event_type psp_reference : json) : M unit :=
  if py_truthy psp_reference then
    found ← select_payment_by_reference psp_reference;
    match found with
    | Some payment =>
        if bool_decide (p_status payment = AUTHORIZED) then
          is_capture ← lift (py_in_set event_type capture_events);
          if (is_capture : bool) then
            settle (p_id payment) (match psp_reference with JStr r => r | _ => "" end);; mret tt
          else
            is_fail ← lift (py_in_set event_type fail_events);
            if (is_fail : bool) then reverse (p_id payment);; mret tt else mret tt
        else mret tt
    | None => mret tt
    end
  else mret tt.

(** Steps 3 to 5, for a parsed event. *)
Definition handle_event (raw_body : string) (ev : Event) : M unit :=
  seen ← select_webhook_event (ev_id ev);
  match seen with
  | Some _ => mret tt
  | None =>
      received_at ← now;
      record_webhook (ev_id ev) raw_body received_at;;
      flush;;
      apply_event (ev_type ev) (ev_reference ev)
  end.

Section handler.
  Variable settings : Settings.
  Variable construct_event : string -> string -> string -> Z -> bool.
  Variable json_loads : string -> option json.

(** [WebhookSignatureVerifier.is_valid(...) or StripeWebhookSignatureVerifier.is_valid(...)] *)
Definition signature_valid (raw_body signature : string) : result exn bool :=
  generic ← hmac_is_valid settings raw_body signature;
  if (generic : bool) then Ok true
  else Ok (stripe_is_valid settings construct_event raw_body signature).

Definition handle (raw_body signature : string) : M unit :=
  if String.eqb signature "" then mthrow InvalidSignatureException
  else
    is_valid ← lift (signature_valid raw_body signature);
    if negb is_valid then mthrow InvalidSignatureException
    else
      match json_loads raw_body with
      | None => mthrow (ValueError "Invalid JSON payload")
      | Some data =>
          fresh ← uuid4;
          ev ← lift (parse_event fresh data);
          handle_event raw_body ev
      end.

End handler.

(** ** What an event does *)

Inductive action := ActSettle (p : Payment) (psp_reference : string) | ActReverse (p : Payment).

(** The transition an event asks for: of the one AUTHORIZED payment with its reference. *)
Definition event_action (db : DB) (event_type psp_reference : json) : option action :=
  match psp_reference, event_type with
  | JStr r, JStr ty =>
      match payments_by_reference db r with
      | [p] =>
          if String.eqb r "" then None
          else if negb (bool_decide (p_status p = AUTHORIZED)) then None
          else if str_in ty capture_events then Some (ActSettle p r)
          else if str_in ty fail_events then Some (ActReverse p)
          else None
      | _ => None
      end
  | _, _ => None
  end.

Definition action_phase (a : option action) (db db' : DB) : Prop :=
  match a with
  | None => db' = db
  | Some (ActSettle p r) => exists t,
      phase [UpdatePayment (settled p r t)] TxnPAYMENT (p_id p) (settle_postings p)
        (settle_event p r) db db'
  | Some (ActReverse p) => exists t,
      phase [UpdatePayment (reversed p t)] TxnREVERSAL (p_id p) (reverse_postings p)
        (reverse_event p) db db'
  end.

#[global] Instance Flushes_lock_payments ps : Flushes (lock_payments ps).
Proof. induction ps as [|p ps IH]; simpl; solve_flushes. Qed.
#[global] Instance Flushes_select_webhook e : Flushes (select_webhook_event e).
Proof. unfold select_webhook_event. solve_flushes. Qed.
#[global] Instance Flushes_select_reference r : Flushes (select_payment_by_reference r).
Proof. unfold select_payment_by_reference. solve_flushes. Qed.
#[global] Instance Flushes_record_webhook e b t : Flushes (record_webhook e b t).
Proof. unfold record_webhook. solve_flushes. Qed.
#[global] Instance Flushes_apply_event t r : Flushes (apply_event t r).
Proof. unfold apply_event. solve_flushes. Qed.
#[global] Instance Flushes_handle_event b ev : Flushes (handle_event b ev).
Proof. unfold handle_event. solve_flushes. Qed.
#[global] Instance Flushes_handle st ce jl b g : Flushes (handle st ce jl b g).
Proof. unfold handle. solve_flushes. Qed.

Lemma lock_payments_eq ps s :
  lock_payments ps s = Ok (tt, with_locks (map (fun p => LockPayment (p_id p)) ps) s).
Proof.
  revert s. induction ps as [|p ps IH]; intros s; simpl.
  - unfold mret, stm_ret, with_locks. rewrite app_nil_r. by destruct s.
  - unfold mbind, stm_bind, lock_row, modify. rewrite IH. unfold with_locks. simpl.
    by rewrite <- app_assoc.
Qed.

Lemma select_reference_exact v s found s' :
  select_payment_by_reference v s = Ok (found, s') ->
  exists r, v = JStr r /\
    s' = with_locks (map (fun p => LockPayment (p_id p)) (payments_by_reference (s_db s) r)) (tick s) /\
    match payments_by_reference (s_db s) r with
    | [] => found = None
    | [p] => found = Some p
    | _ => False
    end.
Proof.
  unfold select_payment_by_reference. intros H. inv_bind_as H u s1 Hst Hk. msess.
  destruct v as [| | | |r| |]; try done. destruct (no_nul r); [|done]. inv_bind_as Hk rows s2 Hg Hk1. unfold gets in Hg.
  injection Hg as <- <-. inv_bind_as Hk1 u2 s3 Hl Hk2. rewrite lock_payments_eq in Hl.
  injection Hl as _ <-. exists r. simpl in *.
  destruct (payments_by_reference (s_db s) r) as [|p [|]]; try done;
    apply ret_Ok_inv in Hk2 as [-> ->]; eauto.
Qed.

Lemma select_reference_inv v s found s' :
  select_payment_by_reference v s = Ok (found, s') ->
  exists r ls, v = JStr r /\ s' = with_locks ls (tick s) /\
    match payments_by_reference (s_db s) r with
    | [] => found = None
    | [p] => found = Some p
    | _ => False
    end.
Proof. intros (r & -> & -> & Hrows)%select_reference_exact. eauto. Qed.

Lemma by_reference_row db r p :
  schema_ok db -> p ∈ payments_by_reference db r ->
  payments db !! p_id p = Some p /\ p_psp_reference p = Some r.
Proof.
  intros Hso Hp. unfold payments_by_reference in Hp.
  apply list_elem_of_filter in Hp as [Href Hp]. split; [|done].
  apply list_elem_of_fmap in Hp as ([i q] & -> & Hq). apply elem_of_map_to_list in Hq. simpl in *.
  destruct (so_payment _ Hso _ _ Hq) as [-> _]. done.
Qed.

Lemma in_set_str v set b : py_in_set v set = Ok b ->
  b = match v with JStr s => str_in s set | _ => false end.
Proof. destruct v; simpl; intros H; by simplify_eq. Qed.

(** [apply_event] performs exactly the action of the event. *)
Lemma apply_event_inv ty ref s u s' :
  schema_ok (s_db s) -> s_pending s = [] -> apply_event ty ref s = Ok (u, s') ->
  s_pending s' = [] /\ action_phase (event_action (s_db s) ty ref) (s_db s) (s_db s').
Proof.
  intros Hso Hp H. unfold apply_event in H. destruct (py_truthy ref) eqn:Htr.
  2:{ msess. split; [done|]. destruct ref as [| | | |r| |]; try done. simpl in Htr.
      unfold event_action. destruct ty; try done.
      destruct (payments_by_reference _ _) as [|? [|]]; try done.
      by destruct (String.eqb r ""). }
  inv_bind_as H found s1 Hsel Hk.
  apply select_reference_inv in Hsel as (r & ls & -> & -> & Hrows). unfold event_action.
  simpl in Htr. destruct (payments_by_reference (s_db s) r) as [|p [|]] eqn:Hpr; [| |done].
  { subst found. msess. split; [done|]. by destruct ty. }
  subst found. destruct (String.eqb r "") eqn:Hempty; [done|].
  destruct (by_reference_row (s_db s) r p) as [Hrow _]; [done|rewrite Hpr; by left|].
  destruct (bool_decide (p_status p = AUTHORIZED)) eqn:Hau.
  2:{ msess. split; [done|]. by destruct ty. }
  cbn [negb]. inv_bind_as Hk c s2 Hc Hk1. apply lift_Ok_inv in Hc as [Hc ->].
  pose proof (in_set_str _ _ _ Hc) as ->.
  destruct ty as [| | | |ty| |]; try done; try (msess; done).
  all: try (inv_bind_as Hk1 f s2 Hf Hk2; apply lift_Ok_inv in Hf as [Hf ->];
            injection Hf as <-; msess; done).
  destruct (str_in ty capture_events).
  - inv_bind_as Hk1 q s3 Hset Hret. apply ret_Ok_inv in Hret as [_ ->].
    apply settle_inv in Hset as (p0 & t & Hp0 & -> & Hph); [|done..]. simpl in Hp0. simplify_eq.
    apply phase_run_phase in Hph as (Hph & Hp' & _). split; [done|]. by exists t.
  - inv_bind_as Hk1 f s3 Hf Hk2. apply lift_Ok_inv in Hf as [Hf ->].
    pose proof (in_set_str _ _ _ Hf) as ->. destruct (str_in ty fail_events); [|msess; done].
    inv_bind_as Hk2 q s3 Hrev Hret. apply ret_Ok_inv in Hret as [_ ->].
    apply reverse_inv in Hrev as (p0 & t & Hp0 & -> & Hph); [|done..]. simpl in Hp0. simplify_eq.
    apply phase_run_phase in Hph as (Hph & Hp' & _). split; [done|]. by exists t.
Qed.

(** The effect of a parsed event on the tables: nothing if its id was seen, else its row and
    its action. *)
Definition webhook_effect (raw_body : string) (ev : Event) (db db' : DB) : Prop :=
  match ev_id ev with
  | JStr e =>
      match webhook_events db !! e with
      | Some _ => db' = db
      | None => exists t db1,
          exec_op (InsertWebhookEvent (mkWebhookEvent e raw_body PROCESSED t)) db = Ok db1 /\
          action_phase (event_action db (ev_type ev) (ev_reference ev)) db1 db'
      end
  | _ => False
  end.

Lemma handle_event_inv raw_body ev s u s' :
  schema_ok (s_db s) -> s_pending s = [] -> handle_event raw_body ev s = Ok (u, s') ->
  s_pending s' = [] /\ webhook_effect raw_body ev (s_db s) (s_db s').
Proof.
  intros Hso Hp H. unfold handle_event in H. inv_bind_as H seen s1 Hsel Hk.
  unfold select_webhook_event in Hsel. unfold webhook_effect.
  destruct (ev_id ev) as [| | | |e| |]; msess; simpl in *; try done.
  destruct (webhook_events (s_db s) !! e) as [w|]; [by msess|].
  inv_bind_as Hk t s2 Hn Hk1. rewrite now_eq in Hn. injection Hn as <- <-.
  inv_bind_as Hk1 u1 s2 Ha Hk2. rewrite session_add_eq in Ha. injection Ha as _ <-.
  inv_bind_as Hk2 u2 s2 Hfl Hk3. apply flush_Ok_inv in Hfl as (db1 & Hex & ->).
  simpl in Hex. rewrite Hp in Hex. simpl in Hex.
  apply result_bind_Ok_inv in Hex as (d & Hop & [= ->]).
  apply apply_event_inv in Hk3 as [Hp' Hact]; [|exact (exec_op_schema_ok _ _ _ Hso Hop)|done].
  split; [done|]. eexists _, db1. split; [exact Hop|]. simpl in Hact.
  by apply exec_op_Ok in Hop as [_ ->].
Qed.

(** The event a request delivers, when it is validly signed JSON of one of the two forms. *)
Definition delivered_event (env : Env) (st : Settings) (ce : string -> string -> string -> Z -> bool)
    (jl : string -> option json) (raw_body sig : string) : option Event :=
  if String.eqb sig "" then None
  else match signature_valid st ce raw_body sig, jl raw_body with
       | Ok true, Some data =>
           match parse_event (uuid4_at env 0) data with Ok ev => Some ev | Err _ => None end
       | _, _ => None
       end.

Lemma handle_delivered env st ce jl raw_body sig db u db' :
  schema_ok db -> in_transaction env (handle st ce jl raw_body sig) db = (Ok u, db') ->
  exists ev, delivered_event env st ce jl raw_body sig = Some ev /\ webhook_effect raw_body ev db db'.
Proof.
  intros Hso Htx. apply in_transaction_Ok_inv in Htx as (s' & Hrun & Hcommit).
  unfold handle in Hrun. unfold delivered_event. destruct (String.eqb sig ""); [done|].
  inv_bind_as Hrun v s1 Hv Hk. apply lift_Ok_inv in Hv as [-> ->].
  destruct v; [|done]. cbn [negb] in Hk. destruct (jl raw_body) as [data|]; [|done].
  inv_bind_as Hk draw s2 Hu Hk1. rewrite uuid4_eq in Hu. injection Hu as <- <-.
  inv_bind_as Hk1 ev s2 Hev Hk2. apply lift_Ok_inv in Hev as [Hev ->]. simpl in Hev. rewrite Hev.
  apply handle_event_inv in Hk2 as [Hp Heff]; [|done..]. simpl in Heff.
  apply commit_nothing_pending in Hcommit as [-> _]; [|done]. by exists ev.
Qed.

(** A webhook request that was accepted: validly signed, JSON, and its event's effect. *)
Lemma handle_committed env st ce jl raw_body sig db u db' :
  schema_ok db -> in_transaction env (handle st ce jl raw_body sig) db = (Ok u, db') ->
  sig <> "" /\ signature_valid st ce raw_body sig = Ok true /\
  exists data fresh ev, jl raw_body = Some data /\ parse_event fresh data = Ok ev /\
    webhook_effect raw_body ev db db'.
Proof.
  intros Hso (ev & Hev & Heff)%handle_delivered; [|done]. unfold delivered_event in Hev.
  destruct (String.eqb_spec sig ""); [done|]. destruct (signature_valid st ce raw_body sig) as [[]|]; [|done..].
  destruct (jl raw_body) as [data|] eqn:Hjl; [|done].
  destruct (parse_event (uuid4_at env 0) data) as [ev'|] eqn:Hp; [|done]. injection Hev as ->. eauto 10.
Qed.

Lemma action_phase_steps db0 ty ref db db' :
  schema_ok db -> payments db = payments db0 ->
  action_phase (event_action db0 ty ref) db db' -> rtc (payment_step nobody) db db'.
Proof.
  intros Hso Hpay. unfold event_action.
  assert (Heq : forall r, payments_by_reference db0 r = payments_by_reference db r)
    by (intros r; unfold payments_by_reference; by rewrite Hpay).
  destruct ref as [| | | |r| |], ty as [| | | |ty| |]; try (intros ->; done).
  rewrite Heq. destruct (payments_by_reference db r) as [|p [|]] eqn:Hpr; try (intros ->; done).
  destruct (by_reference_row db r p) as [Hrow _]; [done|rewrite Hpr; by left|].
  destruct (String.eqb r ""); [intros ->; done|].
  case_bool_decide as Hau; [|intros ->; done]. cbn [negb].
  assert (Ho : may_close nobody (p_id p) (p_status p)) by (by rewrite Hau).
  destruct (str_in ty capture_events); [|destruct (str_in ty fail_events); [|intros ->; done]].
  - intros [t Hph]. by eapply rtc_once, step_settle.
  - intros [t Hph]. by eapply rtc_once, step_reverse.
Qed.

Lemma handle_steps env st ce jl raw_body sig db r db' :
  schema_ok db -> in_transaction env (handle st ce jl raw_body sig) db = (r, db') ->
  rtc (payment_step nobody) db db'.
Proof.
  intros Hso Htx. destruct r as [u|e]; [|by apply in_transaction_Err in Htx as ->].
  apply handle_committed in Htx as (_ & _ & data & draw & ev & _ & _ & Heff); [|done].
  unfold webhook_effect in Heff. destruct (ev_id ev) as [| | | |e| |]; try done.
  destruct (webhook_events db !! e); [by subst|].
  destruct Heff as (t & db1 & Hop & Hact).
  eapply rtc_l; [by eapply exec_quiet_step; [|exact Hop]|].
  eapply action_phase_steps; [exact (exec_op_schema_ok _ _ _ Hso Hop) | | exact Hact].
  by apply exec_op_Ok in Hop as [_ ->].
Qed.
