(* ===== verification/WebhookTheorems.v ===== *)
(** * WebhookTheorems: what [WebhookService] promises

    Signatures, deduplication, the transition of the payment, and the event that arrives
    before its payment has its reference. *)

From S2P Require Import Prelude PyStd Domain Models Session Ledger Journal Fixtures Psp Idempotency Saga Schemas Payments Refunds Lifecycle Webhooks.
From Stdlib Require Import String.

(** ** Signatures *)

(** The generic verifier accepts exactly the HMAC: on ASCII headers [is_valid] is true
    if and only if the payload, the header and the configured secret are not empty and the
    header is the lower-case hexadecimal HMAC-SHA256 of the payload under the secret; a
    header that is not ASCII makes [hmac.compare_digest] raise [TypeError] instead. *)
Theorem hmac_is_valid_iff st raw_payload sig :
  (hmac_is_valid st raw_payload sig = Ok true <->
   raw_payload <> ""%string /\ PSP_WEBHOOK_SECRET st <> ""%string /\
   sig = hmac_sha256_hex (utf8 (PSP_WEBHOOK_SECRET st)) (utf8 raw_payload)) /\
  (is_ascii sig = false -> raw_payload <> ""%string -> PSP_WEBHOOK_SECRET st <> ""%string ->
   hmac_is_valid st raw_payload sig = Err TypeError).
Proof.
  unfold hmac_is_valid, compare_digest.
  set (mac := hmac_sha256_hex (utf8 (PSP_WEBHOOK_SECRET st)) (utf8 raw_payload)).
  assert (Hmac : is_ascii mac = true) by apply hmac_ascii.
  assert (Hne : mac <> ""%string) by (intros Heq; by pose proof (hmac_length (utf8 (PSP_WEBHOOK_SECRET st)) (utf8 raw_payload)) as Hl; fold mac in Hl; rewrite Heq in Hl).
  rewrite Hmac. destruct (String.eqb_spec raw_payload "") as [->|Hr]; simpl; [split; naive_solver|].
  destruct (String.eqb_spec sig "") as [->|Hs]; simpl.
  { split; [split; [done|intros (_ & _ & Heq); by destruct Hne]|]. done. }
  destruct (String.eqb_spec (PSP_WEBHOOK_SECRET st) "") as [Hsec|Hsec]; [split; naive_solver|].
  split.
  - destruct (is_ascii sig) eqn:Ha.
    + destruct (String.eqb_spec mac sig); naive_solver.
    + split; [done|]. intros (_ & _ & ->). congruence.
  - by intros ->.
Qed.

Definition demo_signature (raw : string) : string :=
  hmac_sha256_hex (utf8 "dev-webhook-secret") (utf8 raw).

Section handler.
  Context (st : Settings) (ce : string -> string -> string -> Z -> bool)
          (jl : string -> option json).

(** The generic verifier raises only on a header that is not ASCII, and always the same. *)
Lemma hmac_is_valid_Err raw sig e :
  hmac_is_valid st raw sig = Err e -> e = TypeError /\ is_ascii sig = false.
Proof.
  unfold hmac_is_valid, compare_digest.
  destruct (_ || _); [done|]. destruct (String.eqb _ _); [done|].
  rewrite hmac_ascii. by destruct (is_ascii sig); intros [= <-].
Qed.

(** What a request that no verifier accepted is answered with. *)
Definition signature_refusal (raw sig : string) : exn :=
  if is_ascii sig || String.eqb raw "" || String.eqb (PSP_WEBHOOK_SECRET st) ""
  then InvalidSignatureException else TypeError.

Lemma signature_refused raw sig :
  sig <> ""%string -> signature_valid st ce raw sig <> Ok true ->
  signature_valid st ce raw sig =
    if is_ascii sig || String.eqb raw "" || String.eqb (PSP_WEBHOOK_SECRET st) ""
    then Ok false else Err TypeError.
Proof.
  intros Hs Hv. destruct (hmac_is_valid st raw sig) as [b|e] eqn:Hh.
  - assert (Hc : is_ascii sig || String.eqb raw "" || String.eqb (PSP_WEBHOOK_SECRET st) "" = true).
    { revert Hh. unfold hmac_is_valid, compare_digest. destruct (String.eqb_spec sig ""); [done|].
      destruct (String.eqb raw ""); [by rewrite orb_true_r|].
      destruct (String.eqb _ ""); [by rewrite orb_true_r|]. simpl.
      destruct (is_ascii sig); [done|]. by rewrite andb_false_r. }
    rewrite Hc. unfold signature_valid in *. rewrite Hh in *.
    destruct b; simpl in *; [done|]. by destruct (stripe_is_valid st ce raw sig).
  - destruct (hmac_is_valid_Err _ _ _ Hh) as [-> Ha]. unfold signature_valid. rewrite Hh, Ha. simpl.
    revert Hh. unfold hmac_is_valid. destruct (String.eqb raw ""); [done|].
    destruct (String.eqb sig ""); [done|]. by destruct (String.eqb (PSP_WEBHOOK_SECRET st) "").
Qed.

(** C23: nothing gets past the signature.  A request with no signature header, or with one
    that was not accepted, is refused before its body is even parsed, and the tables are
    unchanged: with [InvalidSignatureException] where the header is ASCII (or there is no body
    or no generic secret to compare it with), and else with the [TypeError] that
    [hmac.compare_digest] raises on a header that is not ASCII.  And a webhook request that
    changes anything carried a header that the generic verifier, or after it the Stripe one,
    accepted. *)
Theorem webhook_requires_signature env raw sig db :
  (sig = ""%string \/ signature_valid st ce raw sig <> Ok true ->
   in_transaction env (handle st ce jl raw sig) db = (Err (signature_refusal raw sig), db)) /\
  (forall r db', in_transaction env (handle st ce jl raw sig) db = (r, db') -> db' <> db ->
   sig <> ""%string /\
   (hmac_is_valid st raw sig = Ok true \/
    hmac_is_valid st raw sig = Ok false /\ stripe_is_valid st ce raw sig = true)).
Proof.
  assert (Hbad : sig = ""%string \/ signature_valid st ce raw sig <> Ok true ->
    in_transaction env (handle st ce jl raw sig) db = (Err (signature_refusal raw sig), db)).
  { intros Hs. apply in_transaction_raises. unfold handle, signature_refusal.
    destruct (String.eqb_spec sig "") as [->|Hne]; [done|]. destruct Hs as [?|Hv]; [done|].
    unfold lift, mbind, stm_bind. rewrite (signature_refused _ _ Hne Hv).
    by destruct (is_ascii sig || _ || _). }
  split; [exact Hbad|]. intros r db' Htx Hne.
  destruct (decide (sig = ""%string)) as [Hs|Hs]; [rewrite Hbad in Htx by (by left); naive_solver|].
  split; [done|]. destruct (decide (signature_valid st ce raw sig = Ok true)) as [Hv|Hv];
    [|rewrite Hbad in Htx by (by right); naive_solver].
  unfold signature_valid in Hv. destruct (hmac_is_valid st raw sig) as [[]|]; simpl in Hv;
    [by left | right; split; [done|by injection Hv] | done].
Qed.

(** A delivery of an event that carries its own id. *)
Record delivery (raw sig : string) (e : string) (ev : Event) : Prop := {
  dl_signed : sig <> ""%string /\ signature_valid st ce raw sig = Ok true;
  dl_parsed : exists data, jl raw = Some data /\ forall draw, parse_event draw data = Ok ev;
  dl_id : ev_id ev = JStr e;
}.

(** The handler of such a delivery is the handler of its event. *)
Lemma delivery_handled raw sig e ev s :
  delivery raw sig e ev -> handle st ce jl raw sig s = handle_event raw ev (tick s).
Proof.
  intros [[Hs Hv] (data & Hj & Hp) _]. unfold handle.
  destruct (String.eqb_spec sig ""); [done|].
  assert (Hl : lift (signature_valid st ce raw sig) s = Ok (true, s)) by (unfold lift; by rewrite Hv).
  rewrite (bind_Ok _ _ _ _ _ Hl). cbn [negb]. rewrite Hj, (bind_Ok _ _ _ _ _ (uuid4_eq s)).
  unfold lift, mbind, stm_bind. by rewrite Hp.
Qed.

Lemma seen_delivery env raw sig e ev w db :
  delivery raw sig e ev -> reliable env -> webhook_events db !! e = Some w ->
  in_transaction env (handle st ce jl raw sig) db = (Ok tt, db).
Proof.
  intros Hd Hr Hw. unfold in_transaction. rewrite (delivery_handled _ _ _ _ _ Hd).
  unfold handle_event, select_webhook_event. rewrite (dl_id _ _ _ _ Hd).
  assert (Hsel : (statement;; gets (fun s' : Session => webhook_events (s_db s') !! e))
                   (tick (begin_session env db)) = Ok (Some w, tick (tick (begin_session env db)))).
  { rewrite (bind_Ok _ _ _ _ _ (statement_reliable (tick (begin_session env db)) Hr)).
    unfold gets. simpl. by rewrite Hw. }
  rewrite (bind_Ok _ _ _ _ _ Hsel). unfold mret, stm_ret. by rewrite commit_nothing_pending_ok.
Qed.

Lemma handled_event_recorded env raw sig e ev u db db' :
  delivery raw sig e ev -> schema_ok db ->
  in_transaction env (handle st ce jl raw sig) db = (Ok u, db') ->
  webhook_effect raw ev db db' /\ is_Some (webhook_events db' !! e).
Proof.
  intros Hd Hso Htx. apply in_transaction_Ok_inv in Htx as (s' & Hrun & Hcommit).
  rewrite (delivery_handled _ _ _ _ _ Hd) in Hrun.
  apply handle_event_inv in Hrun as [Hp Heff]; [|done..]. simpl in Heff.
  apply commit_nothing_pending in Hcommit as [-> _]; [|done]. split; [done|].
  unfold webhook_effect in Heff. rewrite (dl_id _ _ _ _ Hd) in Heff.
  destruct (webhook_events db !! e) as [w|] eqn:Hw; [rewrite Heff, Hw; by eexists|].
  destruct Heff as (t & db1 & Hop & Hact).
  assert (Hw1 : is_Some (webhook_events db1 !! e))
    by (apply exec_op_Ok in Hop as [_ ->]; simpl; rewrite lookup_insert_eq; by eexists).
  assert (Hwe : webhook_events (s_db s') = webhook_events db1); [|by rewrite Hwe].
  unfold action_phase in Hact. destruct (event_action db (ev_type ev) (ev_reference ev)) as [[p r|p]|];
    [| |by rewrite Hact]; destruct Hact as [t' Hph];
    apply phase_summarised in Hph as (txn & o & Hs & _); try done;
    apply (sm_webhooks _ _ _ _ _ _ Hs).
Qed.

(** Redelivery.  Once a signed event with an id has been handled, handling the same
    delivery again, at any later time, answers without error and changes nothing. *)
Theorem webhook_redelivery_is_noop env env' raw sig e ev u db db' :
  delivery raw sig e ev -> schema_ok db -> reliable env' ->
  in_transaction env (handle st ce jl raw sig) db = (Ok u, db') ->
  in_transaction env' (handle st ce jl raw sig) db' = (Ok tt, db').
Proof.
  intros Hd Hso Hr Htx.
  destruct (handled_event_recorded _ _ _ _ _ _ _ _ Hd Hso Htx) as [_ [w Hw]].
  by eapply seen_delivery.
Qed.

(** The payments and balances after an action. *)
Definition action_effect (a : option action) (db db' : DB) : Prop :=
  match a with
  | None => payments db' = payments db /\ forall x, balance_of db' x = balance_of db x
  | Some (ActSettle p r) => exists t,
      payments db' = <[p_id p := settled p r t]> (payments db) /\
      forall x, balance_of db' x = balance_of db x + delta (settle_postings p) x
  | Some (ActReverse p) => exists t,
      payments db' = <[p_id p := reversed p t]> (payments db) /\
      forall x, balance_of db' x = balance_of db x + delta (reverse_postings p) x
  end.

Lemma action_phase_effect a db0 db db' :
  payments db = payments db0 -> account_balances db = account_balances db0 ->
  action_phase a db db' -> action_effect a db0 db'.
Proof.
  intros Hp Hb. assert (Hbal : forall x, balance_of db x = balance_of db0 x)
    by (intros x; unfold balance_of; by rewrite Hb).
  destruct a as [[p r|p]|]; simpl.
  - intros [t Hph]. apply phase_summarised in Hph as (txn & o & Hs & _); [|done]. exists t. split.
    + rewrite (sm_payments _ _ _ _ _ _ Hs). simpl. by rewrite Hp.
    + intros x. by rewrite (sm_balance _ _ _ _ _ _ Hs), Hbal.
  - intros [t Hph]. apply phase_summarised in Hph as (txn & o & Hs & _); [|done]. exists t. split.
    + rewrite (sm_payments _ _ _ _ _ _ Hs). simpl. by rewrite Hp.
    + intros x. by rewrite (sm_balance _ _ _ _ _ _ Hs), Hbal.
  - intros ->. by rewrite Hp.
Qed.

(** C14: exactly the transition the event asks for.  A new signed event that was accepted
    has settled or reversed the one AUTHORIZED payment with its reference, by its type,
    moving the amount out of suspense to the payee or back to the payer; and has changed
    no payment and no balance when its type is neither, when it has no reference, or when
    no or another status of payment carries the reference. *)
Theorem webhook_transition env raw sig e ev u db db' :
  delivery raw sig e ev -> schema_ok db -> webhook_events db !! e = None ->
  in_transaction env (handle st ce jl raw sig) db = (Ok u, db') ->
  action_effect (event_action db (ev_type ev) (ev_reference ev)) db db' /\
  is_Some (webhook_events db' !! e).
Proof.
  intros Hd Hso Hnew Htx.
  destruct (handled_event_recorded _ _ _ _ _ _ _ _ Hd Hso Htx) as [Heff Hrec]. split; [|done].
  unfold webhook_effect in Heff. rewrite (dl_id _ _ _ _ Hd), Hnew in Heff.
  destruct Heff as (t & db1 & Hop & Hact). apply exec_op_Ok in Hop as [_ ->].
  by eapply action_phase_effect; [..|exact Hact].
Qed.

End handler.

(** C39: an event that arrives too early is lost.  If no payment carries the event's
    reference yet (transaction 2 of the request that created it has not stored it), the
    accepted event is recorded, with the body as its payload and as PROCESSED, and nothing
    else in the tables changes; and every later accepted delivery with the same event id,
    whatever its body, its header and the verdicts of the verifiers then, changes nothing in
    tables that still have the row: also once the payment is AUTHORIZED with the reference. *)
Theorem early_event_is_lost st st' ce ce' jl jl' env env' raw raw' sig sig' e ev ev' r u db db1 db2 :
  delivery st ce jl raw sig e ev -> schema_ok db -> webhook_events db !! e = None ->
  ev_reference ev = JStr r -> payments_by_reference db r = [] ->
  in_transaction env (handle st ce jl raw sig) db = (Ok u, db1) ->
  webhook_events db2 !! e = webhook_events db1 !! e -> reliable env' ->
  delivery st' ce' jl' raw' sig' e ev' ->
  (exists t, db1 = {| db with webhook_events :=
                        <[e := mkWebhookEvent e raw PROCESSED t]> (webhook_events db) |}) /\
  (forall x, balance_of db1 x = balance_of db x) /\
  in_transaction env' (handle st' ce' jl' raw' sig') db2 = (Ok tt, db2).
Proof.
  intros Hd Hso Hnew Href Hnone Htx Hsub Hr Hd'.
  destruct (handled_event_recorded _ _ _ _ _ _ _ _ _ _ _ Hd Hso Htx) as [Heff [w Hw]].
  unfold webhook_effect in Heff. rewrite (dl_id _ _ _ _ _ _ _ Hd), Hnew in Heff.
  destruct Heff as (t & d & Hop & Hact). apply exec_op_Ok in Hop as [_ ->].
  assert (Hnoact : event_action db (ev_type ev) (ev_reference ev) = None).
  { unfold event_action. rewrite Href, Hnone. by destruct (ev_type ev). }
  rewrite Hnoact in Hact. simpl in Hact. subst db1. split; [by exists t|]. split; [done|].
  eapply seen_delivery; [done|done|]. by rewrite Hsub.
Qed.

(** ** The theorems at concrete requests *)

Definition demo_payload (event_type reference : string) : json :=
  JObj [("eventId", JStr "evt_1"); ("eventType", JStr event_type); ("pspReference", JStr reference)].

Definition demo_raw : string := "payload"%string.
Definition demo_loads (data : json) (raw : string) : option json :=
  if String.eqb raw demo_raw then Some data else None.
Definition no_construct (_ _ _ : string) (_ : Z) : bool := false.
Definition demo_event (event_type reference : string) : Event :=
  mkEvent (JStr "evt_1") (JStr event_type) (JStr reference).

Abbreviation demo_handle data sig :=
  (handle default_settings no_construct (demo_loads data) demo_raw sig).

Lemma demo_signed :
  signature_valid default_settings no_construct demo_raw (demo_signature demo_raw) = Ok true.
Proof. vm_compute. reflexivity. Qed.

Lemma demo_delivery ty r :
  delivery default_settings no_construct (demo_loads (demo_payload ty r)) demo_raw
    (demo_signature demo_raw) "evt_1" (demo_event ty r).
Proof.
  constructor; [|by eexists|done]. split; [|exact demo_signed].
  apply String.eqb_neq. vm_compute. reflexivity.
Qed.

Lemma demo_handle_ok data db db' :
  snd (in_transaction (demo_env 50) (demo_handle data (demo_signature demo_raw)) db) = db' ->
  is_ok (fst (in_transaction (demo_env 50) (demo_handle data (demo_signature demo_raw)) db)) = true ->
  in_transaction (demo_env 50) (demo_handle data (demo_signature demo_raw)) db = (Ok tt, db').
Proof. destruct (in_transaction _ _ _) as [[[]|] ?]; simpl; congruence. Qed.

Definition captured_db : DB :=
  snd (in_transaction (demo_env 50)
         (demo_handle (demo_payload "payment.captured" "psp_2") (demo_signature demo_raw)) paid_db).

Lemma demo_captured :
  in_transaction (demo_env 50)
    (demo_handle (demo_payload "payment.captured" "psp_2") (demo_signature demo_raw)) paid_db =
    (Ok tt, captured_db).
Proof. apply demo_handle_ok; [unfold captured_db; reflexivity|vm_compute; reflexivity]. Qed.

(** A header that is not ASCII. *)
Definition latin_header : string := String (Ascii.ascii_of_nat 233) EmptyString.

Lemma webhook_requires_signature_witness :
  in_transaction (demo_env 50) (demo_handle (demo_payload "payment.captured" "psp_2") "") paid_db =
    (Err InvalidSignatureException, paid_db) /\
  in_transaction (demo_env 50) (demo_handle (demo_payload "payment.captured" "psp_2") "00ff") paid_db =
    (Err InvalidSignatureException, paid_db) /\
  in_transaction (demo_env 50) (demo_handle (demo_payload "payment.captured" "psp_2") latin_header) paid_db =
    (Err TypeError, paid_db).
Proof.
  split; [|split].
  - apply (webhook_requires_signature default_settings no_construct
      (demo_loads (demo_payload "payment.captured" "psp_2")) (demo_env 50) demo_raw "" paid_db).
    by left.
  - apply (webhook_requires_signature default_settings no_construct
      (demo_loads (demo_payload "payment.captured" "psp_2")) (demo_env 50) demo_raw "00ff" paid_db).
    right. vm_compute. discriminate.
  - apply (webhook_requires_signature default_settings no_construct
      (demo_loads (demo_payload "payment.captured" "psp_2")) (demo_env 50) demo_raw latin_header paid_db).
    right. vm_compute. discriminate.
Defined.

Lemma webhook_redelivery_is_noop_witness :
  in_transaction (demo_env 90)
    (demo_handle (demo_payload "payment.captured" "psp_2") (demo_signature demo_raw)) captured_db =
    (Ok tt, captured_db).
Proof.
  apply (webhook_redelivery_is_noop default_settings no_construct
    (demo_loads (demo_payload "payment.captured" "psp_2")) (demo_env 50) (demo_env 90) demo_raw
    (demo_signature demo_raw) "evt_1" (demo_event "payment.captured" "psp_2") tt paid_db captured_db).
  - apply demo_delivery.
  - exact paid_schema_ok.
  - done.
  - exact demo_captured.
Defined.

Lemma webhook_transition_witness :
  (exists t, payments captured_db = <[9001%N := settled old_hold "psp_2" t]> (payments paid_db) /\
     forall x, balance_of captured_db x =
               balance_of paid_db x + delta (settle_postings old_hold) x) /\
  is_Some (webhook_events captured_db !! "evt_1").
Proof.
  assert (Ha : event_action paid_db (JStr "payment.captured") (JStr "psp_2") =
               Some (ActSettle old_hold "psp_2")) by (vm_compute; reflexivity).
  destruct (webhook_transition default_settings no_construct
    (demo_loads (demo_payload "payment.captured" "psp_2")) (demo_env 50) demo_raw
    (demo_signature demo_raw) "evt_1" (demo_event "payment.captured" "psp_2") tt paid_db captured_db)
    as [Heff Hrec].
  - apply demo_delivery.
  - exact paid_schema_ok.
  - reflexivity.
  - exact demo_captured.
  - split; [|exact Hrec]. unfold action_effect, demo_event, ev_type, ev_reference in Heff.
    rewrite Ha in Heff. exact Heff.
Defined.

Definition early_db : DB :=
  snd (in_transaction (demo_env 50)
         (demo_handle (demo_payload "payment.captured" "psp_9") (demo_signature demo_raw)) demo_db).

Lemma demo_early :
  in_transaction (demo_env 50)
    (demo_handle (demo_payload "payment.captured" "psp_9") (demo_signature demo_raw)) demo_db =
    (Ok tt, early_db).
Proof. apply demo_handle_ok; [unfold early_db; reflexivity|vm_compute; reflexivity]. Qed.

(** The payment the event was about, stored after it. *)
Definition late_payment : Payment :=
  mkPayment 9003 "merchant_1" wallet merchant 400 "INR" AUTHORIZED (Some "psp_9") 0 0 0 0.
Definition late_db : DB := {| early_db with payments := {[ 9003%N := late_payment ]} |}.

(** The provider sends the event again with another body. *)
Definition retry_raw : string := "payload, second attempt"%string.
Definition retry_loads (raw : string) : option json :=
  if String.eqb raw retry_raw then Some (demo_payload "payment.captured" "psp_9") else None.

Lemma retry_delivery :
  delivery default_settings no_construct retry_loads retry_raw (demo_signature retry_raw) "evt_1"
    (demo_event "payment.captured" "psp_9").
Proof.
  constructor; [|by eexists|done].
  split; [apply String.eqb_neq; vm_compute; reflexivity|vm_compute; reflexivity].
Qed.

Lemma early_event_is_lost_witness :
  payments_by_reference late_db "psp_9" = [late_payment] /\
  (exists t, webhook_events early_db !! "evt_1" = Some (mkWebhookEvent "evt_1" demo_raw PROCESSED t)) /\
  in_transaction (demo_env 90)
    (handle default_settings no_construct retry_loads retry_raw (demo_signature retry_raw)) late_db =
    (Ok tt, late_db).
Proof.
  split; [vm_compute; reflexivity|].
  destruct (early_event_is_lost default_settings default_settings no_construct no_construct
    (demo_loads (demo_payload "payment.captured" "psp_9")) retry_loads (demo_env 50) (demo_env 90)
    demo_raw retry_raw (demo_signature demo_raw) (demo_signature retry_raw) "evt_1"
    (demo_event "payment.captured" "psp_9") (demo_event "payment.captured" "psp_9") "psp_9" tt demo_db
    early_db late_db) as ([t Hdb] & _ & Hretry).
  - apply demo_delivery.
  - exact demo_schema_ok.
  - reflexivity.
  - reflexivity.
  - vm_compute. reflexivity.
  - exact demo_early.
  - change (webhook_events late_db) with (webhook_events early_db). reflexivity.
  - done.
  - apply retry_delivery.
  - split; [|exact Hretry]. exists t. rewrite Hdb. simpl. by rewrite lookup_insert_eq.
Defined.

Lemma hmac_is_valid_iff_witness :
  hmac_is_valid default_settings demo_raw (demo_signature demo_raw) = Ok true /\
  hmac_is_valid default_settings demo_raw (String (Ascii.ascii_of_nat 233) EmptyString) = Err TypeError.
Proof.
  split.
  - apply (proj2 (proj1 (hmac_is_valid_iff default_settings demo_raw (demo_signature demo_raw)))).
    split; [discriminate|split; [discriminate|reflexivity]].
  - apply (proj2 (hmac_is_valid_iff default_settings demo_raw (String (Ascii.ascii_of_nat 233) EmptyString))); [reflexivity|discriminate..].
Defined.
