(* ===== verification/Reconciliation.v ===== *)
(** * Reconciliation: [app/application/reconciliation_service.py]

    [audit_integrity] (global net and per-account drift) and [expire_stale_holds].  The
    order the rows of an unordered SELECT come back in is a parameter. *)

From S2P Require Import Prelude PyStd Domain Models Session Ledger Journal Psp Idempotency Saga Schemas Payments Refunds Lifecycle Webhooks.
From Stdlib Require Import String.

(** ** Definitions *)

(** [case((direction == DEBIT, amount), else_=-amount)] is [signed_amount]; the audit of
    the balances signs the other way. *)
Definition calc_amount (e : LedgerEntry) : Z :=
  match le_direction e with CREDIT => le_amount e | DEBIT => - le_amount e end.

(** [select(func.coalesce(func.sum(signed_amount), 0))] *)
Definition ledger_net (db : DB) : Z := lsum signed_amount (ledger_entries db).

(** The computed balance of the grouped subquery; 0 ([coalesce]) for an account without
    entries. *)
Definition computed_balance (db : DB) (acc_id : uuid) : Z :=
  lsum calc_amount (filter (fun e => le_account_id e = acc_id) (ledger_entries db)).

Definition drifted_accounts (db : DB) : list uuid :=
  map fst (filter (fun kv => ab_balance kv.2 <> computed_balance db kv.1)
             (map_to_list (account_balances db))).

Definition integrity_of (db : DB) : IntegrityResponse :=
  let net := ledger_net db in
  let drifted := Z.of_nat (List.length (drifted_accounts db)) in
  mkIntegrityResponse ((net =? 0) && (drifted =? 0)) net drifted.

Definition audit_integrity : M IntegrityResponse :=
  statement;; statement;; gets (fun s => integrity_of (s_db s)).

(** [timedelta(minutes=n)] in microseconds. *)
Definition minutes (n : Z) : Z := n * 60000000.

Definition is_stale (cutoff : Z) (p : Payment) : Prop :=
  p_status p = AUTHORIZED /\ p_created_at p < cutoff.

#[global] Instance is_stale_dec cutoff p : Decision (is_stale cutoff p).
Proof. unfold is_stale. apply _. Defined.

Section reconciliation.
  Variable row_order : list Payment -> list Payment.

Definition stale_payments (cutoff : Z) (db : DB) : list Payment :=
  row_order (filter (is_stale cutoff) (map snd (map_to_list (payments db)))).

Fixpoint reverse_all (ps : list Payment) (count : Z) : M Z :=
  match ps with
  | [] => mret count
  | p :: ps' => reverse (p_id p);; reverse_all ps' (count + 1)
  end.

Definition expire_stale_holds (timeout_minutes : Z) : M Z :=
  t ← now;
  let cutoff := t - minutes timeout_minutes in
  statement;;
  stale ← gets (fun s => stale_payments cutoff (s_db s));
  lock_payments stale;;
  reverse_all stale 0.

End reconciliation.

#[global] Instance Flushes_audit : Flushes audit_integrity.
Proof. unfold audit_integrity. solve_flushes. Qed.
#[global] Instance Flushes_reverse_all ps n : Flushes (reverse_all ps n).
Proof. revert n. induction ps as [|p ps IH]; intros n; simpl; solve_flushes. Qed.
#[global] Instance Flushes_expire o n : Flushes (expire_stale_holds o n).
Proof. unfold expire_stale_holds. solve_flushes. Qed.

(** ** The expiry of holds *)

(** What the reversal of a list of payments changes. *)
Record all_reversed (ps : list Payment) (db db' : DB) : Prop := {
  ar_rows : forall p, p ∈ ps -> exists t, payments db' !! p_id p = Some (reversed p t);
  ar_others : forall i, i ∉ map p_id ps -> payments db' !! i = payments db !! i;
  ar_balance : forall a, balance_of db' a =
    balance_of db a + lsum (fun p => delta (reverse_postings p) a) ps;
  ar_steps : rtc (payment_step nobody) db db';
  ar_idem : idempotency_keys db' = idempotency_keys db;
  ar_outbox : outbox_grows db db';
}.

Lemma all_reversed_nil db : all_reversed [] db db.
Proof. constructor; try done. - intros p Hp. by apply not_elem_of_nil in Hp. - intros a. simpl. lia. Qed.

Lemma all_reversed_cons p t ps db db1 db' :
  payments db !! p_id p = Some p -> p_status p = AUTHORIZED -> p_id p ∉ map p_id ps ->
  phase [UpdatePayment (reversed p t)] TxnREVERSAL (p_id p) (reverse_postings p) (reverse_event p)
    db db1 ->
  all_reversed ps db1 db' -> all_reversed (p :: ps) db db'.
Proof.
  intros Hrow Hau Hni Hph [Hr Ho Hb Hs Hidem Hgrow].
  pose proof (phase_outbox [UpdatePayment (reversed p t)] _ _ _ _ _ _ eq_refl Hph) as Hgrow1.
  assert (Hst : payment_step nobody db db1) by (eapply step_reverse; [exact Hrow|by rewrite Hau|exact Hph]).
  apply phase_summarised in Hph as (txn & o & Hsm & _); [|done].
  pose proof (sm_payments _ _ _ _ _ _ Hsm) as Hpay. cbn in Hpay.
  constructor.
  - intros q [->|Hq]%elem_of_cons; [|by apply Hr]. exists t. rewrite Ho by done.
    by rewrite Hpay, lookup_insert_eq.
  - intros i Hi. cbn [map] in Hi. apply not_elem_of_cons in Hi as [Hne Hi]. rewrite Ho by done.
    by rewrite Hpay, lookup_insert_ne by congruence.
  - intros a. rewrite Hb, (sm_balance _ _ _ _ _ _ Hsm), lsum_cons. lia.
  - by eapply rtc_l.
  - rewrite Hidem. apply (sm_idem _ _ _ _ _ _ Hsm).
  - by etrans.
Qed.

Lemma reverse_all_inv ps n s m s' :
  schema_ok (s_db s) -> s_pending s = [] -> NoDup (map p_id ps) ->
  (forall p, p ∈ ps -> payments (s_db s) !! p_id p = Some p /\ p_status p = AUTHORIZED) ->
  reverse_all ps n s = Ok (m, s') ->
  m = n + Z.of_nat (List.length ps) /\ s_pending s' = [] /\ all_reversed ps (s_db s) (s_db s').
Proof.
  revert n s. induction ps as [|p ps IH]; intros n s Hso Hp Hnd Hall H; simpl in H.
  { msess. split; [simpl; lia|]. split; [done|]. apply all_reversed_nil. }
  inv_bind_as H q s1 Hrev Hk. cbn [map] in Hnd. apply NoDup_cons in Hnd as [Hni Hnd].
  pose proof (schema_ok_flushes _ _ _ _ Hrev Hso) as Hso1.
  apply reverse_inv in Hrev as (p0 & t & Hrow & -> & Hph); [|done..].
  destruct (Hall p) as [Hrow' Hau]; [by left|]. rewrite Hrow in Hrow'. injection Hrow' as ->.
  apply phase_run_phase in Hph as (Hph & Hp1 & _).
  pose proof Hph as Hsm. apply phase_summarised in Hsm as (txn & o & Hsm & _); [|done].
  pose proof (sm_payments _ _ _ _ _ _ Hsm) as Hpay. cbn in Hpay.
  apply IH in Hk as (-> & Hp' & Har); [|done..|].
  - split; [simpl List.length; lia|]. split; [done|]. by eapply all_reversed_cons.
  - intros q Hq. destruct (Hall q) as [Hq1 Hq2]; [by right|]. split; [|done].
    rewrite Hpay, lookup_insert_ne; [done|]. intros Heq. apply Hni. rewrite Heq.
    by apply list_elem_of_fmap_2.
Qed.

(** A hold that can be reversed: an AUTHORIZED row that fits. *)
Record reversible (db : DB) (p : Payment) : Prop := {
  rv_row : payments db !! p_id p = Some p;
  rv_status : p_status p = AUTHORIZED;
  rv_amount : 0 < p_amount p;
  rv_version : p_version p + 1 <= int64_max;
  rv_fits : first_violation (payment_row_checks p db) = None;
}.

Lemma reversible_other db db' p q :
  accounts db' = accounts db -> payments db' = <[p_id q := q]> (payments db) -> p_id p <> p_id q ->
  reversible db p -> reversible db' p.
Proof.
  intros Ha Hp Hne [H1 H2 H3 H4 H5]. constructor; try done.
  - by rewrite Hp, lookup_insert_ne by done.
  - unfold payment_row_checks in *. by rewrite Ha.
Qed.

(** With funds in suspense for all of them, a list of holds is reversed to the end. *)
Lemma reverse_all_progress ps n s :
  NoDup (map p_id ps) -> (forall p, p ∈ ps -> reversible (s_db s) p) ->
  Inj eq eq (uuid4_at (s_env s)) -> s_pending s = [] ->
  ledger_ready_at (2 * Z.of_nat (List.length ps)) (s_tick s) (s_env s) (s_db s) ->
  lsum p_amount ps <= balance_of (s_db s) PSP_SUSPENSE_ACCOUNT_ID ->
  exists s', reverse_all ps n s = Ok (n + Z.of_nat (List.length ps), s').
Proof.
  revert n s. induction ps as [|p ps IH]; intros n s Hnd Hall Hinj Hp Hlr Hsum; simpl.
  { exists s. unfold mret, stm_ret. do 2 f_equal. lia. }
  cbn [map] in Hnd. apply NoDup_cons in Hnd as [Hni Hnd]. rewrite lsum_cons in Hsum.
  destruct (Hall p) as [Hrow Hau Hamt Hver Hfit]; [by left|].
  assert (Hrest : 0 <= lsum p_amount ps).
  { apply lsum_nonneg. intros q Hq. destruct (Hall q) as [_ _ ? _ _]; [by right|lia]. }
  destruct (reverse_progress (p_id p) p s) as (t & s1 & Hrev);
    [eapply ledger_ready_later; [exact Hlr|simpl List.length; lia|done] | done | done
    | intros t; by eapply reversed_check | lia |].
  rewrite (bind_Ok _ _ _ _ _ Hrev).
  pose proof Hrev as Hinv. apply reverse_inv in Hinv as (p0 & t' & Hrow' & _ & Hrun);
    [|apply (lr_schema _ _ _ _ Hlr)|done].
  rewrite Hrow in Hrow'. injection Hrow' as <-.
  assert (Hlr1 : ledger_ready_at (2 * Z.of_nat (List.length ps)) (s_tick s1) (s_env s) (s_db s1)).
  { eapply phase_run_ready; [|done| |exact Hrun]; [done|].
    eapply ledger_ready_later; [exact Hlr|simpl List.length; lia|done]. }
  apply phase_run_phase in Hrun as (Hph & Hp1 & He1).
  apply phase_summarised in Hph as (txn & o & Hsm & _); [|done].
  pose proof (sm_payments _ _ _ _ _ _ Hsm) as Hpay. cbn in Hpay.
  destruct (IH (n + 1) s1) as (s' & Hrun); [done| |by rewrite He1|done|by rewrite He1| |].
  - intros q Hq. eapply (reversible_other _ _ _ (reversed p t));
      [apply (sm_accounts _ _ _ _ _ _ Hsm)|exact Hpay| |apply Hall; by right].
    intros Heq. apply Hni. simpl in Heq. rewrite <- Heq. by apply list_elem_of_fmap_2.
  - rewrite (sm_balance _ _ _ _ _ _ Hsm), transfer_delta. rewrite (decide_True _ _ eq_refl).
    case_decide; lia.
  - exists s'. rewrite Hrun. do 2 f_equal. simpl List.length. lia.
Qed.

Section expiry.
  Context (row_order : list Payment -> list Payment).
  Context (row_order_perm : forall l, row_order l ≡ₚ l).

Lemma elem_of_stale cutoff db p :
  schema_ok db ->
  p ∈ stale_payments row_order cutoff db <->
  payments db !! p_id p = Some p /\ p_status p = AUTHORIZED /\ p_created_at p < cutoff.
Proof.
  intros Hso. unfold stale_payments. rewrite row_order_perm, list_elem_of_filter.
  unfold is_stale. rewrite list_elem_of_fmap. split.
  - intros [[H1 H2] ([i q] & -> & Hq)]. apply elem_of_map_to_list in Hq. simpl in *.
    by destruct (so_payment _ Hso _ _ Hq) as [-> _].
  - intros (Hrow & H1 & H2). split; [done|]. exists (p_id p, p). split; [done|].
    by apply elem_of_map_to_list.
Qed.

Lemma payment_ids_NoDup db :
  schema_ok db -> NoDup (map p_id (map snd (map_to_list (payments db)))).
Proof.
  intros Hso. rewrite map_map.
  replace (map (fun kv => p_id kv.2) (map_to_list (payments db)))
    with (map fst (map_to_list (payments db))); [apply NoDup_fst_map_to_list|].
  apply map_ext_in. intros [i p] Hin. apply list_elem_of_In, elem_of_map_to_list in Hin.
  by destruct (so_payment _ Hso _ _ Hin) as [<- _].
Qed.

Lemma stale_NoDup cutoff db : schema_ok db -> NoDup (map p_id (stale_payments row_order cutoff db)).
Proof.
  intros Hso. unfold stale_payments. rewrite row_order_perm.
  pose proof (payment_ids_NoDup db Hso) as Hnd. revert Hnd.
  generalize (map snd (map_to_list (payments db))) as l.
  induction l as [|p l IH]; intros Hnd; [constructor|]. cbn [map] in Hnd.
  apply NoDup_cons in Hnd as [Hni Hnd]. rewrite filter_cons. case_decide; [|by apply IH].
  cbn [map]. apply NoDup_cons. split; [|by apply IH].
  intros Hin. apply Hni. apply list_elem_of_fmap in Hin as (q & Heq & Hq).
  apply list_elem_of_filter in Hq as [_ Hq]. rewrite Heq. by apply list_elem_of_fmap_2.
Qed.

(** A run of the expiry, committed: it reverses exactly the stale payments. *)
Lemma expire_committed env n db m db' :
  schema_ok db -> in_transaction env (expire_stale_holds row_order n) db = (Ok m, db') ->
  let stale := stale_payments row_order (now_at env 0 - minutes n) db in
  m = Z.of_nat (List.length stale) /\ all_reversed stale db db'.
Proof.
  intros Hso Htx stale. apply in_transaction_Ok_inv in Htx as (s' & Hrun & Hcommit).
  unfold expire_stale_holds in Hrun. inv_bind_as Hrun t s1 Hn Hk.
  rewrite now_eq in Hn. injection Hn as <- <-. cbv zeta in Hk.
  inv_bind_as Hk u s2 Hst Hk1. apply statement_Ok_inv in Hst as [_ ->].
  inv_bind_as Hk1 l s3 Hg Hk2. unfold gets in Hg. injection Hg as <- <-.
  inv_bind_as Hk2 u2 s4 Hl Hk3. rewrite lock_payments_eq in Hl. injection Hl as _ <-.
  change (stale_payments row_order _ _) with stale in Hk3.
  apply reverse_all_inv in Hk3 as (-> & Hp & Har); [|done|done| |].
  - apply commit_nothing_pending in Hcommit as [-> _]; [|done]. simpl in Har. split; [lia|done].
  - by apply stale_NoDup.
  - intros p Hp. simpl. apply elem_of_stale in Hp; naive_solver.
Qed.

Lemma expire_steps env n db r db' :
  schema_ok db -> in_transaction env (expire_stale_holds row_order n) db = (r, db') ->
  rtc (payment_step nobody) db db'.
Proof.
  intros Hso Htx. destruct r as [m|e]; [|by apply in_transaction_Err in Htx as ->].
  apply expire_committed in Htx as [_ Har]; [|done]. apply (ar_steps _ _ _ Har).
Qed.

End expiry.

(** ** The audit *)

(** Stored balance minus the balance the journal gives. *)
Definition drift (db : DB) (a : uuid) : Z := balance_of db a - computed_balance db a.

Lemma calc_amount_entries txn_id ps es a :
  Forall2 (entry_for txn_id) ps es ->
  lsum calc_amount (filter (fun e => le_account_id e = a) es) = delta ps a.
Proof.
  induction 1 as [|p e ps es (_ & Ha & Hd & Hm) _ IH]; [done|].
  rewrite filter_cons, delta_cons. unfold posting_delta. rewrite Ha. case_decide.
  - rewrite lsum_cons, IH. unfold calc_amount. rewrite Hd, Hm. destruct (po_direction p); lia.
  - rewrite IH. lia.
Qed.

(** No operation makes a balance drift from the journal. *)
Lemma step_drift own db db' a : payment_step own db db' -> drift db' a = drift db a.
Proof.
  intros [(_ & Hb & _ & He)|(ops & txn & d & c & n & o & Hs)]%payment_step_moves; unfold drift.
  - unfold balance_of, computed_balance. by rewrite Hb, He.
  - rewrite (sm_balance _ _ _ _ _ _ Hs).
    destruct (sm_entries _ _ _ _ _ _ Hs) as (es & He & Hes).
    unfold computed_balance. rewrite He, filter_app, lsum_app, (calc_amount_entries _ _ _ _ Hes).
    unfold computed_balance. lia.
Qed.

(** The net of the whole journal is the sum of the nets of its transactions: zero. *)
Lemma step_ledger_net own db db' : payment_step own db db' -> ledger_net db' = ledger_net db.
Proof.
  intros [(_ & _ & _ & He)|(ops & txn & d & c & n & o & Hs)]%payment_step_moves; unfold ledger_net.
  - by rewrite He.
  - destruct (sm_entries _ _ _ _ _ _ Hs) as (es & He & Hes). rewrite He, lsum_app.
    rewrite (entry_for_signed _ _ _ Hes).
    pose proof (sm_valid _ _ _ _ _ _ Hs) as (_ & _ & Hz)%validate_balanced_Ok. lia.
Qed.
