(* ===== verification/ReconciliationTheorems.v ===== *)
(** * ReconciliationTheorems: the audit and the expiry of holds

    What the audit of [ReconciliationService] decides, what an expiry run reverses, and a
    fact on concrete data: accounts seeded with a balance but no journal entries drift. *)

From S2P Require Import Prelude PyStd Domain Models Session Ledger Journal Fixtures Psp Idempotency Saga Locks Schemas Payments Refunds Lifecycle Webhooks Reconciliation.
From Stdlib Require Import String.

(** ** The audit *)

Lemma audit_run env db :
  reliable env -> in_transaction env audit_integrity db = (Ok (integrity_of db), db).
Proof.
  intros Hr. unfold in_transaction, audit_integrity.
  rewrite (bind_Ok _ _ _ _ _ (statement_reliable (begin_session env db) Hr)).
  rewrite (bind_Ok _ _ _ _ _ (statement_reliable (tick (begin_session env db)) Hr)).
  unfold gets. by rewrite commit_nothing_pending_ok.
Qed.

Lemma elem_of_drifted db a :
  a ∈ drifted_accounts db <->
  exists b, account_balances db !! a = Some b /\ ab_balance b <> computed_balance db a.
Proof.
  unfold drifted_accounts. rewrite list_elem_of_fmap. split.
  - intros ([i b] & -> & [Hne Hin]%list_elem_of_filter). apply elem_of_map_to_list in Hin. eauto.
  - intros (b & Hb & Hne). exists (a, b). split; [done|]. apply list_elem_of_filter.
    split; [done|]. by apply elem_of_map_to_list.
Qed.

Lemma drifted_NoDup db : NoDup (drifted_accounts db).
Proof.
  unfold drifted_accounts. pose proof (NoDup_fst_map_to_list (account_balances db)) as Hnd.
  revert Hnd. generalize (map_to_list (account_balances db)) as l.
  induction l as [|[a b] l IH]; intros Hnd; [constructor|]. cbn in Hnd.
  apply NoDup_cons in Hnd as [Hni Hnd]. rewrite filter_cons. case_decide; [|by apply IH].
  cbn. apply NoDup_cons. split; [|by apply IH]. intros ([i c] & -> & Hin)%list_elem_of_fmap.
  apply list_elem_of_filter in Hin as [_ Hin]. apply Hni. by apply (list_elem_of_fmap_2 fst) in Hin.
Qed.

(** C29: the audit is exact.  It reads only, reports the sum of the signed amounts of the whole
    journal and the number of balance rows that differ from the credits minus debits of their
    account, and says balanced if and only if that sum is zero and no row differs. *)
Theorem audit_exact env db :
  reliable env ->
  exists rep, in_transaction env audit_integrity db = (Ok rep, db) /\
    ig_ledgerNet rep = lsum signed_amount (ledger_entries db) /\
    (exists drifted, NoDup drifted /\ ig_driftedAccountsCount rep = Z.of_nat (List.length drifted) /\
       forall a, a ∈ drifted <->
         exists b, account_balances db !! a = Some b /\ ab_balance b <> computed_balance db a) /\
    (ig_balanced rep = true <->
       ledger_net db = 0 /\
       forall a b, account_balances db !! a = Some b -> ab_balance b = computed_balance db a).
Proof.
  intros Hr. exists (integrity_of db). split; [by apply audit_run|]. split; [done|]. split.
  { exists (drifted_accounts db). split; [apply drifted_NoDup|]. split; [done|].
    intros a. apply elem_of_drifted. }
  unfold integrity_of. simpl. rewrite andb_true_iff, !Z.eqb_eq. split.
  - intros [Hn Hd]. split; [done|]. intros a b Hb.
    destruct (decide (ab_balance b = computed_balance db a)) as [|Hne]; [done|].
    assert (Hin : a ∈ drifted_accounts db) by (apply elem_of_drifted; eauto).
    destruct (drifted_accounts db); [by apply not_elem_of_nil in Hin|simpl in Hd; lia].
  - intros [Hn Hall]. split; [done|]. destruct (drifted_accounts db) as [|a l] eqn:Hd; [done|].
    assert (Hin : a ∈ drifted_accounts db) by (rewrite Hd; by left).
    apply elem_of_drifted in Hin as (b & Hb & Hne). by destruct Hne, (Hall a b Hb).
Qed.

Lemma audit_exact_witness :
  exists rep, in_transaction (demo_env 0) audit_integrity demo_db = (Ok rep, demo_db) /\
    ig_balanced rep = false.
Proof.
  destruct (audit_exact (demo_env 0) demo_db (demo_reliable 0)) as (rep & Hrun & _ & _ & Hb).
  exists rep. split; [exact Hrun|]. apply not_true_iff_false. rewrite Hb. intros [_ Hall].
  specialize (Hall wallet (mkAccountBalance 101 100000 0 0) eq_refl). vm_compute in Hall.
  discriminate Hall.
Defined.

(** Every entry is of an account that has a balance row, as [post] makes sure. *)
Definition entries_have_rows (db : DB) : Prop :=
  forall e, e ∈ ledger_entries db -> is_Some (account_balances db !! le_account_id e).

Lemma msum_one_key (m : gmap uuid AccountBalance) i z :
  is_Some (m !! i) -> msum (fun a _ => if decide (i = a) then z else 0) m = z.
Proof.
  intros [b Hb]. rewrite (msum_delete _ _ _ _ Hb), decide_True by done.
  rewrite (msum_ext _ (fun _ _ => 0)).
  - assert (Hz : msum (fun _ _ => 0) (delete i m) = 0); [|lia].
    induction (delete i m) as [|k v m' Hk IH] using map_ind; [done|].
    rewrite msum_insert_new by done. lia.
  - intros k v Hk. rewrite decide_False; [done|]. intros <-. by rewrite lookup_delete_eq in Hk.
Qed.

(** The computed balances of the rows add up to minus the net of the journal. *)
Lemma computed_total (m : gmap uuid AccountBalance) es :
  (forall e, e ∈ es -> is_Some (m !! le_account_id e)) ->
  msum (fun a _ => lsum calc_amount (filter (fun e => le_account_id e = a) es)) m =
  - lsum signed_amount es.
Proof.
  induction es as [|e es IH]; intros Hrows.
  - simpl. induction m as [|k v m Hk IHm] using map_ind; [done|].
    rewrite msum_insert_new, IHm; [done| |done]. intros e He. by apply not_elem_of_nil in He.
  - rewrite (msum_ext _ (fun a _ => (if decide (le_account_id e = a) then calc_amount e else 0) +
      lsum calc_amount (filter (fun e => le_account_id e = a) es))).
    + rewrite msum_add, msum_one_key, IH, lsum_cons.
      * unfold calc_amount, signed_amount. destruct (le_direction e); lia.
      * intros e' He'. apply Hrows. by right.
      * apply Hrows. by left.
    + intros k v _. rewrite filter_cons. case_decide; [by rewrite lsum_cons|lia].
Qed.

(** A balanced audit means there is no money.  Balances cannot be negative and the
    signed amounts of the journal must sum to zero, so the audit can only say balanced when
    every balance is zero: as soon as one account holds money, it reports an imbalance or a
    drifted account. *)
Theorem balanced_audit_means_no_money env db rep db' :
  schema_ok db -> entries_have_rows db ->
  in_transaction env audit_integrity db = (Ok rep, db') -> ig_balanced rep = true ->
  forall a row, account_balances db !! a = Some row -> ab_balance row = 0.
Proof.
  intros Hso Hrows Hrun Hbal a row Ha.
  assert (Hrep : rep = integrity_of db).
  { apply in_transaction_Ok_inv in Hrun as (s' & Hrun & _). unfold audit_integrity in Hrun. by msess. }
  subst rep. unfold integrity_of in Hbal. cbn in Hbal.
  apply andb_true_iff in Hbal as [Hnet%Z.eqb_eq Hdrift%Z.eqb_eq].
  assert (Hall : forall a row, account_balances db !! a = Some row ->
            ab_balance row = computed_balance db a).
  { intros i b Hb. destruct (decide (ab_balance b = computed_balance db i)) as [|Hne]; [done|].
    assert (Hin : i ∈ drifted_accounts db) by (apply elem_of_drifted; eauto).
    destruct (drifted_accounts db); [by apply not_elem_of_nil in Hin|simpl in Hdrift; lia]. }
  assert (Htotal : msum (fun _ b => ab_balance b) (account_balances db) = 0).
  { rewrite (msum_ext _ (fun i _ => computed_balance db i)) by (intros i b Hb; by apply Hall).
    unfold computed_balance. rewrite computed_total by done. fold (ledger_net db). lia. }
  assert (Hnn : forall i b, account_balances db !! i = Some b -> 0 <= ab_balance b)
    by (intros i b Hb; apply (so_balance _ Hso) in Hb as (_ & H & _); lia).
  pose proof (msum_lookup_le (fun _ b => ab_balance b) _ a row Hnn Ha) as Hle.
  specialize (Hnn a row Ha). simpl in Hle. lia.
Qed.

(** Two entries that cancel, on accounts without money. *)
Definition cancelled_db : DB :=
  mkDB demo_accounts {[ 101%N := mkAccountBalance 101 0 2 0 ]}
    {[ 50%N := mkLedgerTransaction 50 TxnPAYMENT 7 0 ]}
    [mkLedgerEntry 1 50 wallet CREDIT 5 0; mkLedgerEntry 2 50 wallet DEBIT 5 0] ∅ ∅ ∅ ∅ ∅.

Lemma cancelled_schema_ok : schema_ok cancelled_db.
Proof.
  constructor; simpl; try (intros *; rewrite lookup_empty; done).
  - intros a b Hb%lookup_singleton_Some. destruct Hb as [<- <-]. unfold int64_max. simpl.
    split; [done|]. split; [lia|]. split; [done|by eexists].
  - intros i t Ht%lookup_singleton_Some. by destruct Ht as [<- <-].
  - intros e He. rewrite !elem_of_cons in He. unfold int64_max.
    destruct He as [->|[->|He]]; [| |by apply not_elem_of_nil in He]; simpl;
      (split; [lia|]; split; by eexists).
  - done.
Qed.

Lemma balanced_audit_means_no_money_witness :
  exists rep, in_transaction (demo_env 0) audit_integrity cancelled_db = (Ok rep, cancelled_db) /\
    ig_balanced rep = true /\
    forall a row, account_balances cancelled_db !! a = Some row -> ab_balance row = 0.
Proof.
  exists (integrity_of cancelled_db).
  assert (Hrun := audit_run (demo_env 0) cancelled_db (demo_reliable 0)).
  assert (Hb : ig_balanced (integrity_of cancelled_db) = true) by (vm_compute; reflexivity).
  split; [exact Hrun|]. split; [exact Hb|].
  apply (balanced_audit_means_no_money (demo_env 0) cancelled_db (integrity_of cancelled_db)
           cancelled_db cancelled_schema_ok); [|exact Hrun|exact Hb].
  intros e He. cbn [ledger_entries cancelled_db] in He. rewrite !elem_of_cons in He.
  destruct He as [->|[->|He]]; [by eexists|by eexists|by apply not_elem_of_nil in He].
Defined.

(** An account seeded with a balance but no entries drifts.  On the tables the test
    fixtures set up (a wallet row with 100000 and an empty journal) the audit reports one
    drifted account and not balanced, before and after a transfer of 10000 to the merchant. *)
Theorem seeded_balance_drifts :
  integrity_of demo_db = mkIntegrityResponse false 0 1 /\
  exists txn db', in_transaction (demo_env 1000) (post TxnPAYMENT 7 (transfer wallet merchant 10000))
      demo_db = (Ok txn, db') /\
    integrity_of db' = mkIntegrityResponse false 0 1.
Proof.
  split; [vm_compute; reflexivity|].
  destruct (in_transaction _ _ demo_db) as [[txn|e] db'] eqn:Htx.
  - exists txn, db'. split; [reflexivity|].
    change db' with (snd (@Ok exn _ txn, db')). rewrite <- Htx. vm_compute. reflexivity.
  - exfalso. assert (Hok : is_ok (fst (@Err exn LedgerTransaction e, db')) = true)
      by (rewrite <- Htx; vm_compute; reflexivity). done.
Qed.

(** ** The expiry of holds *)

(** A run the engine can take on: every stale hold is a row that fits, suspense holds the sum
    of their amounts, and the ledger has room and new ids for a transfer each. *)
Record expiry_setup (env : Env) (row_order : list Payment -> list Payment) (n : Z) (db : DB)
  : Prop := {
  ex_order : forall l, row_order l ≡ₚ l;
  ex_draws : Inj eq eq (uuid4_at env);
  ex_books : books_balanced db;
  ex_holds : forall p, p ∈ stale_payments row_order (now_at env 0 - minutes n) db ->
    0 < p_amount p /\ p_version p + 1 <= int64_max /\
    first_violation (payment_row_checks p db) = None;
  ex_ledger : ledger_ready_at
    (2 * Z.of_nat (List.length (stale_payments row_order (now_at env 0 - minutes n) db))) 0 env db;
  ex_funds : lsum p_amount (stale_payments row_order (now_at env 0 - minutes n) db) <=
    balance_of db PSP_SUSPENSE_ACCOUNT_ID;
}.

Lemma expire_run env row_order n db :
  expiry_setup env row_order n db ->
  exists db', in_transaction env (expire_stale_holds row_order n) db =
    (Ok (Z.of_nat (List.length (stale_payments row_order (now_at env 0 - minutes n) db))), db').
Proof.
  intros [Hperm Hinj Hb Hholds Hlr Hsum].
  set (stale := stale_payments row_order (now_at env 0 - minutes n) db) in *.
  pose proof (lr_schema _ _ _ _ Hlr) as Hso. pose proof (lr_reliable _ _ _ _ Hlr) as Hr.
  set (s1 := with_locks (map (fun p => LockPayment (p_id p)) stale)
               (tick (tick (begin_session env db)))).
  assert (Hstale : forall p, p ∈ stale -> reversible db p).
  { intros p Hp. destruct (Hholds p Hp) as (Hamt & Hver & Hfit).
    apply elem_of_stale in Hp as (Hrow & Hau & _); [|done..]. by constructor. }
  destruct (reverse_all_progress stale 0 s1) as (s2 & Hrun);
    [by apply stale_NoDup|done|done|done|eapply ledger_ready_later; [exact Hlr|done|simpl; lia]
    |done|].
  assert (Hbegin : expire_stale_holds row_order n (begin_session env db) = reverse_all stale 0 s1).
  { unfold expire_stale_holds. rewrite (bind_Ok _ _ _ _ _ (now_eq _)).
    rewrite (bind_Ok _ _ _ _ _ (statement_reliable (tick (begin_session env db)) Hr)).
    unfold gets. unfold mbind at 1, stm_bind. rewrite (bind_Ok _ _ _ _ _ (lock_payments_eq _ _)).
    done. }
  pose proof Hrun as Hinv. apply reverse_all_inv in Hinv as (_ & Hp & Har);
    [|done|done|by apply stale_NoDup|].
  - exists (s_db s2). apply in_transaction_ok; [apply _| |done|done|].
    + rewrite Hbegin. exact Hrun.
    + eapply steps_books_balanced; [apply (ar_steps _ _ _ Har)|exact Hb].
  - intros p Hp. by destruct (Hstale p Hp).
Qed.

(** C28: the expiry reverses exactly the stale holds.  With the funds of the stale holds in
    suspense the run commits and returns their number: the payments that were AUTHORIZED and
    created before now minus the timeout; each is FAILED afterwards, every other payment is
    as it was, and every balance has changed by the reversals only: the amounts left the
    suspense account for their payers. *)
Theorem expire_reverses_stale_holds env row_order n db :
  expiry_setup env row_order n db ->
  exists stale db',
    in_transaction env (expire_stale_holds row_order n) db =
      (Ok (Z.of_nat (List.length stale)), db') /\
    NoDup (map p_id stale) /\
    (forall p, p ∈ stale <-> payments db !! p_id p = Some p /\ p_status p = AUTHORIZED /\
       p_created_at p < now_at env 0 - n * 60000000) /\
    (forall p, p ∈ stale -> exists t, payments db' !! p_id p = Some (reversed p t)) /\
    (forall i, i ∉ map p_id stale -> payments db' !! i = payments db !! i) /\
    (forall a, balance_of db' a = balance_of db a +
       lsum (fun p => delta (reverse_postings p) a) stale).
Proof.
  intros Hset. destruct (expire_run _ _ _ _ Hset) as [db' Hrun].
  pose proof (ex_order _ _ _ _ Hset) as Hperm.
  pose proof (lr_schema _ _ _ _ (ex_ledger _ _ _ _ Hset)) as Hso.
  exists (stale_payments row_order (now_at env 0 - minutes n) db), db'. split; [exact Hrun|].
  apply expire_committed in Hrun as [_ [Hrows Hothers Hbal _ _]]; [|done..].
  split; [by apply stale_NoDup|]. split; [|done].
  intros p. by apply elem_of_stale.
Qed.

(** Half an hour and a microsecond after the start. *)
Definition late_env : Env :=
  mkEnv (fun n => (1000 + N.of_nat n)%N) (fun n => 1800000001 + Z.of_nat n) (fun _ => None).

Definition in_table (ps : list Payment) : list Payment := ps.

Lemma late_expiry : expiry_setup late_env in_table 30 paid_db.
Proof.
  assert (Hst : stale_payments in_table (now_at late_env 0 - minutes 30) paid_db = [old_hold])
    by (vm_compute; reflexivity).
  constructor; rewrite ?Hst.
  - done.
  - intros i j. simpl. lia.
  - exact paid_books.
  - intros p ->%list_elem_of_singleton. split; [done|]. split; [vm_compute; discriminate|].
    vm_compute. reflexivity.
  - constructor; [done|exact paid_schema_ok| |by apply paid_version_room|by eexists|done].
    rewrite paid_total. unfold int64_max. lia.
  - vm_compute. discriminate.
Qed.

Lemma expire_reverses_stale_holds_witness :
  exists stale db',
    in_transaction late_env (expire_stale_holds in_table 30) paid_db =
      (Ok (Z.of_nat (List.length stale)), db') /\
    stale = [old_hold] /\ balance_of db' wallet = 69500 /\
    payments db' !! 9002%N = Some new_hold.
Proof.
  destruct (expire_reverses_stale_holds late_env in_table 30 paid_db late_expiry)
    as (stale & db' & Hrun & Hnd & Hin & Hrows & Hothers & Hbal).
  assert (Hst : stale = [old_hold]).
  { clear Hrun Hrows Hothers Hbal. assert (Hone : forall p, p ∈ stale -> p = old_hold).
    { intros p Hp. apply Hin in Hp as (Hrow & Hau & Hold). cbn [payments paid_db demo_with] in Hrow.
      rewrite !lookup_insert_Some, lookup_singleton_Some in Hrow.
      destruct Hrow as [[_ <-]|[_ [[_ <-]|[_ [_ <-]]]]]; [done|done|]. vm_compute in Hold. done. }
    assert (Hex : old_hold ∈ stale) by (apply Hin; split; [reflexivity|split; [reflexivity|vm_compute; reflexivity]]).
    destruct stale as [|p [|q ps]]; [by apply not_elem_of_nil in Hex| |].
    - by rewrite (Hone p) by (by left).
    - exfalso. cbn [map] in Hnd. apply NoDup_cons in Hnd as [Hni _]. apply Hni.
      rewrite (Hone p), (Hone q) by (rewrite !elem_of_cons; auto). by left. }
  exists stale, db'. split; [exact Hrun|]. split; [exact Hst|]. split.
  - rewrite Hbal, Hst. vm_compute. reflexivity.
  - rewrite Hothers; [vm_compute; reflexivity|].
    rewrite Hst. cbn. rewrite list_elem_of_singleton. discriminate.
Defined.
