(* ===== verification/LockOrder.v ===== *)
(** * LockOrder: the row locks of whole transactions

    Every transaction of the payment, refund and webhook services takes its row locks in the
    order of [Locks]: at most one payment row, then balance rows by ascending account id.
    The expiry of several holds does not, and can deadlock with a refund. *)

From S2P Require Import Prelude PyStd Domain Models Session Ledger Journal Fixtures Psp Idempotency Saga Waiting Locks Schemas Payments Refunds Lifecycle Webhooks Reconciliation.
From Stdlib Require Import String.

(** ** The locks a program takes *)

(** Asking again for a lock that is held does not wait: the first requests count. *)
Fixpoint acquired (held ls : list row_lock) : list row_lock :=
  match ls with
  | [] => []
  | l :: ls' => if decide (l ∈ held) then acquired held ls' else l :: acquired (l :: held) ls'
  end.

Definition acquisitions (ls : list row_lock) : list row_lock := acquired [] ls.

(** A run of [m] that returns [a] has taken locks [ls] with [P a ls]. *)
Definition takes {A : Type} (m : M A) (P : A -> list row_lock -> Prop) : Prop :=
  forall s a s', schema_ok (s_db s) -> m s = Ok (a, s') ->
    exists ls, s_locks s' = s_locks s ++ ls /\ P a ls.

Class Lockless {A : Type} (m : M A) : Prop := lockless : takes m (fun _ ls => ls = []).
#[global] Hint Mode Lockless ! ! : typeclass_instances.

Lemma takes_bind {A B} (m : M A) `{!Flushes m} (f : A -> M B) P Q R :
  takes m P -> (forall a, takes (f a) (Q a)) ->
  (forall a b l1 l2, P a l1 -> Q a b l2 -> R b (l1 ++ l2)) -> takes (m ≫= f) R.
Proof.
  intros Hm Hf HR s b s' Hso H. inv_bind_as H a s1 H1 H2.
  pose proof (schema_ok_flushes _ _ _ _ H1 Hso) as Hso1.
  destruct (Hm _ _ _ Hso H1) as (l1 & E1 & P1). destruct (Hf _ _ _ _ Hso1 H2) as (l2 & E2 & P2).
  exists (l1 ++ l2). split; [|by eapply HR]. by rewrite E2, E1, app_assoc.
Qed.

Lemma takes_after {A B} (m : M A) `{!Flushes m, !Lockless m} (f : A -> M B) R :
  (forall a, takes (f a) R) -> takes (m ≫= f) R.
Proof. intros Hf. eapply takes_bind; [apply _|apply lockless|exact Hf|]. by intros a b ? l2 ->. Qed.

Lemma takes_then {A B} (m : M A) `{!Flushes m} (f : A -> M B) P (R : B -> list row_lock -> Prop) :
  takes m P -> (forall a, Lockless (f a)) -> (forall a b ls, P a ls -> R b ls) ->
  takes (m ≫= f) R.
Proof.
  intros Hm Hf HR. eapply takes_bind; [apply _|exact Hm|intros a; apply lockless|].
  intros a b l1 ? H1 ->. rewrite app_nil_r. by eapply HR.
Qed.

Lemma takes_weaken {A} (m : M A) (P Q : A -> list row_lock -> Prop) :
  (forall a ls, P a ls -> Q a ls) -> takes m P -> takes m Q.
Proof. intros HPQ Hm s a s' Hso H. destruct (Hm _ _ _ Hso H) as (ls & E & HP). eauto. Qed.

Lemma takes_lockless {A} (m : M A) (P : A -> list row_lock -> Prop) :
  Lockless m -> (forall a, P a []) -> takes m P.
Proof. intros Hm HP. eapply takes_weaken; [|exact Hm]. by intros a ls ->. Qed.

Lemma takes_throw {A} (e : exn) (P : A -> list row_lock -> Prop) : takes (mthrow e : M A) P.
Proof. by intros s a s' _ H. Qed.

#[global] Instance Lockless_bind {A B} (m : M A) (f : A -> M B) :
  Flushes m -> Lockless m -> (forall a, Lockless (f a)) -> Lockless (m ≫= f).
Proof. intros Hfl Hm Hf. by apply takes_after. Qed.

Ltac solve_lockless_prim :=
  intros ?s ?a ?s' _ ?H; msess; exists []; simpl; by rewrite ?app_nil_r.

#[global] Instance Lockless_ret {A} (a : A) : Lockless (mret a).
Proof. solve_lockless_prim. Qed.
#[global] Instance Lockless_throw {A} (e : exn) : Lockless (mthrow e : M A).
Proof. by intros s a s' _ H. Qed.
#[global] Instance Lockless_lift {A} (r : result exn A) : Lockless (lift r).
Proof. solve_lockless_prim. Qed.
#[global] Instance Lockless_gets {A} (f : Session -> A) : Lockless (gets f).
Proof. solve_lockless_prim. Qed.
#[global] Instance Lockless_now : Lockless now.
Proof. solve_lockless_prim. Qed.
#[global] Instance Lockless_uuid4 : Lockless uuid4.
Proof. solve_lockless_prim. Qed.
#[global] Instance Lockless_statement : Lockless statement.
Proof. solve_lockless_prim. Qed.
#[global] Instance Lockless_add op : Lockless (session_add op).
Proof. solve_lockless_prim. Qed.
#[global] Instance Lockless_flush : Lockless flush.
Proof. solve_lockless_prim. Qed.

(** Prove [Lockless] of a program by its structure. *)
Ltac solve_lockless :=
  repeat match goal with
  | |- Lockless (_ ≫= _) => apply Lockless_bind; [first [apply _ | solve_flushes] | |intros ?]
  | |- Lockless (match ?x with _ => _ end) => destruct x
  | |- Lockless (let _ := _ in _) => cbv zeta
  | |- Lockless _ => apply _
  end.

#[global] Instance Lockless_select_idempotency m k : Lockless (select_idempotency m k).
Proof. unfold select_idempotency. solve_lockless. Qed.
#[global] Instance Lockless_claim_found m k h r : Lockless (claim_found m k h r).
Proof. unfold claim_found. solve_lockless. Qed.
#[global] Instance Lockless_claim l m k p : Lockless (claim_or_replay l m k p).
Proof. unfold claim_or_replay. solve_lockless. Qed.
#[global] Instance Lockless_complete m k i c b : Lockless (complete m k i c b).
Proof. unfold complete. solve_lockless. Qed.
#[global] Instance Lockless_add_outbox a i e p : Lockless (add_outbox a i e p).
Proof. unfold add_outbox. solve_lockless. Qed.

(** ** The locks of the services *)

Definition only_balances (ls : list row_lock) : Prop :=
  exists ids, StronglySorted N.lt ids /\ ls = map LockBalance ids.

(** One payment row, asked for any number of times, then balance rows. *)
Definition one_payment (i : uuid) (ls : list row_lock) : Prop :=
  exists k ls', only_balances ls' /\ ls = replicate k (LockPayment i) ++ ls'.

Lemma no_balances : only_balances [].
Proof. exists []. split; [constructor|done]. Qed.

Lemma one_payment_balances i ls : only_balances ls -> one_payment i ls.
Proof. intros H. by exists 0%nat, ls. Qed.

Lemma one_payment_again i ls : one_payment i ls -> one_payment i ([LockPayment i] ++ ls).
Proof. intros (k & ls' & H & ->). by exists (S k), ls'. Qed.

Lemma acquired_balances held ids :
  StronglySorted N.lt ids -> (forall j, LockBalance j ∉ held) ->
  acquired held (map LockBalance ids) = map LockBalance ids.
Proof.
  intros Hs Hnone.
  assert (Hn : forall j, j ∈ ids -> LockBalance j ∉ held) by done. clear Hnone.
  revert held Hn. induction Hs as [|i ids Hs IH Hall]; intros held Hn; [done|]. simpl.
  rewrite decide_False by (apply Hn; by left). f_equal. apply IH. intros j Hj Hin.
  apply elem_of_cons in Hin as [[= ->]|Hin]; [|eapply Hn; [by right|done]].
  apply (proj1 (Forall_forall _ _) Hall) in Hj. lia.
Qed.

Lemma acquired_again i held k ls :
  LockPayment i ∈ held -> acquired held (replicate k (LockPayment i) ++ ls) = acquired held ls.
Proof. intros Hin. induction k as [|k IH]; [done|]. simpl. by rewrite decide_True. Qed.

Lemma one_payment_in_order i ls : one_payment i ls -> in_order (acquisitions ls).
Proof.
  intros (k & ls' & (ids & Hs & ->) & ->). unfold acquisitions. destruct k as [|k]; simpl.
  - rewrite acquired_balances; [by apply balances_in_order|done|].
    intros j Hj. by apply not_elem_of_nil in Hj.
  - rewrite acquired_again by (by left).
    rewrite acquired_balances; [by apply payment_then_balances|done|].
    intros j Hj. by apply list_elem_of_singleton in Hj.
Qed.

Lemma takes_post ty ref ps : takes (post ty ref ps) (fun _ => only_balances).
Proof.
  intros s txn s' Hso H. apply post_Ok_inv in H as (db0 & _ & _ & _ & _ & _ & _ & _ & _ & Hl); [|done].
  eexists. split; [exact Hl|]. eexists. split; [|done]. apply sorted_ids_StronglySorted.
Qed.

Lemma takes_select_payment i :
  takes (select_payment_for_update i) (fun _ => one_payment i).
Proof.
  intros s row s' Hso H. apply select_payment_Ok_inv in H as [-> ->]. simpl. eexists.
  split; [done|]. destruct (payments (s_db s) !! i).
  - apply (one_payment_again _ []), one_payment_balances, no_balances.
  - apply one_payment_balances, no_balances.
Qed.

(** A payment row first, then what comes after it. *)
Lemma takes_payment_first {A} i (f : option Payment -> M A) :
  (forall p, takes (f (Some p)) (fun _ => only_balances)) -> takes (f None) (fun _ => only_balances) ->
  takes (select_payment_for_update i ≫= f) (fun _ => one_payment i).
Proof.
  intros Hsome Hnone s a s' Hso H. inv_bind_as H row s1 H1 H2.
  pose proof (schema_ok_flushes _ _ _ _ H1 Hso) as Hso1.
  apply select_payment_Ok_inv in H1 as [-> ->].
  assert (Hk : exists ls, s_locks s' = (s_locks s ++ match payments (s_db s) !! i with
            Some _ => [LockPayment i] | None => [] end) ++ ls /\ only_balances ls).
  { destruct (payments (s_db s) !! i) as [p|]; [eapply Hsome in H2|eapply Hnone in H2]; try done. }
  destruct Hk as (ls & -> & Hls). rewrite <- app_assoc. eexists. split; [done|].
  destruct (payments (s_db s) !! i); [by apply one_payment_again, one_payment_balances|].
  by apply one_payment_balances.
Qed.

(** The end of a phase: a posting and statements without locks. *)
Lemma takes_posting {A} ty ref ps (f : LedgerTransaction -> M A) :
  (forall t, Lockless (f t)) -> takes (post ty ref ps ≫= f) (fun _ => only_balances).
Proof. intros Hf. eapply takes_then; [apply _|apply takes_post|done|done]. Qed.

Lemma takes_hold p : takes (hold p) (fun _ => only_balances).
Proof.
  unfold hold. apply takes_after; [apply _..|intros _]. apply takes_after; [apply _..|intros _].
  apply takes_posting. intros t. solve_lockless.
Qed.

Lemma takes_settle i r : takes (settle i r) (fun _ => one_payment i).
Proof.
  unfold settle. apply takes_payment_first; [|apply takes_throw]. intros p.
  apply takes_after; [apply _..|intros t]. cbv zeta. apply takes_after; [apply _..|intros _].
  apply takes_posting. intros t'. solve_lockless.
Qed.

Lemma takes_reverse i : takes (reverse i) (fun _ => one_payment i).
Proof.
  unfold reverse. apply takes_payment_first; [|apply takes_throw]. intros p.
  apply takes_after; [apply _..|intros t]. cbv zeta. apply takes_after; [apply _..|intros _].
  apply takes_posting. intros t'. solve_lockless.
Qed.

Section services.
  Context {DT : DatetimeText}.

Lemma takes_create_tx1 lock i k rq : takes (create_tx1 lock i k rq) (fun _ => only_balances).
Proof.
  unfold create_tx1. apply takes_after; [apply _..|]. intros [[code body]|].
  - apply takes_lockless; [unfold replay_payment; solve_lockless|intros _; apply no_balances].
  - apply takes_after; [apply _..|intros t]. eapply takes_then; [apply _|apply takes_hold|apply _|done].
Qed.

Lemma takes_park i r : takes (park_authorized i r) (fun _ => one_payment i).
Proof.
  unfold park_authorized. apply takes_payment_first; [|apply takes_throw]. intros p.
  apply takes_lockless; [solve_lockless|intros _; apply no_balances].
Qed.

Lemma takes_create_tx2 i k m auth : takes (create_tx2 i k m auth) (fun _ => one_payment i).
Proof.
  unfold create_tx2. eapply takes_then with (P := fun _ => one_payment i); [| | |done].
  - destruct (ar_outcome auth); apply _.
  - destruct (ar_outcome auth); [apply takes_settle|apply takes_park|apply takes_reverse].
  - intros p. solve_lockless.
Qed.

Lemma takes_refund lock k i n : takes (refund lock k i n) (fun _ => one_payment i).
Proof.
  unfold refund. apply takes_after; [apply _..|]. intros [[code body]|].
  - apply takes_lockless; [solve_lockless|intros _; apply one_payment_balances, no_balances].
  - unfold refund_claimed. apply takes_payment_first; [|apply takes_throw]. intros p.
    destruct (negb _); [apply takes_throw|]. destruct (_ <? _); [apply takes_throw|].
    do 2 (apply takes_after; [apply _..|intros ?]). cbv zeta.
    do 3 (apply takes_after; [apply _..|intros ?]; cbv zeta).
    apply takes_posting. intros ?. solve_lockless.
Qed.

Definition some_payment (ls : list row_lock) : Prop := exists i, one_payment i ls.

Lemma takes_apply_event ty ref : takes (apply_event ty ref) (fun _ => some_payment).
Proof.
  assert (Hnone : takes (mret tt) (fun _ : unit => some_payment)).
  { apply takes_lockless; [apply _|]. intros _. exists 0%N.
    apply one_payment_balances, no_balances. }
  unfold apply_event. destruct (py_truthy ref); [|exact Hnone].
  apply (takes_bind _ _ (fun row ls => match row with
           | Some p => ls = [LockPayment (p_id p)] | None => ls = [] end)
         (fun row _ ls => match row with Some p => one_payment (p_id p) ls | None => ls = [] end)).
  - intros s row s' _ H. unfold select_payment_by_reference in H. inv_bind_as H u s1 Hst Hk.
    apply statement_Ok_inv in Hst as [_ ->]. destruct ref as [| | | |r| |]; try done.
    destruct (no_nul r); [|done].
    inv_bind_as Hk rows s2 Hg Hk1. unfold gets in Hg. injection Hg as <- <-.
    inv_bind_as Hk1 u2 s3 Hl Hk2. rewrite lock_payments_eq in Hl. injection Hl as _ <-.
    cbn [s_db tick] in Hk2. destruct (payments_by_reference (s_db s) r) as [|p [|]]; [| |done];
      apply ret_Ok_inv in Hk2 as [-> ->]; (eexists; split; [simpl; reflexivity|done]).
  - intros [p|]; [|apply lockless].
    assert (Hret : takes (mret tt) (fun _ : unit => one_payment (p_id p))).
    { apply takes_lockless; [apply _|]. intros _. apply one_payment_balances, no_balances. }
    case_bool_decide; [|exact Hret]. apply takes_after; [apply _..|]. intros [].
    { eapply takes_then; [apply _|apply takes_settle|apply _|done]. }
    apply takes_after; [apply _..|]. intros []; [|exact Hret].
    eapply takes_then; [apply _|apply takes_reverse|apply _|done].
  - intros [p|] u l1 l2 -> H2; [exists (p_id p); by apply one_payment_again|].
    subst l2. exists 0%N. apply one_payment_balances, no_balances.
Qed.

Lemma takes_handle st ce jl raw sig : takes (handle st ce jl raw sig) (fun _ => some_payment).
Proof.
  assert (Hnone : takes (mret tt) (fun _ : unit => some_payment)).
  { apply takes_lockless; [apply _|]. intros _. exists 0%N.
    apply one_payment_balances, no_balances. }
  unfold handle. destruct (String.eqb sig ""); [apply takes_throw|].
  apply takes_after; [apply _..|]. intros v. destruct (negb v); [apply takes_throw|].
  destruct (jl raw) as [data|]; [|apply takes_throw].
  apply takes_after; [apply _..|intros draw]. apply takes_after; [apply _..|intros ev].
  unfold handle_event. apply takes_after; [apply _| |].
  { unfold select_webhook_event. solve_lockless. }
  intros [w|]; [exact Hnone|]. apply takes_after; [apply _..|intros t].
  apply takes_after; [apply _| |].
  { unfold record_webhook. solve_lockless. }
  intros _. apply takes_after; [apply _..|intros _]. apply takes_apply_event.
Qed.

Lemma takes_in_order {A} (m : M A) (P : A -> list row_lock -> Prop) env db a s' :
  schema_ok db -> takes m P -> (forall a ls, P a ls -> some_payment ls) ->
  m (begin_session env db) = Ok (a, s') -> in_order (acquisitions (s_locks s')).
Proof.
  intros Hso Hm HP H. destruct (Hm (begin_session env db) a s' Hso H) as (ls & -> & Hls).
  apply HP in Hls as [i Hi]. by eapply one_payment_in_order.
Qed.

(** What a request of the services locks, in the order of the first requests: its
    transaction ran in an environment and on tables of its own. *)
Inductive service_plan : list row_lock -> Prop :=
| plan_create_tx1 env db lock i k rq r s : schema_ok db ->
    create_tx1 lock i k rq (begin_session env db) = Ok (r, s) -> service_plan (acquisitions (s_locks s))
| plan_create_tx2 env db i k m auth r s : schema_ok db ->
    create_tx2 i k m auth (begin_session env db) = Ok (r, s) -> service_plan (acquisitions (s_locks s))
| plan_refund env db lock k i n r s : schema_ok db ->
    refund lock k i n (begin_session env db) = Ok (r, s) -> service_plan (acquisitions (s_locks s))
| plan_handle env db st ce jl raw sig r s : schema_ok db ->
    handle st ce jl raw sig (begin_session env db) = Ok (r, s) -> service_plan (acquisitions (s_locks s)).

Lemma service_plan_in_order ls : service_plan ls -> in_order ls.
Proof.
  assert (Hone : forall i ls, one_payment i ls -> some_payment ls) by (intros i; by exists i).
  assert (Hbal : forall ls, only_balances ls -> some_payment ls)
    by (intros ls' H; exists 0%N; by apply one_payment_balances).
  intros [env db lock i k rq r s Hso H|env db i k m auth r s Hso H|env db lock k i n r s Hso H
         |env db st ce jl raw sig r s Hso H]; revert H.
  - eapply takes_in_order; [done|apply takes_create_tx1|intros ?; exact Hbal].
  - eapply takes_in_order; [done|apply takes_create_tx2|intros ?; apply Hone].
  - eapply takes_in_order; [done|apply takes_refund|intros ?; apply Hone].
  - eapply takes_in_order; [done|apply takes_handle|done].
Qed.

(** Every transaction of the services takes its row locks in order: both transactions of
    a payment, a refund, and a webhook, whatever they find in the tables, have locked at most
    one payment row, before any balance row, and the balance rows by ascending account id
    (counting the first request for each row). *)
Theorem transactions_lock_in_order env db s' :
  schema_ok db ->
  (forall lock i k rq r, create_tx1 lock i k rq (begin_session env db) = Ok (r, s') ->
     in_order (acquisitions (s_locks s'))) /\
  (forall i k m auth r, create_tx2 i k m auth (begin_session env db) = Ok (r, s') ->
     in_order (acquisitions (s_locks s'))) /\
  (forall lock k i n r, refund lock k i n (begin_session env db) = Ok (r, s') ->
     in_order (acquisitions (s_locks s'))) /\
  (forall st ce jl raw sig r, handle st ce jl raw sig (begin_session env db) = Ok (r, s') ->
     in_order (acquisitions (s_locks s'))).
Proof. intros Hso. split_and!; intros; by eapply service_plan_in_order; econstructor. Qed.

(** C19: no deadlock.  However many requests are running (payments in either transaction,
    refunds, webhooks), each on the tables it met and however far it got with its row
    locks, not all of them are waiting for a row another one has locked. *)
Theorem services_never_deadlock (rs : list (Runner row_lock)) :
  rs <> [] -> Forall (fun r => service_plan (plan r)) rs -> exists r, r ∈ rs /\ ~ blocked rs r.
Proof.
  intros Hne Hall. apply (ordered_never_blocked lock_lt); [done|].
  apply (Forall_impl _ _ _ Hall). intros r. apply service_plan_in_order.
Qed.

End services.

#[local] Existing Instance binary_datetime.

(** A refund of 500 of the settled payment of the fixtures. *)
Definition refund_session : Session :=
  match refund None "refund-1" 9000 500 (begin_session (demo_env 1000) paid_db) with
  | Ok (_, s) => s
  | Err _ => begin_session (demo_env 1000) paid_db
  end.

Definition refund_answer : Z * RefundResponse :=
  match refund None "refund-1" 9000 500 (begin_session (demo_env 1000) paid_db) with
  | Ok (r, _) => r
  | Err _ => (0, mkRefundResponse 0 0 0 RefundFAILED 0)
  end.

Lemma refund_session_run :
  refund None "refund-1" 9000 500 (begin_session (demo_env 1000) paid_db) =
    Ok (refund_answer, refund_session).
Proof.
  unfold refund_answer, refund_session.
  destruct (refund None "refund-1" 9000 500 (begin_session (demo_env 1000) paid_db))
    as [[r s]|e] eqn:H; [done|].
  exfalso. assert (Hok : is_ok (@Err exn (Z * RefundResponse * Session) e) = true)
    by (rewrite <- H; vm_compute; reflexivity). discriminate Hok.
Qed.

Lemma refund_session_locks :
  acquisitions (s_locks refund_session) = [LockPayment 9000; LockBalance 101; LockBalance 202].
Proof. vm_compute. reflexivity. Qed.

Lemma transactions_lock_in_order_witness :
  in_order [LockPayment 9000; LockBalance 101; LockBalance 202].
Proof.
  rewrite <- refund_session_locks.
  apply (proj1 (proj2 (proj2 (transactions_lock_in_order (demo_env 1000) paid_db refund_session
           paid_schema_ok))) None "refund-1"%string 9000%N 500 refund_answer).
  exact refund_session_run.
Defined.

(** The refund, stopped at its second balance row, and another of the same payment. *)
Lemma services_never_deadlock_witness :
  let rs := [mkRunner [LockPayment 9000; LockBalance 101; LockBalance 202] 2;
             mkRunner [LockPayment 9000; LockBalance 101; LockBalance 202] 0] in
  exists r, r ∈ rs /\ ~ blocked rs r.
Proof.
  intros rs. apply services_never_deadlock; [discriminate|].
  unfold rs. rewrite <- refund_session_locks. repeat constructor;
    exact (plan_refund _ _ _ _ _ _ _ _ paid_schema_ok refund_session_run).
Defined.

(** ** The expiry of two holds *)

(** Two stale holds: of the merchant, and of the wallet. *)
Definition merchant_hold : Payment :=
  mkPayment 9001 "merchant_2" merchant wallet 7000 "INR" AUTHORIZED (Some "psp_2") 0 0 0 0.
Definition wallet_hold : Payment :=
  mkPayment 9002 "merchant_1" wallet merchant 500 "INR" AUTHORIZED (Some "psp_3") 0 0 0 0.

Definition two_holds_db : DB :=
  demo_with paid_balances
    {[ 9000%N := paid_payment; 9001%N := merchant_hold; 9002%N := wallet_hold ]}.

(** The order the SELECT returns them in: any permutation is possible. *)
Definition select_order (ps : list Payment) : list Payment := rev ps.

Definition half_past : Env :=
  mkEnv (fun n => (1000 + N.of_nat n)%N) (fun n => 1800000001 + Z.of_nat n) (fun _ => None).

Definition expiry_locks : list row_lock :=
  match expire_stale_holds select_order 30 (begin_session half_past two_holds_db) with
  | Ok (_, s) => acquisitions (s_locks s)
  | Err _ => []
  end.

(** The refund of the settled payment, in the same tables. *)
Definition refund_locks : list row_lock :=
  match refund None "refund-1" 9000 500 (begin_session (demo_env 5000) two_holds_db) with
  | Ok (_, s) => acquisitions (s_locks s)
  | Err _ => []
  end.

(** An expiry run can deadlock with a refund.  With two stale holds, one paid by the
    account of the larger id and reversed first, the run that would succeed alone takes its
    balance rows out of order; when it holds the row of account 202 and a refund, which
    keeps the order, holds that of account 101, each waits for the other. *)
Theorem expiry_breaks_lock_order :
  ~ in_order expiry_locks /\ in_order refund_locks /\
  let rs := [mkRunner expiry_locks 4; mkRunner refund_locks 2] in
  Forall (blocked rs) rs.
Proof.
  assert (He : expiry_locks = [LockPayment 9001; LockPayment 9002; LockBalance 1; LockBalance 202;
                               LockBalance 101]) by (vm_compute; reflexivity).
  assert (Hr : refund_locks = [LockPayment 9000; LockBalance 101; LockBalance 202])
    by (vm_compute; reflexivity).
  rewrite He, Hr. split; [|split].
  - intros Hs. apply StronglySorted_inv in Hs as [_ Hs]. apply Forall_cons in Hs as [[] _].
  - repeat constructor.
  - cbv zeta. apply (bool_decide_eq_true_1 _). vm_compute. reflexivity.
Qed.
