(* ===== verification/ServiceJobs.v ===== *)
(** * ServiceJobs: the transactions of the services, interleaved statement by statement

    [Interleave] with the transactions of the payment and refund services: both transactions
    of a payment and a refund, in any number and on the same keys, payments and accounts.
    A transaction asks for its idempotency key, which it claims by inserting the row and
    which ends it when the row is there; for its payment row, which ends it when it is
    missing; and for the balance rows of its posting.  [ServiceTheorems.plans_are_locked]
    proves that these are the rows the code locks.

    A transaction whose earlier statements fail (the database is lost, a foreign key does
    not exist) is taken to ask for its rows all the same before it fails; the SELECT and the
    UPDATE of [complete], its last statements, are taken together with its commit.
    Webhooks select payments by another column than the key: [HookJobs] adds them.  The
    expiry runs as a whole in [System]. *)

From S2P Require Import Prelude PyStd Domain Models Session Ledger Journal LedgerTheorems Psp Idempotency Saga Locks Interleave Concurrency Schemas Payments Refunds Lifecycle LockOrder.
From Stdlib Require Import String.

(** ** Rows *)

Inductive Row :=
| KeyRow (key : string * string)      (* of [idempotency_keys]: merchant and key *)
| LockedRow (l : row_lock).

#[global] Instance row_eq_dec : EqDecision Row.
Proof. solve_decision. Defined.

Definition row_lt (a b : Row) : Prop :=
  match a, b with
  | KeyRow _, LockedRow _ => True
  | LockedRow l, LockedRow l' => lock_lt l l'
  | _, _ => False
  end.

Definition row_present (db : DB) (r : Row) : bool :=
  match r with
  | KeyRow key => bool_decide (is_Some (idempotency_keys db !! key))
  | LockedRow (LockPayment i) => bool_decide (is_Some (payments db !! i))
  | LockedRow (LockBalance a) => bool_decide (is_Some (account_balances db !! a))
  | LockedRow (LockOutbox i) => bool_decide (is_Some (outbox db !! i))
  end.

Definition row_same (r : Row) (db db' : DB) : Prop :=
  match r with
  | KeyRow key => idempotency_keys db' !! key = idempotency_keys db !! key
  | LockedRow (LockPayment i) => payments db' !! i = payments db !! i
  | LockedRow (LockBalance a) => account_balances db' !! a = account_balances db !! a
  | LockedRow (LockOutbox i) => outbox db' !! i = outbox db !! i
  end.

Definition put_row (r : Row) (d db : DB) : DB :=
  match r with
  | KeyRow key =>
      {| db with idempotency_keys := partial_alter (fun _ => idempotency_keys d !! key) key (idempotency_keys db) |}
  | LockedRow (LockPayment i) =>
      {| db with payments := partial_alter (fun _ => payments d !! i) i (payments db) |}
  | LockedRow (LockBalance a) => put_balance a d db
  | LockedRow (LockOutbox i) =>
      {| db with outbox := partial_alter (fun _ => outbox d !! i) i (outbox db) |}
  end.

(** A key that is there is answered from; a missing key is claimed, a missing balance row
    created; a missing payment is not found. *)
#[global] Instance service_rows : Rows DB Row := {
  present := row_present;
  ends_found r := match r with KeyRow _ => true | _ => false end;
  insertable r := match r with KeyRow _ | LockedRow (LockBalance _) => true | _ => false end;
  same := row_same;
  put := put_row;
  good := schema_ok;
  res_lt := row_lt;
}.

Lemma row_same_refl r db : row_same r db db.
Proof. by destruct r as [k|[]]. Qed.

Lemma row_same_trans r db1 db2 db3 : row_same r db1 db2 -> row_same r db2 db3 -> row_same r db1 db3.
Proof. destruct r as [k|[]]; simpl; congruence. Qed.

#[global] Instance service_row_laws : RowLaws DB Row.
Proof.
  constructor; simpl.
  - split; [intros [k|l]; [by intros []|exact (irreflexivity lock_lt l)]|].
    intros [k1|l1] [k2|l2] [k3|l3]; simpl; try done. apply (transitivity (R := lock_lt)).
  - exact row_same_refl.
  - exact row_same_trans.
  - intros [k|[]] s s' H; simpl in *; by rewrite H.
  - intros [k|[i|a|i]] d s H; simpl in *; [| |by apply put_balance_same|]; rewrite <- H;
      rewrite partial_alter_self; by destruct s.
Qed.

(** ** Jobs *)

Inductive ServiceJob :=
| JCreate (env : Env) (lock : option RedisSet) (payment_id : uuid) (idempotency_key : string)
    (request : CreatePaymentRequest)
| JResolve (env : Env) (payment_id : uuid) (idempotency_key merchant_id : string)
    (auth_result : AuthorizationResult)
| JRefund (env : Env) (lock : option RedisSet) (idempotency_key : string) (payment_id : uuid) (amount : Z).

Inductive ServiceAnswer :=
| AnsCreate (x : Z * PaymentResponse + Payment)
| AnsResolve (response : PaymentResponse)
| AnsRefund (x : Z * RefundResponse).

Definition answering {A} (f : A -> ServiceAnswer) (x : result exn A * DB) : result exn ServiceAnswer * DB :=
  match x with (Ok a, db) => (Ok (f a), db) | (Err e, db) => (Err e, db) end.

(** The rows a posting asks for, after it has validated its lines. *)
Definition post_rows (postings : list Posting) : list Row :=
  map (fun a => LockedRow (LockBalance a)) (post_ids postings).

Section jobs.
  Context {DT : DatetimeText}.

Definition run_service (j : ServiceJob) (db : DB) : result exn ServiceAnswer * DB :=
  match j with
  | JCreate env lock i k rq => answering AnsCreate (in_transaction env (create_tx1 lock i k rq) db)
  | JResolve env i k m auth => answering AnsResolve (in_transaction env (create_tx2 i k m auth) db)
  | JRefund env lock k i n => answering AnsRefund (in_transaction env (refund lock k i n) db)
  end.

End jobs.

(** The posting of each verdict of the provider. *)
Definition resolve_rows (p0 : Payment) (auth : AuthorizationResult) : list Row :=
  match ar_outcome auth with
  | CAPTURED => post_rows (settle_postings p0)
  | DECLINED => post_rows (reverse_postings p0)
  | PENDING => []
  end.

Definition refund_allowedb (p0 : Payment) (amount : Z) : bool :=
  refundable_status (p_status p0) && (p_refunded_amount p0 + amount <=? p_amount p0).

Definition service_plan_rows (j : ServiceJob) (db : DB) : list Row :=
  match j with
  | JCreate _ _ _ k rq =>
      KeyRow (cq_merchantId rq, k) ::
      match idempotency_keys db !! (cq_merchantId rq, k) with
      | Some _ => []
      | None => post_rows (transfer (cq_payerAccountId rq) PSP_SUSPENSE_ACCOUNT_ID (cq_amount rq))
      end
  | JResolve _ i _ _ auth =>
      LockedRow (LockPayment i) ::
      match payments db !! i with
      | Some p0 => resolve_rows p0 auth
      | None => []
      end
  | JRefund _ _ k i n =>
      KeyRow (refund_merchant, k) ::
      match idempotency_keys db !! (refund_merchant, k) with
      | Some _ => []
      | None =>
          LockedRow (LockPayment i) ::
          match payments db !! i with
          | Some p0 => if refund_allowedb p0 n then post_rows (refund_postings p0 n) else []
          | None => []
          end
      end
  end.

#[global] Instance service_jobs {DT : DatetimeText} : Jobs DB ServiceJob ServiceAnswer Row := {
  run := run_service;
  job_plan := service_plan_rows;
  plan_bound _ := 4%nat;
}.

(** ** Plans *)

Lemma decided_row_same db db' r : row_same r db db' -> decided db' r = decided db r.
Proof. exact (decided_same db db' r). Qed.

Lemma decided_cases db r :
  decided db r = false ->
  match r with
  | KeyRow key => idempotency_keys db !! key = None
  | LockedRow (LockPayment i) => is_Some (payments db !! i)
  | LockedRow (LockBalance _) => True
  | LockedRow (LockOutbox i) => is_Some (outbox db !! i)
  end.
Proof.
  unfold decided. destruct r as [key|[i|a|i]]; simpl; case_bool_decide; try done.
  by rewrite eq_None_not_Some.
Qed.

Lemma post_rows_undecided ps db r : r ∈ post_rows ps -> decided db r = false.
Proof. intros (a & -> & _)%list_elem_of_fmap. unfold decided. simpl. by case_bool_decide. Qed.

Lemma elem_of_post_rows ps a : LockedRow (LockBalance a) ∈ post_rows ps <-> a ∈ post_ids ps.
Proof.
  unfold post_rows. split; [intros (b & [= ->] & Hb)%list_elem_of_fmap; done|].
  apply (list_elem_of_fmap_2 (fun a => LockedRow (LockBalance a))).
Qed.

Lemma post_rows_sorted ps : StronglySorted row_lt (post_rows ps).
Proof.
  unfold post_rows. induction (post_ids_sorted ps) as [|a ids Hs IH Hall]; [constructor|].
  constructor; [done|]. apply Forall_forall. intros r (b & -> & Hb)%list_elem_of_fmap.
  by apply (proj1 (Forall_forall _ _) Hall).
Qed.

Lemma sorted_cons_rows r rs ps :
  (rs = [] \/ rs = post_rows ps) -> match r with LockedRow (LockPayment _) | KeyRow _ => True | _ => False end ->
  StronglySorted row_lt (r :: rs).
Proof.
  intros Hrs Hr. assert (Hs : StronglySorted row_lt rs /\ Forall (row_lt r) rs).
  { destruct Hrs as [-> | ->]; [by split; constructor|]. split; [apply post_rows_sorted|].
    apply Forall_forall. intros x (b & -> & _)%list_elem_of_fmap. by destruct r as [k|[]]. }
  by destruct Hs; constructor.
Qed.

Lemma transfer_rows_bound a b n : (List.length (post_rows (transfer a b n)) <= 2)%nat.
Proof.
  unfold post_rows. rewrite length_map. etrans; [apply post_ids_bound|].
  change 2%nat with (List.length (map po_account_id (transfer a b n))).
  apply submseteq_length, NoDup_submseteq; [apply sorted_ids_NoDup|].
  intros x. by rewrite elem_of_sorted_ids.
Qed.

Lemma resolve_rows_cases p0 auth :
  resolve_rows p0 auth = [] \/ exists a b n, resolve_rows p0 auth = post_rows (transfer a b n).
Proof. unfold resolve_rows. destruct (ar_outcome auth); [right|left|right]; try done; by eexists _, _, _. Qed.

Lemma service_plan_sorted j db : StronglySorted row_lt (service_plan_rows j db).
Proof.
  destruct j as [env lock i k rq|env i k m auth|env lock k i n]; simpl.
  - destruct (idempotency_keys db !! _); eapply sorted_cons_rows; eauto.
  - destruct (payments db !! i) as [p0|]; [|eapply (sorted_cons_rows _ _ []); eauto].
    destruct (resolve_rows_cases p0 auth) as [-> |(a & b & n & ->)]; eapply sorted_cons_rows; eauto.
  - destruct (idempotency_keys db !! _); [eapply (sorted_cons_rows _ _ []); eauto|].
    assert (Hs : StronglySorted row_lt (LockedRow (LockPayment i) ::
              match payments db !! i with
              | Some p0 => if refund_allowedb p0 n then post_rows (refund_postings p0 n) else []
              | None => [] end)).
    { destruct (payments db !! i) as [p0|]; [destruct (refund_allowedb p0 n)|]; eapply sorted_cons_rows; eauto. }
    constructor; [done|]. apply Forall_cons. split; [done|]. apply Forall_forall. intros r Hr.
    destruct (payments db !! i) as [p0|]; [destruct (refund_allowedb p0 n)|];
      try (by apply not_elem_of_nil in Hr). by apply list_elem_of_fmap in Hr as (a & -> & _).
  Unshelve. all: exact [].
Qed.

Lemma service_plan_bounded j db : (List.length (service_plan_rows j db) <= 4)%nat.
Proof.
  destruct j as [env lock i k rq|env i k m auth|env lock k i n]; simpl.
  - destruct (idempotency_keys db !! _); simpl; [lia|]. pose proof (transfer_rows_bound
      (cq_payerAccountId rq) PSP_SUSPENSE_ACCOUNT_ID (cq_amount rq)). lia.
  - destruct (payments db !! i) as [p0|]; simpl; [|lia].
    destruct (resolve_rows_cases p0 auth) as [-> |(a & b & n & ->)]; simpl; [lia|].
    pose proof (transfer_rows_bound a b n). lia.
  - destruct (idempotency_keys db !! _); simpl; [lia|]. destruct (payments db !! i) as [p0|]; simpl; [|lia].
    destruct (refund_allowedb p0 n); simpl; [|lia]. unfold refund_postings.
    pose proof (transfer_rows_bound (p_payee_account p0) (p_payer_account p0) n). lia.
Qed.

(** The plan goes on the same way as long as the rows read so far are the same. *)
Lemma service_plan_stable j db db' n :
  Forall (fun r => row_same r db db') (take n (service_plan_rows j db)) ->
  take (S n) (service_plan_rows j db') = take (S n) (service_plan_rows j db).
Proof.
  destruct j as [env lock i k rq|env i k m auth|env lock k i amt]; destruct n as [|n]; try done; simpl.
  - intros [-> _]%Forall_cons. done.
  - intros [-> _]%Forall_cons. done.
  - intros [-> Hrest]%Forall_cons. f_equal. destruct (idempotency_keys db !! _); [done|].
    destruct n as [|n]; [done|]. simpl in Hrest. by apply Forall_cons in Hrest as [-> _].
Qed.

(** A row that decides is the last one asked for. *)
Lemma service_plan_decided j db n r :
  service_plan_rows j db !! n = Some r -> decided db r = true -> List.length (service_plan_rows j db) = S n.
Proof.
  assert (Hpost : forall ps m, post_rows ps !! m = Some r -> decided db r = true -> False).
  { intros ps m H%list_elem_of_lookup_2 Hd. by rewrite (post_rows_undecided _ db _ H) in Hd. }
  assert (Hkey : forall key, decided db (KeyRow key) = true -> is_Some (idempotency_keys db !! key)).
  { intros key. unfold decided. simpl. by case_bool_decide. }
  assert (Hpay : forall i, decided db (LockedRow (LockPayment i)) = true -> payments db !! i = None).
  { intros i. unfold decided. simpl. case_bool_decide as H; [done|]. by rewrite eq_None_not_Some. }
  destruct j as [env lock i k rq|env i k m auth|env lock k i amt]; destruct n as [|n]; simpl.
  - intros [= <-] [row ->]%Hkey. done.
  - destruct (idempotency_keys db !! _); [done|]. intros H Hd. by destruct (Hpost _ _ H Hd).
  - intros [= <-] ->%Hpay. done.
  - destruct (payments db !! i) as [p0|]; [|done].
    destruct (resolve_rows_cases p0 auth) as [-> |(a & b & c & ->)]; [done|].
    intros H Hd. by destruct (Hpost _ _ H Hd).
  - intros [= <-] [row ->]%Hkey. done.
  - destruct (idempotency_keys db !! _); [done|]. destruct n as [|n]; simpl.
    + intros [= <-] ->%Hpay. done.
    + destruct (payments db !! i) as [p0|]; [|done]. destruct (refund_allowedb p0 amt); [|done].
      intros H Hd. by destruct (Hpost _ _ H Hd).
Qed.

(** ** What a transaction changes *)

Section runs.
  Context {DT : DatetimeText}.

Lemma answering_Err {A} (f : A -> ServiceAnswer) x e db :
  answering f x = (Err e, db) -> x = (Err e, db).
Proof. destruct x as [[a|e'] d]; simpl; [done|congruence]. Qed.

Lemma answering_Ok {A} (f : A -> ServiceAnswer) x a db :
  answering f x = (Ok a, db) -> exists b, a = f b /\ x = (Ok b, db).
Proof. destruct x as [[b|e'] d]; simpl; [intros [= <- <-]; by exists b|done]. Qed.

Lemma run_service_Err j db e db' : run_service j db = (Err e, db') -> db' = db.
Proof. destruct j; intros H%answering_Err; by eapply in_transaction_Err. Qed.

Lemma run_service_rtc j db a db' : run_service j db = (Ok a, db') -> rtc exec_step db db'.
Proof. destruct j; intros (b & _ & H)%answering_Ok; exact (in_transaction_rtc _ _ _ _ _ H). Qed.

(** No statement removes a row. *)
Lemma exec_step_keeps_row db db' r : exec_step db db' -> row_present db r = true -> row_present db' r = true.
Proof.
  intros (op & [_ ->]%exec_op_Ok). destruct r as [key|[i|a|i]]; simpl; rewrite !bool_decide_eq_true;
    destruct op; simpl; try done; intros H; apply lookup_insert_is_Some';
    match goal with |- ?k = ?k' \/ _ => destruct (decide (k = k')); [by left|by right] end.
Qed.

Lemma run_service_keeps j db a db' r :
  run_service j db = (Ok a, db') -> row_present db r = true -> row_present db' r = true.
Proof. intros H%run_service_rtc. induction H; eauto using exec_step_keeps_row. Qed.

(** A phase leaves the rows alone that others hold: every key, events, payments its
    statements do not write, balances its posting does not name. *)
Lemma phase_rows ops ty ref ps ev db db' r :
  phase ops ty ref ps ev db db' -> forallb payment_op ops = true ->
  (forall i, r = LockedRow (LockPayment i) -> payments (write_ops ops db) !! i = payments db !! i) ->
  r ∉ post_rows ps -> match r with LockedRow (LockOutbox i) => is_Some (outbox db !! i) | _ => True end ->
  row_same r db db'.
Proof.
  intros Hph Hops Hpay Hr Hout. apply phase_summarised in Hph as (txn & o & Hs & _); [|done].
  destruct r as [key|[i|a|i]]; simpl.
  - by rewrite (sm_idem _ _ _ _ _ _ Hs).
  - rewrite (sm_payments _ _ _ _ _ _ Hs). by apply Hpay.
  - apply (sm_untouched _ _ _ _ _ _ Hs). rewrite elem_of_post_rows in Hr. unfold post_ids in Hr.
    rewrite (sm_valid _ _ _ _ _ _ Hs) in Hr. by rewrite <- elem_of_sorted_ids.
  - rewrite (sm_outbox _ _ _ _ _ _ Hs). apply lookup_insert_ne. intros <-.
    rewrite (sm_outbox_fresh _ _ _ _ _ _ Hs) in Hout. by apply is_Some_None in Hout.
Qed.

(** Claiming or completing a key touches its row only. *)
Lemma claim_rows m k payload t db db' r :
  exec_op (InsertIdempotency (claim_row m k payload t)) db = Ok db' -> r <> KeyRow (m, k) -> row_same r db db'.
Proof.
  intros [_ ->]%exec_op_Ok Hne. destruct r as [key|[]]; simpl; try done.
  apply lookup_insert_ne. congruence.
Qed.

Lemma completion_rows m k i body db db' r :
  schema_ok db -> completion m k i body db db' -> decided db r = false -> row_same r db db'.
Proof.
  intros Hso Hc Hd. apply decided_cases in Hd. unfold completion in Hc.
  destruct (idempotency_keys db !! (m, k)) as [row|] eqn:Hrow; [|subst; apply row_same_refl].
  apply exec_op_Ok in Hc as [_ ->]. destruct r as [key|[]]; simpl; try done.
  rewrite (so_idem _ Hso _ _ Hrow). apply lookup_insert_ne. congruence.
Qed.

Lemma create_tx1_rows env lock i k rq db x db' r :
  schema_ok db -> in_transaction env (create_tx1 lock i k rq) db = (Ok x, db') ->
  decided db r = false -> r ∉ service_plan_rows (JCreate env lock i k rq) db -> row_same r db db'.
Proof.
  intros Hso Htx Hd Hr. apply create_tx1_committed in Htx; [|done]. simpl in Hr.
  apply not_elem_of_cons in Hr as [Hk Hr].
  destruct (idempotency_keys db !! (cq_merchantId rq, k)) as [row|].
  { destruct Htx as (? & ? & ? & _ & _ & _ & ->). apply row_same_refl. }
  destruct Htx as (t1 & t2 & db1 & _ & Hop & Hph).
  pose proof (claim_rows _ _ _ _ _ _ _ Hop Hk) as Hsame. eapply (row_same_trans r); [exact Hsame|].
  rewrite <- (decided_row_same _ _ _ Hsame) in Hd. apply decided_cases in Hd.
  eapply phase_rows; [exact Hph|done| |exact Hr|by destruct r as [|[]]].
  intros j ->. apply phase_summarised in Hph as (txn & o & Hs & _); [|done].
  pose proof (insert_payment_fresh _ _ _ (sm_exec _ _ _ _ _ _ Hs)) as Hf. cbn in Hf |- *.
  apply lookup_insert_ne. intros <-. rewrite Hf in Hd. by apply is_Some_None in Hd.
Qed.

Lemma resolution_rows i p0 auth t db db1 r :
  payments db !! i = Some p0 -> schema_ok db -> resolution i p0 auth t db db1 ->
  decided db r = false -> r <> LockedRow (LockPayment i) -> r ∉ resolve_rows p0 auth -> row_same r db db1.
Proof.
  intros Hp Hso Hres Hd%decided_cases Hne Hr. destruct (so_payment _ Hso _ _ Hp) as [Hid _].
  assert (Hpay : forall j, r = LockedRow (LockPayment j) ->
            payments (write_ops [UpdatePayment (resolved p0 auth t)] db) !! j = payments db !! j).
  { intros j ->. cbn. rewrite resolved_id, Hid. apply lookup_insert_ne. congruence. }
  unfold resolution in Hres. unfold resolve_rows in Hr.
  destruct (ar_outcome auth);
    [eapply phase_rows; [exact Hres|done|exact Hpay|exact Hr|by destruct r as [|[]]]
    | |eapply phase_rows; [exact Hres|done|exact Hpay|exact Hr|by destruct r as [|[]]]].
  apply exec_op_Ok in Hres as [_ ->]. destruct r as [key|[j|a|j]]; simpl; try done. by apply Hpay.
Qed.

Lemma resolution_rtc i p0 auth t db db1 : resolution i p0 auth t db db1 -> rtc exec_step db db1.
Proof.
  unfold resolution. destruct (ar_outcome auth); intros H;
    [|by apply rtc_once; eexists|]; apply phase_summarised in H as (txn & o & Hs & _); try done;
    apply (sm_rtc _ _ _ _ _ _ Hs).
Qed.

Lemma create_tx2_rows env i k m auth db x db' r :
  schema_ok db -> in_transaction env (create_tx2 i k m auth) db = (Ok x, db') ->
  decided db r = false -> r ∉ service_plan_rows (JResolve env i k m auth) db -> row_same r db db'.
Proof.
  intros Hso Htx Hd Hr. apply create_tx2_committed in Htx as (p0 & t & db1 & Hp & Hres & _ & Hcomp); [|done].
  simpl in Hr. rewrite Hp in Hr. apply not_elem_of_cons in Hr as [Hk Hr].
  pose proof (resolution_rows _ _ _ _ _ _ _ Hp Hso Hres Hd Hk Hr) as Hsame.
  eapply (row_same_trans r); [exact Hsame|]. eapply completion_rows; [|exact Hcomp|].
  - by eapply schema_ok_rtc; [eapply resolution_rtc|].
  - by rewrite (decided_row_same _ _ _ Hsame).
Qed.

Lemma refund_rows env lock k i n db x db' r :
  schema_ok db -> in_transaction env (refund lock k i n) db = (Ok x, db') ->
  decided db r = false -> r ∉ service_plan_rows (JRefund env lock k i n) db -> row_same r db db'.
Proof.
  intros Hso Htx Hd Hr. apply refund_committed in Htx; [|done]. simpl in Hr.
  apply not_elem_of_cons in Hr as [Hk Hr].
  destruct (idempotency_keys db !! (refund_merchant, k)) as [row|].
  { destruct Htx as (? & ? & ? & _ & _ & _ & ->). apply row_same_refl. }
  destruct Htx as (t0 & p0 & rid & t1 & t2 & db1 & db2 & Hop & Hp & [Hst Hle] & Hph & _ & Hcomp).
  apply not_elem_of_cons in Hr as [Hi Hr]. rewrite Hp in Hr. unfold refund_allowedb in Hr.
  rewrite Hst, (proj2 (Z.leb_le _ _) Hle) in Hr. simpl in Hr.
  pose proof (claim_rows _ _ _ _ _ _ _ Hop Hk) as Hsame1.
  pose proof (exec_op_schema_ok _ _ _ Hso Hop) as Hso1.
  destruct (so_payment _ Hso _ _ Hp) as [Hid _].
  assert (Hsame2 : row_same r db1 db2).
  { rewrite <- (decided_row_same _ _ _ Hsame1) in Hd. apply decided_cases in Hd.
    eapply phase_rows; [exact Hph|done| |exact Hr|by destruct r as [|[]]].
    intros j ->. cbn. rewrite Hid. apply lookup_insert_ne. congruence. }
  pose proof (row_same_trans r _ _ _ Hsame1 Hsame2) as Hsame. eapply (row_same_trans r); [exact Hsame|].
  eapply completion_rows; [|exact Hcomp|by rewrite (decided_row_same _ _ _ Hsame)].
  apply phase_summarised in Hph as (txn & o & Hs & _); [|done].
  by eapply schema_ok_rtc; [apply (sm_rtc _ _ _ _ _ _ Hs)|].
Qed.

#[global] Instance service_laws : JobLaws DB ServiceJob ServiceAnswer Row.
Proof.
  constructor; simpl.
  - exact run_service_Err.
  - intros j db a db' Hso H. by eapply schema_ok_rtc; [eapply run_service_rtc|].
  - intros j db a db' r _. apply run_service_keeps.
  - intros j db a db' r Hso H. destruct j; apply answering_Ok in H as (b & _ & H);
      [by eapply create_tx1_rows|by eapply create_tx2_rows|by eapply refund_rows].
  - intros j s s' n _ _. apply service_plan_stable.
  - intros j s n r _. apply service_plan_decided.
  - intros j s _. apply service_plan_sorted.
  - intros j s _. apply service_plan_bounded.
Qed.

End runs.
