(* ===== verification/HookJobs.v ===== *)
(** * HookJobs: webhooks interleaved with payments and refunds

    [Interleave] with the transactions of [ServiceJobs] and the deliveries of webhooks, in
    any number and of the same events and payments.  A delivery looks for its event, which
    ends it when it is recorded, and else inserts it, waiting for the uncommitted insert of
    another delivery of the same event; it then locks the payment with its reference and the
    balance rows of the transition.

    A delivery finds its payment by [psp_reference], a column no lock protects: the second
    transaction of a payment gives the payment its reference, and a delivery that runs before
    that has committed finds no payment ([early_event_is_lost]).  Here the references that
    the second transactions may give ([assigned]) are not those the deliveries look for: the
    provider reports an event once the payment it is of has its reference. *)

From S2P Require Import Prelude PyStd Domain Models Session Ledger Journal LedgerTheorems Psp Idempotency Saga Locks Interleave Concurrency Schemas Payments Refunds Lifecycle LockOrder ServiceJobs Webhooks.
From Stdlib Require Import String.

(** ** Rows *)

Inductive HookRow :=
| EventRow (psp_event_id : string)   (* of [webhook_events] *)
| Base (r : Row).

#[global] Instance hook_row_eq_dec : EqDecision HookRow.
Proof. solve_decision. Defined.

Definition hook_lt (a b : HookRow) : Prop :=
  match a, b with
  | EventRow _, Base _ => True
  | Base r, Base r' => row_lt r r'
  | _, _ => False
  end.

(** The provider's reference of a payment. *)
Definition reference_of (db : DB) (i : uuid) : option string := payments db !! i ≫= p_psp_reference.
Definition same_references (db db' : DB) : Prop := forall i, reference_of db' i = reference_of db i.

(** The payments the second transactions are of, and the references these may give. *)
Class Resolutions := { resolving : uuid -> bool; assigned : string -> bool }.

Section rows.
  Context {RES : Resolutions}.

(** The references no second transaction gives are of the same payments. *)
Definition same_free_references (db db' : DB) : Prop :=
  forall i r, assigned r = false -> reference_of db' i = Some r <-> reference_of db i = Some r.

(** A payment a second transaction is of has no other reference. *)
Definition hook_good (db : DB) : Prop :=
  schema_ok db /\ forall i r, resolving i = true -> reference_of db i = Some r -> assigned r = true.

(** A delivery that holds its event relies on the references too. *)
Definition hook_same (r : HookRow) (db db' : DB) : Prop :=
  match r with
  | EventRow e => webhook_events db' !! e = webhook_events db !! e /\ same_free_references db db'
  | Base r => row_same r db db'
  end.

#[global] Instance hook_rows : Rows DB HookRow := {
  present db r := match r with
    | EventRow e => bool_decide (is_Some (webhook_events db !! e))
    | Base r => row_present db r
    end;
  ends_found r := match r with EventRow _ => true | Base r => ends_found r end;
  insertable r := match r with EventRow _ => true | Base r => insertable r end;
  same := hook_same;
  put r d db := match r with
    | EventRow e =>
        {| db with webhook_events := partial_alter (fun _ => webhook_events d !! e) e (webhook_events db) |}
    | Base r => put_row r d db
    end;
  good := hook_good;
  res_lt := hook_lt;
}.

Lemma hook_same_refl r db : hook_same r db db.
Proof. destruct r as [e|r]; [by split|apply row_same_refl]. Qed.

Lemma hook_same_trans r db1 db2 db3 : hook_same r db1 db2 -> hook_same r db2 db3 -> hook_same r db1 db3.
Proof.
  destruct r as [e|r]; simpl; [|apply row_same_trans].
  intros [H1 R1] [H2 R2]. split; [congruence|]. intros i x Hx. by rewrite (R2 i x Hx), (R1 i x Hx).
Qed.

#[global] Instance hook_row_laws : RowLaws DB HookRow.
Proof.
  constructor; simpl.
  - destruct (res_lt_strict (State := DB) (Res := Row)) as [Hirr Htrans].
    split; [intros [e|r]; [by intros []|exact (Hirr r)]|].
    intros [e1|r1] [e2|r2] [e3|r3]; simpl; try done. exact (Htrans r1 r2 r3).
  - exact hook_same_refl.
  - exact hook_same_trans.
  - intros [e|r] s s' H; simpl in *; [by rewrite (proj1 H)|exact (same_present r s s' H)].
  - intros [e|r] d s H; simpl in *; [|exact (put_same r d s H)].
    destruct H as [<- _]. rewrite partial_alter_self. by destruct s.
Qed.

End rows.

(** ** Jobs *)

(** The reference an answer of the provider gives the payment. *)
Definition given_reference (auth : AuthorizationResult) : option string :=
  match ar_outcome auth with
  | CAPTURED => Some (str_or (ar_psp_reference auth) "")
  | PENDING => ar_psp_reference auth
  | DECLINED => None
  end.

Section job_type.
  Context {RES : Resolutions}.

Definition service_fits (j : ServiceJob) : bool :=
  match j with
  | JResolve _ i _ _ auth => resolving i && from_option assigned true (given_reference auth)
  | _ => true
  end.

Definition free_reference (psp_reference : json) : bool :=
  match psp_reference with JStr r => negb (assigned r) | _ => true end.

Definition event_fits (env : Env) (st : Settings) (ce : string -> string -> string -> Z -> bool)
    (jl : string -> option json) (raw_body sig : string) : bool :=
  from_option (fun ev => free_reference (ev_reference ev)) true (delivered_event env st ce jl raw_body sig).

Inductive HookJob :=
| HService (j : ServiceJob) (fits : service_fits j = true)
| HHandle (env : Env) (settings : Settings) (construct_event : string -> string -> string -> Z -> bool)
    (json_loads : string -> option json) (raw_body signature : string)
    (fits : event_fits env settings construct_event json_loads raw_body signature = true).

End job_type.

(** [AnsHandled is_new]: whether the event was new, or recorded before. *)
Inductive HookAnswer := AnsService (a : ServiceAnswer) | AnsHandled (is_new : bool).

Definition answering_with {A} (f : A -> HookAnswer) (x : result exn A * DB) : result exn HookAnswer * DB :=
  match x with (Ok a, db) => (Ok (f a), db) | (Err e, db) => (Err e, db) end.

(** The id of the event a delivery is of, once it is accepted. *)
Definition event_key {RES : Resolutions} (j : HookJob) : option string :=
  match j with
  | HService _ _ => None
  | HHandle env st ce jl raw_body sig _ =>
      match delivered_event env st ce jl raw_body sig with
      | Some ev => match ev_id ev with JStr e => Some e | _ => None end
      | None => None
      end
  end.

Definition is_new_event {RES : Resolutions} (j : HookJob) (db : DB) : bool :=
  match event_key j with Some e => is_absent (webhook_events db !! e) | None => false end.

(** The payment a reference is of. *)
Definition target (db : DB) (psp_reference : string) : option uuid :=
  match payments_by_reference db psp_reference with [p] => Some (p_id p) | _ => None end.

(** The rows of the transition the event asks of a payment. *)
Definition transition_rows (p : Payment) (event_type : json) : list Row :=
  match event_type with
  | JStr ty =>
      if negb (bool_decide (p_status p = AUTHORIZED)) then []
      else if str_in ty capture_events then post_rows (settle_postings p)
      else if str_in ty fail_events then post_rows (reverse_postings p)
      else []
  | _ => []
  end.

Definition event_rows (db : DB) (event_type psp_reference : json) : list Row :=
  match psp_reference with
  | JStr r =>
      if String.eqb r "" then []
      else match target db r with
           | Some i => LockedRow (LockPayment i) ::
               match payments db !! i with Some p => transition_rows p event_type | None => [] end
           | None => []
           end
  | _ => []
  end.

Definition hook_plan_rows {RES : Resolutions} (j : HookJob) (db : DB) : list HookRow :=
  match j with
  | HService j _ => map Base (service_plan_rows j db)
  | HHandle env st ce jl raw_body sig _ =>
      match delivered_event env st ce jl raw_body sig with
      | Some ev =>
          match ev_id ev with
          | JStr e => EventRow e ::
              match webhook_events db !! e with
              | Some _ => []
              | None => map Base (event_rows db (ev_type ev) (ev_reference ev))
              end
          | _ => []
          end
      | None => []
      end
  end.

Section jobs.
  Context {DT : DatetimeText} {RES : Resolutions}.

Definition run_hook (j : HookJob) (db : DB) : result exn HookAnswer * DB :=
  match j with
  | HService j _ => answering_with AnsService (run_service j db)
  | HHandle env st ce jl raw_body sig _ =>
      answering_with (fun _ => AnsHandled (is_new_event j db))
        (in_transaction env (handle st ce jl raw_body sig) db)
  end.

End jobs.

#[global] Instance hook_jobs {DT : DatetimeText} {RES : Resolutions} : Jobs DB HookJob HookAnswer HookRow := {
  run := run_hook;
  job_plan := hook_plan_rows;
  plan_bound _ := 4%nat;
}.

(** ** Plans *)

Lemma decided_base {RES : Resolutions} db r : decided (Res := HookRow) db (Base r) = decided db r.
Proof. done. Qed.

Lemma decided_event {RES : Resolutions} db e : decided db (EventRow e) = false -> webhook_events db !! e = None.
Proof. unfold decided. simpl. case_bool_decide; [done|]. by rewrite eq_None_not_Some. Qed.

Lemma elem_of_base r rs : Base r ∈ map Base rs <-> r ∈ rs.
Proof.
  split; [intros (r' & [= ->] & H)%list_elem_of_fmap; done|]. apply (list_elem_of_fmap_2 Base).
Qed.

Lemma elem_of_by_reference db r p :
  p ∈ payments_by_reference db r <-> exists i, payments db !! i = Some p /\ p_psp_reference p = Some r.
Proof.
  unfold payments_by_reference. rewrite list_elem_of_filter, list_elem_of_fmap. split.
  - intros (Hr & [i q] & -> & Hq). apply elem_of_map_to_list in Hq. by exists i.
  - intros (i & Hi & Hr). split; [done|]. exists (i, p). split; [done|]. by apply elem_of_map_to_list.
Qed.

Lemma by_reference_NoDup db r : schema_ok db -> NoDup (payments_by_reference db r).
Proof.
  intros Hso. unfold payments_by_reference. apply NoDup_filter.
  apply (NoDup_fmap_1 p_id). rewrite <- list_fmap_compose.
  replace (p_id ∘ snd <$> map_to_list (payments db)) with (fst <$> map_to_list (payments db));
    [apply NoDup_fst_map_to_list|].
  apply list_fmap_ext. intros n [i p] Hp. simpl. apply list_elem_of_lookup_2, elem_of_map_to_list in Hp.
  symmetry. apply (so_payment _ Hso _ _ Hp).
Qed.

(** The target depends on the references only. *)
Lemma target_spec db r i :
  schema_ok db -> target db r = Some i <-> forall j, reference_of db j = Some r <-> j = i.
Proof.
  intros Hso. unfold target, reference_of.
  assert (Hin : forall j, (payments db !! j ≫= p_psp_reference) = Some r <->
            exists p, p ∈ payments_by_reference db r /\ p_id p = j).
  { intros j. rewrite bind_Some. setoid_rewrite elem_of_by_reference. split.
    - intros (p & Hp & Hr). exists p. split; [by exists j|]. apply (so_payment _ Hso _ _ Hp).
    - intros (p & (j' & Hp & Hr) & <-). destruct (so_payment _ Hso _ _ Hp) as [-> _]. by exists p. }
  setoid_rewrite Hin. pose proof (by_reference_NoDup db r Hso) as Hnd.
  destruct (payments_by_reference db r) as [|p [|q ps]] eqn:Hrows.
  - split; [done|]. intros H. destruct (proj2 (H i) eq_refl) as (p & Hp & _). by apply not_elem_of_nil in Hp.
  - split.
    + intros [= <-] j. setoid_rewrite list_elem_of_singleton. naive_solver.
    + intros H. destruct (proj2 (H i) eq_refl) as (p' & ->%list_elem_of_singleton & <-). done.
  - split; [done|]. intros H. exfalso.
    assert (Hp : p_id p = i) by (apply H; exists p; split; [by left|done]).
    assert (Hq : p_id q = i) by (apply H; exists q; split; [by right; left|done]).
    destruct (by_reference_row db r p Hso) as [Hp' _]; [rewrite Hrows; by left|].
    destruct (by_reference_row db r q Hso) as [Hq' _]; [rewrite Hrows; by right; left|].
    rewrite Hp in Hp'. rewrite Hq, Hp' in Hq'. injection Hq' as ->.
    apply NoDup_cons in Hnd as [Hni _]. apply Hni. by left.
Qed.

Lemma target_same {RES : Resolutions} db db' r :
  schema_ok db -> schema_ok db' -> same_free_references db db' -> assigned r = false -> target db' r = target db r.
Proof.
  intros Hso Hso' Hrefs Hr. apply option_eq. intros i. rewrite !target_spec by done.
  split; intros H j; [rewrite <- (Hrefs j r Hr)|rewrite (Hrefs j r Hr)]; apply H.
Qed.

Lemma target_present db r i : schema_ok db -> target db r = Some i -> is_Some (payments db !! i).
Proof.
  intros Hso Ht. rewrite target_spec in Ht by done. pose proof (proj2 (Ht i) eq_refl) as Hr.
  unfold reference_of in Hr. apply bind_Some in Hr as (p & Hp & _). by exists p.
Qed.

Lemma transition_rows_cases p ty :
  transition_rows p ty = [] \/ exists a b n, transition_rows p ty = post_rows (transfer a b n).
Proof.
  unfold transition_rows. destruct ty as [| | | |ty| |]; try by left.
  destruct (negb _); [by left|]. destruct (str_in ty capture_events); [right; by eexists _, _, _|].
  destruct (str_in ty fail_events); [right; by eexists _, _, _|by left].
Qed.

(** The rows after the event: none, or the payment's and those of its transition. *)
Lemma event_rows_cases db ty ref :
  event_rows db ty ref = [] \/
  exists r i, ref = JStr r /\ target db r = Some i /\
    event_rows db ty ref = LockedRow (LockPayment i) ::
      match payments db !! i with Some p => transition_rows p ty | None => [] end.
Proof.
  unfold event_rows. destruct ref as [| | | |r| |]; try by left. destruct (String.eqb r ""); [by left|].
  destruct (target db r) as [i|] eqn:Ht; [|by left]. right. by exists r, i.
Qed.

Lemma event_rows_undecided db ty ref r :
  schema_ok db -> r ∈ event_rows db ty ref -> decided db r = false.
Proof.
  intros Hso. destruct (event_rows_cases db ty ref) as [-> |(ref' & i & _ & Ht & ->)].
  { by intros ?%not_elem_of_nil. }
  destruct (target_present _ _ _ Hso Ht) as [p Hp]. intros [->|Hr]%elem_of_cons.
  - unfold decided. simpl. by rewrite Hp.
  - rewrite Hp in Hr. destruct (transition_rows_cases p ty) as [Heq|(a & b & n & Heq)]; rewrite Heq in Hr.
    + by apply not_elem_of_nil in Hr.
    + by eapply post_rows_undecided.
Qed.

Lemma event_rows_sorted db ty ref : StronglySorted row_lt (event_rows db ty ref).
Proof.
  destruct (event_rows_cases db ty ref) as [-> |(ref' & i & _ & _ & ->)]; [constructor|].
  destruct (payments db !! i) as [p|]; [|by apply (sorted_cons_rows _ _ []); [left|]].
  destruct (transition_rows_cases p ty) as [-> |(a & b & n & ->)];
    [by apply (sorted_cons_rows _ _ []); [left|]|eapply sorted_cons_rows; [by right|done]].
Qed.

Lemma event_rows_bounded db ty ref : (List.length (event_rows db ty ref) <= 3)%nat.
Proof.
  destruct (event_rows_cases db ty ref) as [-> |(ref' & i & _ & _ & ->)]; simpl; [lia|].
  destruct (payments db !! i) as [p|]; simpl; [|lia].
  destruct (transition_rows_cases p ty) as [-> |(a & b & n & ->)]; simpl; [lia|].
  pose proof (transfer_rows_bound a b n). lia.
Qed.

(** With the references as they were, the rows go on the same way. *)
Lemma event_rows_stable {RES : Resolutions} db db' ty ref n :
  schema_ok db -> schema_ok db' -> same_free_references db db' -> free_reference ref = true ->
  Forall (fun r => row_same r db db') (take n (event_rows db ty ref)) ->
  take (S n) (event_rows db' ty ref) = take (S n) (event_rows db ty ref).
Proof.
  intros Hso Hso' Hrefs Hfree. unfold event_rows. destruct ref as [| | | |r| |]; try done.
  apply negb_true_iff in Hfree. destruct (String.eqb r ""); [done|]. rewrite (target_same db db' r) by done.
  destruct (target db r) as [i|]; [|done]. destruct n as [|n]; [done|]. simpl.
  intros [Hp _]%Forall_cons. simpl in Hp. by rewrite Hp.
Qed.

Lemma sorted_base rs : StronglySorted row_lt rs -> StronglySorted hook_lt (map Base rs).
Proof.
  induction 1 as [|r rs Hs IH Hall]; [constructor|]. simpl. constructor; [done|]. by apply Forall_map.
Qed.

Lemma hook_plan_sorted {RES : Resolutions} j db : StronglySorted hook_lt (hook_plan_rows j db).
Proof.
  destruct j as [j Hj|env st ce jl raw sig Hfit]; cbn [hook_plan_rows].
  - apply sorted_base, service_plan_sorted.
  - destruct (delivered_event _ _ _ _ _ _) as [ev|]; [|constructor].
    destruct (ev_id ev) as [| | | |e| |]; try constructor.
    + destruct (webhook_events db !! e); [constructor|]. apply sorted_base, event_rows_sorted.
    + apply Forall_forall. intros r Hr. destruct (webhook_events db !! e); [by apply not_elem_of_nil in Hr|].
      by apply list_elem_of_fmap in Hr as (b & -> & _).
Qed.

Lemma hook_plan_bounded {RES : Resolutions} j db : (List.length (hook_plan_rows j db) <= 4)%nat.
Proof.
  destruct j as [j Hj|env st ce jl raw sig Hfit]; cbn [hook_plan_rows].
  - rewrite length_map. apply service_plan_bounded.
  - destruct (delivered_event _ _ _ _ _ _) as [ev|]; [|simpl; lia].
    destruct (ev_id ev) as [| | | |e| |]; try (simpl; lia).
    destruct (webhook_events db !! e); simpl; [lia|]. rewrite length_map.
    pose proof (event_rows_bounded db (ev_type ev) (ev_reference ev)). lia.
Qed.

Lemma take_base n rs : take n (map Base rs) = map Base (take n rs).
Proof. symmetry. apply (fmap_take Base). Qed.

Lemma hook_plan_stable {RES : Resolutions} j db db' n :
  schema_ok db -> schema_ok db' -> Forall (fun r => hook_same r db db') (take n (hook_plan_rows j db)) ->
  take (S n) (hook_plan_rows j db') = take (S n) (hook_plan_rows j db).
Proof.
  intros Hso Hso'. destruct j as [j Hj|env st ce jl raw sig Hfit]; cbn [hook_plan_rows].
  - rewrite !take_base. intros Hall%Forall_map. f_equal. by apply service_plan_stable.
  - unfold event_fits in Hfit. destruct (delivered_event _ _ _ _ _ _) as [ev|]; [|done].
    destruct (ev_id ev) as [| | | |e| |]; try done. destruct n as [|n]; [done|]. cbn [take].
    intros [[He Hrefs] Hrest]%Forall_cons. rewrite He. f_equal.
    destruct (webhook_events db !! e); [done|]. rewrite !take_base in *. apply Forall_map in Hrest.
    f_equal. by apply event_rows_stable.
Qed.

Lemma hook_plan_decided {RES : Resolutions} j db n r :
  schema_ok db -> hook_plan_rows j db !! n = Some r -> decided db r = true ->
  List.length (hook_plan_rows j db) = S n.
Proof.
  intros Hso. destruct j as [j Hj|env st ce jl raw sig Hfit]; cbn [hook_plan_rows].
  - rewrite length_map. intros (b & -> & Hb)%list_lookup_fmap_Some Hd.
    by eapply service_plan_decided.
  - destruct (delivered_event _ _ _ _ _ _) as [ev|]; [|done].
    destruct (ev_id ev) as [| | | |e| |]; try done. destruct n as [|n].
    + intros [= <-]. unfold decided. simpl. case_bool_decide as Hs; [|done]. intros _. by destruct Hs as [w ->].
    + destruct (webhook_events db !! e); [done|]. cbn [lookup list_lookup].
      intros (b & -> & Hb)%list_lookup_fmap_Some Hd. exfalso.
      apply list_elem_of_lookup_2, (event_rows_undecided db) in Hb; [|done].
      rewrite decided_base in Hd. by rewrite Hb in Hd.
Qed.

(** ** What a transaction changes *)

Section references.
  Context {RES : Resolutions}.

Lemma same_references_free db db' : same_references db db' -> same_free_references db db'.
Proof. intros H i r _. by rewrite H. Qed.

Lemma same_references_good db db' : same_references db db' -> schema_ok db' -> hook_good db -> hook_good db'.
Proof. intros H Hso [_ Hg]. split; [done|]. intros i r Hi. rewrite H. by apply Hg. Qed.

(** A change of one payment that keeps its reference. *)
Lemma same_references_insert (m : gmap uuid Payment) i p :
  (m !! i ≫= p_psp_reference) = p_psp_reference p ->
  forall j, (<[i := p]> m !! j ≫= p_psp_reference) = (m !! j ≫= p_psp_reference).
Proof.
  intros Hi j. destruct (decide (i = j)) as [->|Hne].
  - by rewrite lookup_insert_eq.
  - by rewrite lookup_insert_ne.
Qed.

Lemma phase_references ops ty ref ps ev db db' :
  phase ops ty ref ps ev db db' -> forallb payment_op ops = true ->
  same_references db (write_ops ops db) -> same_references db db'.
Proof.
  intros Hph Hops Hrefs i. apply phase_summarised in Hph as (txn & o & Hs & _); [|done].
  unfold reference_of. rewrite (sm_payments _ _ _ _ _ _ Hs). apply Hrefs.
Qed.

Lemma phase_webhooks ops ty ref ps ev db db' :
  phase ops ty ref ps ev db db' -> forallb payment_op ops = true -> webhook_events db' = webhook_events db.
Proof. intros Hph Hops. apply phase_summarised in Hph as (txn & o & Hs & _); [|done]. apply (sm_webhooks _ _ _ _ _ _ Hs). Qed.

Lemma completion_frame m k i body db db' :
  completion m k i body db db' -> webhook_events db' = webhook_events db /\ payments db' = payments db.
Proof.
  unfold completion. destruct (idempotency_keys db !! (m, k)); [|by intros ->]. by intros [_ ->]%exec_op_Ok.
Qed.

(** A transition keeps the reference of its payment. *)
Lemma action_references db ty ref db1 db' :
  schema_ok db1 -> payments db1 = payments db -> action_phase (event_action db ty ref) db1 db' ->
  webhook_events db' = webhook_events db1 /\ same_references db1 db'.
Proof.
  intros Hso Hpay. unfold event_action. destruct ref as [| | | |r| |], ty as [| | | |ty| |]; try by intros ->.
  destruct (payments_by_reference db r) as [|p [|]] eqn:Hpr; try by intros ->.
  destruct (String.eqb r ""); [by intros ->|]. case_bool_decide as Hau; [|by intros ->]. cbn [negb].
  assert (Hrow : payments db1 !! p_id p = Some p /\ p_psp_reference p = Some r).
  { rewrite Hpay. assert (Hin : p ∈ payments_by_reference db r) by (rewrite Hpr; by left).
    apply elem_of_by_reference in Hin as (i & Hi & Hr). rewrite <- Hpay in *.
    by destruct (so_payment _ Hso _ _ Hi) as [-> _]. }
  destruct Hrow as [Hrow Href].
  destruct (str_in ty capture_events); [|destruct (str_in ty fail_events); [|by intros ->]];
    intros [t Hph]; (split; [by eapply phase_webhooks|eapply phase_references; [exact Hph|done|]]); intros j;
    unfold reference_of; cbn; apply same_references_insert; rewrite Hrow; simpl; by rewrite ?Href.
Qed.

End references.

Section runs.
  Context {DT : DatetimeText} {RES : Resolutions}.

Lemma create_tx1_references env lock i k rq db x db' :
  schema_ok db -> in_transaction env (create_tx1 lock i k rq) db = (Ok x, db') ->
  webhook_events db' = webhook_events db /\ same_references db db'.
Proof.
  intros Hso Htx. apply create_tx1_committed in Htx; [|done].
  destruct (idempotency_keys db !! _) as [row|]; [by destruct Htx as (? & ? & ? & _ & _ & _ & ->)|].
  destruct Htx as (t1 & t2 & db1 & _ & [_ ->]%exec_op_Ok & Hph).
  split; [by eapply phase_webhooks in Hph|]. pose proof Hph as Hrefs.
  eapply phase_references in Hrefs; [exact Hrefs|done|].
  apply phase_summarised in Hph as (txn & o & Hs & _); [|done].
  pose proof (insert_payment_fresh _ _ _ (sm_exec _ _ _ _ _ _ Hs)) as Hf. intros j. unfold reference_of.
  cbn in Hf |- *. apply same_references_insert. by rewrite Hf.
Qed.

Lemma refund_references env lock k i n db x db' :
  schema_ok db -> in_transaction env (refund lock k i n) db = (Ok x, db') ->
  webhook_events db' = webhook_events db /\ same_references db db'.
Proof.
  intros Hso Htx. apply refund_committed in Htx; [|done].
  destruct (idempotency_keys db !! _) as [row|]; [by destruct Htx as (? & ? & ? & _ & _ & _ & ->)|].
  destruct Htx as (t0 & p0 & rid & t1 & t2 & db1 & db2 & [_ ->]%exec_op_Ok & Hp & _ & Hph & _ & Hcomp).
  apply completion_frame in Hcomp as [Hw Hpay]. split; [rewrite Hw; by eapply phase_webhooks in Hph|].
  apply phase_references in Hph; [|done|].
  - intros j. etrans; [|apply Hph]. unfold reference_of. by rewrite Hpay.
  - destruct (so_payment _ Hso _ _ Hp) as [Hid _]. intros j. unfold reference_of. cbn.
    rewrite Hid. apply same_references_insert. by rewrite Hp.
Qed.

(** Only the payment it is of gets another reference. *)
Lemma create_tx2_references env i k m auth db x db' :
  schema_ok db -> in_transaction env (create_tx2 i k m auth) db = (Ok x, db') ->
  webhook_events db' = webhook_events db /\
  forall j, reference_of db' j = reference_of db j \/ j = i /\ reference_of db' j = given_reference auth.
Proof.
  intros Hso Htx. apply create_tx2_committed in Htx as (p0 & t & db1 & Hp & Hres & _ & Hcomp); [|done].
  apply completion_frame in Hcomp as [Hw Hpay].
  assert (Hdb1 : webhook_events db1 = webhook_events db /\ payments db1 = <[i := resolved p0 auth t]> (payments db)).
  { destruct (so_payment _ Hso _ _ Hp) as [Hid _]. unfold resolution in Hres. pose proof (resolved_id p0 auth t) as Hri.
    rewrite <- Hid, <- Hri. destruct (ar_outcome auth);
      [|by apply exec_op_Ok in Hres as [_ ->]|]; apply phase_summarised in Hres as (txn & o & Hs & _); try done;
      (split; [apply (sm_webhooks _ _ _ _ _ _ Hs)|apply (sm_payments _ _ _ _ _ _ Hs)]). }
  destruct Hdb1 as [Hw1 Hpay1]. split; [by rewrite Hw|]. intros j. unfold reference_of. rewrite Hpay, Hpay1.
  destruct (decide (j = i)) as [->|Hne]; [|left; by rewrite lookup_insert_ne].
  rewrite lookup_insert_eq, Hp. simpl. unfold resolved, given_reference.
  destruct (ar_outcome auth); [by right|by right|by left].
Qed.

Lemma service_references j db a db' :
  service_fits j = true -> hook_good db -> run_service j db = (Ok a, db') ->
  webhook_events db' = webhook_events db /\ same_free_references db db' /\ hook_good db'.
Proof.
  intros Hfit Hgood Hrun. pose proof Hgood as [Hso Hg].
  assert (Hso' : schema_ok db') by (eapply schema_ok_rtc; [by eapply run_service_rtc|done]).
  assert (Hsame : webhook_events db' = webhook_events db /\ same_references db db' ->
            webhook_events db' = webhook_events db /\ same_free_references db db' /\ hook_good db').
  { intros [Hw Hr]. split; [done|]. split; [by apply same_references_free|by eapply same_references_good]. }
  destruct j as [env lock i k rq|env i k m auth|env lock k i n]; apply answering_Ok in Hrun as (b & _ & Htx);
    [by eapply Hsame, create_tx1_references| |by eapply Hsame, refund_references].
  simpl in Hfit. apply andb_true_iff in Hfit as [Hi Hgive].
  apply create_tx2_references in Htx as [Hw Hrefs]; [|done]. split; [done|].
  assert (Hgiven : forall r, given_reference auth = Some r -> assigned r = true).
  { intros r Hr. by rewrite Hr in Hgive. }
  split; [|split; [done|]].
  - intros j r Hfree. destruct (Hrefs j) as [->|[-> ->]]; [done|]. split; intros Hr; exfalso.
    + apply Hgiven in Hr. congruence.
    + apply Hg in Hr; [congruence|done].
  - intros j r Hj Hr. destruct (Hrefs j) as [Hsm|[-> Hgv]]; [rewrite Hsm in Hr; by eapply Hg|].
    rewrite Hgv in Hr. by apply Hgiven.
Qed.

Lemma handle_references env st ce jl raw sig db u db' :
  schema_ok db -> in_transaction env (handle st ce jl raw sig) db = (Ok u, db') -> same_references db db'.
Proof.
  intros Hso Htx. apply handle_delivered in Htx as (ev & _ & Heff); [|done]. unfold webhook_effect in Heff.
  destruct (ev_id ev) as [| | | |e| |]; try done. destruct (webhook_events db !! e); [by subst|].
  destruct Heff as (t & db1 & Hop & Hact). pose proof (exec_op_schema_ok _ _ _ Hso Hop) as Hso1.
  apply exec_op_Ok in Hop as [_ Hdb1].
  apply (action_references db) in Hact as [_ Hrefs]; [|done|by rewrite Hdb1].
  intros i. rewrite Hrefs, Hdb1. done.
Qed.

(** The rows of the transition that is made. *)
Definition action_payment (a : action) : Payment := match a with ActSettle p _ | ActReverse p => p end.
Definition action_postings (a : action) : list Posting :=
  match a with ActSettle p _ => settle_postings p | ActReverse p => reverse_postings p end.

Lemma event_action_rows db ty ref a :
  schema_ok db -> event_action db ty ref = Some a ->
  event_rows db ty ref =
    LockedRow (LockPayment (p_id (action_payment a))) :: post_rows (action_postings a) /\
  payments db !! p_id (action_payment a) = Some (action_payment a).
Proof.
  intros Hso. unfold event_action, event_rows, target. destruct ref as [| | | |r| |], ty as [| | | |ty| |]; try done.
  destruct (payments_by_reference db r) as [|p [|]] eqn:Hpr; try done. destruct (String.eqb r ""); [done|].
  destruct (by_reference_row db r p Hso) as [Hrow _]; [rewrite Hpr; by left|].
  rewrite Hrow. unfold transition_rows. destruct (negb (bool_decide _)); [done|].
  destruct (str_in ty capture_events); [|destruct (str_in ty fail_events); [|done]]; intros [= <-]; done.
Qed.

Lemma action_rows db ty ref db1 db' b :
  schema_ok db -> payments db1 = payments db ->
  action_phase (event_action db ty ref) db1 db' -> decided db1 b = false -> b ∉ event_rows db ty ref ->
  row_same b db1 db'.
Proof.
  intros Hso Hpay Hact Hd%decided_cases Hb.
  destruct (event_action db ty ref) as [a|] eqn:Ha; [|by rewrite Hact; apply row_same_refl].
  apply event_action_rows in Ha as [Hrows Hrow]; [|done]. rewrite Hrows in Hb.
  apply not_elem_of_cons in Hb as [Hp Hb].
  destruct a as [p r|p]; destruct Hact as [t Hph]; cbn [action_payment action_postings] in *;
    (eapply phase_rows; [exact Hph|done| |exact Hb|by destruct b as [|[]]]);
    intros i ->; cbn; apply lookup_insert_ne; congruence.
Qed.

(** A delivery changes the rows of its plan only. *)
Lemma handle_rows env st ce jl raw sig fits db u db' r :
  schema_ok db -> in_transaction env (handle st ce jl raw sig) db = (Ok u, db') ->
  decided db r = false -> r ∉ hook_plan_rows (HHandle env st ce jl raw sig fits) db -> hook_same r db db'.
Proof.
  intros Hso Htx Hd. apply handle_delivered in Htx as (ev & Hev & Heff); [|done]. cbn [hook_plan_rows].
  rewrite Hev. unfold webhook_effect in Heff. destruct (ev_id ev) as [| | | |e| |]; try done.
  intros [Hne Hr]%not_elem_of_cons.
  destruct (webhook_events db !! e) as [w|] eqn:Hw; [subst; apply hook_same_refl|].
  destruct Heff as (t & db1 & Hop & Hact). pose proof (exec_op_schema_ok _ _ _ Hso Hop) as Hso1.
  apply exec_op_Ok in Hop as [_ Hdb1].
  assert (H1 : hook_same r db db1).
  { rewrite Hdb1. destruct r as [e'|b]; [split; [|done]|by destruct b as [k|[]]].
    cbn. apply lookup_insert_ne. congruence. }
  eapply hook_same_trans; [exact H1|].
  assert (Hpay : payments db1 = payments db) by (by rewrite Hdb1).
  destruct r as [e'|b].
  { apply (action_references db) in Hact as [Hw' Hrefs]; [|done|done]. split; [by rewrite Hw'|].
    by apply same_references_free. }
  eapply action_rows; [exact Hso|exact Hpay|exact Hact| |by rewrite elem_of_base in Hr].
  rewrite decided_base in Hd. by rewrite (decided_row_same db db1 b H1).
Qed.

Lemma answering_with_Ok {A} (f : A -> HookAnswer) x a db :
  answering_with f x = (Ok a, db) -> exists b, a = f b /\ x = (Ok b, db).
Proof. destruct x as [[b|e'] d]; simpl; [intros [= <- <-]; by exists b|done]. Qed.

Lemma answering_with_Err {A} (f : A -> HookAnswer) x e db : answering_with f x = (Err e, db) -> x = (Err e, db).
Proof. destruct x as [[a|e'] d]; simpl; [done|congruence]. Qed.

Lemma run_hook_rtc j db a db' : run_hook j db = (Ok a, db') -> rtc exec_step db db'.
Proof.
  destruct j as [j Hj|env st ce jl raw sig Hfit]; intros (b & _ & H)%answering_with_Ok;
    [by eapply run_service_rtc|exact (in_transaction_rtc _ _ _ _ _ H)].
Qed.

Lemma exec_step_keeps_hook db db' (r : HookRow) : exec_step db db' -> present db r = true -> present db' r = true.
Proof.
  destruct r as [e|r]; [|apply exec_step_keeps_row].
  intros (op & [_ ->]%exec_op_Ok). simpl. rewrite !bool_decide_eq_true.
  destruct op; simpl; try done; intros H; apply lookup_insert_is_Some';
    match goal with |- ?k = ?k' \/ _ => destruct (decide (k = k')); [by left|by right] end.
Qed.

#[global] Instance hook_laws : JobLaws DB HookJob HookAnswer HookRow.
Proof.
  constructor; simpl.
  - intros [j Hj|env st ce jl raw sig Hfit] db e db' H%answering_with_Err; [by eapply run_service_Err|].
    by eapply in_transaction_Err.
  - intros j db a db' Hgood H. destruct j as [j Hj|env st ce jl raw sig Hfit].
    + apply answering_with_Ok in H as (b & _ & H). by eapply service_references.
    + pose proof (run_hook_rtc (HHandle env st ce jl raw sig Hfit) _ _ _ H) as Hr.
      apply answering_with_Ok in H as (b & _ & H). eapply same_references_good; [|by eapply schema_ok_rtc, Hgood|done].
      eapply handle_references; [apply Hgood|exact H].
  - intros j db a db' r _ H%run_hook_rtc. induction H as [|x y z H _ IH]; [done|].
    intros Hp. apply IH. exact (exec_step_keeps_hook x y r H Hp).
  - intros [j Hj|env st ce jl raw sig Hfit] db a db' r Hgood (b & _ & H)%answering_with_Ok Hd Hr;
      [|by eapply handle_rows; [apply Hgood|..]].
    destruct r as [e|r].
    + apply service_references in H as (Hw & Hfree & _); [|done|done]. split; [by rewrite Hw|exact Hfree].
    + cbn [hook_plan_rows] in Hr. rewrite elem_of_base in Hr. exact (run_frame j db _ db' r (proj1 Hgood) H Hd Hr).
  - intros j s s' n [Hs _] [Hs' _]. by apply hook_plan_stable.
  - intros j s n r [Hs _]. by apply hook_plan_decided.
  - intros j s _. apply hook_plan_sorted.
  - intros j s _. apply hook_plan_bounded.
Qed.

End runs.
