(* ===== verification/OutboxRelay.v ===== *)
(** * OutboxRelay: [app/application/outbox_relay.py]

    [drain_batch], run in its own transaction, and the loop that runs it, with [stop] and
    cancellation.  The order of rows with equal [created_at] and the rows other
    transactions hold locked ([skip_locked]) are parameters. *)

From S2P Require Import Prelude PyStd Domain Models Session Ledger Journal Psp Idempotency Saga Schemas Payments Refunds Lifecycle.
From Stdlib Require Import String.

(** ** Definitions *)

Definition created_before (a b : Outbox) : Prop := o_created_at a <= o_created_at b.
#[global] Instance created_before_dec : RelDecision created_before.
Proof. intros a b. unfold created_before. apply _. Defined.

Section relay.
  Variable row_order : list Outbox -> list Outbox.
  Variable locked_elsewhere : uuid -> bool.

Definition unpublished (db : DB) : list Outbox :=
  filter (fun o => o_published_at o = None) (map snd (map_to_list (outbox db))).

(** ORDER BY created_at LIMIT n FOR UPDATE SKIP LOCKED *)
Definition next_batch (batch_size : nat) (db : DB) : list Outbox :=
  take batch_size (merge_sort created_before
    (row_order (filter (fun o => locked_elsewhere (o_id o) = false) (unpublished db)))).

Fixpoint lock_outbox (events : list Outbox) : M unit :=
  match events with
  | [] => mret tt
  | ev :: events' => lock_row (LockOutbox (o_id ev));; lock_outbox events'
  end.

Fixpoint publish_all (t : Z) (events : list Outbox) : M unit :=
  match events with
  | [] => mret tt
  | ev :: events' =>
      session_add (UpdateOutbox {| ev with o_published_at := Some t |});; publish_all t events'
  end.

Definition drain_batch (batch_size : nat) : M Z :=
  statement;;
  events ← gets (fun s => next_batch batch_size (s_db s));
  lock_outbox events;;
  match events with
  | [] => mret 0
  | _ =>
      t ← now;
      publish_all t events;;
      mret (Z.of_nat (List.length events))
  end.

(** A batch of [run_loop] in its own transaction, with the default [batch_size]. *)
Definition relay_turn (env : Env) (db : DB) : result exn Z * DB :=
  in_transaction env (drain_batch 50) db.

(** What reaches the loop during a turn: nothing; a call of [stop]; a cancellation of its
    task while it awaits the database, before or after the COMMIT took effect; or one
    while it is asleep (a turn that does not sleep cannot receive it there). *)
Inductive Interrupt := NoInterrupt | StopCalled | CancelledInDrain (committed : bool) | CancelledAsleep.

(** The loop goes on, has left by [break] or [_running], or its task raised
    [CancelledError]. *)
Inductive LoopState := LoopRunning | LoopStopped | LoopCancelled.

(** It sleeps after an empty batch, and after an exception, which it logs. *)
Definition sleeps (r : result exn Z) : bool :=
  match r with Ok drained => drained =? 0 | Err _ => true end.

(** One turn of the [while]: cancellation is caught inside the [try], not in the sleep of
    the exception handler. *)
Definition loop_turn (env : Env) (interrupt : Interrupt) (db : DB) : LoopState * DB :=
  let '(r, db1) := relay_turn env db in
  match interrupt with
  | CancelledInDrain committed => (LoopStopped, if committed then db1 else db)
  | CancelledAsleep =>
      (if sleeps r then match r with Ok _ => LoopStopped | Err _ => LoopCancelled end
       else LoopRunning, db1)
  | StopCalled => (LoopStopped, db1)
  | NoInterrupt => (LoopRunning, db1)
  end.

(** [run_loop], which sets [_running] first, for as many turns as the list has. *)
Fixpoint run_loop (turns : list (Env * Interrupt)) (db : DB) : LoopState * DB :=
  match turns with
  | [] => (LoopRunning, db)
  | (env, interrupt) :: turns' =>
      match loop_turn env interrupt db with
      | (LoopRunning, db1) => run_loop turns' db1
      | ended => ended
      end
  end.

End relay.

(** ** What a batch does *)

#[global] Instance Flushes_lock_outbox es : Flushes (lock_outbox es).
Proof. induction es as [|e es IH]; simpl; solve_flushes. Qed.
#[global] Instance Flushes_publish_all t es : Flushes (publish_all t es).
Proof. induction es as [|e es IH]; simpl; solve_flushes. Qed.
#[global] Instance Flushes_drain o l n : Flushes (drain_batch o l n).
Proof. unfold drain_batch. solve_flushes. Qed.

Definition mark_published (t : Z) (ev : Outbox) : Outbox := {| ev with o_published_at := Some t |}.
Definition publish_ops (t : Z) (events : list Outbox) : list DbOp :=
  map (fun ev => UpdateOutbox (mark_published t ev)) events.

Lemma lock_outbox_eq es s :
  lock_outbox es s = Ok (tt, with_locks (map (fun e => LockOutbox (o_id e)) es) s).
Proof.
  revert s. induction es as [|e es IH]; intros s; simpl.
  - unfold mret, stm_ret, with_locks. rewrite app_nil_r. by destruct s.
  - unfold mbind, stm_bind, lock_row, modify. rewrite IH. unfold with_locks. simpl.
    by rewrite <- app_assoc.
Qed.

Lemma publish_all_eq t es s : publish_all t es s = Ok (tt, with_pending (publish_ops t es) s).
Proof.
  revert s. induction es as [|e es IH]; intros s; simpl; [by rewrite with_pending_nil|].
  rewrite (bind_Ok _ _ _ _ _ (session_add_eq _ _)), IH. by rewrite with_pending_app.
Qed.

Lemma publish_ops_triggers t es : trigger_events (publish_ops t es) = [].
Proof. induction es as [|e es IH]; [done|]. exact IH. Qed.

(** The outbox after the events of a list are published. *)
Lemma exec_publish t es db :
  (forall e, e ∈ es -> is_Some (outbox db !! o_id e) /\ first_violation (outbox_row_checks e) = None) ->
  exists ob, exec_ops (publish_ops t es) db = Ok {| db with outbox := ob |} /\
    (forall e, e ∈ es -> NoDup (map o_id es) -> ob !! o_id e = Some (mark_published t e)) /\
    (forall i, i ∉ map o_id es -> ob !! i = outbox db !! i).
Proof.
  revert db. induction es as [|e es IH]; intros db Hall; simpl.
  { exists (outbox db). split; [by destruct db|]. split; [|done].
    intros e He. by apply not_elem_of_nil in He. }
  destruct (Hall e) as [[x Hx] Hfits]; [by left|].
  unfold exec_op at 1, op_check. simpl in Hfits |- *. destruct (_ && _); [|done]. rewrite Hx. simpl.
  destruct (IH (op_write (UpdateOutbox (mark_published t e)) db)) as (ob & Hex & Hin & Hout);
    [intros e' He'; destruct (Hall e') as [Hp' Hf']; [by right|]; split; [by apply is_Some_insert|done]|].
  simpl in Hex. rewrite Hex. exists ob. split; [done|]. split.
  - intros e' He' Hnd. apply NoDup_cons in Hnd as [Hni Hnd].
    apply elem_of_cons in He' as [->|He']; [|by apply Hin].
    rewrite Hout by done. simpl. by rewrite lookup_insert_eq.
  - intros i Hi. apply not_elem_of_cons in Hi as [Hne Hi]. rewrite Hout by done. simpl.
    by rewrite lookup_insert_ne by congruence.
Qed.

Section relay_theory.
  Context (row_order : list Outbox -> list Outbox) (locked_elsewhere : uuid -> bool).
  Context (row_order_perm : forall l, row_order l ≡ₚ l).

Abbreviation batch := (next_batch row_order locked_elsewhere).

(** The unpublished events no other transaction has locked. *)
Definition eligible (db : DB) (ev : Outbox) : Prop :=
  outbox db !! o_id ev = Some ev /\ o_published_at ev = None /\ locked_elsewhere (o_id ev) = false.

Definition queue (db : DB) : list Outbox :=
  merge_sort created_before
    (row_order (filter (fun o => locked_elsewhere (o_id o) = false) (unpublished db))).

#[local] Instance created_before_total : Total created_before.
Proof. intros a b. unfold created_before. lia. Qed.
#[local] Instance created_before_trans : Transitive created_before.
Proof. intros a b c. unfold created_before. lia. Qed.

Lemma elem_of_queue db ev : schema_ok db -> ev ∈ queue db <-> eligible db ev.
Proof.
  intros Hso. unfold queue, unpublished, eligible.
  rewrite merge_sort_Permutation, row_order_perm, !list_elem_of_filter, list_elem_of_fmap. split.
  - intros (Hl & Hp & [i o] & -> & Ho). apply elem_of_map_to_list in Ho. simpl in *.
    destruct (so_outbox _ Hso _ _ Ho) as [<- _]. done.
  - intros (Hrow & Hp & Hl). repeat split; [done..|]. exists (o_id ev, ev). split; [done|].
    by apply elem_of_map_to_list.
Qed.

Lemma queue_NoDup db : schema_ok db -> NoDup (map o_id (queue db)).
Proof.
  intros Hso. unfold queue, unpublished. rewrite merge_sort_Permutation, row_order_perm.
  assert (Hnd : NoDup (map o_id (map snd (map_to_list (outbox db))))).
  { rewrite map_map. replace (map (fun kv => o_id kv.2) (map_to_list (outbox db)))
      with (map fst (map_to_list (outbox db))); [apply NoDup_fst_map_to_list|].
    apply map_ext_in. intros [i o] Hin. apply list_elem_of_In, elem_of_map_to_list in Hin.
    simpl. by rewrite (proj1 (so_outbox _ Hso _ _ Hin)). }
  revert Hnd. generalize (map snd (map_to_list (outbox db))) as l.
  assert (Hf : forall (P : Outbox -> Prop) `{!forall o, Decision (P o)} l,
             NoDup (map o_id l) -> NoDup (map o_id (filter P l))).
  { intros P HP l. induction l as [|o l IH]; intros Hnd; [constructor|]. cbn [map] in Hnd.
    apply NoDup_cons in Hnd as [Hni Hnd]. rewrite filter_cons. case_decide; [|by apply IH].
    cbn [map]. apply NoDup_cons. split; [|by apply IH]. intros Hin. apply Hni.
    apply list_elem_of_fmap in Hin as (q & Heq & Hq). apply list_elem_of_filter in Hq as [_ Hq].
    rewrite Heq. by apply list_elem_of_fmap_2. }
  intros l Hnd. by do 2 apply Hf.
Qed.

Lemma queue_sorted db : StronglySorted created_before (queue db).
Proof. apply (StronglySorted_merge_sort _). Qed.

Lemma batch_queue n db : batch n db = take n (queue db).
Proof. done. Qed.

Lemma batch_NoDup n db : schema_ok db -> NoDup (map o_id (batch n db)).
Proof.
  intros Hso. rewrite batch_queue. pose proof (queue_NoDup db Hso) as Hnd.
  rewrite <- (take_drop n (queue db)), map_app in Hnd. by apply NoDup_app in Hnd as [? _].
Qed.

Lemma batch_eligible n db ev : schema_ok db -> ev ∈ batch n db -> eligible db ev.
Proof.
  intros Hso Hin. apply elem_of_queue; [done|]. rewrite batch_queue in Hin.
  rewrite <- (take_drop n (queue db)). apply elem_of_app. by left.
Qed.

(** The tables after a batch was drained at time [t]. *)
Record drained (n : nat) (t : Z) (db db' : DB) : Prop := {
  dr_frame : exists ob, db' = {| db with outbox := ob |};
  dr_published : forall ev, ev ∈ batch n db -> outbox db' !! o_id ev = Some (mark_published t ev);
  dr_others : forall i, i ∉ map o_id (batch n db) -> outbox db' !! i = outbox db !! i;
}.

(** The UPDATEs of a batch always apply, and drain it. *)
Lemma exec_batch n t db :
  schema_ok db -> exists ob, exec_ops (publish_ops t (batch n db)) db = Ok {| db with outbox := ob |} /\
    drained n t db {| db with outbox := ob |}.
Proof.
  intros Hso. destruct (exec_publish t (batch n db) db) as (ob & Hex & Hin & Hout).
  { intros e He. apply batch_eligible in He as [He _]; [|done]. split; [by eexists|].
    destruct (so_outbox _ Hso _ _ He) as (_ & H1 & H2 & H3). simpl. by rewrite H1, H2, H3. }
  exists ob. split; [exact Hex|]. constructor.
  - by exists ob.
  - intros ev He. apply Hin; [done|]. by apply batch_NoDup.
  - done.
Qed.

(** Without failing statements a batch always commits. *)
Lemma drain_total env n db :
  schema_ok db -> reliable env ->
  exists t db', in_transaction env (drain_batch row_order locked_elsewhere n) db =
      (Ok (Z.of_nat (List.length (batch n db))), db') /\ drained n t db db'.
Proof.
  intros Hso Hr. unfold in_transaction, drain_batch.
  rewrite (bind_Ok _ _ _ _ _ (statement_reliable (begin_session env db) Hr)).
  unfold gets. unfold mbind at 1, stm_bind. simpl s_db.
  rewrite (bind_Ok _ _ _ _ _ (lock_outbox_eq _ _)).
  destruct (batch n db) as [|ev0 evs0] eqn:Hb.
  - unfold mret, stm_ret. erewrite commit_nothing_pending_ok; [|done|done|done].
    exists 0, db. split; [done|]. constructor; rewrite ?Hb.
    + exists (outbox db). by destruct db.
    + intros ev Hin. by apply not_elem_of_nil in Hin.
    + done.
  - rewrite <- Hb. set (s1 := with_locks _ _). rewrite (bind_Ok _ _ _ _ _ (now_eq s1)).
    set (t := now_at _ _). rewrite (bind_Ok _ _ _ _ _ (publish_all_eq t _ _)).
    unfold mret, stm_ret.
    destruct (exec_batch n t db Hso) as (ob & Hex & Hdrained).
    rewrite (commit_reliable _ {| db with outbox := ob |}); [|done|exact Hex|].
    2:{ simpl. by rewrite publish_ops_triggers. }
    by exists t, {| db with outbox := ob |}.
Qed.

Lemma publish_ops_quiet t es : forallb quiet_op (publish_ops t es) = true.
Proof. by induction es. Qed.

(** Whatever the environment, a drained batch that commits is the UPDATEs of its events. *)
Lemma drain_ops_batch env n db m db' :
  in_transaction env (drain_batch row_order locked_elsewhere n) db = (Ok m, db') ->
  exec_ops (publish_ops (now_at env 1) (batch n db)) db = Ok db'.
Proof.
  intros Htx. apply in_transaction_Ok_inv in Htx as (s' & Hrun & Hcommit). apply commit_exec in Hcommit.
  unfold drain_batch in Hrun. inv_bind_as Hrun u s1 Hst Hk. apply statement_Ok_inv in Hst as [_ ->].
  inv_bind_as Hk es s2 Hg Hk1. unfold gets in Hg. injection Hg as Hes <-. simpl in Hes.
  inv_bind_as Hk1 u1 s3 Hl Hk2. rewrite lock_outbox_eq in Hl. injection Hl as _ <-. rewrite Hes.
  destruct es as [|ev es].
  - apply ret_Ok_inv in Hk2 as [_ ->]. exact Hcommit.
  - inv_bind_as Hk2 t s4 Hn Hk3. rewrite now_eq in Hn. injection Hn as <- <-.
    rewrite (bind_Ok _ _ _ _ _ (publish_all_eq _ _ _)) in Hk3. apply ret_Ok_inv in Hk3 as [_ ->].
    exact Hcommit.
Qed.

Lemma drain_ops env n db r db' :
  in_transaction env (drain_batch row_order locked_elsewhere n) db = (r, db') ->
  exists t es, exec_ops (publish_ops t es) db = Ok db'.
Proof.
  intros Htx. destruct r as [m|e]; [|by apply in_transaction_Err in Htx as ->; exists 0, []].
  apply drain_ops_batch in Htx. by eexists _, _.
Qed.

(** A batch has drained its events or, rolled back, nothing. *)
Lemma drain_cases env n db r db' :
  schema_ok db -> in_transaction env (drain_batch row_order locked_elsewhere n) db = (r, db') ->
  db' = db \/ exists t, drained n t db db'.
Proof.
  intros Hso Htx. destruct r as [m|e]; [|by apply in_transaction_Err in Htx as ->; left].
  apply drain_ops_batch in Htx as Ht. destruct (exec_batch n (now_at env 1) db Hso) as (ob & Hex & Hd).
  rewrite Hex in Ht. injection Ht as <-. right. by eexists.
Qed.

(** Draining touches no payment and no money, whatever happens. *)
Lemma drain_steps env n db r db' :
  in_transaction env (drain_batch row_order locked_elsewhere n) db = (r, db') ->
  rtc (payment_step nobody) db db'.
Proof.
  intros (t & es & Hex)%drain_ops. eapply exec_quiet_steps; [|exact Hex]. apply publish_ops_quiet.
Qed.

Lemma publish_idem t es db db' :
  exec_ops (publish_ops t es) db = Ok db' -> idempotency_keys db' = idempotency_keys db.
Proof.
  intros ->%exec_ops_write. revert db. induction es as [|e es IH]; intros db; [done|].
  cbn [publish_ops map]. rewrite write_ops_cons. by rewrite IH.
Qed.

(** The ids of the events not yet published. *)
Definition unpublished_ids (db : DB) : gset N :=
  dom (filter (fun kv : N * Outbox => o_published_at kv.2 = None) (outbox db)).

Lemma elem_of_unpublished_ids db i :
  i ∈ unpublished_ids db <-> exists o, outbox db !! i = Some o /\ o_published_at o = None.
Proof.
  unfold unpublished_ids. rewrite elem_of_dom. split.
  - intros [o Ho]. apply map_lookup_filter_Some in Ho. by exists o.
  - intros (o & Ho). exists o. by apply map_lookup_filter_Some.
Qed.

Lemma drained_unpublished n t db db' :
  schema_ok db -> drained n t db db' ->
  unpublished_ids db' = unpublished_ids db ∖ list_to_set (map o_id (batch n db)).
Proof.
  intros Hso [_ Hin Hout]. apply set_eq. intros i.
  rewrite elem_of_difference, elem_of_list_to_set, !elem_of_unpublished_ids.
  destruct (decide (i ∈ map o_id (batch n db))) as [Hi|Hi].
  - split; [|naive_solver]. intros (o & Ho & Hp).
    apply list_elem_of_fmap in Hi as (ev & -> & Hev). rewrite (Hin ev Hev) in Ho. by simplify_eq.
  - rewrite (Hout i Hi). naive_solver.
Qed.

End relay_theory.

(** With no other worker, turns of the relay publish every event. *)
Section relay_alone.
  Context (row_order : list Outbox -> list Outbox).
  Context (row_order_perm : forall l, row_order l ≡ₚ l).

Abbreviation alone := (fun _ : uuid => false).

Lemma queue_ids db :
  schema_ok db -> list_to_set (map o_id (queue row_order alone db)) = unpublished_ids db.
Proof.
  intros Hso. apply set_eq. intros i.
  rewrite elem_of_list_to_set, elem_of_unpublished_ids, list_elem_of_fmap. split.
  - intros (ev & -> & Hev). apply elem_of_queue in Hev as (Hrow & Hp & _); [|done..]. eauto.
  - intros (o & Ho & Hp). destruct (so_outbox _ Hso _ _ Ho) as [<- _]. exists o. split; [done|].
    by apply elem_of_queue.
Qed.

Lemma queue_length db :
  schema_ok db -> List.length (queue row_order alone db) = size (unpublished_ids db).
Proof.
  intros Hso. rewrite <- queue_ids by done. rewrite size_list_to_set, length_map; [done|].
  by apply queue_NoDup.
Qed.

Lemma drained_size n t db db' :
  schema_ok db -> drained row_order alone n t db db' ->
  size (unpublished_ids db') = (size (unpublished_ids db) - n)%nat.
Proof.
  intros Hso Hd. rewrite (drained_unpublished _ _ _ _ _ _ Hso Hd).
  rewrite size_difference, size_list_to_set, length_map.
  - unfold next_batch. fold (queue row_order alone db).
    rewrite length_take, (queue_length db Hso). lia.
  - by apply batch_NoDup.
  - intros i Hi. rewrite elem_of_list_to_set, list_elem_of_fmap in Hi.
    destruct Hi as (ev & -> & Hev). apply batch_eligible in Hev as (Hrow & Hp & _); [|done..].
    apply elem_of_unpublished_ids. eauto.
Qed.

Lemma drained_schema n t db db' :
  schema_ok db -> drained row_order alone n t db db' -> schema_ok db'.
Proof.
  intros Hso [(ob & ->) Hin Hout]. pose proof Hso as Hso0. destruct Hso. constructor; simpl; try done.
  intros i o Ho. simpl in *. destruct (decide (i ∈ map o_id (next_batch row_order alone n db))) as [Hi|Hi].
  - apply list_elem_of_fmap in Hi as (ev & -> & Hev). rewrite (Hin ev Hev) in Ho. simplify_eq. simpl.
    apply batch_eligible in Hev as [Hrow _]; [|done..]. by eauto.
  - rewrite (Hout i Hi) in Ho. eauto.
Qed.

End relay_alone.
