(* ===== verification/OutboxTheorems.v ===== *)
(** * OutboxTheorems: what the relay promises

    A batch publishes the oldest events first, each once; with no other worker the loop
    publishes everything in a bounded number of turns; interrupted anywhere, it leaves the
    tables of whole batches. *)

From S2P Require Import Prelude PyStd Domain Models Session Ledger Journal Fixtures Psp Idempotency Saga Schemas Payments Refunds Lifecycle OutboxRelay.
From Stdlib Require Import String.

Section batches.
  Context (row_order : list Outbox -> list Outbox) (locked_elsewhere : uuid -> bool).
  Context (row_order_perm : forall l, row_order l ≡ₚ l).

(** A batch of the relay.  With reliable statements [drain_batch] commits and returns the
    number of events it published: as many as fit among the unpublished events no other
    worker has locked, none of them newer than one it leaves; each of them has the time of
    the run as [published_at], no other outbox row (so no published one) and no other table
    has changed. *)
Theorem batch_publishes_oldest env n db :
  schema_ok db -> reliable env ->
  exists t batch db',
    in_transaction env (drain_batch row_order locked_elsewhere n) db =
      (Ok (Z.of_nat (List.length batch)), db') /\
    NoDup (map o_id batch) /\
    (forall ev, ev ∈ batch -> eligible locked_elsewhere db ev) /\
    (List.length batch = n \/
     (List.length batch < n)%nat /\ forall ev, eligible locked_elsewhere db ev -> ev ∈ batch) /\
    (forall ev ev', ev ∈ batch -> eligible locked_elsewhere db ev' -> ev' ∉ batch ->
       o_created_at ev <= o_created_at ev') /\
    (forall ev, ev ∈ batch -> outbox db' !! o_id ev = Some {| ev with o_published_at := Some t |}) /\
    (forall i, i ∉ map o_id batch -> outbox db' !! i = outbox db !! i) /\
    (exists ob, db' = {| db with outbox := ob |}).
Proof.
  intros Hso Hr.
  destruct (drain_total row_order locked_elsewhere row_order_perm env n db Hso Hr)
    as (t & db' & Hrun & [Hframe Hpub Hoth]).
  exists t, (next_batch row_order locked_elsewhere n db), db'. split; [exact Hrun|].
  split; [by apply batch_NoDup|]. split; [by intros ev; apply batch_eligible|].
  assert (Hq : forall ev, eligible locked_elsewhere db ev <->
                          ev ∈ queue row_order locked_elsewhere db)
    by (intros ev; symmetry; by apply elem_of_queue).
  split; [|split; [|by split]].
  - rewrite batch_queue. rewrite length_take.
    destruct (Nat.le_gt_cases n (List.length (queue row_order locked_elsewhere db))); [left; lia|].
    right. split; [lia|]. intros ev Hev. rewrite take_ge by lia. by apply Hq.
  - intros ev ev' Hin Hel Hni. rewrite batch_queue in Hin, Hni. apply Hq in Hel.
    pose proof (queue_sorted row_order locked_elsewhere db) as Hs.
    rewrite <- (take_drop n (queue row_order locked_elsewhere db)) in Hs, Hel.
    apply elem_of_app in Hel as [Hel|Hel]; [done|].
    exact (StronglySorted_app_1_elem_of _ _ _ _ _ Hs Hin Hel).
Qed.

End batches.

Lemma same_order_perm (l : list Outbox) : l ≡ₚ l.
Proof. done. Qed.

(** ** The loop *)

(** No other worker holds a row. *)
Abbreviation alone := (fun _ : uuid => false).

Section loop.
  Context (row_order : list Outbox -> list Outbox).
  Context (row_order_perm : forall l, row_order l ≡ₚ l).

(** What publishing keeps of an event. *)
Definition same_event (ev ev' : Outbox) : Prop :=
  exists at_, ev' = {| ev with o_published_at := at_ |} /\
    (o_published_at ev <> None -> at_ = o_published_at ev).

#[global] Instance same_event_preorder : PreOrder same_event.
Proof.
  split.
  - intros ev. exists (o_published_at ev). by destruct ev.
  - intros a b c (t & -> & Ht) (u & -> & Hu). exists u. split; [by destruct a|].
    simpl in *. intros Ha. specialize (Ht Ha). subst t. auto.
Qed.

Lemma drained_same n t db db' i ev :
  schema_ok db -> drained row_order alone n t db db' -> outbox db !! i = Some ev ->
  exists ev', outbox db' !! i = Some ev' /\ same_event ev ev'.
Proof.
  intros Hso [_ Hin Hout] Hrow.
  destruct (decide (i ∈ map o_id (next_batch row_order alone n db))) as [Hi|Hi].
  - apply list_elem_of_fmap in Hi as (ev0 & -> & Hev0). rewrite (Hin _ Hev0).
    apply batch_eligible in Hev0 as (Hrow0 & Hnone & _); [|done..].
    rewrite Hrow in Hrow0. injection Hrow0 as ->. eexists. split; [done|]. by exists (Some t).
  - rewrite (Hout i Hi). by exists ev.
Qed.

(** A turn nothing reaches. *)
Definition undisturbed (env : Env) : Env * Interrupt := (env, NoInterrupt).

Lemma run_loop_drains turns db :
  schema_ok db -> Forall reliable turns ->
  exists db', run_loop row_order alone (map undisturbed turns) db = (LoopRunning, db') /\
  schema_ok db' /\
  size (unpublished_ids db') = (size (unpublished_ids db) - 50 * List.length turns)%nat /\
  (exists ob, db' = {| db with outbox := ob |}) /\
  forall i ev, outbox db !! i = Some ev ->
    exists ev', outbox db' !! i = Some ev' /\ same_event ev ev'.
Proof.
  revert db. induction turns as [|env turns IH]; intros db Hso Hrel; simpl.
  { exists db. split; [done|]. split; [done|]. split; [lia|]. split; [exists (outbox db); by destruct db|].
    intros i ev Hev. by exists ev. }
  apply Forall_cons in Hrel as [Hr Hrel].
  destruct (drain_total row_order alone row_order_perm env 50 db Hso Hr) as (t & db1 & Hrun & Hd).
  unfold loop_turn, relay_turn. rewrite Hrun.
  pose proof (drained_schema row_order row_order_perm 50 t db db1 Hso Hd) as Hso1.
  destruct (IH db1 Hso1 Hrel) as (db' & Hloop & Hso' & Hsz & [ob Hfr] & Hsame).
  exists db'. split; [exact Hloop|]. split; [done|]. split; [|split].
  - rewrite Hsz, (drained_size row_order row_order_perm 50 t db db1 Hso Hd). lia.
  - exists ob. destruct Hd as [[ob1 ->] _ _]. exact Hfr.
  - intros i ev Hev. destruct (drained_same _ _ _ _ _ _ Hso Hd Hev) as (ev1 & Hev1 & Hs1).
    destruct (Hsame i ev1 Hev1) as (ev2 & Hev2 & Hs2). exists ev2. split; [done|]. by etrans.
Qed.

(** The loop publishes everything.  With no other worker, [k] reliable turns of the loop
    publish every event when there were at most [50 * k] unpublished ones, and the loop goes
    on; no event is lost or altered, an event that was published keeps its time, and no
    other table changes. *)
Theorem relay_publishes_everything turns db :
  schema_ok db -> Forall reliable turns ->
  (size (unpublished_ids db) <= 50 * List.length turns)%nat ->
  exists db', run_loop row_order alone (map undisturbed turns) db = (LoopRunning, db') /\
  (forall i ev, outbox db !! i = Some ev ->
     exists t, outbox db' !! i = Some {| ev with o_published_at := Some t |} /\
       (o_published_at ev <> None -> o_published_at ev = Some t)) /\
  (forall i ev, outbox db' !! i = Some ev -> o_published_at ev <> None) /\
  (exists ob, db' = {| db with outbox := ob |}).
Proof.
  intros Hso Hrel Hsize.
  destruct (run_loop_drains turns db Hso Hrel) as (db' & Hloop & Hso' & Hsz & Hfr & Hsame).
  exists db'. split; [exact Hloop|].
  assert (Hall : forall i ev, outbox db' !! i = Some ev -> o_published_at ev <> None).
  { intros i ev Hev Hnone.
    assert (Hempty : unpublished_ids db' ≡ ∅) by (apply size_empty_iff; lia).
    apply (not_elem_of_empty (C:=gset N) i). apply Hempty, elem_of_unpublished_ids. eauto. }
  split; [|done]. intros i ev Hev. destruct (Hsame i ev Hev) as (ev' & Hev' & at_ & -> & Hat).
  apply Hall in Hev' as Hp. simpl in Hp. destruct at_ as [t|]; [|done].
  exists t. split; [done|]. intros Hne. by rewrite (Hat Hne).
Qed.

(** However the loop is interrupted, it leaves the tables of whole batches: those of some
    committed runs of [drain_batch], one after the other. *)
Definition batch_step (locked_elsewhere : uuid -> bool) (db db' : DB) : Prop :=
  exists env, (relay_turn row_order locked_elsewhere env db).2 = db'.

Lemma run_loop_batches locked_elsewhere turns db st db' :
  run_loop row_order locked_elsewhere turns db = (st, db') -> rtc (batch_step locked_elsewhere) db db'.
Proof.
  revert db. induction turns as [|[env interrupt] turns IH]; intros db H; simpl in H.
  { by injection H as _ ->. }
  unfold loop_turn in H. destruct (relay_turn row_order locked_elsewhere env db) as [r db1] eqn:Hrun.
  assert (Hb : batch_step locked_elsewhere db db1) by (exists env; by rewrite Hrun).
  destruct interrupt as [| |[]|]; [|by injection H as _ <-; apply rtc_once..|by injection H as _ <-|].
  - eapply rtc_l; [exact Hb|by apply IH].
  - destruct (sleeps r); [destruct r; injection H as _ <-; by apply rtc_once|].
    eapply rtc_l; [exact Hb|by apply IH].
Qed.

(** [stop], and a cancellation that reaches the loop, end it within the turn. *)
Lemma run_loop_stops locked_elsewhere turns env interrupt turns' db :
  Forall (fun x => x.2 = NoInterrupt) turns -> interrupt = StopCalled \/ (exists b, interrupt = CancelledInDrain b) ->
  exists db', run_loop row_order locked_elsewhere (turns ++ (env, interrupt) :: turns') db = (LoopStopped, db').
Proof.
  intros Hq Hi. revert db. induction Hq as [|[env' i'] turns Hx _ IH]; intros db; simpl in *.
  - unfold loop_turn. destruct (relay_turn row_order locked_elsewhere env db) as [r db1].
    destruct Hi as [->|[b ->]]; by eexists.
  - subst i'. unfold loop_turn. destruct (relay_turn row_order locked_elsewhere env' db) as [r db1]. apply IH.
Qed.

End loop.

(** ** The theorems at a concrete outbox *)

Definition demo_outbox_event (i : uuid) (created : Z) (at_ : option Z) : Outbox :=
  mkOutbox i "payment" 9000 "payment.captured" [] created at_.

Definition backlog : gmap uuid Outbox :=
  {[ 31%N := demo_outbox_event 31 5 None; 32%N := demo_outbox_event 32 3 None;
     33%N := demo_outbox_event 33 1 (Some 2) ]}.
Definition backlog_db : DB := {| demo_db with outbox := backlog |}.

Lemma backlog_schema_ok : schema_ok backlog_db.
Proof.
  destruct demo_schema_ok. constructor; simpl in *; try done.
  intros i o Ho. unfold backlog in Ho. rewrite !lookup_insert_Some, lookup_singleton_Some in Ho.
  by destruct Ho as [[<- <-]|[_ [[<- <-]|[_ [<- <-]]]]].
Qed.

Lemma batch_publishes_oldest_witness :
  exists t db', in_transaction (demo_env 0) (drain_batch (fun l => l) alone 1) backlog_db = (Ok 1, db') /\
    outbox db' !! 32%N = Some (demo_outbox_event 32 3 (Some t)).
Proof.
  destruct (batch_publishes_oldest (fun l => l) alone same_order_perm (demo_env 0) 1 backlog_db
    backlog_schema_ok (demo_reliable 0)) as (t & batch & db' & Hrun & _ & Hel & Hlen & Hold & Hpub & _).
  assert (He32 : eligible alone backlog_db (demo_outbox_event 32 3 None)) by done.
  assert (He31 : eligible alone backlog_db (demo_outbox_event 31 5 None)) by done.
  destruct Hlen as [Hlen|[Hlen Hall]].
  - destruct batch as [|ev [|]]; [done| |done].
    assert (Hev : ev = demo_outbox_event 32 3 None).
    { destruct (Hel ev) as (Hrow & Hnone & _); [by left|].
      cbn [outbox backlog_db] in Hrow. unfold backlog in Hrow.
      rewrite !lookup_insert_Some, lookup_singleton_Some in Hrow.
      destruct Hrow as [[_ <-]|[_ [[_ <-]|[_ [_ <-]]]]]; [|done|done].
      exfalso. assert (Hle := Hold _ _ ltac:(by left) He32
        ltac:(intros Hin%list_elem_of_singleton; discriminate Hin)). simpl in Hle. lia. }
    subst ev. exists t, db'. split; [exact Hrun|]. apply (Hpub (demo_outbox_event 32 3 None)). by left.
  - exfalso. assert (Hin := Hall _ He32). destruct batch; [by apply not_elem_of_nil in Hin|simpl in Hlen; lia].
Defined.

Lemma relay_publishes_everything_witness :
  exists db' t, run_loop (fun l => l) alone [(demo_env 0, NoInterrupt)] backlog_db = (LoopRunning, db') /\
    outbox db' !! 31%N = Some (demo_outbox_event 31 5 (Some t)).
Proof.
  destruct (relay_publishes_everything (fun l => l) same_order_perm [demo_env 0] backlog_db
    backlog_schema_ok) as (db' & Hloop & Hall & _).
  - constructor; [apply demo_reliable|constructor].
  - vm_compute. lia.
  - destruct (Hall 31%N (demo_outbox_event 31 5 None) eq_refl) as (t & Ht & _). by exists db', t.
Defined.
