(* ===== verification/PyConfig.v ===== *)
(** * PyConfig: [configparser.ConfigParser] with its default interpolation

    The part of Python's [configparser] that [alembic/env.py] goes through when it stores an
    option and reads it back: [BasicInterpolation.before_set], which refuses a stray percent
    sign, and [before_get], which replaces a doubled percent sign by one and [%(name)s] by
    the value of the option [name].  A section is the list of its options with the defaults,
    in order, names distinct. *)

From S2P Require Import Prelude PyStd PyText.
From Stdlib Require Import String Ascii.

Abbreviation Options := (list (string * string)).

Inductive config_error :=
| InvalidInterpolation          (* [ValueError] of [set] *)
| BadReference                  (* [InterpolationSyntaxError] *)
| MissingOption (name : string) (* [InterpolationMissingOptionError] *)
| DepthExceeded                 (* [InterpolationDepthError] *)
| NoOption.                     (* [NoOptionError] *)

(** ** Text with percent signs *)

Definition percent : ascii := "%".
Definition not_percent (c : ascii) : bool := negb (Ascii.eqb c percent).
Definition no_percent (s : string) : bool := all_chars not_percent s.

(** [s.replace('%%', '')] *)
Fixpoint drop_doubled (s : string) : string :=
  match s with
  | EmptyString => EmptyString
  | String c s' =>
      if not_percent c then String c (drop_doubled s')
      else match s' with
           | String c' s'' => if not_percent c' then String c (drop_doubled s') else drop_doubled s''
           | EmptyString => s
           end
  end.

(** What stands before the first closing parenthesis, and what follows it. *)
Fixpoint until_paren (s : string) : option (string * string) :=
  match s with
  | EmptyString => None
  | String c s' =>
      if Ascii.eqb c ")" then Some (EmptyString, s')
      else match until_paren s' with
           | Some (name, rest) => Some (String c name, rest)
           | None => None
           end
  end.

(** [re.compile(r"%\(([^)]+)\)s")] after its percent sign: the name, and how many characters
    the match has. *)
Definition key_ref (s : string) : option (string * nat) :=
  match s with
  | String c s' =>
      if negb (Ascii.eqb c "(") then None
      else match until_paren s' with
           | Some (name, String c' _) =>
               if Ascii.eqb c' "s" && negb (String.eqb name "") then Some (name, String.length name + 3)%nat
               else None
           | _ => None
           end
  | EmptyString => None
  end.

(** [_KEYCRE.sub('', s)]; [skip] characters belong to a match. *)
Fixpoint drop_refs (skip : nat) (s : string) : string :=
  match s with
  | EmptyString => EmptyString
  | String c s' =>
      match skip with
      | S n => drop_refs n s'
      | O => if not_percent c then String c (drop_refs 0 s')
             else match key_ref s' with
                  | Some (_, n) => drop_refs n s'
                  | None => String c (drop_refs 0 s')
                  end
      end
  end.

(** [BasicInterpolation.before_set] *)
Definition before_set (value : string) : result config_error string :=
  if no_percent (drop_refs 0 (drop_doubled value)) then Ok value else Err InvalidInterpolation.

Fixpoint option_get (name : string) (d : Options) : option string :=
  match d with
  | [] => None
  | (k, v) :: d' => if String.eqb name k then Some v else option_get name d'
  end.

Fixpoint option_set (name value : string) (d : Options) : Options :=
  match d with
  | [] => [(name, value)]
  | (k, v) :: d' => if String.eqb name k then (k, value) :: d' else (k, v) :: option_set name value d'
  end.

(** The loop of [BasicInterpolation._interpolate_some]; [deeper] interpolates the value of an
    option that is referred to. *)
Fixpoint interpolate_loop (deeper : string -> result config_error string) (d : Options) (skip : nat) (s : string)
  : result config_error string :=
  match s with
  | EmptyString => Ok EmptyString
  | String c s' =>
      match skip with
      | S n => interpolate_loop deeper d n s'
      | O =>
          if not_percent c then rest ← interpolate_loop deeper d 0 s'; Ok (String c rest)
          else match s' with
               | EmptyString => Err BadReference
               | String c' _ =>
                   if negb (not_percent c') then rest ← interpolate_loop deeper d 1 s'; Ok (String c rest)
                   else if negb (Ascii.eqb c' "(") then Err BadReference
                   else match key_ref s' with
                        | None => Err BadReference
                        | Some (name, n) =>
                            match option_get (str_lower name) d with
                            | None => Err (MissingOption (str_lower name))
                            | Some v =>
                                v' ← (if no_percent v then Ok v else deeper v);
                                rest ← interpolate_loop deeper d n s';
                                Ok (v' +:+ rest)
                            end
                        end
               end
      end
  end.

(** [levels]: how many levels [MAX_INTERPOLATION_DEPTH] leaves. *)
Fixpoint interpolate_some (levels : nat) (d : Options) (s : string) : result config_error string :=
  match levels with
  | O => Err DepthExceeded
  | S levels' => interpolate_loop (interpolate_some levels' d) d 0 s
  end.

(** [BasicInterpolation.before_get] *)
Definition before_get (d : Options) (value : string) : result config_error string := interpolate_some 10 d value.

(** [parser.set(section, name, value)], [parser.get(section, name)], [dict(parser.items(section))] *)
Definition config_set (name value : string) (d : Options) : result config_error Options :=
  value ← before_set value; Ok (option_set name value d).

Definition config_get (name : string) (d : Options) : result config_error string :=
  match option_get name d with Some v => before_get d v | None => Err NoOption end.

Fixpoint items_loop (d rest : Options) : result config_error Options :=
  match rest with
  | [] => Ok []
  | (k, v) :: rest' => v' ← before_get d v; items ← items_loop d rest'; Ok ((k, v') :: items)
  end.

Definition config_items (d : Options) : result config_error Options := items_loop d d.

(** [value.replace('%', '%%')]: how a value is to be written. *)
Fixpoint doubled (s : string) : string :=
  match s with
  | EmptyString => EmptyString
  | String c s' => if not_percent c then String c (doubled s') else String c (String c (doubled s'))
  end.

(** ** Lemmas *)

Lemma no_percent_cons c s : no_percent (String c s) = not_percent c && no_percent s.
Proof. done. Qed.

Lemma no_percent_app a b : no_percent (a +:+ b) = no_percent a && no_percent b.
Proof. apply all_chars_app. Qed.

Lemma not_percent_false c : not_percent c = false -> c = percent.
Proof. unfold not_percent. intros H%negb_false_iff. by apply Ascii.eqb_eq. Qed.

Lemma drop_doubled_app a s : no_percent a = true -> drop_doubled (a +:+ s) = a +:+ drop_doubled s.
Proof.
  induction a as [|c a IH]; [done|]. rewrite no_percent_cons, !str_app_cons.
  intros [Hc Ha]%andb_true_iff. simpl. rewrite Hc. f_equal. by apply IH.
Qed.

Lemma drop_refs_app a s : no_percent a = true -> drop_refs 0 (a +:+ s) = a +:+ drop_refs 0 s.
Proof.
  induction a as [|c a IH]; [done|]. rewrite no_percent_cons, !str_app_cons.
  intros [Hc Ha]%andb_true_iff. simpl. rewrite Hc. f_equal. by apply IH.
Qed.

(** Text without percent signs is stored and read as it is. *)
Lemma before_set_plain s : no_percent s = true -> before_set s = Ok s.
Proof.
  intros H. unfold before_set. rewrite <- (str_app_nil_r s) at 1.
  by rewrite drop_doubled_app, drop_refs_app, str_app_nil_r, H.
Qed.

Lemma interpolate_plain deeper d s : no_percent s = true -> interpolate_loop deeper d 0 s = Ok s.
Proof.
  induction s as [|c s IH]; [done|]. rewrite no_percent_cons. intros [Hc Hs]%andb_true_iff.
  simpl. by rewrite Hc, IH.
Qed.

Lemma before_get_plain d s : no_percent s = true -> before_get d s = Ok s.
Proof. apply interpolate_plain. Qed.

(** A percent sign is refused unless another one or a parenthesis follows it. *)
Lemma before_set_stray a c b :
  no_percent a = true -> c <> percent -> c <> "("%char ->
  before_set (a +:+ String percent (String c b)) = Err InvalidInterpolation.
Proof.
  intros Ha Hc Hp. unfold before_set. rewrite drop_doubled_app by done.
  assert (Hnc : not_percent c = true) by (apply negb_true_iff; by apply Ascii.eqb_neq).
  assert (Heq : drop_doubled (String percent (String c b)) = String percent (String c (drop_doubled b)))
    by (simpl; by rewrite Hnc).
  rewrite Heq, drop_refs_app by done.
  assert (Hkey : key_ref (String c (drop_doubled b)) = None)
    by (unfold key_ref; destruct (Ascii.eqb_spec c "("); done).
  change (drop_refs 0 (String percent (String c (drop_doubled b)))) with
    (match key_ref (String c (drop_doubled b)) with
     | Some (_, n) => drop_refs n (String c (drop_doubled b))
     | None => String percent (drop_refs 0 (String c (drop_doubled b)))
     end).
  rewrite Hkey, no_percent_app, no_percent_cons. by rewrite andb_false_r.
Qed.

(** Doubled percent signs are stored, and read back as one. *)
Lemma before_set_doubled s : before_set (doubled s) = Ok (doubled s).
Proof.
  unfold before_set.
  assert (H : no_percent (drop_doubled (doubled s)) = true).
  { induction s as [|c s IH]; [done|]. simpl. destruct (not_percent c) eqn:Hc; simpl; rewrite Hc; [|done].
    by rewrite no_percent_cons, Hc. }
  rewrite <- (str_app_nil_r (drop_doubled _)), drop_refs_app by done. by rewrite str_app_nil_r, H.
Qed.

Lemma before_get_doubled d s : before_get d (doubled s) = Ok s.
Proof.
  unfold before_get, interpolate_some. induction s as [|c s IH]; [done|]. simpl.
  destruct (not_percent c) eqn:Hc; simpl; rewrite Hc; simpl.
  - by rewrite IH.
  - by rewrite IH.
Qed.

Lemma option_get_set name value d : option_get name (option_set name value d) = Some value.
Proof.
  induction d as [|[k v] d IH]; simpl; [by rewrite String.eqb_refl|].
  destruct (String.eqb_spec name k) as [->|Hne]; simpl; [by rewrite String.eqb_refl|].
  destruct (String.eqb_spec name k); [done|exact IH].
Qed.

(** Every option can be read. *)
Definition readable (d : Options) : Prop := Forall (fun kv => no_percent kv.2 = true) d.

Lemma readable_set name value d : readable d -> no_percent value = true -> readable (option_set name value d).
Proof.
  intros Hd Hv. induction Hd as [|[k v] d Hkv Hd IH]; simpl; [by constructor|].
  destruct (String.eqb name k); by constructor.
Qed.

Lemma config_items_readable d : readable d -> config_items d = Ok d.
Proof.
  unfold config_items. intros H. assert (Hgen : forall all, items_loop all d = Ok d); [|apply Hgen].
  intros all. induction H as [|[k v] d Hkv _ IH]; [done|]. simpl in *.
  by rewrite (before_get_plain all v Hkv), IH.
Qed.
