(* ===== verification/AlembicEnv.v ===== *)
(** * AlembicEnv: [alembic/env.py]

    What Alembic executes to run the migrations: the URL of the settings is stored in the
    options of [alembic.ini] and read back through their interpolation ([PyConfig]); online,
    the database there is opened and migrated in one transaction; offline, the statements are
    printed.  Proved: both migrate the database the engine of the service connects to, and an
    offline script does what the online run does; but a URL with an encoded character is
    refused before anything is done, although the service itself runs on it.

    Alembic's [alembic_version] table is the field [d_version]. *)

From S2P Require Import Prelude PyStd PyText PyConfig Domain Models Migrations Psp.
From Stdlib Require Import String Ascii.

(** ** The engine of the service *)

(** What [create_async_engine] is called with. *)
Record Engine := mkEngine {
  en_url : string; en_echo : bool; en_pool_size : Z; en_max_overflow : Z; en_pool_pre_ping : bool;
}.

(** [infrastructure/database.py] *)
Definition engine (st : Settings) : Engine :=
  mkEngine (DATABASE_URL st) false (DB_POOL_SIZE st) (DB_MAX_OVERFLOW st) true.

(** ** Migration runs *)

(** [alembic upgrade head], [alembic downgrade base] *)
Inductive Command := UpgradeHead | DowngradeBase.

Inductive Statement := Begin | Sql (d : Ddl) | SetVersion (v : option string) | Commit.

Inductive Call := Connected (url : string) | Closed (url : string) | Disposed (url : string).

Inductive env_error := ConfigError (e : config_error) | NoDatabase | MigrationError (e : ddl_error).

(** The databases by their URLs, what is done to connections, what is printed. *)
Record AlembicState := mkAlembic {
  databases : gmap string Database;
  calls : list Call;
  printed : list Statement;
}.

Definition call (c : Call) (s : AlembicState) : AlembicState := {| s with calls := calls s ++ [c] |}.

(** What the command makes of a database. *)
Definition command_steps (cmd : Command) (now : Z) : Database -> result ddl_error Database :=
  match cmd with
  | UpgradeHead => upgrade_along now revisions
  | DowngradeBase => downgrade_along now (rev revisions)
  end.

(** The statements of the same revisions, from a given one. *)
Fixpoint upgrade_script (from : option string) (revs : list Revision) : list Statement :=
  match revs with
  | [] => []
  | r :: revs' =>
      if decide (down_revision r = from) then
        map Sql (upgrade r) ++ SetVersion (Some (revision r)) :: upgrade_script (Some (revision r)) revs'
      else upgrade_script from revs'
  end.

Fixpoint downgrade_script (from : option string) (revs : list Revision) : list Statement :=
  match revs with
  | [] => []
  | r :: revs' =>
      if decide (from = Some (revision r)) then
        map Sql (downgrade r) ++ SetVersion (down_revision r) :: downgrade_script (down_revision r) revs'
      else downgrade_script from revs'
  end.

Definition command_script (cmd : Command) (from : option string) : list Statement :=
  match cmd with
  | UpgradeHead => upgrade_script from revisions
  | DowngradeBase => downgrade_script from (rev revisions)
  end.

(** [with context.begin_transaction(): context.run_migrations()], offline: the statements are
    printed and not executed. *)
Definition run_migrations_offline (cmd : Command) (from : option string) (cfg : Options) (s : AlembicState)
  : result env_error unit * AlembicState :=
  match config_get "sqlalchemy.url" cfg with
  | Err e => (Err (ConfigError e), s)
  | Ok _ => (Ok tt, {| s with printed := printed s ++ Begin :: command_script cmd from ++ [Commit] |})
  end.

Definition do_run_migrations (cmd : Command) (now : Z) (d : Database) : result ddl_error unit * Database :=
  run_migrations (command_steps cmd now) d.

(** [async_engine_from_config] takes the options of the section; [async with] closes the
    connection in every case, and an exception passes [connectable.dispose()] by. *)
Definition run_async_migrations (cmd : Command) (now : Z) (cfg : Options) (s : AlembicState)
  : result env_error unit * AlembicState :=
  match config_items cfg with
  | Err e => (Err (ConfigError e), s)
  | Ok section =>
      match option_get "sqlalchemy.url" section with
      | None => (Err (ConfigError NoOption), s)
      | Some url =>
          match databases s !! url with
          | None => (Err NoDatabase, s)
          | Some d =>
              let '(r, d') := do_run_migrations cmd now d in
              let s1 := {| s with databases := <[url := d']> (databases s);
                                  calls := calls s ++ [Connected url; Closed url] |} in
              match r with
              | Ok _ => (Ok tt, call (Disposed url) s1)
              | Err e => (Err (MigrationError e), s1)
              end
          end
      end
  end.

Definition run_migrations_online := run_async_migrations.

(** [--sql] and the revision it starts from, or a connection. *)
Inductive Mode := Offline (from : option string) | Online.

(** The module, executed with the options of [alembic.ini]. *)
Definition env_py (st : Settings) (mode : Mode) (cmd : Command) (now : Z) (cfg : Options) (s : AlembicState)
  : result env_error unit * AlembicState :=
  match config_set "sqlalchemy.url" (DATABASE_URL st) cfg with
  | Err e => (Err (ConfigError e), s)
  | Ok cfg1 =>
      match mode with
      | Offline from => run_migrations_offline cmd from cfg1 s
      | Online => run_migrations_online cmd now cfg1 s
      end
  end.

(** [alembic.ini]; Alembic adds the directory of the file. *)
Definition alembic_ini (here : string) : Options :=
  [("here", here); ("script_location", "alembic"); ("prepend_sys_path", "."); ("version_path_separator", "os")]%string.

(** ** A printed script, executed *)

Definition exec_statement (now : Z) (stmt : Statement) (d : Database) : result ddl_error Database :=
  match stmt with
  | Sql op => c ← exec_ddl now op (d_catalog d); Ok (mkDatabase c (d_version d))
  | SetVersion v => Ok (mkDatabase (d_catalog d) v)
  | Begin | Commit => Ok d
  end.

(** A session that reads the script: [current] is the open transaction, which an error spoils;
    what is not committed is lost. *)
Fixpoint run_script (now : Z) (script : list Statement) (d : Database) (current : option (result ddl_error Database))
  : result ddl_error unit * Database :=
  match script with
  | [] => (Ok tt, d)
  | stmt :: script' =>
      match stmt, current with
      | Begin, _ => run_script now script' d (Some (Ok d))
      | Commit, Some (Err e) => (Err e, d)
      | Commit, Some (Ok d') => run_script now script' d' None
      | Commit, None => run_script now script' d None
      | _, Some cur => run_script now script' d (Some (cur ≫= exec_statement now stmt))
      | _, None =>
          match exec_statement now stmt d with
          | Ok d' => run_script now script' d' None
          | Err e => (Err e, d)
          end
      end
  end.

(** ** Lemmas *)

(** Inside a transaction the script composes. *)
Lemma run_script_failed now script d e tail :
  Forall (fun stmt => stmt <> Begin /\ stmt <> Commit) script ->
  run_script now (script ++ tail) d (Some (Err e)) = run_script now tail d (Some (Err e)).
Proof. induction 1 as [|[| | |] script [Hb Hc] _ IH]; done. Qed.

Lemma run_script_ops now ops tail d cur :
  run_script now (map Sql ops ++ tail) d (Some (Ok cur)) =
  run_script now tail d (Some (c ← exec_ddls now ops (d_catalog cur); Ok (mkDatabase c (d_version cur)))).
Proof.
  revert cur. induction ops as [|op ops IH]; intros cur; [by destruct cur|]. cbn [map app run_script exec_ddls].
  simpl. destruct (exec_ddl now op (d_catalog cur)) as [c|e]; simpl; [by rewrite IH|].
  apply run_script_failed. apply Forall_map, Forall_true. done.
Qed.

Lemma upgrade_script_inner from revs : Forall (fun stmt => stmt <> Begin /\ stmt <> Commit) (upgrade_script from revs).
Proof.
  revert from. induction revs as [|r revs IH]; intros from; simpl; [constructor|].
  case_decide; [|apply IH]. apply Forall_app. split; [by apply Forall_map, Forall_true|]. by constructor.
Qed.

Lemma downgrade_script_inner from revs :
  Forall (fun stmt => stmt <> Begin /\ stmt <> Commit) (downgrade_script from revs).
Proof.
  revert from. induction revs as [|r revs IH]; intros from; simpl; [constructor|].
  case_decide; [|apply IH]. apply Forall_app. split; [by apply Forall_map, Forall_true|]. by constructor.
Qed.

Lemma upgrade_script_runs now revs tail d cur :
  run_script now (upgrade_script (d_version cur) revs ++ tail) d (Some (Ok cur)) =
  run_script now tail d (Some (upgrade_along now revs cur)).
Proof.
  revert cur. induction revs as [|r revs IH]; intros cur; [done|]. simpl.
  case_decide as Hv; [|apply IH]. rewrite <- app_assoc, run_script_ops.
  destruct (exec_ddls now (upgrade r) (d_catalog cur)) as [c|e]; simpl.
  - apply (IH (mkDatabase c (Some (revision r)))).
  - apply run_script_failed, upgrade_script_inner.
Qed.

Lemma downgrade_script_runs now revs tail d cur :
  run_script now (downgrade_script (d_version cur) revs ++ tail) d (Some (Ok cur)) =
  run_script now tail d (Some (downgrade_along now revs cur)).
Proof.
  revert cur. induction revs as [|r revs IH]; intros cur; [done|]. simpl.
  case_decide as Hv; [|apply IH]. rewrite <- app_assoc, run_script_ops.
  destruct (exec_ddls now (downgrade r) (d_catalog cur)) as [c|e]; simpl.
  - apply (IH (mkDatabase c (down_revision r))).
  - apply run_script_failed, downgrade_script_inner.
Qed.

Lemma script_is_run cmd now d :
  run_script now (Begin :: command_script cmd (d_version d) ++ [Commit]) d None = do_run_migrations cmd now d.
Proof.
  unfold do_run_migrations, run_migrations. cbn [run_script].
  destruct cmd; cbn [command_script command_steps]; [rewrite upgrade_script_runs|rewrite downgrade_script_runs];
    cbn [run_script]; by destruct (_ : result _ Database).
Qed.

(** The URL that comes back from the options. *)
Lemma url_stored_plain st here cfg :
  no_percent (DATABASE_URL st) = true -> no_percent here = true ->
  config_set "sqlalchemy.url" (DATABASE_URL st) (alembic_ini here) = Ok cfg ->
  config_get "sqlalchemy.url" cfg = Ok (DATABASE_URL st) /\ config_items cfg = Ok cfg /\
  option_get "sqlalchemy.url" cfg = Some (DATABASE_URL st).
Proof.
  intros Hu Hh. unfold config_set. rewrite before_set_plain by done. cbn [mbind result_bind]. intros Hcfg.
  assert (cfg = option_set "sqlalchemy.url" (DATABASE_URL st) (alembic_ini here)) as -> by congruence.
  unfold config_get. rewrite option_get_set, before_get_plain by done. split; [done|]. split; [|done].
  apply config_items_readable, readable_set; [|done]. unfold alembic_ini. by repeat constructor.
Qed.

(** ** The theorems *)

(** On settings without a percent sign. *)
Lemma env_runs_plain st here cmd now s d :
  no_percent (DATABASE_URL st) = true -> no_percent here = true ->
  databases s !! en_url (engine st) = Some d ->
  let '(r, d') := run_migrations (command_steps cmd now) d in
  (exists ended,
    env_py st Online cmd now (alembic_ini here) s =
      (match r with Ok _ => Ok tt | Err e => Err (MigrationError e) end,
       {| s with databases := <[en_url (engine st) := d']> (databases s);
                 calls := calls s ++ [Connected (en_url (engine st)); Closed (en_url (engine st))] ++ ended |}) /\
    ended = match r with Ok _ => [Disposed (en_url (engine st))] | Err _ => [] end) /\
  (exists script,
    env_py st (Offline (d_version d)) cmd now (alembic_ini here) s =
      (Ok tt, {| s with printed := printed s ++ script |}) /\
    run_script now script d None = (r, d')).
Proof.
  intros Hu Hh Hd. cbn [engine en_url] in *. pose proof (script_is_run cmd now d) as Hscript.
  unfold do_run_migrations in Hscript. destruct (run_migrations _ d) as [r d'] eqn:Hrun. unfold env_py.
  destruct (config_set "sqlalchemy.url" (DATABASE_URL st) (alembic_ini here)) as [cfg|e] eqn:Hset.
  2:{ unfold config_set in Hset. by rewrite before_set_plain in Hset. }
  destruct (url_stored_plain _ _ _ Hu Hh Hset) as (Hget & Hitems & Hopt). split.
  - eexists. split; [|done]. unfold run_migrations_online, run_async_migrations. rewrite Hitems, Hopt, Hd.
    unfold do_run_migrations. rewrite Hrun. destruct r as [[]|e]; [|by rewrite app_nil_r].
    unfold call. simpl. by rewrite <- app_assoc.
  - eexists. unfold run_migrations_offline. rewrite Hget. split; [done|exact Hscript].
Qed.

(** On a password whose first percent sign neither another one nor a parenthesis follows. *)
Lemma env_refuses_percent st a c b mode cmd now cfg s :
  no_percent (DB_USER st) = true -> DB_PASSWORD st = a +:+ String percent (String c b) ->
  no_percent a = true -> c <> percent -> c <> "("%char ->
  env_py st mode cmd now cfg s = (Err (ConfigError InvalidInterpolation), s) /\
  (cfg1 ← config_set "sqlalchemy.url" (doubled (DATABASE_URL st)) cfg; config_get "sqlalchemy.url" cfg1) =
    Ok (DATABASE_URL st).
Proof.
  intros Hu Hpw Ha Hc Hp. split.
  - unfold env_py, config_set.
    assert (exists a' b', no_percent a' = true /\ DATABASE_URL st = a' +:+ String percent (String c b'))
      as (a' & b' & Ha' & ->).
    { unfold DATABASE_URL, db_authority. rewrite Hpw.
      exists ("postgresql+asyncpg://" +:+ DB_USER st +:+ ":" +:+ a). eexists. split.
      - by rewrite !no_percent_app, Hu, Ha.
      - rewrite !str_app_assoc, !str_app_cons. reflexivity. }
    by rewrite before_set_stray.
  - unfold config_set. rewrite before_set_doubled. cbn [mbind result_bind]. unfold config_get.
    by rewrite option_get_set, before_get_doubled.
Qed.

(** C35: the migrations reach the database of the service, but for one bug.  When the settings
    and the directory hold no percent sign, [env.py] online migrates the database at the URL
    the engine of the service is created with, and no other: it runs the revisions there in
    one transaction, reports their error, and closes its connection in every case.  Offline
    it touches no database, and the script it prints, from the revision that database is at,
    does to it what the online run does, errors included.  But when the user name has no
    percent sign and the first one of the password is followed by a character that is neither
    a percent sign nor an opening parenthesis, as it is in a password whose percent
    signs all begin percent-encoded characters ([p%40ss] for [p@ss]), [env.py] raises the
    [ValueError] of the option parser, online and offline, and nothing is opened, migrated or
    printed; with all percent signs of the URL doubled, the option would read back as the
    URL. *)
Theorem env_migrates_the_engine_database st here cmd now s :
  no_percent (DB_USER st) = true ->
  (forall d, no_percent (DATABASE_URL st) = true -> no_percent here = true ->
    databases s !! en_url (engine st) = Some d ->
    let '(r, d') := run_migrations (command_steps cmd now) d in
    (exists ended,
      env_py st Online cmd now (alembic_ini here) s =
        (match r with Ok _ => Ok tt | Err e => Err (MigrationError e) end,
         {| s with databases := <[en_url (engine st) := d']> (databases s);
                   calls := calls s ++ [Connected (en_url (engine st)); Closed (en_url (engine st))] ++ ended |}) /\
      ended = match r with Ok _ => [Disposed (en_url (engine st))] | Err _ => [] end) /\
    (exists script,
      env_py st (Offline (d_version d)) cmd now (alembic_ini here) s =
        (Ok tt, {| s with printed := printed s ++ script |}) /\
      run_script now script d None = (r, d'))) /\
  (forall a c b mode, DB_PASSWORD st = a +:+ String percent (String c b) ->
    no_percent a = true -> c <> percent -> c <> "("%char ->
    env_py st mode cmd now (alembic_ini here) s = (Err (ConfigError InvalidInterpolation), s) /\
    (cfg ← config_set "sqlalchemy.url" (doubled (DATABASE_URL st)) (alembic_ini here);
     config_get "sqlalchemy.url" cfg) = Ok (DATABASE_URL st)).
Proof.
  intros Hu. split.
  - intros d Hurl Hh Hd. by apply env_runs_plain.
  - intros a c b mode Hpw Ha Hc Hp. by eapply env_refuses_percent.
Qed.

(** ** Witnesses *)

Definition fresh_server : AlembicState :=
  mkAlembic {[ DATABASE_URL default_settings := mkDatabase empty_catalog None ]} [] [].

(** The service on the password p@ss, which a URL writes [p%40ss]. *)
Definition encoded_settings : Settings := {| default_settings with DB_PASSWORD := "p%40ss" |}.

Lemma env_migrates_the_engine_database_witness :
  (exists script s',
    env_py default_settings Online UpgradeHead 5 (alembic_ini "/app") fresh_server = (Ok tt, s') /\
    env_py default_settings (Offline None) UpgradeHead 5 (alembic_ini "/app") fresh_server =
      (Ok tt, {| fresh_server with printed := script |}) /\
    (run_script 5 script (mkDatabase empty_catalog None) None).1 = Ok tt) /\
  env_py encoded_settings Online UpgradeHead 5 (alembic_ini "/app") fresh_server =
    (Err (ConfigError InvalidInterpolation), fresh_server).
Proof.
  split.
  - pose proof (proj1 (env_migrates_the_engine_database default_settings "/app" UpgradeHead 5 fresh_server
      eq_refl) (mkDatabase empty_catalog None) eq_refl eq_refl (lookup_singleton_eq _ _)) as H.
    assert (Hr : (run_migrations (command_steps UpgradeHead 5) (mkDatabase empty_catalog None)).1 = Ok tt)
      by (vm_compute; reflexivity).
    destruct (run_migrations _ _) as [r d']. simpl in Hr. subst r.
    destruct H as ((ended & Hon & _) & (script & Hoff & Hrun)).
    exists script. eexists. split; [exact Hon|]. split; [exact Hoff|]. by rewrite Hrun.
  - exact (proj1 (proj2 (env_migrates_the_engine_database encoded_settings "/app" UpgradeHead 5 fresh_server
      eq_refl) "p" "4"%char "0ss" Online eq_refl eq_refl ltac:(discriminate) ltac:(discriminate))).
Defined.
