(* ===== verification/Startup.v ===== *)
(** * Startup: [app/infrastructure/redis_client.py] and the lifespan of [app/main.py]

    The Redis pool of the process, opened by the first request that needs it and closed at
    shutdown, and [lifespan]: the relay's task is created, runs while the application
    serves, and is stopped, cancelled and awaited before the pool is closed. *)

From S2P Require Import Prelude PyStd Domain Models Session Psp OutboxRelay.
From Stdlib Require Import String.

(** ** The Redis pool *)

(** A client of the Redis library; its number tells the clients of a process apart. *)
Record Client : Type := mkClient { cl_number : nat; cl_url : string; cl_max_connections : Z }.
#[global] Instance Client_eq_dec : EqDecision Client.
Proof. solve_decision. Defined.

(** The global [redis_pool], and the clients opened and closed so far. *)
Record RedisState : Type := mkRedis {
  redis_pool : option Client;
  redis_opened : list Client;
  redis_closed : list Client;
}.

Definition redis_initial : RedisState := mkRedis None [] [].

(** [aioredis.from_url(url, ..., max_connections=...)] *)
Definition from_url (url : string) (max_connections : Z) (rs : RedisState) : Client :=
  mkClient (List.length (redis_opened rs)) url max_connections.

Definition get_redis_client (st : Settings) (rs : RedisState) : Client * RedisState :=
  match redis_pool rs with
  | Some client => (client, rs)
  | None =>
      let client := from_url (REDIS_URL st) 50 rs in
      (client, mkRedis (Some client) (client :: redis_opened rs) (redis_closed rs))
  end.

(** [close_ok]: whether the client's [close] returned. *)
Definition close_redis (close_ok : bool) (rs : RedisState) : result unit unit * RedisState :=
  match redis_pool rs with
  | Some client =>
      if close_ok then (Ok tt, mkRedis None (redis_opened rs) (client :: redis_closed rs))
      else (Err tt, rs)
  | None => (Ok tt, rs)
  end.

(** ** The lifespan *)

Section lifespan.
  Variable row_order : list Outbox -> list Outbox.
  Variable locked_elsewhere : uuid -> bool.

(** Where the relay's task is suspended when the shutdown cancels it: not yet started, in
    the database (before or after its COMMIT took effect), or asleep. *)
Inductive TaskPoint := NotStarted | InDatabase (env : Env) (committed : bool) | Asleep (env : Env).

(** The [while self._running] of the loop after a turn, and [relay_task.cancel()] alone: how the
    turn ends in which the task receives the cancellation. *)
Definition while_running (running : bool) (turn : LoopState * DB) : LoopState * DB :=
  match turn with
  | (LoopRunning, db1) => (if running then LoopRunning else LoopStopped, db1)
  | ended => ended
  end.

Definition cancel_task (point : TaskPoint) (db : DB) : LoopState * DB :=
  match point with
  | NotStarted => (LoopCancelled, db)
  | InDatabase env committed => loop_turn row_order locked_elsewhere env (CancelledInDrain committed) db
  | Asleep env => loop_turn row_order locked_elsewhere env CancelledAsleep db
  end.

(** [outbox_relay.stop()], which clears [_running], and [relay_task.cancel()]. *)
Definition cancel_relay (point : TaskPoint) (db : DB) : LoopState * DB :=
  while_running false (cancel_task point db).

(** What follows the [yield]: the task is awaited, its [CancelledError] ignored, and the pool
    closed.  [None] when the task would go on. *)
Definition lifespan_shutdown (point : TaskPoint) (close_ok : bool) (rs : RedisState) (db : DB)
  : option (result unit unit * RedisState * DB) :=
  let '(ended, db1) := cancel_relay point db in
  match ended with
  | LoopRunning => None
  | LoopStopped | LoopCancelled =>
      let '(r, rs1) := close_redis close_ok rs in
      Some (r, rs1, db1)
  end.

(** [lifespan]: the relay makes [turns] turns while the application serves. *)
Definition lifespan (turns : list Env) (point : TaskPoint) (close_ok : bool) (rs : RedisState) (db : DB)
  : option (result unit unit * RedisState * DB) :=
  match run_loop row_order locked_elsewhere (map (fun env => (env, NoInterrupt)) turns) db with
  | (LoopRunning, db1) => lifespan_shutdown point close_ok rs db1
  | (_, db1) => let '(r, rs1) := close_redis close_ok rs in Some (r, rs1, db1)
  end.

End lifespan.

(** ** The pool's clients *)

(** Every client that was opened is closed, or is the pool. *)
Record pool_ok (rs : RedisState) : Prop := {
  po_numbers : forall c, c ∈ redis_opened rs -> (cl_number c < List.length (redis_opened rs))%nat;
  po_open : forall c, c ∈ redis_opened rs -> c ∈ redis_closed rs \/ redis_pool rs = Some c;
  po_pool : forall c, redis_pool rs = Some c -> c ∈ redis_opened rs /\ c ∉ redis_closed rs;
  po_closed : forall c, c ∈ redis_closed rs -> c ∈ redis_opened rs;
}.

Lemma pool_ok_initial : pool_ok redis_initial.
Proof. constructor; simpl; set_solver. Qed.

Lemma get_redis_client_ok st rs :
  pool_ok rs -> let '(c, rs') := get_redis_client st rs in pool_ok rs' /\ redis_pool rs' = Some c.
Proof.
  intros [Hn Ho Hp Hc]. unfold get_redis_client. destruct (redis_pool rs) as [c|] eqn:Hpool.
  { split; [|done]. constructor; by rewrite ?Hpool. }
  split; [|done]. set (c := from_url _ _ _).
  assert (Hnew : c ∉ redis_opened rs) by (intros Hin; specialize (Hn c Hin); simpl in Hn; lia).
  constructor; simpl.
  - intros d [->|Hd]%elem_of_cons; [simpl; lia|]. specialize (Hn d Hd). lia.
  - intros d [->|Hd]%elem_of_cons; [by right|]. destruct (Ho d Hd); [by left|done].
  - intros d [= <-]. split; [by left|]. intros Hin. by apply Hnew, Hc.
  - intros d Hd. right. by apply Hc.
Qed.

Lemma close_redis_ok close_ok rs :
  pool_ok rs ->
  let '(r, rs') := close_redis close_ok rs in
  pool_ok rs' /\ (r = Ok tt <-> redis_pool rs' = None) /\
  (redis_pool rs = None \/ close_ok = true -> r = Ok tt).
Proof.
  intros Hok. unfold close_redis. destruct (redis_pool rs) as [c|] eqn:Hpool; [destruct close_ok|].
  - split; [|done]. destruct Hok as [Hn Ho Hp Hc]. constructor; simpl; [done|..].
    + intros d Hd. left. destruct (Ho d Hd) as [Hd'|Hd']; [by right|]. rewrite Hpool in Hd'.
      injection Hd' as <-. by left.
    + done.
    + intros d [->|Hd]%elem_of_cons; [by apply Hp|by apply Hc].
  - rewrite Hpool. split; [done|]. split; [split; discriminate|]. by intros [?|?].
  - by rewrite Hpool.
Qed.
