(* ===== verification/StartupTheorems.v ===== *)
(** * StartupTheorems: a shutdown ends, and loses nothing

    However the shutdown finds the relay's task, [lifespan] ends, no event is lost, no
    client of Redis stays open, and the next start publishes what was left. *)

From S2P Require Import Prelude PyStd Domain Models Session Fixtures Psp OutboxRelay OutboxTheorems Startup.
From Stdlib Require Import String.

(** ** The pool over the life of a process *)

(** The operations on the pool: a request that needs it, and a shutdown. *)
Inductive PoolStep (st : Settings) (rs : RedisState) : RedisState -> Prop :=
| pool_get : PoolStep st rs (get_redis_client st rs).2
| pool_close close_ok : PoolStep st rs (close_redis close_ok rs).2.

(** At most one client is open, and it is the pool that every request is given. *)
Theorem one_client_at_a_time st rs :
  rtc (PoolStep st) redis_initial rs ->
  pool_ok rs /\
  forall c d, c ∈ redis_opened rs -> c ∉ redis_closed rs -> d ∈ redis_opened rs -> d ∉ redis_closed rs ->
    c = d /\ (get_redis_client st rs) = (c, rs).
Proof.
  intros Hrun. assert (Hok : pool_ok rs).
  { refine (rtc_ind_r (R := PoolStep st) (fun rs => pool_ok rs) _ pool_ok_initial _ _ Hrun).
    intros rs1 rs2 _ Hstep Hok. inversion Hstep; subst.
    - pose proof (get_redis_client_ok st rs1 Hok) as H. destruct (get_redis_client st rs1). apply H.
    - pose proof (close_redis_ok close_ok rs1 Hok) as H. destruct (close_redis close_ok rs1). apply H. }
  split; [done|]. intros c d Hc Hco Hd Hdo.
  destruct (po_open _ Hok c Hc) as [?|Hpc]; [done|]. destruct (po_open _ Hok d Hd) as [?|Hpd]; [done|].
  rewrite Hpc in Hpd. injection Hpd as <-. split; [done|]. unfold get_redis_client. by rewrite Hpc.
Qed.

(** ** The relay over a shutdown *)

Section shutdown.
  Context (row_order : list Outbox -> list Outbox).
  Context (row_order_perm : forall l, row_order l ≡ₚ l).

(** What the relay keeps: every event, published at most once, and all other tables. *)
Record relay_kept (db db' : DB) : Prop := {
  rk_schema : schema_ok db -> schema_ok db';
  rk_frame : exists ob, db' = {| db with outbox := ob |};
  rk_events : schema_ok db -> forall i ev, outbox db !! i = Some ev ->
    exists ev', outbox db' !! i = Some ev' /\ same_event ev ev';
  rk_left : schema_ok db -> unpublished_ids db' ⊆ unpublished_ids db;
}.

#[local] Instance relay_kept_preorder : PreOrder relay_kept.
Proof.
  split.
  - intros db. constructor; [done|exists (outbox db); by destruct db| |done].
    intros _ i ev Hev. by exists ev.
  - intros a b c [S1 [ob1 F1] E1 L1] [S2 [ob2 F2] E2 L2]. constructor.
    + auto.
    + exists ob2. rewrite F2, F1. done.
    + intros Ha i ev Hev. destruct (E1 Ha i ev Hev) as (ev1 & Hev1 & Hs1).
      destruct (E2 (S1 Ha) i ev1 Hev1) as (ev2 & Hev2 & Hs2). exists ev2. split; [done|]. by etrans.
    + intros Ha. etrans; [by apply L2, S1|by apply L1].
Qed.

Lemma turn_kept env db : schema_ok db -> relay_kept db (relay_turn row_order alone env db).2.
Proof.
  intros Hso. unfold relay_turn.
  destruct (in_transaction env (drain_batch row_order alone 50) db) as [r db'] eqn:Htx. simpl.
  apply (drain_cases row_order alone row_order_perm) in Htx as [->|[t Hd]]; [done| |done].
  constructor.
  - intros _. by eapply (drained_schema row_order row_order_perm).
  - apply Hd.
  - intros _ i ev. exact (drained_same row_order row_order_perm 50 t db db' i ev Hso Hd).
  - intros _. rewrite (drained_unpublished row_order alone 50 t db db' Hso Hd). set_solver.
Qed.

Lemma batches_kept db db' :
  schema_ok db -> rtc (batch_step row_order alone) db db' -> relay_kept db db'.
Proof.
  intros Hso Hrun. revert Hso. induction Hrun as [|a b c [env <-] _ IH]; intros Hso; [done|].
  pose proof (turn_kept env a Hso) as Hk. etrans; [exact Hk|]. apply IH. by apply Hk.
Qed.

Lemma run_loop_kept turns db st db' :
  schema_ok db -> run_loop row_order alone turns db = (st, db') -> relay_kept db db'.
Proof. intros Hso Hrun. by apply batches_kept, (run_loop_batches row_order alone turns _ st). Qed.

Lemma cancel_relay_ends point db :
  schema_ok db ->
  exists ended db', cancel_relay row_order alone point db = (ended, db') /\
    ended <> LoopRunning /\ relay_kept db db'.
Proof.
  intros Hso. unfold cancel_relay. destruct point as [|env committed|env]; simpl.
  - by eexists _, _.
  - unfold loop_turn. destruct (relay_turn row_order alone env db) as [r db1] eqn:Hturn.
    pose proof (turn_kept env db Hso) as Hk. rewrite Hturn in Hk.
    do 2 eexists. split; [done|]. split; [done|]. by destruct committed.
  - destruct (loop_turn row_order alone env CancelledAsleep db) as [ended db1] eqn:Hturn.
    assert (Hk : relay_kept db db1).
    { apply (run_loop_kept [(env, CancelledAsleep)] db ended db1 Hso). simpl. rewrite Hturn.
      by destruct ended. }
    destruct ended; by eexists _, _.
Qed.

(** C30: a shutdown ends and loses nothing.  The relay is the only one: no other transaction holds
    rows of the outbox locked.  Wherever the shutdown finds the relay's task -
    not started, in the database on either side of its COMMIT, or asleep - and whatever
    the turns before did, [lifespan] ends; it answers an error only when closing the Redis
    client raised, and otherwise leaves no client open.  Every outbox event is still there, unaltered
    but for the time of its publication, which never changes again, and no other table was
    touched.  After a restart as many reliable turns as the events left before need publish
    every one of them. *)
Theorem shutdown_loses_nothing turns point close_ok rs db :
  schema_ok db -> pool_ok rs ->
  exists r rs' db', lifespan row_order alone turns point close_ok rs db = Some (r, rs', db') /\
    pool_ok rs' /\ (redis_pool rs = None \/ close_ok = true -> r = Ok tt) /\
    (r = Ok tt -> forall c, c ∈ redis_opened rs' -> c ∈ redis_closed rs') /\
    (forall i ev, outbox db !! i = Some ev -> exists ev', outbox db' !! i = Some ev' /\ same_event ev ev') /\
    (exists ob, db' = {| db with outbox := ob |}) /\
    forall restart, Forall reliable restart ->
      (size (unpublished_ids db) <= 50 * List.length restart)%nat ->
      exists db'', run_loop row_order alone (map undisturbed restart) db' = (LoopRunning, db'') /\
        unpublished_ids db'' = ∅.
Proof.
  intros Hso Hpool. unfold lifespan.
  destruct (run_loop row_order alone _ db) as [st1 db1] eqn:Hlife.
  pose proof (run_loop_kept _ _ _ _ Hso Hlife) as Hk1.
  assert (Hend : exists db2, relay_kept db1 db2 /\
    match st1 with
    | LoopRunning => lifespan_shutdown row_order alone point close_ok rs db1
    | _ => let '(r, rs1) := close_redis close_ok rs in Some (r, rs1, db1)
    end = let '(r, rs1) := close_redis close_ok rs in Some (r, rs1, db2)).
  { destruct st1; [|by exists db1..].
    destruct (cancel_relay_ends point db1) as (ended & db2 & Hc & Hne & Hk2); [by apply Hk1|].
    exists db2. split; [done|]. unfold lifespan_shutdown. rewrite Hc. by destruct ended. }
  destruct Hend as (db2 & Hk2 & ->). assert (Hk : relay_kept db db2) by (by etrans).
  pose proof (close_redis_ok close_ok rs Hpool) as Hclose.
  destruct (close_redis close_ok rs) as [r rs']. destruct Hclose as (Hok' & Hr & Hclosed).
  exists r, rs', db2. split; [done|]. split; [done|]. split; [done|]. split; [|split; [|split]].
  - intros Hrt c Hc. destruct (po_open _ Hok' c Hc) as [?|Hp]; [done|]. apply Hr in Hrt. congruence.
  - by apply Hk.
  - apply Hk.
  - intros restart Hrel Hsize. pose proof (rk_left _ _ Hk Hso) as Hleft.
    destruct (run_loop_drains row_order row_order_perm restart db2) as (db3 & Hrun & _ & Hsz & _);
      [by apply Hk|done|].
    exists db3. split; [exact Hrun|]. apply leibniz_equiv, size_empty_inv.
    pose proof (subseteq_size _ _ Hleft). lia.
Qed.

End shutdown.

(** A shutdown that finds the relay committing its first batch. *)
Lemma shutdown_loses_nothing_witness :
  exists r rs' db',
    lifespan (fun l => l) alone [] (InDatabase (demo_env 0) true) true
      (get_redis_client default_settings redis_initial).2 backlog_db = Some (r, rs', db') /\ r = Ok tt.
Proof.
  pose proof (get_redis_client_ok default_settings _ pool_ok_initial) as [Hpool _].
  destruct (shutdown_loses_nothing (fun l => l) same_order_perm [] (InDatabase (demo_env 0) true) true
    _ backlog_db backlog_schema_ok Hpool) as (r & rs' & db' & Hrun & _ & Hr & _).
  exists r, rs', db'. split; [exact Hrun|]. apply Hr. by right.
Defined.
