(* ===== verification/System.v ===== *)
(** * System: the whole engine as a transition system

    A [World] is the database and the payment requests between their two transactions.
    One [system_step] is one committed or rolled-back transaction of any service, in any
    order, with any environment: the interleavings of concurrent requests at the
    granularity of transactions, which the row locks give.  A request may be lost between
    its transactions (the provider raised, the process died). *)

From S2P Require Import Prelude PyStd Domain Models Session Ledger Journal Psp Idempotency Saga Schemas Payments Refunds Lifecycle Webhooks Reconciliation OutboxRelay.
From Stdlib Require Import String.

(** ** Worlds and steps *)

(** A request whose first transaction has committed and whose second has not run. *)
Record InFlight := mkInFlight {
  fl_payment : uuid;
  fl_merchant : string;
  fl_key : string;
}.

Record World := mkWorld { w_db : DB; w_inflight : list InFlight }.

(** The requests in flight after a first transaction with result [r]. *)
Definition flights_after (i : uuid) (k : string) (rq : CreatePaymentRequest)
    (r : result exn (Z * PaymentResponse + Payment)) (fls : list InFlight) : list InFlight :=
  match r with
  | Ok (inr _) => mkInFlight i (cq_merchantId rq) k :: fls
  | _ => fls
  end.

Section system.
  Context {DT : DatetimeText}.

Inductive system_step : World -> World -> Prop :=
| sys_create_tx1 env lock i k rq db fls r db' :
    in_transaction env (create_tx1 lock i k rq) db = (r, db') ->
    system_step (mkWorld db fls) (mkWorld db' (flights_after i k rq r fls))
| sys_create_tx2 env auth fl db fls1 fls2 r db' :
    in_transaction env (create_tx2 (fl_payment fl) (fl_key fl) (fl_merchant fl) auth) db = (r, db') ->
    system_step (mkWorld db (fls1 ++ fl :: fls2)) (mkWorld db' (fls1 ++ fls2))
| sys_lost fl db fls1 fls2 :
    system_step (mkWorld db (fls1 ++ fl :: fls2)) (mkWorld db (fls1 ++ fls2))
| sys_refund env lock k i n db fls r db' :
    in_transaction env (refund lock k i n) db = (r, db') ->
    system_step (mkWorld db fls) (mkWorld db' fls)
| sys_webhook env st ce jl raw_body sig db fls r db' :
    in_transaction env (handle st ce jl raw_body sig) db = (r, db') ->
    system_step (mkWorld db fls) (mkWorld db' fls)
| sys_expire env row_order n db fls r db' :
    (forall l, row_order l ≡ₚ l) ->
    in_transaction env (expire_stale_holds row_order n) db = (r, db') ->
    system_step (mkWorld db fls) (mkWorld db' fls)
| sys_drain env row_order locked_elsewhere n db fls r db' :
    (forall l, row_order l ≡ₚ l) ->
    in_transaction env (drain_batch row_order locked_elsewhere n) db = (r, db') ->
    system_step (mkWorld db fls) (mkWorld db' fls).

(** ** The invariant *)

(** A request in flight: its payment is PROCESSING, its key IN_PROGRESS. *)
Definition flight_ok (db : DB) (fl : InFlight) : Prop :=
  (exists p, payments db !! fl_payment fl = Some p /\ p_status p = PROCESSING) /\
  (exists row, idempotency_keys db !! (fl_merchant fl, fl_key fl) = Some row /\
               ir_status row = IN_PROGRESS).

Definition flight_key (fl : InFlight) : string * string := (fl_merchant fl, fl_key fl).

Record inv (w : World) : Prop := {
  inv_schema : schema_ok (w_db w);
  inv_payments : payments_ok (w_db w);
  inv_books : books_balanced (w_db w);
  inv_flights : Forall (flight_ok (w_db w)) (w_inflight w);
  inv_ids : NoDup (map fl_payment (w_inflight w));
  inv_keys : NoDup (map flight_key (w_inflight w));
}.

(** What the invariant says of the tables alone. *)
Record db_ok (db : DB) : Prop := {
  do_schema : schema_ok db;
  do_payments : payments_ok db;
  do_books : books_balanced db;
}.

Lemma step_db_ok own db db' : payment_step own db db' -> db_ok db -> db_ok db'.
Proof.
  intros Hst [Hs Hp Hb]. constructor;
    [by eapply step_schema_ok | by eapply step_payments_ok | by eapply step_books_balanced].
Qed.

(** Induction along a sequence of steps from a good state. *)
Lemma steps_ind own (R : DB -> DB -> Prop) db db' :
  PreOrder R -> (forall d d', db_ok d -> payment_step own d d' -> R d d') ->
  db_ok db -> rtc (payment_step own) db db' -> R db db'.
Proof.
  intros HR Hstep Hok Hr. revert Hok. induction Hr as [d|d1 d2 d3 H12 _ IH]; intros Hok;
    [reflexivity|]. transitivity d2; [by apply Hstep|]. apply IH. by eapply step_db_ok.
Qed.

Lemma steps_db_ok own db db' : rtc (payment_step own) db db' -> db_ok db -> db_ok db'.
Proof. induction 1 as [|d1 d2 d3 H12 _ IH]; [done|]. intros Hok. by eapply IH, step_db_ok. Qed.

Lemma payment_step_weaken (own own' : uuid -> Prop) db db' :
  (forall i, own i -> own' i) -> payment_step own db db' -> payment_step own' db db'.
Proof.
  intros Hi Hst. assert (Hc : forall i st, may_close own i st -> may_close own' i st)
    by (intros i []; simpl; auto).
  destruct Hst; [by eapply step_quiet | by eapply step_hold | eapply step_settle; eauto
    | eapply step_reverse; eauto | eapply step_park; eauto | by eapply step_refund].
Qed.

Definition anyone (i : uuid) : Prop := True.

Lemma steps_weaken own db db' : rtc (payment_step own) db db' -> rtc (payment_step anyone) db db'.
Proof. intros H. eapply rtc_subrel; [|exact H]. intros d d'. by apply payment_step_weaken. Qed.

(** ** The payments of other requests *)

(** A PROCESSING payment somebody else owns is not touched. *)
Lemma step_keeps_processing own db db' i p :
  schema_ok db -> payment_step own db db' -> payments db !! i = Some p ->
  p_status p = PROCESSING -> ~ own i -> payments db' !! i = Some p.
Proof.
  intros Hso Hst Hp Hpr Hown. destruct Hst as
    [[] _|j rq t Hph|j p0 r t Hr Ho Hph|j p0 t Hr Ho Hph|j p0 r t Hr Hst Hj Hop|j p0 rid n t1 t2 Hr Hal Hph].
  - congruence.
  - apply phase_summarised in Hph as (txn & o & Hs & _); [|done].
    pose proof (insert_payment_fresh _ _ _ (sm_exec _ _ _ _ _ _ Hs)) as Hf.
    pose proof (sm_payments _ _ _ _ _ _ Hs) as Hpay. cbn in Hpay, Hf.
    rewrite Hpay, lookup_insert_ne; [done|congruence].
  - apply phase_summarised in Hph as (txn & o & Hs & _); [|done].
    pose proof (sm_payments _ _ _ _ _ _ Hs) as Hpay. cbn in Hpay.
    destruct (so_payment _ Hso _ _ Hr) as [Hid _].
    rewrite Hpay, lookup_insert_ne; [done|]. rewrite Hid. intros ->. simplify_eq.
    by rewrite Hpr in Ho.
  - apply phase_summarised in Hph as (txn & o & Hs & _); [|done].
    pose proof (sm_payments _ _ _ _ _ _ Hs) as Hpay. cbn in Hpay.
    destruct (so_payment _ Hso _ _ Hr) as [Hid _].
    rewrite Hpay, lookup_insert_ne; [done|]. rewrite Hid. intros ->. simplify_eq.
    by rewrite Hpr in Ho.
  - apply exec_op_Ok in Hop as [_ ->]. destruct (so_payment _ Hso _ _ Hr) as [Hid _]. simpl.
    rewrite lookup_insert_ne; [done|]. rewrite Hid. intros ->. done.
  - apply phase_summarised in Hph as (txn & o & Hs & _); [|done].
    pose proof (sm_payments _ _ _ _ _ _ Hs) as Hpay. cbn in Hpay.
    destruct (so_payment _ Hso _ _ Hr) as [Hid _].
    rewrite Hpay, lookup_insert_ne; [done|]. rewrite Hid. intros ->. simplify_eq.
    destruct Hal as [Hrs _]. by rewrite Hpr in Hrs.
Qed.

Lemma steps_keep_processing own db db' i p :
  schema_ok db -> rtc (payment_step own) db db' -> payments db !! i = Some p ->
  p_status p = PROCESSING -> ~ own i -> payments db' !! i = Some p.
Proof.
  intros Hso Hr. revert Hso. induction Hr as [|d1 d2 d3 H12 _ IH]; intros Hso Hp Hpr Hown; [done|].
  apply IH; [by eapply step_schema_ok | by eapply step_keeps_processing | done | done].
Qed.

(** ** The idempotency table *)

(** A claim of a free key, or the completion of an IN_PROGRESS one that [own]s it. *)
Inductive idem_step (own : string * string -> Prop) (db db' : DB) : Prop :=
| idem_same : idempotency_keys db' = idempotency_keys db -> idem_step own db db'
| idem_claim m k payload t :
    idempotency_keys db !! (m, k) = None ->
    idempotency_keys db' = <[(m, k) := claim_row m k payload t]> (idempotency_keys db) ->
    idem_step own db db'
| idem_complete m k row i body :
    idempotency_keys db !! (m, k) = Some row -> ir_status row = IN_PROGRESS -> own (m, k) ->
    idempotency_keys db' = <[(m, k) := completed_row row i 201 body]> (idempotency_keys db) ->
    idem_step own db db'.

Definition no_key (key : string * string) : Prop := False.

Lemma claim_idem own m k payload t db db' :
  exec_op (InsertIdempotency (claim_row m k payload t)) db = Ok db' -> idem_step own db db'.
Proof.
  intros Hop. eapply idem_claim.
  - by split_checks Hop.
  - by apply exec_op_Ok in Hop as [_ ->].
Qed.

Lemma completion_idem (own : string * string -> Prop) m k row i body db db' :
  schema_ok db -> idempotency_keys db !! (m, k) = Some row -> ir_status row = IN_PROGRESS ->
  own (m, k) -> completion m k i body db db' -> idem_step own db db'.
Proof.
  intros Hso Hrow Hst Hown. unfold completion. rewrite Hrow. intros Hop.
  eapply idem_complete; [done..|]. apply exec_op_Ok in Hop as [_ ->]. simpl.
  by rewrite (so_idem _ Hso _ _ Hrow).
Qed.

Lemma phase_idem ops ty ref ps ev db db' :
  phase ops ty ref ps ev db db' -> forallb payment_op ops = true ->
  idempotency_keys db' = idempotency_keys db.
Proof.
  intros Hph Hops. apply phase_summarised in Hph as (txn & o & Hs & _); [|done].
  apply (sm_idem _ _ _ _ _ _ Hs).
Qed.

Lemma create_tx1_idem own env lock i k rq db r db' :
  schema_ok db -> in_transaction env (create_tx1 lock i k rq) db = (r, db') ->
  rtc (idem_step own) db db' /\
  (forall p, r = Ok (inr p) ->
     idempotency_keys db !! (cq_merchantId rq, k) = None /\ payments db !! i = None /\
     flight_ok db' (mkInFlight i (cq_merchantId rq) k)).
Proof.
  intros Hso Htx. destruct r as [r|e].
  2:{ apply in_transaction_Err in Htx as ->. by split. }
  apply create_tx1_committed in Htx; [|done].
  destruct (idempotency_keys db !! (cq_merchantId rq, k)) as [row|] eqn:Hrow.
  - destruct Htx as (code & body & resp & _ & _ & -> & ->). by split.
  - destruct Htx as (t1 & t2 & db1 & _ & Hop & Hph).
    pose proof (phase_idem _ _ _ _ _ _ _ Hph eq_refl) as Hidem. split.
    + eapply rtc_l; [by eapply claim_idem|]. by apply rtc_once, idem_same.
    + intros p _. split; [done|].
      apply phase_summarised in Hph as (txn & o & Hs & _); [|done].
      pose proof (insert_payment_fresh _ _ _ (sm_exec _ _ _ _ _ _ Hs)) as Hf.
      pose proof (sm_payments _ _ _ _ _ _ Hs) as Hpay. cbn in Hpay, Hf.
      apply exec_op_Ok in Hop as [_ ->]. split; [exact Hf|]. split; simpl.
      * eexists. split; [by rewrite Hpay, lookup_insert_eq|done].
      * eexists. split; [rewrite Hidem; simpl; by rewrite lookup_insert_eq|done].
Qed.

Lemma create_tx2_idem env fl auth db r db' :
  schema_ok db -> flight_ok db fl ->
  in_transaction env (create_tx2 (fl_payment fl) (fl_key fl) (fl_merchant fl) auth) db = (r, db') ->
  rtc (idem_step (eq (flight_key fl))) db db'.
Proof.
  intros Hso [_ (row & Hrow & Hst)] Htx.
  destruct r as [r|e]; [|by apply in_transaction_Err in Htx as ->].
  pose proof (in_transaction_rtc _ _ _ _ _ Htx) as Hex.
  apply create_tx2_committed in Htx as (p & t & db1 & Hp & Hres & _ & Hcomp); [|done].
  pose proof (resolution_idem _ _ _ _ _ _ Hres) as Hidem.
  eapply rtc_l; [by apply idem_same|]. eapply rtc_once.
  unfold completion in Hcomp. rewrite Hidem, Hrow in Hcomp.
  eapply idem_complete; [by rewrite Hidem | done | done |].
  apply exec_op_Ok in Hcomp as [_ ->]. simpl. by rewrite (so_idem _ Hso _ _ Hrow).
Qed.

Lemma refund_idem env lock k i n db r db' :
  schema_ok db -> in_transaction env (refund lock k i n) db = (r, db') ->
  db' = db \/
  (idempotency_keys db !! (refund_merchant, k) = None /\
   rtc (idem_step (eq (refund_merchant, k))) db db').
Proof.
  intros Hso Htx. destruct r as [r|e]; [|apply in_transaction_Err in Htx as ->; by left].
  apply refund_committed in Htx; [|done].
  destruct (idempotency_keys db !! (refund_merchant, k)) as [row|] eqn:Hrow.
  { destruct Htx as (code & body & resp & _ & _ & _ & ->). by left. }
  right. split; [done|].
  destruct Htx as (t0 & p0 & rid & t1 & t2 & db1 & db2 & Hop & _ & _ & Hph & _ & Hcomp).
  eapply rtc_l; [by eapply claim_idem|].
  pose proof (phase_idem _ _ _ _ _ _ _ Hph eq_refl) as Hidem.
  eapply rtc_l; [by apply idem_same|]. eapply rtc_once.
  apply exec_op_Ok in Hop as [_ ->]. simpl in Hidem.
  unfold completion in Hcomp. rewrite Hidem, lookup_insert_eq in Hcomp.
  eapply idem_complete; [by rewrite Hidem, lookup_insert_eq | done | done |].
  by apply exec_op_Ok in Hcomp as [_ ->].
Qed.

Lemma handle_idem env st ce jl raw_body sig db r db' :
  schema_ok db -> in_transaction env (handle st ce jl raw_body sig) db = (r, db') ->
  idempotency_keys db' = idempotency_keys db.
Proof.
  intros Hso Htx. destruct r as [u|e]; [|by apply in_transaction_Err in Htx as ->].
  apply handle_committed in Htx as (_ & _ & data & draw & ev & _ & _ & Heff); [|done].
  unfold webhook_effect in Heff. destruct (ev_id ev) as [| | | |e| |]; try done.
  destruct (webhook_events db !! e); [by subst|]. destruct Heff as (t & db1 & Hop & Hact).
  assert (Hidem : idempotency_keys db1 = idempotency_keys db)
    by (by apply exec_op_Ok in Hop as [_ ->]).
  rewrite <- Hidem. unfold action_phase in Hact.
  destruct (event_action _ _ _) as [[p rf|p]|]; [| |by subst];
    destruct Hact as [t' Hph]; by eapply phase_idem in Hph.
Qed.

(** An IN_PROGRESS key of somebody else is not touched, nor is a completed key. *)
Lemma idem_step_keeps own db db' key row :
  idem_step own db db' -> idempotency_keys db !! key = Some row ->
  ir_status row = COMPLETED \/ ~ own key -> idempotency_keys db' !! key = Some row.
Proof.
  intros [->|m k payload t Hn ->|m k row' i body Hr Hst Hown ->] Hkey Hc; [done| |].
  - rewrite lookup_insert_ne; [done|congruence].
  - rewrite lookup_insert_ne; [done|]. intros <-. destruct Hc; [congruence|done].
Qed.

Lemma idem_steps_keep own db db' key row :
  rtc (idem_step own) db db' -> idempotency_keys db !! key = Some row ->
  ir_status row = COMPLETED \/ ~ own key -> idempotency_keys db' !! key = Some row.
Proof. induction 1; intros Hkey Hc; [done|]. eauto using idem_step_keeps. Qed.

Lemma flight_ok_keeps own ownk db db' fl :
  schema_ok db -> rtc (payment_step own) db db' -> rtc (idem_step ownk) db db' ->
  ~ own (fl_payment fl) -> ~ ownk (flight_key fl) -> flight_ok db fl -> flight_ok db' fl.
Proof.
  intros Hso Hp Hi Hown Hownk [(p & Hrow & Hst) (row & Hkey & Hst')]. split.
  - exists p. split; [|done]. by eapply steps_keep_processing.
  - exists row. split; [|done]. eapply idem_steps_keep; [done..|by right].
Qed.

Lemma flights_keep own ownk db db' fls :
  schema_ok db -> rtc (payment_step own) db db' -> rtc (idem_step ownk) db db' ->
  Forall (fun fl => ~ own (fl_payment fl) /\ ~ ownk (flight_key fl)) fls ->
  Forall (flight_ok db) fls -> Forall (flight_ok db') fls.
Proof.
  intros Hso Hp Hi Hn Hf. rewrite Forall_forall in *. intros fl Hin.
  destruct (Hn fl Hin). by eapply flight_ok_keeps; eauto.
Qed.

(** ** Every step of the system makes payment steps and keeps the invariant *)

Lemma system_step_steps w w' :
  inv w -> system_step w w' -> rtc (payment_step anyone) (w_db w) (w_db w').
Proof.
  intros Hinv Hst. destruct Hst; simpl in *; try done; pose proof (inv_schema _ Hinv) as Hso.
  - eapply steps_weaken, create_tx1_steps; eauto.
  - pose proof (inv_flights _ Hinv) as Hf. simpl in Hf.
    apply Forall_app in Hf as [_ Hf]. apply Forall_cons in Hf as [[(p & Hp & Hst) _] _].
    eapply steps_weaken, create_tx2_steps; eauto.
  - eapply steps_weaken, refund_steps; eauto.
  - eapply steps_weaken, handle_steps; eauto.
  - eapply steps_weaken, expire_steps; eauto.
  - eapply steps_weaken, drain_steps; eauto.
Qed.

Lemma nobody_flights fls : Forall (fun fl => ~ nobody (fl_payment fl) /\ ~ no_key (flight_key fl)) fls.
Proof. apply Forall_forall. intros fl _. split; intros []. Qed.

Lemma inv_intro db fls db' :
  db_ok db -> rtc (payment_step anyone) db db' ->
  Forall (flight_ok db') fls -> NoDup (map fl_payment fls) -> NoDup (map flight_key fls) ->
  inv (mkWorld db' fls).
Proof.
  intros Hok Hr Hf H1 H2. destruct (steps_db_ok _ _ _ Hr Hok) as [Hs Hp Hb]. by constructor.
Qed.
Lemma inv_db_ok w : inv w -> db_ok (w_db w).
Proof. intros [Hs Hp Hb _ _ _]. by constructor. Qed.

(** Steps of nobody's, and no key's, leave every request in flight good. *)
Lemma inv_quiet db fls db' :
  inv (mkWorld db fls) -> rtc (payment_step nobody) db db' -> rtc (idem_step no_key) db db' ->
  inv (mkWorld db' fls).
Proof.
  intros Hinv Hp Hi. pose proof (inv_db_ok _ Hinv) as Hok. destruct Hinv as [Hs _ _ Hf H1 H2].
  apply (inv_intro db); [done|by eapply steps_weaken| |done|done].
  eapply flights_keep; [exact Hs|exact Hp|exact Hi|apply nobody_flights|exact Hf].
Qed.

Lemma inv_create_tx1 env lock i k rq db fls r db' :
  inv (mkWorld db fls) -> in_transaction env (create_tx1 lock i k rq) db = (r, db') ->
  inv (mkWorld db' (flights_after i k rq r fls)).
Proof.
  intros Hinv Htx. pose proof (inv_schema _ Hinv) as Hs. simpl in Hs.
  pose proof (create_tx1_steps _ _ _ _ _ _ _ _ Hs Htx) as Hp.
  destruct (create_tx1_idem no_key _ _ _ _ _ _ _ _ Hs Htx) as [Hi Hnew].
  pose proof (inv_quiet _ _ _ Hinv Hp Hi) as Hq.
  destruct r as [[x|p]|e]; simpl; try exact Hq.
  destruct (Hnew p eq_refl) as (Hkey & Hpay & Hfl).
  destruct Hinv as [_ _ _ Hf _ _]. destruct Hq as [Hs' Hp' Hb' Hf' H1 H2]. simpl in *.
  constructor; simpl; try done; [by constructor| |]; apply NoDup_cons; (split; [|done]).
  - intros Hin. apply list_elem_of_fmap in Hin as (fl & -> & Hin).
    destruct (proj1 (Forall_forall _ _) Hf fl Hin) as [(q & Hq & _) _]. congruence.
  - intros Hin. apply list_elem_of_fmap in Hin as (fl & Heq & Hin).
    destruct (proj1 (Forall_forall _ _) Hf fl Hin) as [_ (row & Hrow & _)].
    unfold flight_key in Heq. simpl in Heq. congruence.
Qed.

Lemma inv_create_tx2 env auth fl db fls1 fls2 r db' :
  inv (mkWorld db (fls1 ++ fl :: fls2)) ->
  in_transaction env (create_tx2 (fl_payment fl) (fl_key fl) (fl_merchant fl) auth) db = (r, db') ->
  inv (mkWorld db' (fls1 ++ fls2)).
Proof.
  intros Hinv Htx. pose proof (inv_db_ok _ Hinv) as Hok. destruct Hinv as [Hs _ _ Hf H1 H2].
  simpl in *. rewrite !map_app in H1, H2. cbn [map] in H1, H2.
  apply Forall_app in Hf as [Hf1 Hf2]. apply Forall_cons in Hf2 as [Hfl Hf2].
  pose proof Hfl as [(p & Hp & Hst) _].
  pose proof (create_tx2_steps _ _ _ _ _ _ _ _ _ Hs Hp Hst Htx) as Hsteps.
  pose proof (create_tx2_idem _ _ _ _ _ _ Hs Hfl Htx) as Hidem.
  assert (Hids : fl_payment fl ∉ map fl_payment (fls1 ++ fls2)).
  { rewrite map_app. apply NoDup_app in H1 as (_ & Hd & Hr). apply NoDup_cons in Hr as [Hr _].
    rewrite elem_of_app. intros [Hin|Hin]; [|done]. apply (Hd _ Hin). by left. }
  assert (Hkeys : flight_key fl ∉ map flight_key (fls1 ++ fls2)).
  { rewrite map_app. apply NoDup_app in H2 as (_ & Hd & Hr). apply NoDup_cons in Hr as [Hr _].
    rewrite elem_of_app. intros [Hin|Hin]; [|done]. apply (Hd _ Hin). by left. }
  assert (Hdrop : forall {A} (l1 l2 : list A) x, NoDup (l1 ++ x :: l2) -> NoDup (l1 ++ l2)).
  { intros A l1 l2 x. rewrite <- (Permutation_middle l1 l2 x). by intros [_ ?]%NoDup_cons. }
  apply (inv_intro db); [done|by eapply steps_weaken| | |].
  - eapply flights_keep; [done|exact Hsteps|exact Hidem| |by apply Forall_app].
    apply Forall_forall. intros fl' Hin. split; intros Heq.
    + apply Hids. rewrite Heq. by apply list_elem_of_fmap_2.
    + apply Hkeys. rewrite Heq. by apply list_elem_of_fmap_2.
  - rewrite map_app. by eapply Hdrop.
  - rewrite map_app. by eapply Hdrop.
Qed.

Lemma inv_refund env lock k i n db fls r db' :
  inv (mkWorld db fls) -> in_transaction env (refund lock k i n) db = (r, db') ->
  inv (mkWorld db' fls).
Proof.
  intros Hinv Htx. pose proof (inv_schema _ Hinv) as Hs. simpl in Hs.
  destruct (refund_idem _ _ _ _ _ _ _ _ Hs Htx) as [->|[Hkey Hidem]]; [done|].
  pose proof (refund_steps _ _ _ _ _ _ _ _ Hs Htx) as Hsteps.
  pose proof (inv_db_ok _ Hinv) as Hok. destruct Hinv as [_ _ _ Hf H1 H2].
  apply (inv_intro db); [done|by eapply steps_weaken| |done|done].
  eapply flights_keep; [done|exact Hsteps|exact Hidem| |exact Hf].
  apply Forall_forall. intros fl Hin. split; [intros []|]. intros Heq.
  destruct (proj1 (Forall_forall _ _) Hf fl Hin) as [_ (row & Hrow & _)].
  unfold flight_key in Heq. simpl in *. congruence.
Qed.

Lemma inv_lost db fls1 fl fls2 : inv (mkWorld db (fls1 ++ fl :: fls2)) -> inv (mkWorld db (fls1 ++ fls2)).
Proof.
  intros [Hs Hp Hb Hf H1 H2]. simpl in *. rewrite !map_app in *. cbn [map] in *.
  assert (Hdrop : forall {A} (l1 l2 : list A) x, NoDup (l1 ++ x :: l2) -> NoDup (l1 ++ l2)).
  { intros A l1 l2 x. rewrite <- (Permutation_middle l1 l2 x). by intros [_ ?]%NoDup_cons. }
  constructor; simpl; try done; rewrite ?map_app; try (by eapply Hdrop).
  apply Forall_app in Hf as [Hf1 Hf2]. apply Forall_cons in Hf2 as [_ Hf2]. by apply Forall_app.
Qed.

Lemma system_step_inv w w' : inv w -> system_step w w' -> inv w'.
Proof.
  intros Hinv Hst. pose proof (inv_schema _ Hinv) as Hs. destruct Hst; simpl in Hs.
  - by eapply inv_create_tx1.
  - by eapply inv_create_tx2.
  - by eapply inv_lost.
  - by eapply inv_refund.
  - eapply inv_quiet; [done|by eapply handle_steps|]. eapply rtc_once, idem_same.
    by eapply handle_idem.
  - eapply inv_quiet; [done|by eapply expire_steps|]. eapply rtc_once, idem_same.
    destruct r as [m|e]; [|by match goal with H : in_transaction _ _ _ = _ |- _ =>
      apply in_transaction_Err in H as -> end].
    match goal with H : in_transaction _ _ _ = _ |- _ => apply expire_committed in H as [_ Har] end;
      [|done..]. apply (ar_idem _ _ _ Har).
  - eapply inv_quiet; [done|by eapply drain_steps|]. eapply rtc_once, idem_same.
    match goal with H : in_transaction _ _ _ = _ |- _ => apply drain_ops in H as (t & es & Hex) end.
    by eapply publish_idem.
Qed.

(** What a step does to the idempotency keys. *)
Lemma system_step_idem w w' :
  inv w -> system_step w w' -> exists own, rtc (idem_step own) (w_db w) (w_db w').
Proof.
  intros Hinv Hst. pose proof (inv_schema _ Hinv) as Hs.
  destruct Hst as [env lock i k rq db fls r db' Htx|env auth fl db fls1 fls2 r db' Htx
    |fl db fls1 fls2|env lock k i n db fls r db' Htx|env st ce jl raw sig db fls r db' Htx
    |env ro n db fls r db' Hp Htx|env ro le n db fls r db' Hp Htx]; simpl in *.
  - exists no_key. by eapply create_tx1_idem.
  - pose proof (inv_flights _ Hinv) as Hf. simpl in Hf.
    apply Forall_app in Hf as [_ Hf]. apply Forall_cons in Hf as [Hf _].
    eexists. by eapply create_tx2_idem.
  - by exists no_key.
  - destruct (refund_idem _ _ _ _ _ _ _ _ Hs Htx) as [->|[_ Hi]]; [by exists no_key|by eexists].
  - exists no_key. apply rtc_once, idem_same. by eapply handle_idem.
  - exists no_key. apply rtc_once, idem_same.
    destruct r as [m|e]; [|by apply in_transaction_Err in Htx as ->].
    apply expire_committed in Htx as [_ Har]; [|done..]. apply (ar_idem _ _ _ Har).
  - exists no_key. apply rtc_once, idem_same. apply drain_ops in Htx as (t & es & Hex).
    by eapply publish_idem.
Qed.

Lemma system_inv w w' : inv w -> rtc system_step w w' -> inv w'.
Proof. intros Hinv Hr. induction Hr; [done|]. eauto using system_step_inv. Qed.

Lemma system_steps w w' :
  inv w -> rtc system_step w w' -> rtc (payment_step anyone) (w_db w) (w_db w').
Proof.
  intros Hinv Hr. induction Hr as [w|w1 w2 w3 H12 _ IH]; [done|].
  etrans; [by eapply system_step_steps|]. by eapply IH, system_step_inv.
Qed.

(** A relation every payment step is in, every run of the system is in. *)
Lemma system_relation (R : DB -> DB -> Prop) w w' :
  PreOrder R -> (forall d d', db_ok d -> payment_step anyone d d' -> R d d') ->
  inv w -> rtc system_step w w' -> R (w_db w) (w_db w').
Proof.
  intros HR Hstep Hinv Hr. eapply steps_ind; [done|exact Hstep|by apply inv_db_ok|].
  by apply system_steps.
Qed.

End system.
