(* ===== verification/SystemTheorems.v ===== *)
(** * SystemTheorems: what holds in every reachable state of the engine

    The theorems about [System.system_step]: any number of payments, refunds, webhooks,
    expiry runs and relay batches, interleaved at their transactions, with any failures. *)

From S2P Require Import Prelude PyStd Domain Models Migrations Session MigrationTheorems Ledger Journal Fixtures Psp Idempotency Saga Schemas Payments PaymentTheorems Refunds RefundTheorems Lifecycle Spec Webhooks Reconciliation ReconciliationTheorems OutboxRelay System.
From Stdlib Require Import String.

Section system.
  Context {DT : DatetimeText}.

(** ** Safety *)

(** C1: the money is safe.  In every state reachable from a good one: no balance is negative
    or out of BIGINT, the total of all balances is unchanged, every journal transaction nets
    to zero, every payment has the amounts its status says, and what was refunded of a
    payment is the sum of its refund rows and at most its amount; the state is good again. *)
Theorem reachable_states_are_safe w w' :
  inv w -> rtc system_step w w' ->
  inv w' /\
  (forall a row, account_balances (w_db w') !! a = Some row ->
     0 <= ab_balance row <= int64_max) /\
  total_balance (w_db w') = total_balance (w_db w) /\
  (forall t, txn_net (w_db w') t = 0) /\
  (forall i p, payments (w_db w') !! i = Some p ->
     status_shape p /\ p_refunded_amount p = refunds_of (w_db w') i /\
     0 <= p_refunded_amount p <= p_amount p).
Proof.
  intros Hinv Hr. pose proof (system_inv _ _ Hinv Hr) as Hinv'.
  pose proof Hinv' as [Hso Hpay Hb _ _ _]. split; [done|]. split; [|split; [|split]].
  - intros a row Hrow. apply (so_balance _ Hso) in Hrow as (_ & H1 & H2 & _). lia.
  - apply (system_relation (fun d d' => total_balance d' = total_balance d) w w'); [| |done..].
    + split; [by intros d | by intros d1 d2 d3 -> ->].
    + intros d d' _. apply step_conserves.
  - exact Hb.
  - intros i p Hp. destruct (Hpay i p Hp) as (_ & Hshape & Hsum). split; [done|]. split; [done|].
    destruct Hshape as [Hpos Hst]. destruct (p_status p); try done; lia.
Qed.

(** C2: refinement.  Every run of the engine is, seen through [abs], a run of the abstract
    payment machine of [Spec]: only holds, settlements, releases, parkings and refunds, each
    under its guard and moving its money, change balances and payments. *)
Theorem system_refines_spec w w' :
  inv w -> rtc system_step w w' -> rtc astep (abs (w_db w)) (abs (w_db w')).
Proof.
  intros Hinv Hr. apply (system_relation (fun d d' => rtc astep (abs d) (abs d')) w w'); [| |done..].
  - split; [by intros d | intros d1 d2 d3; by etrans].
  - intros d d' [Hso Hpay _] Hst. eapply rtc_once, step_refines; done.
Qed.

(** C12: what is in suspense.  As long as no payment names the suspense account itself as
    payer or payee, its balance is the sum of the amounts of the PROCESSING and AUTHORIZED
    payments plus a surplus that never changes: every hold is covered by its own money. *)
Theorem suspense_covers_open_holds w w' :
  inv w -> rtc system_step w w' -> all_external (w_db w') ->
  balance_of (w_db w') PSP_SUSPENSE_ACCOUNT_ID =
  open_holds (w_db w') + (balance_of (w_db w) PSP_SUSPENSE_ACCOUNT_ID - open_holds (w_db w)).
Proof.
  intros Hinv Hr Hext.
  assert (Hrel : all_external (w_db w') ->
    all_external (w_db w) /\ suspense_surplus (w_db w') = suspense_surplus (w_db w)).
  { apply (system_relation (fun d d' => all_external d' ->
      all_external d /\ suspense_surplus d' = suspense_surplus d) w w'); [| |done..].
    - split; [by intros d|]. intros d1 d2 d3 H12 H23 H3. destruct (H23 H3) as [H2 ->].
      destruct (H12 H2) as [H1 ->]. done.
    - intros d d' [Hso Hpay _] Hst H'. split; [by eapply all_external_before|].
      by eapply step_suspense. }
  destruct (Hrel Hext) as [_ Hs]. unfold suspense_surplus in Hs. lia.
Qed.

(** Every transaction only executes statements. *)
Lemma system_step_exec w w' : system_step w w' -> rtc exec_step (w_db w) (w_db w').
Proof. destruct 1; simpl; first [done|by eapply (in_transaction_rtc _ _ _ _ _ ltac:(eassumption))]. Qed.

(** C18: the life of a payment.  A payment never disappears; its parties, amount, currency and
    creation time never change; its refunded amount never falls; and its status only moves
    along PROCESSING to AUTHORIZED, SUCCEEDED or FAILED, AUTHORIZED to SUCCEEDED or FAILED,
    SUCCEEDED to REFUNDED. *)
Theorem payments_evolve w w' i p :
  inv w -> rtc system_step w w' -> payments (w_db w) !! i = Some p ->
  exists q, payments (w_db w') !! i = Some q /\ same_terms p q /\
    rtc status_edge (p_status p) (p_status q) /\ p_refunded_amount p <= p_refunded_amount q.
Proof.
  intros Hinv Hr Hp.
  assert (Hrel : forall i p, payments (w_db w) !! i = Some p ->
            exists q, payments (w_db w') !! i = Some q /\ evolves p q).
  { apply (system_relation (fun d d' => forall i p, payments d !! i = Some p ->
      exists q, payments d' !! i = Some q /\ evolves p q) w w'); [| |done..].
    - split; [intros d j q Hq; by exists q|]. intros d1 d2 d3 H12 H23 j q Hq.
      destruct (H12 j q Hq) as (q2 & Hq2 & E2). destruct (H23 j q2 Hq2) as (q3 & Hq3 & E3).
      exists q3. split; [done|]. by etrans.
    - intros d d' [Hso Hpay _] Hst j q Hq. by eapply step_evolves. }
  destruct (Hrel i p Hp) as (q & Hq & [Ht Hs Hf]). by exists q.
Qed.

(** The journal is append-only.  Accounts are fixed, journal transactions and entries
    once written are never changed or removed: the entries of a later state extend those of
    an earlier one. *)
Theorem journal_is_append_only w w' :
  inv w -> rtc system_step w w' ->
  accounts (w_db w') = accounts (w_db w) /\
  ledger_transactions (w_db w) ⊆ ledger_transactions (w_db w') /\
  exists es, ledger_entries (w_db w') = ledger_entries (w_db w) ++ es.
Proof.
  intros Hinv Hr.
  apply (system_relation (fun d d' => accounts d' = accounts d /\
    ledger_transactions d ⊆ ledger_transactions d' /\
    exists es, ledger_entries d' = ledger_entries d ++ es) w w'); [| |done..].
  - split; [intros d; split; [done|]; split; [done|]; exists []; by rewrite app_nil_r|].
    intros d1 d2 d3 (A12 & T12 & e1 & E12) (A23 & T23 & e2 & E23).
    split; [congruence|]. split; [by etrans|]. exists (e1 ++ e2). by rewrite E23, E12, app_assoc.
  - intros d d' _ Hst. split; [by eapply step_accounts|]. split; [by eapply step_txns_grow|].
    by eapply step_journal_grows.
Qed.

(** C27: balances move with the journal.  No run changes the net of the journal or the
    difference of any account between its stored balance and the credits minus debits of
    its entries: what the audit reports as drift was there from the start. *)
Theorem balances_follow_journal w w' :
  inv w -> rtc system_step w w' ->
  ledger_net (w_db w') = ledger_net (w_db w) /\
  forall a, balance_of (w_db w') a - balance_of (w_db w) a =
            computed_balance (w_db w') a - computed_balance (w_db w) a.
Proof.
  intros Hinv Hr.
  assert (Hsame : ledger_net (w_db w') = ledger_net (w_db w) /\
                  forall a, drift (w_db w') a = drift (w_db w) a).
  { apply (system_relation (fun d d' => ledger_net d' = ledger_net d /\
      forall a, drift d' a = drift d a) w w'); [| |done..].
    - split; [by intros d|]. intros d1 d2 d3 [N12 D12] [N23 D23]. split; [congruence|].
      intros a. by rewrite D23.
    - intros d d' _ Hst. split; [by eapply step_ledger_net|]. intros a. by eapply step_drift. }
  destruct Hsame as [Hn Hd]. split; [done|]. intros a. specialize (Hd a). unfold drift in Hd. lia.
Qed.

(** ** Requests inside the system *)

(** A request, whatever happens to it, is steps of the system; one that is answered leaves
    the requests in flight as they were. *)
Lemma create_runs {P : Type} `{PaymentProvider P} (psp : P) lock env1 env2 i draw k rq db fls r db' :
  create psp lock env1 env2 i draw k rq db = (r, db') ->
  exists fls', rtc system_step (mkWorld db fls) (mkWorld db' fls') /\
    (is_ok r = true -> fls' = fls).
Proof.
  intros Hc. unfold create in Hc.
  destruct (in_transaction env1 _ db) as [r1 db1] eqn:Htx1.
  pose proof (sys_create_tx1 _ _ _ _ _ _ fls _ _ Htx1) as Hstep1.
  destruct r1 as [[x|p]|e1]; simpl in Hstep1.
  - simplify_eq. exists fls. split; [by apply rtc_once|done].
  - destruct (authorize psp draw p) as [auth|e] eqn:Hauth; simplify_eq.
    2:{ eexists. split; [by apply rtc_once|done]. }
    destruct (in_transaction env2 _ db1) as [r2 db2] eqn:Htx2.
    pose proof (sys_create_tx2 env2 auth (mkInFlight i (cq_merchantId rq) k) db1 [] fls r2 db2 Htx2)
      as Hstep2.
    exists fls. assert (db' = db2) as -> by (destruct r2; by simplify_eq).
    split; [|done]. eapply rtc_l; [exact Hstep1|]. by apply rtc_once.
  - simplify_eq. exists fls. split; [by apply rtc_once|done].
Qed.

(** A COMMIT whose answer is lost leaves a state of the system too: a payment request stops
    there, with its flight lost; the other services have nothing left to do. *)
Lemma lost_answer_step {A} env (m : M A) db fls r db' :
  (forall r' db', in_transaction env m db = (r', db') ->
     system_step (mkWorld db fls) (mkWorld db' fls)) ->
  in_transaction_lost env m db = (r, db') -> system_step (mkWorld db fls) (mkWorld db' fls).
Proof.
  intros Hst. unfold in_transaction_lost. destruct (in_transaction env m db) as [[x|e] d] eqn:Htx;
    intros [= <- <-]; by eapply Hst.
Qed.

Lemma lost_answers_are_system_runs env db fls :
  (forall lock i k rq r db', in_transaction_lost env (create_tx1 lock i k rq) db = (r, db') ->
     rtc system_step (mkWorld db fls) (mkWorld db' fls)) /\
  (forall auth fl fls1 fls2 r db',
     in_transaction_lost env (create_tx2 (fl_payment fl) (fl_key fl) (fl_merchant fl) auth) db = (r, db') ->
     system_step (mkWorld db (fls1 ++ fl :: fls2)) (mkWorld db' (fls1 ++ fls2))) /\
  (forall lock k i n r db', in_transaction_lost env (refund lock k i n) db = (r, db') ->
     rtc system_step (mkWorld db fls) (mkWorld db' fls)) /\
  (forall st ce jl raw sig r db', in_transaction_lost env (handle st ce jl raw sig) db = (r, db') ->
     rtc system_step (mkWorld db fls) (mkWorld db' fls)).
Proof.
  split; [|split; [|split]]; intros *.
  - unfold in_transaction_lost. destruct (in_transaction _ _ db) as [r1 db1] eqn:Htx. intros Hl.
    assert (db' = db1) as -> by (destruct r1; congruence).
    pose proof (sys_create_tx1 _ _ _ _ _ _ fls _ _ Htx) as Hst.
    destruct r1 as [[x|p]|e]; simpl in Hst; try by apply rtc_once.
    eapply rtc_l; [exact Hst|]. apply rtc_once. apply (sys_lost _ _ [] fls).
  - unfold in_transaction_lost. destruct (in_transaction _ _ db) as [r1 db1] eqn:Htx. intros Hl.
    assert (db' = db1) as -> by (destruct r1; congruence). by eapply sys_create_tx2.
  - intros Hl. apply rtc_once. eapply lost_answer_step; [|exact Hl]. intros r' d Htx. by eapply sys_refund.
  - intros Hl. apply rtc_once. eapply lost_answer_step; [|exact Hl]. intros r' d Htx. by eapply sys_webhook.
Qed.

Lemma system_completed_key w w' key row :
  inv w -> rtc system_step w w' -> idempotency_keys (w_db w) !! key = Some row ->
  ir_status row = COMPLETED -> idempotency_keys (w_db w') !! key = Some row.
Proof.
  intros Hinv Hr. induction Hr as [w|w1 w2 w3 H12 _ IH]; intros Hkey Hst; [done|].
  apply IH; [by eapply system_step_inv| |done].
  assert (Hi : exists own, rtc (idem_step own) (w_db w1) (w_db w2)).
  { by eapply system_step_idem. }
  destruct Hi as [own Hi]. eapply idem_steps_keep; [exact Hi|done|by left].
Qed.

(** C3: an answered request is answered once and for all.  A request the engine can serve is
    answered, as a run of the system from any good state; and after any further run, of any
    other requests and events, the same request with the same key gets the same answer and
    changes nothing: it is never executed twice. *)
Theorem answers_are_forever {P : Type} `{PaymentProvider P} (psp : P)
    lock env1 env2 i draw k rq db auth fls :
  inv (mkWorld db fls) -> create_ready env1 i k rq db -> reliable env2 ->
  fresh_ids env2 (db_after_tx1 lock env1 i k rq db) ->
  (forall t, authorize psp draw (held_payment i rq t) = Ok auth) -> reference_fits auth ->
  is_uuid i -> is_uuid (cq_payerAccountId rq) -> is_uuid (cq_payeeAccountId rq) ->
  exists resp db2,
    create psp lock env1 env2 i draw k rq db = (Ok (201, resp), db2) /\
    rtc system_step (mkWorld db fls) (mkWorld db2 fls) /\
    forall w' psp' lock' env3 env4 i' draw', rtc system_step (mkWorld db2 fls) w' -> reliable env3 ->
      create (P := P) psp' lock' env3 env4 i' draw' k rq (w_db w') = (Ok (201, resp), w_db w').
Proof.
  intros Hinv Hcr Hr2 Hf2 Hauth Href Hi Hpayer Hpayee.
  destruct (create_served_lemma _ _ _ _ _ _ _ _ _ _ Hcr Hr2 Hf2 Hauth Href)
    as (t & t' & db2 & Hcreate & [_ _ (row & Hrow & Hhash & Hst & Hcode & Hbody)]).
  eexists _, db2. split; [exact Hcreate|].
  destruct (create_runs _ _ _ _ _ _ _ _ _ fls _ _ Hcreate) as (fls' & Hrun & Hfls).
  rewrite (Hfls eq_refl) in Hrun. split; [exact Hrun|].
  intros w' psp' lock' env3 env4 i' draw' Hrun' Hr3.
  pose proof (system_inv _ _ Hinv Hrun) as Hinv2.
  pose proof (system_completed_key _ _ (cq_merchantId rq, k) row Hinv2 Hrun' Hrow Hst) as Hrow'.
  unfold create. rewrite (create_tx1_replay env3 lock' i' k rq (w_db w') row
    (payment_to_response (resolved (held_payment i rq t) auth t'))); try done.
  - by rewrite Hcode.
  - rewrite Hbody. apply model_round_trip. unfold resolved. by destruct (ar_outcome auth).
Qed.

(** C4: an answered refund is answered once and for all.  Whatever has happened since to the
    payment and to the tables, a further request with the key of a refund that was answered
    changes nothing: for the same payment and amount it gets the same code and response, and
    for others, whose hash differs, the mismatch error.  No refund is executed twice. *)
Theorem refund_answers_are_forever env lock k i n db fls code resp db1 w' env' lock' i' n' :
  inv (mkWorld db fls) -> is_uuid i -> (forall m, is_uuid (uuid4_at env m)) ->
  in_transaction env (refund lock k i n) db = (Ok (code, resp), db1) ->
  rtc system_step (mkWorld db1 fls) w' -> reliable env' ->
  in_transaction env' (refund lock' k i' n') (w_db w') =
  (if decide (compute_hash (refund_payload i' n') = compute_hash (refund_payload i n)) then Ok (code, resp)
   else Err (IdempotencyMismatchException k), w_db w').
Proof.
  intros Hinv Hi Hu Htx Hrun Hr'.
  pose proof (system_step_inv _ _ Hinv (sys_refund _ _ _ _ _ _ fls _ _ Htx)) as Hinv1.
  apply refund_answered in Htx as (row & Hrow & Hans); [|apply (inv_schema _ Hinv)|done..].
  pose proof (system_completed_key _ _ _ row Hinv1 Hrun Hrow (proj1 (proj2 Hans))) as Hrow'.
  by apply (refund_asked_again env' lock' k i n i' n' code resp row).
Qed.

End system.

(** ** The theorems on a concrete run *)

#[local] Existing Instance binary_datetime.

Definition demo_world : World := mkWorld demo_db [].

Lemma demo_inv : inv demo_world.
Proof.
  constructor; simpl; [exact demo_schema_ok| |exact demo_books|constructor..].
  intros i p Hp. change (payments demo_db) with (∅ : gmap uuid Payment) in Hp. done.
Qed.

(** A payment of 2500 that the provider captures. *)
Abbreviation demo_create := (create mkMockPspClient None (demo_env 1000) (demo_env 5000) 9000 77
  "key-1" (demo_request 2500)).

Definition served_db : DB := snd (demo_create demo_db).
Definition served_world : World := mkWorld served_db [].

Lemma demo_create_ok : exists resp, demo_create demo_db = (Ok (201, resp), served_db).
Proof.
  destruct (create_served_lemma mkMockPspClient None (demo_env 1000) (demo_env 5000) 9000 77 "key-1"
    (demo_request 2500) demo_db (mock_authorize 77 (held_payment 9000 (demo_request 2500) 0)))
    as (t & t' & db2 & Hc & _).
  - apply demo_create_ready. lia.
  - done.
  - apply demo_fresh_ids. vm_compute. reflexivity.
  - reflexivity.
  - vm_compute. reflexivity.
  - eexists. unfold served_db. rewrite Hc. reflexivity.
Qed.

Lemma demo_run : rtc system_step demo_world served_world.
Proof.
  destruct demo_create_ok as [resp Hc].
  destruct (create_runs _ _ _ _ _ _ _ _ _ [] _ _ Hc) as (fls' & Hrun & Hfls).
  rewrite (Hfls eq_refl) in Hrun. exact Hrun.
Qed.

Lemma reachable_states_are_safe_witness :
  total_balance served_db = 100000 /\ (forall t, txn_net served_db t = 0) /\
  exists p, payments served_db !! 9000%N = Some p /\ status_shape p.
Proof.
  destruct (reachable_states_are_safe demo_world served_world demo_inv demo_run)
    as (_ & _ & Htotal & Hnet & Hpay).
  split; [rewrite <- demo_total; exact Htotal|]. split; [exact Hnet|].
  destruct (payments served_db !! 9000%N) as [p|] eqn:Hp.
  - exists p. split; [reflexivity|]. exact (proj1 (Hpay _ _ Hp)).
  - exfalso. vm_compute in Hp. discriminate Hp.
Defined.

Lemma system_refines_spec_witness :
  rtc astep (abs demo_db) (abs served_db) /\ as_balance (abs served_db) merchant = 2500.
Proof.
  split; [|vm_compute; reflexivity].
  exact (system_refines_spec demo_world served_world demo_inv demo_run).
Defined.

Lemma suspense_covers_open_holds_witness :
  balance_of served_db PSP_SUSPENSE_ACCOUNT_ID = open_holds served_db + 0.
Proof.
  refine (eq_trans (suspense_covers_open_holds demo_world served_world demo_inv demo_run _) _).
  2: reflexivity.
  - intros i p Hp. assert (Hall : map_Forall (fun _ p => external p) (payments served_db)).
    { apply (bool_decide_eq_true_1 _). vm_compute. reflexivity. }
    exact (Hall _ _ Hp).
Defined.

(** The payment of the run, when only its funds are held. *)
Definition held_db : DB :=
  db_after_tx1 None (demo_env 1000) 9000 "key-1" (demo_request 2500) demo_db.

Definition held_flight : InFlight := mkInFlight 9000 "merchant_1" "key-1".
Definition held_world : World := mkWorld held_db [held_flight].

Lemma held_run : rtc system_step demo_world held_world.
Proof.
  destruct (create_tx1_progress (demo_env 1000) None 9000 "key-1" (demo_request 2500) demo_db)
    as (t & db1 & Htx); [apply demo_create_ready; lia|].
  pose proof (sys_create_tx1 _ _ _ _ _ _ [] _ _ Htx) as Hstep. simpl in Hstep.
  unfold held_world, held_db, db_after_tx1. rewrite Htx. by apply rtc_once.
Qed.

Lemma held_to_served : rtc system_step held_world served_world.
Proof.
  destruct (create_tx1_progress (demo_env 1000) None 9000 "key-1" (demo_request 2500) demo_db)
    as (t & db1 & Htx1); [apply demo_create_ready; lia|].
  destruct demo_create_ok as [resp Hc]. unfold served_world. revert Hc. generalize served_db.
  intros d Hc. unfold create in Hc. rewrite Htx1 in Hc.
  unfold held_world, held_db, db_after_tx1. rewrite Htx1. cbn [snd].
  destruct (authorize mkMockPspClient 77 (held_payment 9000 (demo_request 2500) t)) as [auth|]; [|done].
  destruct (in_transaction (demo_env 5000) _ db1) as [r2 db2] eqn:Htx2.
  apply rtc_once. assert (d = db2) as ->.
  { clear -Hc. destruct r2; [by injection Hc|discriminate Hc]. }
  apply (sys_create_tx2 (demo_env 5000) auth held_flight db1 [] [] r2 db2). exact Htx2.
Qed.

Lemma payments_evolve_witness :
  exists p q, payments held_db !! 9000%N = Some p /\ payments served_db !! 9000%N = Some q /\
    rtc status_edge (p_status p) (p_status q) /\ p_amount q = p_amount p.
Proof.
  pose proof (system_inv _ _ demo_inv held_run) as Hinv.
  destruct (payments held_db !! 9000%N) as [p|] eqn:Hp; [|exfalso; vm_compute in Hp; discriminate Hp].
  destruct (payments_evolve held_world served_world 9000 p Hinv held_to_served Hp)
    as (q & Hq & (_ & _ & _ & _ & Ham & _) & Hs & _).
  exists p, q. by repeat split.
Defined.

Lemma journal_is_append_only_witness :
  exists es, ledger_entries served_db = ledger_entries held_db ++ es.
Proof.
  exact (proj2 (proj2 (journal_is_append_only held_world served_world
    (system_inv _ _ demo_inv held_run) held_to_served))).
Defined.

Lemma balances_follow_journal_witness :
  ledger_net served_db = 0 /\
  balance_of served_db wallet - balance_of demo_db wallet = -2500 /\
  computed_balance served_db wallet = -2500.
Proof.
  destruct (balances_follow_journal demo_world served_world demo_inv demo_run) as [Hnet Hbal].
  split; [exact Hnet|].
  assert (Hw : balance_of served_db wallet - balance_of demo_db wallet = -2500)
    by (vm_compute; reflexivity).
  split; [exact Hw|]. specialize (Hbal wallet). cbn [w_db demo_world served_world] in Hbal.
  rewrite Hw in Hbal. change (computed_balance demo_db wallet) with 0 in Hbal. lia.
Defined.

Lemma answers_are_forever_witness :
  exists resp db2, demo_create demo_db = (Ok (201, resp), db2) /\
    rtc system_step demo_world (mkWorld db2 []) /\
    create mkMockPspClient None (demo_env 1) (demo_env 2) 9001 78 "key-1" (demo_request 2500) db2 =
      (Ok (201, resp), db2).
Proof.
  destruct (answers_are_forever mkMockPspClient None (demo_env 1000) (demo_env 5000) 9000 77 "key-1"
    (demo_request 2500) demo_db (mock_authorize 77 (held_payment 9000 (demo_request 2500) 0)) [])
    as (resp & db2 & Hc & Hrun & Hforever).
  - exact demo_inv.
  - apply demo_create_ready. lia.
  - done.
  - apply demo_fresh_ids. vm_compute. reflexivity.
  - reflexivity.
  - vm_compute. reflexivity.
  - reflexivity.
  - reflexivity.
  - reflexivity.
  - exists resp, db2. split; [exact Hc|]. split; [exact Hrun|].
    apply (Hforever (mkWorld db2 []) mkMockPspClient None (demo_env 1) (demo_env 2) 9001%N 78%N).
    + reflexivity.
    + apply demo_reliable.
Defined.

(** A refund of the payment, then another with its own key: the first key keeps its answer. *)
Abbreviation demo_refund base key n := (in_transaction (uuid_env base) (refund None key 9000 n)).
Definition refunded_db : DB := snd (demo_refund 20000 "refund-1" 500 served_db).
Definition twice_refunded_db : DB := snd (demo_refund 30000 "refund-2" 700 refunded_db).

Lemma uuid_env_draws base m : is_uuid (uuid4_at (uuid_env base) m).
Proof. apply N.mod_lt. discriminate. Qed.

Lemma demo_refund_ok : exists resp, demo_refund 20000 "refund-1" 500 served_db = (Ok (201, resp), refunded_db).
Proof.
  assert (H : match fst (demo_refund 20000 "refund-1" 500 served_db) with Ok (c, _) => c | Err _ => 0 end = 201)
    by (vm_compute; reflexivity).
  unfold refunded_db. destruct (demo_refund 20000 "refund-1" 500 served_db) as [[[c resp]|e] db].
  - simpl in H. subst c. by exists resp.
  - discriminate H.
Qed.

Lemma refund_answers_are_forever_witness :
  exists resp,
    demo_refund 20000 "refund-1" 500 served_db = (Ok (201, resp), refunded_db) /\
    in_transaction (demo_env 1) (refund None "refund-1" 9000 500) twice_refunded_db =
      (Ok (201, resp), twice_refunded_db) /\
    in_transaction (demo_env 1) (refund None "refund-1" 9000 501) twice_refunded_db =
      (Err (IdempotencyMismatchException "refund-1"), twice_refunded_db).
Proof.
  destruct demo_refund_ok as [resp Hok]. exists resp. split; [exact Hok|].
  pose proof (system_inv _ _ demo_inv demo_run) as Hinv.
  assert (Hrun : rtc system_step (mkWorld refunded_db []) (mkWorld twice_refunded_db [])).
  { apply rtc_once. unfold twice_refunded_db.
    exact (sys_refund (uuid_env 30000) None "refund-2" 9000 700 refunded_db [] _ _ (surjective_pairing _)). }
  pose proof (fun n' => refund_answers_are_forever (uuid_env 20000) None "refund-1" 9000 500 served_db [] 201 resp
    refunded_db (mkWorld twice_refunded_db []) (demo_env 1) None 9000 n' Hinv eq_refl
    (uuid_env_draws 20000) Hok Hrun (demo_reliable 1)) as H.
  cbn [w_db] in H. split; [refine (eq_trans (H 500) _)|refine (eq_trans (H 501) _)].
  - destruct (decide _) as [_|Hne]; [exact eq_refl|destruct (Hne eq_refl)].
  - assert (Hne : compute_hash (refund_payload 9000 501) <> compute_hash (refund_payload 9000 500))
      by (vm_compute; discriminate).
    destruct (decide _) as [He|_]; [destruct (Hne He)|exact eq_refl].
Defined.

(** ** The suspense account as a customer *)

(** The payment request whose payer is the suspense account itself. *)
Definition suspense_request : CreatePaymentRequest :=
  mkCreatePaymentRequest "merchant_1" PSP_SUSPENSE_ACCOUNT_ID wallet 7500 "INR".

(** Suspense can be emptied.  Nothing keeps a request from naming the suspense account
    as payer: on the fixtures, where suspense holds the 7500 of two AUTHORIZED payments, a
    request to pay 7500 from it to a wallet is served; the holds stay open with nothing in
    suspense, and settling one of them raises [InsufficientFundsException]. *)
Theorem suspense_payer_takes_holds :
  exists resp db',
    create mkMockPspClient None (demo_env 1000) (demo_env 5000) 9500 77 "key-9" suspense_request paid_db =
      (Ok (201, resp), db') /\
    balance_of db' PSP_SUSPENSE_ACCOUNT_ID = 0 /\ balance_of db' wallet = 70000 /\
    open_holds db' = 7500 /\
    fst (in_transaction (demo_env 9000) (settle 9001 "psp_2") db') =
      Err (InsufficientFundsException PSP_SUSPENSE_ACCOUNT_ID 0 7000).
Proof.
  destruct (create mkMockPspClient None (demo_env 1000) (demo_env 5000) 9500 77 "key-9"
    suspense_request paid_db) as [[[code resp]|e] db'] eqn:Hc.
  - assert (Hcode : code = 201).
    { assert (H : match fst (@Ok exn _ (code, resp), db') with Ok (c, _) => c | Err _ => 0 end = 201)
        by (rewrite <- Hc; vm_compute; reflexivity). exact H. }
    exists resp, db'. rewrite Hcode. split; [reflexivity|].
    change db' with (snd (@Ok exn _ (code, resp), db')). rewrite <- Hc.
    split; [vm_compute; reflexivity|]. split; [vm_compute; reflexivity|].
    split; [vm_compute; reflexivity|]. vm_compute. reflexivity.
  - exfalso. assert (H : is_ok (fst (@Err exn (Z * PaymentResponse) e, db')) = true)
      by (rewrite <- Hc; vm_compute; reflexivity). discriminate H.
Qed.
