(* ===== verification/AnswerTheorems.v ===== *)
(** * AnswerTheorems: what the idempotency table says

    The code, resource and body stored under a key, in every reachable state: nothing while the
    key is in progress; afterwards the answer of the one payment or refund it was asked for. *)

From S2P Require Import Prelude PyStd Domain Models Session Ledger Journal Fixtures Psp Idempotency Saga Schemas Payments Refunds Lifecycle Webhooks Reconciliation OutboxRelay System SystemTheorems.
From Stdlib Require Import String.

(** The request a payment was created for. *)
Definition request_of (p : Payment) : CreatePaymentRequest :=
  mkCreatePaymentRequest (p_merchant_id p) (p_payer_account p) (p_payee_account p) (p_amount p)
    (p_currency p).

Lemma request_of_held i rq t : request_of (held_payment i rq t) = rq.
Proof. by destruct rq. Qed.

Lemma request_of_terms p q : same_terms p q -> request_of q = request_of p.
Proof. intros (_ & Hm & Hr & He & Ha & Hc & _). unfold request_of. congruence. Qed.

Lemma resolved_request p0 auth t : request_of (resolved p0 auth t) = request_of p0.
Proof. unfold resolved. by destruct (ar_outcome auth). Qed.

Section answers.
  Context {DT : DatetimeText}.

(** ** What an answer is *)

(** The stored answer [row] is the response of a payment, as it was when its request was
    answered, or of a refund; the payment has only moved on since, the refund is unchanged;
    and the hash is that of the request for it. *)
Inductive answer (db : DB) (row : IdempotencyRecord) : Prop :=
| answer_payment p q :
    p_status p = SUCCEEDED \/ p_status p = AUTHORIZED \/ p_status p = FAILED ->
    payments db !! p_id p = Some q -> evolves p q ->
    ir_merchant_id row = p_merchant_id p ->
    ir_request_hash row = compute_hash (request_dump (request_of p)) ->
    ir_resource_id row = Some (p_id p) ->
    ir_response_body row = Some (model_dump (payment_to_response p)) ->
    answer db row
| answer_refund r :
    refunds db !! r_id r = Some r -> is_Some (payments db !! r_payment_id r) ->
    ir_merchant_id row = refund_merchant ->
    ir_request_hash row = compute_hash (refund_payload (r_payment_id r) (r_amount r)) ->
    ir_resource_id row = Some (r_id r) ->
    ir_response_body row = Some (model_dump (mkRefundResponse (r_id r) (r_payment_id r)
                                   (r_amount r) (r_status r) (r_created_at r))) ->
    answer db row.

Definition answered (db : DB) (row : IdempotencyRecord) : Prop :=
  match ir_status row with
  | IN_PROGRESS => ir_resource_id row = None /\ ir_response_code row = None /\
                   ir_response_body row = None
  | COMPLETED => ir_response_code row = Some 201 /\ answer db row
  end.

Definition keys_answered (db : DB) : Prop :=
  forall key row, idempotency_keys db !! key = Some row -> answered db row.

(** A request in flight claimed its key for its payment. *)
Definition flight_claimed (db : DB) (fl : InFlight) : Prop :=
  exists p row, payments db !! fl_payment fl = Some p /\ p_merchant_id p = fl_merchant fl /\
    idempotency_keys db !! flight_key fl = Some row /\
    ir_request_hash row = compute_hash (request_dump (request_of p)).

Record answers_inv (w : World) : Prop := {
  ai_keys : keys_answered (w_db w);
  ai_flights : Forall (flight_claimed (w_db w)) (w_inflight w);
}.

(** ** What later states keep of it *)

(** Payments evolve, refunds and claims stay. *)
Record rows_grow (db db' : DB) : Prop := {
  rg_payments : forall i p, payments db !! i = Some p ->
    exists q, payments db' !! i = Some q /\ evolves p q;
  rg_refunds : refunds db ⊆ refunds db';
}.

#[global] Instance rows_grow_preorder : PreOrder rows_grow.
Proof.
  split.
  - intros db. constructor; [|done]. intros i p Hp. by exists p.
  - intros d1 d2 d3 [P12 R12] [P23 R23]. constructor; [|by etrans]. intros i p Hp.
    destruct (P12 i p Hp) as (q & Hq & E12). destruct (P23 i q Hq) as (q' & Hq' & E23).
    exists q'. split; [done|]. by etrans.
Qed.

Lemma step_rows_grow db db' : db_ok db -> payment_step anyone db db' -> rows_grow db db'.
Proof.
  intros [Hso Hpay _] Hst. constructor; [intros i p Hp; by eapply step_evolves|].
  apply payment_step_rows in Hst as [_ ->|? ? ? _ _ _ ->|? ? ? _ _ -> _ _|? ? rid ? ? ? _ _ _ Hf _ ->];
    [done..|by apply insert_subseteq|done].
Qed.

Lemma system_rows_grow w w' : inv w -> rtc system_step w w' -> rows_grow (w_db w) (w_db w').
Proof. apply system_relation; [apply _|exact step_rows_grow]. Qed.

Lemma answered_grow db db' row : rows_grow db db' -> answered db row -> answered db' row.
Proof.
  intros [Hp Hr]. unfold answered. destruct (ir_status row); [done|].
  intros [Hc [p q Hst Hq He Hm Hh Hi Hb|r Hrow [q Hq] Hm Hh Hi Hb]]; (split; [done|]).
  - destruct (Hp _ _ Hq) as (q' & Hq' & He'). eapply (answer_payment _ _ p q'); try done. by etrans.
  - destruct (Hp _ _ Hq) as (q' & Hq' & _).
    apply (answer_refund _ _ r); [by eapply lookup_weaken|by exists q'|done..].
Qed.

(** A step that writes one key, or none. *)
Lemma keys_answered_same db db' :
  keys_answered db -> rows_grow db db' -> idempotency_keys db' = idempotency_keys db ->
  keys_answered db'.
Proof. intros Hk Hg Hs key row. rewrite Hs. intros Hrow. by eapply answered_grow, Hk. Qed.

Lemma keys_answered_insert db db' key row :
  keys_answered db -> rows_grow db db' ->
  idempotency_keys db' = <[key := row]> (idempotency_keys db) -> answered db' row ->
  keys_answered db'.
Proof.
  intros Hk Hg Hs Hrow key' row'. rewrite Hs, lookup_insert. case_decide; [by intros [= <-]|].
  intros Hrow'. by eapply answered_grow, Hk.
Qed.

(** No step changes the hash of a claimed key. *)
Lemma idem_steps_hash own db db' key row :
  rtc (idem_step own) db db' -> idempotency_keys db !! key = Some row ->
  exists row', idempotency_keys db' !! key = Some row' /\
    ir_request_hash row' = ir_request_hash row.
Proof.
  intros Hr. revert row. induction Hr as [d|d1 d2 d3 H12 _ IH]; intros row Hrow; [by exists row|].
  assert (Hone : exists row', idempotency_keys d2 !! key = Some row' /\
            ir_request_hash row' = ir_request_hash row).
  { destruct H12 as [->|m k payload t Hn ->|m k row' i body Hk _ _ ->]; [by exists row| |];
      rewrite lookup_insert; (case_decide; [|by exists row]).
    - congruence.
    - simplify_eq. by eexists. }
  destruct Hone as (row' & Hrow' & <-). by apply IH.
Qed.

Lemma flights_claimed_keep own db db' fls :
  rows_grow db db' -> rtc (idem_step own) db db' ->
  Forall (flight_claimed db) fls -> Forall (flight_claimed db') fls.
Proof.
  intros Hg Hi Hf. eapply Forall_impl; [exact Hf|]. intros fl (p & row & Hp & Hm & Hrow & Hh).
  destruct (rg_payments _ _ Hg _ _ Hp) as (q & Hq & [Ht _ _]).
  destruct (idem_steps_hash _ _ _ _ _ Hi Hrow) as (row' & Hrow' & Hsame).
  exists q, row'. split; [done|]. split; [by rewrite (proj1 (proj2 Ht))|]. split; [done|].
  by rewrite Hsame, (request_of_terms _ _ Ht).
Qed.

(** ** The keys each service writes *)

Lemma create_tx1_answers env lock i k rq db r db' fls :
  inv (mkWorld db fls) -> keys_answered db ->
  in_transaction env (create_tx1 lock i k rq) db = (r, db') -> rows_grow db db' ->
  keys_answered db' /\
  (forall p, r = Ok (inr p) -> flight_claimed db' (mkInFlight i (cq_merchantId rq) k)).
Proof.
  intros Hinv Hk Htx Hg. destruct r as [r|e]; [|by apply in_transaction_Err in Htx as ->].
  apply create_tx1_committed in Htx; [|apply (inv_schema _ Hinv)].
  destruct (idempotency_keys db !! (cq_merchantId rq, k)) as [row|] eqn:Hrow.
  { destruct Htx as (code & body & resp & _ & _ & -> & ->). by split. }
  destruct Htx as (t1 & t2 & db1 & -> & Hop & Hph).
  pose proof (phase_idem _ _ _ _ _ _ _ Hph eq_refl) as Hidem.
  apply phase_summarised in Hph as (txn & o & Hs & _); [|done].
  pose proof (sm_payments _ _ _ _ _ _ Hs) as Hpay. cbn in Hpay.
  apply exec_op_Ok in Hop as [_ ->]. simpl in Hidem. split.
  - by eapply keys_answered_insert.
  - intros p _. eexists _, _. split; [by rewrite Hpay, lookup_insert_eq|]. split; [done|].
    split; [by rewrite Hidem; simpl; rewrite lookup_insert_eq|]. by rewrite request_of_held.
Qed.

Lemma resolved_status p0 auth t :
  p_status (resolved p0 auth t) = SUCCEEDED \/ p_status (resolved p0 auth t) = AUTHORIZED \/
  p_status (resolved p0 auth t) = FAILED.
Proof. unfold resolved. destruct (ar_outcome auth); simpl; auto. Qed.

Lemma create_tx2_answers env auth fl db r db' :
  schema_ok db -> keys_answered db -> flight_claimed db fl ->
  in_transaction env (create_tx2 (fl_payment fl) (fl_key fl) (fl_merchant fl) auth) db = (r, db') ->
  rows_grow db db' -> keys_answered db'.
Proof.
  intros Hso Hk (p & row & Hp & Hm & Hrow & Hh) Htx Hg.
  destruct r as [r|e]; [|by apply in_transaction_Err in Htx as ->].
  apply create_tx2_committed in Htx as (p0 & t & db1 & Hp0 & Hres & -> & Hcomp); [|done].
  rewrite Hp0 in Hp. injection Hp as <-. pose proof (resolution_idem _ _ _ _ _ _ Hres) as Hidem.
  destruct (resolution_balance _ _ _ _ _ _ Hso Hp0 Hres) as [Hpay _].
  destruct (so_payment _ Hso _ _ Hp0) as [Hid _].
  pose proof (so_idem _ Hso _ _ Hrow) as [= Hmk Hkk].
  unfold completion in Hcomp. unfold flight_key in Hrow. rewrite Hidem, Hrow in Hcomp.
  apply exec_op_Ok in Hcomp as [_ ->]. eapply keys_answered_insert; [exact Hk|exact Hg| |].
  - simpl. by rewrite Hidem.
  - split; [done|]. apply (answer_payment _ _ (resolved p0 auth t) (resolved p0 auth t)); simpl.
    + apply resolved_status.
    + rewrite Hpay, resolved_id, Hid. apply lookup_insert_eq.
    + done.
    + rewrite Hmk, <- Hm. unfold resolved. by destruct (ar_outcome auth).
    + by rewrite resolved_request.
    + by rewrite resolved_id, Hid.
    + done.
Qed.

Lemma refund_answers env lock k i n db r db' :
  schema_ok db -> keys_answered db ->
  in_transaction env (refund lock k i n) db = (r, db') -> rows_grow db db' -> keys_answered db'.
Proof.
  intros Hso Hk Htx Hg. destruct r as [r|e]; [|by apply in_transaction_Err in Htx as ->].
  apply refund_committed in Htx; [|done].
  destruct (idempotency_keys db !! (refund_merchant, k)) as [row|] eqn:Hrow.
  { by destruct Htx as (code & body & resp & _ & _ & _ & ->). }
  destruct Htx as (t0 & p0 & rid & t1 & t2 & db1 & db2 & Hop & Hp0 & _ & Hph & _ & Hcomp).
  pose proof (phase_idem _ _ _ _ _ _ _ Hph eq_refl) as Hidem.
  apply phase_summarised in Hph as (txn & o & Hs & _); [|done].
  pose proof (sm_refunds _ _ _ _ _ _ Hs) as Href. cbn in Href.
  destruct (so_payment _ Hso _ _ Hp0) as [Hid _].
  apply exec_op_Ok in Hop as [_ ->]. simpl in Hidem, Href. rewrite Hid in Href.
  unfold completion in Hcomp. rewrite Hidem, lookup_insert_eq in Hcomp.
  apply exec_op_Ok in Hcomp as [_ ->]. eapply keys_answered_insert; [exact Hk|exact Hg| |].
  - simpl. by rewrite Hidem, insert_insert_eq.
  - split; [done|]. apply (answer_refund _ _ (refund_row rid i n t1)); try done; simpl.
    + by rewrite Href, lookup_insert_eq.
    + destruct (rg_payments _ _ Hg _ _ Hp0) as (q & Hq & _). simpl in Hq. by exists q.
Qed.

(** ** Every step *)

Lemma system_step_answers w w' :
  inv w -> answers_inv w -> system_step w w' -> answers_inv w'.
Proof.
  intros Hinv [Hk Hf] Hst. pose proof (inv_schema _ Hinv) as Hso.
  pose proof (system_rows_grow _ _ Hinv (rtc_once _ _ Hst)) as Hg.
  destruct (system_step_idem _ _ Hinv Hst) as [own Hi].
  pose proof (flights_claimed_keep _ _ _ _ Hg Hi Hf) as Hf'.
  destruct Hst as [env lock i k rq db fls r db' Htx|env auth fl db fls1 fls2 r db' Htx
    |fl db fls1 fls2|env lock k i n db fls r db' Htx|env st ce jl raw sig db fls r db' Htx
    |env ro n db fls r db' Hp Htx|env ro le n db fls r db' Hp Htx]; simpl in *.
  - destruct (create_tx1_answers _ _ _ _ _ _ _ _ _ Hinv Hk Htx Hg) as [Hk' Hnew].
    constructor; [exact Hk'|]. destruct r as [[x|p]|e]; simpl; [done| |done].
    constructor; [by eapply Hnew|done].
  - apply Forall_app in Hf as [_ Hf]. apply Forall_cons in Hf as [Hfl _].
    apply Forall_app in Hf' as [H1 H2]. apply Forall_cons in H2 as [_ H2].
    constructor; [by eapply create_tx2_answers|by apply Forall_app].
  - apply Forall_app in Hf' as [H1 H2]. apply Forall_cons in H2 as [_ H2].
    constructor; [done|by apply Forall_app].
  - constructor; [by eapply refund_answers|done].
  - constructor; [|done]. eapply keys_answered_same; [done..|by eapply handle_idem].
  - constructor; [|done]. eapply keys_answered_same; [done..|].
    destruct r as [m|e]; [|by apply in_transaction_Err in Htx as ->].
    apply expire_committed in Htx as [_ Har]; [|done..]. apply (ar_idem _ _ _ Har).
  - constructor; [|done]. eapply keys_answered_same; [done..|].
    apply drain_ops in Htx as (t & es & Hex). by eapply publish_idem.
Qed.

(** C16: every stored answer is true.  In every reachable state an IN_PROGRESS key stores no
    answer, and a COMPLETED key stores code 201 and the response of a payment or a refund that
    exists: the payment answered under its own merchant, with the terms the stored hash is the
    hash of, in the status it had then (SUCCEEDED, AUTHORIZED or FAILED), from which it has
    only moved along its life cycle; or the refund row with the payment and the amount the
    stored hash is the hash of. *)
Theorem stored_answers_are_true w w' :
  inv w -> answers_inv w -> rtc system_step w w' ->
  forall key row, idempotency_keys (w_db w') !! key = Some row ->
    match ir_status row with
    | IN_PROGRESS => ir_resource_id row = None /\ ir_response_code row = None /\
                     ir_response_body row = None
    | COMPLETED => ir_response_code row = Some 201 /\ answer (w_db w') row
    end.
Proof.
  intros Hinv Ha Hr. apply (ai_keys w'). revert Hinv Ha.
  induction Hr as [w|w1 w2 w3 H12 _ IH]; intros Hinv Ha; [done|].
  apply IH; [by eapply system_step_inv|by eapply system_step_answers].
Qed.

End answers.

(** ** A concrete run *)

#[local] Existing Instance binary_datetime.

Lemma demo_answers : answers_inv demo_world.
Proof.
  constructor; [|constructor]. intros key row Hrow. exfalso.
  change (idempotency_keys demo_db) with (∅ : gmap (string * string) IdempotencyRecord) in Hrow.
  done.
Qed.

Lemma stored_answers_are_true_witness :
  exists row, idempotency_keys served_db !! ("merchant_1", "key-1") = Some row /\
    ir_status row = COMPLETED /\ ir_response_code row = Some 201 /\ answer served_db row.
Proof.
  destruct (idempotency_keys served_db !! ("merchant_1", "key-1")) as [row|] eqn:Hrow.
  - exists row. split; [reflexivity|].
    pose proof (stored_answers_are_true demo_world served_world demo_inv demo_answers demo_run
                  _ _ Hrow) as Ht.
    assert (Hst : (ir_status <$> idempotency_keys served_db !! ("merchant_1", "key-1")) = Some COMPLETED)
      by (vm_compute; reflexivity).
    rewrite Hrow in Hst. injection Hst as Hst. rewrite Hst in Ht. split; [exact Hst|exact Ht].
  - exfalso. assert (Hn : is_present (idempotency_keys served_db !! ("merchant_1", "key-1")) = true)
      by (vm_compute; reflexivity).
    rewrite Hrow in Hn. discriminate Hn.
Defined.
