(* ===== verification/RelayWorkers.v ===== *)
(** * RelayWorkers: several relays beside the services

    [OutboxRelay.drain_batch] cut where other transactions may run: a worker selects its batch
    ([select_batch], which skips the rows other workers hold), announces the events one after
    the other, and commits ([publish_batch]); it may fail anywhere, which rolls its batch back
    and releases the rows, but takes no announcement back.  Any number of workers run like
    this ([run_loop] in several processes), and between any two of their steps the services
    run their transactions.

    Proved: no event is in two batches; the announcements of an event are counted exactly, by
    the batches that were rolled back and one for the batch that was not; no event is lost;
    and what the workers commit is what [drain_batch] commits in one piece, so that such a
    run is a run of [System]. *)

From S2P Require Import Prelude PyStd Domain Models Session Ledger Journal Fixtures Psp Idempotency Saga Schemas Payments Refunds Lifecycle Webhooks Reconciliation OutboxRelay OutboxTheorems System SystemTheorems.
From Stdlib Require Import String.

(** ** A batch in two parts *)

Section statements.
  Variable row_order : list Outbox -> list Outbox.
  Variable locked_elsewhere : uuid -> bool.

(** [await session.execute(stmt)], [res.scalars().all()] *)
Definition select_batch (batch_size : nat) : M (list Outbox) :=
  statement;;
  events ← gets (fun s => next_batch row_order locked_elsewhere batch_size (s_db s));
  lock_outbox events;;
  mret events.

(** The rest of the transaction: the rows are written when it commits. *)
Definition publish_batch (events : list Outbox) : M Z :=
  match events with
  | [] => mret 0
  | _ =>
      t ← now;
      publish_all t events;;
      mret (Z.of_nat (List.length events))
  end.

(** [drain_batch] is the one after the other. *)
Lemma drain_batch_split n s :
  drain_batch row_order locked_elsewhere n s = (select_batch n ≫= publish_batch) s.
Proof.
  unfold drain_batch, select_batch. unfold mbind, stm_bind. destruct (statement s) as [[u s1]|e]; [|done].
  unfold gets. rewrite lock_outbox_eq. done.
Qed.

(** The rows a worker holds are the locks its session has recorded. *)
Lemma select_batch_locks n s events s' :
  select_batch n s = Ok (events, s') ->
  s_locks s' = s_locks s ++ map (fun ev => LockOutbox (o_id ev)) events.
Proof.
  unfold select_batch. intros H. inv_bind_as H u s1 Hst Hk. apply statement_Ok_inv in Hst as [_ ->].
  inv_bind_as Hk es s2 Hg Hk1. unfold gets in Hg. injection Hg as <- <-.
  inv_bind_as Hk1 u2 s3 Hl Hret. rewrite lock_outbox_eq in Hl. injection Hl as _ <-.
  by apply ret_Ok_inv in Hret as [-> ->].
Qed.

End statements.

(** ** Workers *)

(** A worker without a transaction, or the events of its batch it has announced
    ([logger.info("[OUTBOX PUBLISHED] ...")]) and those it has still to announce. *)
Inductive Worker := Free | Draining (announced todo : list Outbox).

Definition announced_by (w : Worker) : list uuid :=
  match w with Free => [] | Draining announced _ => map o_id announced end.
Definition batch_of (w : Worker) : list Outbox :=
  match w with Free => [] | Draining announced todo => announced ++ todo end.
Definition held_by (w : Worker) : list uuid := map o_id (batch_of w).

(** The world of the services, the workers, every announcement ever made, and those of
    batches that were rolled back. *)
Record Relays := mkRelays {
  rl_world : World;
  rl_workers : list Worker;
  rl_log : list uuid;
  rl_undone : list uuid;
}.

Abbreviation rl_db c := (w_db (rl_world c)).

(** The ids some worker has in its batch: the rows its [FOR UPDATE] has locked
    ([select_batch_locks]) until its transaction ends. *)
Definition held (ws : list Worker) : list uuid := List.concat (map held_by ws).
Definition announced (ws : list Worker) : list uuid := List.concat (map announced_by ws).
Definition locked_by (ws : list Worker) (i : uuid) : bool := bool_decide (i ∈ held ws).

(** Worker [k] goes on as [w], in a world, with new announcements or with some undone. *)
Definition worker_goes (c : Relays) (k : nat) (w : Worker) (world : World) (log undone : list uuid) : Relays :=
  mkRelays world (<[k := w]> (rl_workers c)) (rl_log c ++ log) (rl_undone c ++ undone).

Section steps.
  Context {DT : DatetimeText}.

(** A selection without rows ends the transaction and is no step.  Of the system's steps
    [relay_service] takes those of the services, which leave the events there are as they are
    ([services_grow_outbox]). *)
Inductive relay_step (c : Relays) : Relays -> Prop :=
| relay_select k env row_order events s :
    rl_workers c !! k = Some Free -> (forall l, row_order l ≡ₚ l) ->
    select_batch row_order (locked_by (rl_workers c)) 50 (begin_session env (rl_db c)) = Ok (events, s) ->
    events <> [] -> relay_step c (worker_goes c k (Draining [] events) (rl_world c) [] [])
| relay_announce k done_ ev todo :
    rl_workers c !! k = Some (Draining done_ (ev :: todo)) ->
    relay_step c (worker_goes c k (Draining (done_ ++ [ev]) todo) (rl_world c) [o_id ev] [])
| relay_commit k events env n db' :
    rl_workers c !! k = Some (Draining events []) ->
    in_transaction env (publish_batch events) (rl_db c) = (Ok n, db') ->
    relay_step c (worker_goes c k Free (mkWorld db' (w_inflight (rl_world c))) [] [])
| relay_fail k done_ todo :
    rl_workers c !! k = Some (Draining done_ todo) ->
    relay_step c (worker_goes c k Free (rl_world c) [] (map o_id done_))
| relay_service w' :
    system_step (rl_world c) w' -> outbox_grows (rl_db c) (w_db w') ->
    relay_step c {| c with rl_world := w' |}.

End steps.

(** Workers that start. *)
Definition relays_start (w : World) (n : nat) : Relays := mkRelays w (replicate n Free) [] [].

Definition count (i : uuid) (l : list uuid) : nat := count_occ N.eq_dec l i.

(** Whether an event is published, as a number. *)
Definition marked (db : DB) (i : uuid) : nat :=
  match outbox db !! i with
  | Some ev => match o_published_at ev with Some _ => 1 | None => 0 end
  | None => 0
  end.

(** ** The services leave the events as they are *)

Section services.
  Context {DT : DatetimeText}.

Lemma op_outbox op db db' :
  match op with InsertOutbox _ | UpdateOutbox _ => False | _ => True end ->
  exec_op op db = Ok db' -> outbox_grows db db'.
Proof. intros Hop [_ ->]%exec_op_Ok. apply outbox_same. by destruct op. Qed.

Lemma completion_outbox m k i body db db' : completion m k i body db db' -> outbox_grows db db'.
Proof.
  unfold completion. destruct (idempotency_keys db !! (m, k)); [by apply op_outbox|by intros ->].
Qed.

Lemma create_tx1_outbox env lock i k rq db r db' :
  schema_ok db -> in_transaction env (create_tx1 lock i k rq) db = (r, db') -> outbox_grows db db'.
Proof.
  intros Hso Htx. destruct r as [r|e]; [|by apply in_transaction_Err in Htx as ->].
  apply create_tx1_committed in Htx; [|done]. destruct (idempotency_keys db !! _).
  { by destruct Htx as (? & ? & ? & _ & _ & _ & ->). }
  destruct Htx as (t1 & t2 & db1 & _ & Hop & Hph). etrans; [by eapply op_outbox; [|exact Hop]|].
  by eapply phase_outbox; [|exact Hph].
Qed.

Lemma create_tx2_outbox env i k m auth db r db' :
  schema_ok db -> in_transaction env (create_tx2 i k m auth) db = (r, db') -> outbox_grows db db'.
Proof.
  intros Hso Htx. destruct r as [r|e]; [|by apply in_transaction_Err in Htx as ->].
  apply create_tx2_committed in Htx as (p & t & db1 & _ & Hres & _ & Hcomp); [|done].
  etrans; [|by eapply completion_outbox]. unfold resolution in Hres.
  destruct (ar_outcome auth); [eapply phase_outbox|eapply op_outbox|eapply phase_outbox]; by try exact Hres.
Qed.

Lemma refund_outbox env lock k i n db r db' :
  schema_ok db -> in_transaction env (refund lock k i n) db = (r, db') -> outbox_grows db db'.
Proof.
  intros Hso Htx. destruct r as [r|e]; [|by apply in_transaction_Err in Htx as ->].
  apply refund_committed in Htx; [|done]. destruct (idempotency_keys db !! _).
  { by destruct Htx as (? & ? & ? & _ & _ & _ & ->). }
  destruct Htx as (t0 & p0 & rid & t1 & t2 & db1 & db2 & Hop & _ & _ & Hph & _ & Hcomp).
  etrans; [by eapply op_outbox; [|exact Hop]|]. etrans; [|by eapply completion_outbox].
  by eapply phase_outbox; [|exact Hph].
Qed.

Lemma action_outbox a db db' : action_phase a db db' -> outbox_grows db db'.
Proof.
  destruct a as [[p r|p]|]; simpl; [intros [t Hph]..|by intros ->]; by eapply phase_outbox; [|exact Hph].
Qed.

Lemma handle_outbox env st ce jl raw_body sig db r db' :
  schema_ok db -> in_transaction env (handle st ce jl raw_body sig) db = (r, db') -> outbox_grows db db'.
Proof.
  intros Hso Htx. destruct r as [u|e]; [|by apply in_transaction_Err in Htx as ->].
  apply handle_delivered in Htx as (ev & _ & Heff); [|done]. unfold webhook_effect in Heff.
  destruct (ev_id ev) as [| | | |e| |]; try done. destruct (webhook_events db !! e); [by subst|].
  destruct Heff as (t & db1 & Hop & Hact). etrans; [by eapply op_outbox; [|exact Hop]|by eapply action_outbox].
Qed.

Lemma expire_outbox row_order env n db r db' :
  (forall l, row_order l ≡ₚ l) -> schema_ok db ->
  in_transaction env (expire_stale_holds row_order n) db = (r, db') -> outbox_grows db db'.
Proof.
  intros Hperm Hso Htx. destruct r as [m|e]; [|by apply in_transaction_Err in Htx as ->].
  apply expire_committed in Htx as [_ Har]; [|done..]. apply (ar_outbox _ _ _ Har).
Qed.

(** Every step of the system that is not the relay's is a step [relay_service] allows. *)
Theorem services_grow_outbox w w' :
  schema_ok (w_db w) -> system_step w w' ->
  outbox_grows (w_db w) (w_db w') \/
  exists env row_order locked_elsewhere n r, (forall l, row_order l ≡ₚ l) /\
    in_transaction env (drain_batch row_order locked_elsewhere n) (w_db w) = (r, w_db w').
Proof.
  intros Hso Hst. destruct Hst; simpl in *; [left..|right].
  - by eapply create_tx1_outbox.
  - by eapply create_tx2_outbox.
  - done.
  - by eapply refund_outbox.
  - by eapply handle_outbox.
  - by eapply expire_outbox.
  - by eexists _, _, _, _, _.
Qed.

End services.

(** ** Counting *)

Lemma count_app i l l' : count i (l ++ l') = (count i l + count i l')%nat.
Proof. apply count_occ_app. Qed.

Lemma count_perm i l l' : l ≡ₚ l' -> count i l = count i l'.
Proof. intros H. apply (Permutation_count_occ N.eq_dec), H. Qed.

Lemma count_NoDup i l : NoDup l -> count i l = if decide (i ∈ l) then 1%nat else 0%nat.
Proof.
  unfold count. induction 1 as [|j l Hni Hnd IH]; [by rewrite decide_False by apply not_elem_of_nil|].
  simpl. rewrite IH. destruct (N.eq_dec j i) as [->|Hne].
  - rewrite decide_False by done. by rewrite decide_True by by left.
  - case_decide as H; [by rewrite decide_True by by right|]. by rewrite decide_False by (by intros [?|?]%elem_of_cons).
Qed.

(** A list the workers make up, before and after one of them goes on. *)
Lemma worker_update (f : Worker -> list uuid) ws k w w' :
  ws !! k = Some w ->
  exists rest, List.concat (map f ws) ≡ₚ f w ++ rest /\ List.concat (map f (<[k := w']> ws)) ≡ₚ f w' ++ rest.
Proof.
  intros Hk. exists (List.concat (map f (take k ws ++ drop (S k) ws))).
  assert (Hlen : (k < List.length ws)%nat) by (by eapply lookup_lt_Some).
  rewrite insert_take_drop by done. rewrite <- (take_drop_middle ws k w Hk) at 1.
  rewrite !map_app, !concat_app. cbn [map List.concat].
  split; rewrite !(app_assoc _ (f _)), (Permutation_app_comm _ (f _)); by rewrite <- app_assoc.
Qed.

Lemma count_announced i ws : (count i (announced ws) <= count i (held ws))%nat.
Proof.
  unfold announced, held. induction ws as [|w ws IH]; [done|]. cbn [map List.concat]. rewrite !count_app.
  assert (count i (announced_by w) <= count i (held_by w))%nat; [|lia].
  destruct w as [|done_ todo]; [done|]. unfold held_by. simpl. rewrite map_app, count_app. lia.
Qed.

Lemma elem_of_held ws i : i ∈ held ws <-> exists k w ev, ws !! k = Some w /\ ev ∈ batch_of w /\ o_id ev = i.
Proof.
  unfold held. rewrite list_elem_of_In, in_concat. setoid_rewrite in_map_iff. split.
  - intros (l & (w & <- & Hw) & Hi). apply list_elem_of_In, list_elem_of_lookup in Hw as [k Hk].
    apply list_elem_of_In, list_elem_of_fmap in Hi as (ev & -> & Hev). by exists k, w, ev.
  - intros (k & w & ev & Hk & Hev & <-). exists (held_by w). split.
    + exists w. split; [done|]. apply list_elem_of_In. by eapply list_elem_of_lookup_2.
    + apply list_elem_of_In. by apply list_elem_of_fmap_2.
Qed.

(** ** The invariant *)

(** Of the workers that started on [db0]. *)
Record relays_ok (db0 : DB) (c : Relays) : Prop := {
  ro_schema : schema_ok (rl_db c);
  ro_held : forall k w ev, rl_workers c !! k = Some w -> ev ∈ batch_of w ->
    outbox (rl_db c) !! o_id ev = Some ev /\ o_published_at ev = None;
  ro_apart : NoDup (held (rl_workers c));
  ro_kept : forall i ev, outbox db0 !! i = Some ev ->
    exists ev', outbox (rl_db c) !! i = Some ev' /\ same_event ev ev';
  ro_count : forall i, (count i (rl_log c) + marked db0 i =
    count i (rl_undone c) + count i (announced (rl_workers c)) + marked (rl_db c) i)%nat;
}.

Lemma held_replicate n : held (replicate n Free) = [] /\ announced (replicate n Free) = [].
Proof. induction n as [|n [IH1 IH2]]; [done|]. done. Qed.

Lemma relays_start_ok w n : schema_ok (w_db w) -> relays_ok (w_db w) (relays_start w n).
Proof.
  intros Hso. destruct (held_replicate n) as [Hh Ha]. constructor; simpl; try done.
  - intros k x ev [-> _]%lookup_replicate. by intros ?%not_elem_of_nil.
  - rewrite Hh. constructor.
  - intros i ev Hev. by exists ev.
  - intros i. by rewrite Ha.
Qed.

(** A worker that goes on in the same world. *)
Lemma worker_goes_ok db0 c k w w' log undone :
  relays_ok db0 c -> rl_workers c !! k = Some w ->
  (forall ev, ev ∈ batch_of w' -> outbox (rl_db c) !! o_id ev = Some ev /\ o_published_at ev = None) ->
  (forall rest, held (rl_workers c) ≡ₚ held_by w ++ rest -> NoDup (held_by w' ++ rest)) ->
  (forall i, (count i log + count i (announced_by w) = count i undone + count i (announced_by w'))%nat) ->
  relays_ok db0 (worker_goes c k w' (rl_world c) log undone).
Proof.
  intros [Hso Hheld Hap Hkept Hcount] Hk Hev Hnd Hc. constructor; simpl; try done.
  - intros j x ev [(<- & -> & _)|[_ Hj]]%list_lookup_insert_Some; [apply Hev|by apply (Hheld j)].
  - destruct (worker_update held_by _ k w w' Hk) as (rest & Hold & Hnew). unfold held. rewrite Hnew. by apply Hnd.
  - intros i. specialize (Hcount i). specialize (Hc i).
    destruct (worker_update announced_by _ k w w' Hk) as (rest & Hold & Hnew). unfold announced in *.
    rewrite (count_perm _ _ _ Hnew), !count_app. rewrite (count_perm _ _ _ Hold), count_app in Hcount. lia.
Qed.

(** A batch that is about to be committed. *)
Lemma own_batch db0 c k events :
  relays_ok db0 c -> rl_workers c !! k = Some (Draining events []) ->
  NoDup (map o_id events) /\
  forall ev, ev ∈ events -> outbox (rl_db c) !! o_id ev = Some ev /\ o_published_at ev = None.
Proof.
  intros Hok Hk. destruct (worker_update held_by _ k _ Free Hk) as (rest & Hold & _).
  pose proof (ro_apart _ _ Hok) as Hnd. unfold held in Hnd. rewrite Hold in Hnd. apply NoDup_app in Hnd as (Hnd & _).
  unfold held_by in Hnd. cbn [batch_of] in Hnd. rewrite app_nil_r in Hnd. split; [done|].
  intros ev He. apply (ro_held _ _ Hok k _ ev Hk). cbn [batch_of]. by rewrite app_nil_r.
Qed.

Lemma select_batch_inv row_order lk n env db events s :
  select_batch row_order lk n (begin_session env db) = Ok (events, s) ->
  events = next_batch row_order lk n db.
Proof.
  unfold select_batch. intros H. inv_bind_as H u s1 Hst Hk. apply statement_Ok_inv in Hst as [_ ->].
  inv_bind_as Hk es s2 Hg Hk1. unfold gets in Hg. injection Hg as <- <-.
  inv_bind_as Hk1 u1 s3 Hl Hk2. rewrite lock_outbox_eq in Hl. injection Hl as _ <-.
  by apply ret_Ok_inv in Hk2 as [-> _].
Qed.

Lemma publish_batch_exec env events db n db' :
  in_transaction env (publish_batch events) db = (Ok n, db') ->
  exec_ops (publish_ops (now_at env 0) events) db = Ok db'.
Proof.
  intros Htx. apply in_transaction_Ok_inv in Htx as (s' & Hrun & Hcommit). apply commit_exec in Hcommit.
  unfold publish_batch in Hrun. destruct events as [|ev events].
  - by apply ret_Ok_inv in Hrun as [_ ->].
  - inv_bind_as Hrun t s1 Hn Hk. rewrite now_eq in Hn. injection Hn as <- <-.
    rewrite (bind_Ok _ _ _ _ _ (publish_all_eq _ _ _)) in Hk. by apply ret_Ok_inv in Hk as [_ ->].
Qed.

(** What a commit leaves: its events published, the rest as it was. *)
Lemma commit_outbox env events db n db' :
  schema_ok db -> NoDup (map o_id events) ->
  (forall ev, ev ∈ events -> outbox db !! o_id ev = Some ev /\ o_published_at ev = None) ->
  in_transaction env (publish_batch events) db = (Ok n, db') ->
  schema_ok db' /\ exists ob, db' = {| db with outbox := ob |} /\
    (forall ev, ev ∈ events -> ob !! o_id ev = Some (mark_published (now_at env 0) ev)) /\
    (forall i, i ∉ map o_id events -> ob !! i = outbox db !! i).
Proof.
  intros Hso Hnd Hev Htx. apply publish_batch_exec in Htx as Hex. split; [by eapply schema_ok_exec_ops|].
  destruct (exec_publish (now_at env 0) events db) as (ob & Hex' & Hin & Hout).
  { intros ev Hin. destruct (Hev ev Hin) as [Hrow _]. split; [by eexists|].
    destruct (so_outbox _ Hso _ _ Hrow) as (_ & H1 & H2 & H3). simpl. by rewrite H1, H2, H3. }
  rewrite Hex in Hex'. injection Hex' as ->. exists ob. split; [done|]. split; [|done]. intros ev He. by apply Hin.
Qed.

(** An event of a batch counts as published from the commit on. *)
Lemma marked_commit events db ob t i :
  NoDup (map o_id events) ->
  (forall ev, ev ∈ events -> outbox db !! o_id ev = Some ev /\ o_published_at ev = None) ->
  (forall ev, ev ∈ events -> ob !! o_id ev = Some (mark_published t ev)) ->
  (forall i, i ∉ map o_id events -> ob !! i = outbox db !! i) ->
  marked {| db with outbox := ob |} i = (count i (map o_id events) + marked db i)%nat.
Proof.
  intros Hnd Hev Hin Hout. rewrite count_NoDup by done. unfold marked. simpl. case_decide as Hi.
  - apply list_elem_of_fmap in Hi as (ev & -> & He). rewrite (Hin ev He). destruct (Hev ev He) as [-> ->]. done.
  - by rewrite Hout.
Qed.

Section runs.
  Context {DT : DatetimeText}.

Lemma commit_ok db0 c k events env n db' :
  relays_ok db0 c -> rl_workers c !! k = Some (Draining events []) ->
  in_transaction env (publish_batch events) (rl_db c) = (Ok n, db') ->
  relays_ok db0 (worker_goes c k Free (mkWorld db' (w_inflight (rl_world c))) [] []).
Proof.
  intros Hok Hk Htx. destruct (own_batch _ _ _ _ Hok Hk) as [Hnd Hev].
  destruct Hok as [Hso Hheld Hap Hkept Hcount].
  destruct (worker_update held_by _ k _ Free Hk) as (rest & Hold & Hnew). unfold held_by in Hold. simpl in Hold.
  rewrite app_nil_r in Hold. unfold held in Hap. rewrite Hold in Hap. apply NoDup_app in Hap as (_ & Hdisj & Hrest).
  destruct (commit_outbox _ _ _ _ _ Hso Hnd Hev Htx) as (Hso' & ob & -> & Hin & Hout).
  constructor; simpl; [done| | | |].
  - intros j x ev [(_ & <- & _)|[Hj Hx]]%list_lookup_insert_Some Hb; [by apply not_elem_of_nil in Hb|].
    destruct (Hheld j x ev Hx Hb) as [Hrow Hnone]. split; [|done]. rewrite Hout; [done|]. intros Hi.
    apply (Hdisj _ Hi). assert (Hh : o_id ev ∈ held (<[k:=Free]> (rl_workers c))).
    { apply elem_of_held. exists j, x, ev. by rewrite list_lookup_insert_ne. }
    unfold held in Hh. by rewrite Hnew in Hh.
  - unfold held. rewrite Hnew. exact Hrest.
  - intros i ev Hi. destruct (Hkept i ev Hi) as (ev' & Hi' & Hsame).
    destruct (decide (i ∈ map o_id events)) as [He|He]; [|rewrite Hout by done; by exists ev'].
    apply list_elem_of_fmap in He as (e & -> & He). rewrite (Hin e He). destruct (Hev e He) as [Hrow Hnone].
    rewrite Hrow in Hi'. injection Hi' as ->. eexists. split; [done|]. etrans; [done|]. by eexists.
  - intros i. specialize (Hcount i). rewrite (marked_commit events _ ob (now_at env 0)) by done.
    destruct (worker_update announced_by _ k _ Free Hk) as (rest' & Hold' & Hnew'). unfold announced in *.
    rewrite (count_perm _ _ _ Hnew'), !app_nil_r. rewrite (count_perm _ _ _ Hold'), count_app in Hcount.
    simpl in *. lia.
Qed.

Lemma service_ok db0 c w' :
  relays_ok db0 c -> system_step (rl_world c) w' -> outbox_grows (rl_db c) (w_db w') ->
  relays_ok db0 {| c with rl_world := w' |}.
Proof.
  intros [Hso Hheld Hap Hkept Hcount] Hst [Hk Hn]. constructor; simpl; [|..|].
  - eapply schema_ok_rtc; [by apply system_step_exec|done].
  - intros k w ev Hw Hev. destruct (Hheld k w ev Hw Hev) as [Hrow ?]. split; [by apply Hk|done].
  - done.
  - intros i ev Hi. destruct (Hkept i ev Hi) as (ev' & Hi' & Hsame). exists ev'. split; [by apply Hk|done].
  - intros i. rewrite Hcount. f_equal. unfold marked.
    destruct (outbox (rl_db c) !! i) as [ev|] eqn:Hi; [by rewrite (Hk _ _ Hi)|].
    destruct (outbox (w_db w') !! i) as [ev|] eqn:Hi'; [|done].
    destruct (Hn _ _ Hi') as [?|[_ ->]]; [by simplify_eq|done].
Qed.

Lemma relay_step_ok db0 c c' : relays_ok db0 c -> relay_step c c' -> relays_ok db0 c'.
Proof.
  intros Hok Hst. destruct Hst as [k env ro events s Hk Hperm Hsel Hne|k done_ ev todo Hk|k events env n db' Hk Htx
    |k done_ todo Hk|w' Hst Hgrow].
  - apply select_batch_inv in Hsel as ->. pose proof (ro_schema _ _ Hok) as Hso.
    assert (Hel : forall ev, ev ∈ next_batch ro (locked_by (rl_workers c)) 50 (rl_db c) ->
              eligible (locked_by (rl_workers c)) (rl_db c) ev) by (intros ev; by apply batch_eligible).
    eapply worker_goes_ok; [done|done| | |done].
    + intros ev Hev. by destruct (Hel ev Hev) as (? & ? & _).
    + intros rest Hrest. apply NoDup_app. split; [by apply batch_NoDup|]. split.
      * intros i (ev & -> & Hev)%list_elem_of_fmap Hi. destruct (Hel ev Hev) as (_ & _ & Hl).
        apply bool_decide_eq_false in Hl. apply Hl. by rewrite Hrest.
      * pose proof (ro_apart _ _ Hok) as Hap. by rewrite Hrest in Hap.
  - assert (Heq : (done_ ++ [ev]) ++ todo = done_ ++ ev :: todo) by (by rewrite <- app_assoc).
    eapply worker_goes_ok; [done|done| | |].
    + intros e. cbn [batch_of]. rewrite Heq. exact (ro_held _ _ Hok k _ e Hk).
    + intros rest Hrest. unfold held_by in *. cbn [batch_of] in *. rewrite Heq. rewrite <- Hrest. apply (ro_apart _ _ Hok).
    + intros i. cbn [announced_by]. rewrite map_app, count_app. simpl. lia.
  - by eapply commit_ok.
  - eapply worker_goes_ok; [done|done|by intros e ?%not_elem_of_nil| |].
    + intros rest Hrest. pose proof (ro_apart _ _ Hok) as Hap. rewrite Hrest in Hap. by apply NoDup_app in Hap as (_ & _ & ?).
    + intros i. simpl. lia.
  - by apply service_ok.
Qed.

Lemma relays_run_ok db0 c c' : relays_ok db0 c -> rtc relay_step c c' -> relays_ok db0 c'.
Proof. intros Hok Hr. induction Hr as [c|c1 c2 c3 H12 _ IH]; [done|]. by eapply IH, relay_step_ok. Qed.

End runs.

(** ** What a worker commits is a batch of [drain_batch] *)

Lemma commit_is_drain env events db n db' :
  schema_ok db -> NoDup (map o_id events) ->
  (forall ev, ev ∈ events -> outbox db !! o_id ev = Some ev /\ o_published_at ev = None) ->
  in_transaction env (publish_batch events) db = (Ok n, db') ->
  exists env' m, in_transaction env'
    (drain_batch id (fun i => bool_decide (i ∉ map o_id events)) (List.length events)) db = (Ok m, db').
Proof.
  intros Hso Hnd Hev Htx. set (lk := fun i => bool_decide (i ∉ map o_id events)).
  set (env' := mkEnv (uuid4_at env) (fun _ => now_at env 0) (fun _ => None)).
  assert (Hperm : forall l : list Outbox, id l ≡ₚ l) by done.
  destruct (drain_total id lk Hperm env' (List.length events) db Hso) as (t & db2 & Hrun & Hd); [by intros ?|].
  exists env'. eexists. rewrite Hrun. f_equal.
  apply drain_ops_batch in Hrun. simpl in Hrun. destruct (exec_batch id lk Hperm (List.length events) (now_at env 0) db Hso)
    as (ob2 & Hex2 & [_ Hin2 Hout2]). rewrite Hrun in Hex2. injection Hex2 as ->.
  destruct (commit_outbox _ _ _ _ _ Hso Hnd Hev Htx) as (_ & ob & -> & Hin & Hout). f_equal.
  assert (Hsame : forall ev, ev ∈ queue id lk db <-> ev ∈ events).
  { intros ev. rewrite elem_of_queue by done. unfold eligible, lk. rewrite bool_decide_eq_false. split.
    - intros (Hrow & _ & Hi%dec_stable). apply list_elem_of_fmap in Hi as (e & Heq & He).
      destruct (Hev e He) as [Hrow' _]. rewrite <- Heq, Hrow in Hrow'. by injection Hrow' as ->.
    - intros He. destruct (Hev ev He) as [? ?]. split; [done|]. split; [done|]. intros Hni. apply Hni.
      by apply list_elem_of_fmap_2. }
  assert (Hq : queue id lk db ≡ₚ events).
  { apply NoDup_Permutation; [|by apply (NoDup_fmap_1 o_id)|exact Hsame].
    apply (NoDup_fmap_1 o_id). by apply queue_NoDup. }
  assert (Hbatch : next_batch id lk (List.length events) db = queue id lk db).
  { rewrite batch_queue. apply take_ge. by rewrite Hq. }
  rewrite Hbatch in Hin2, Hout2. apply map_eq. intros i. destruct (decide (i ∈ map o_id events)) as [Hi|Hi].
  - apply list_elem_of_fmap in Hi as (e & -> & He). rewrite (Hin e He). apply Hin2. by apply Hsame.
  - rewrite (Hout i Hi). apply Hout2. by rewrite Hq.
Qed.

Section theorems.
  Context {DT : DatetimeText}.

Lemma relay_step_system db0 c c' :
  relays_ok db0 c -> relay_step c c' -> rtc system_step (rl_world c) (rl_world c').
Proof.
  intros Hok Hst. destruct Hst as [| |k events env n db' Hk Htx| |w' Hst Hgrow]; try done; [|by apply rtc_once].
  destruct (own_batch _ _ _ _ Hok Hk) as [Hnd Hev].
  destruct (commit_is_drain env events (rl_db c) n db' (ro_schema _ _ Hok) Hnd Hev Htx) as (env' & m & Hdrain).
  apply rtc_once. cbn [rl_world worker_goes]. destruct (rl_world c) as [db fls].
  eapply sys_drain; [|exact Hdrain]; done.
Qed.

(** C31: several relays beside the services.  Whatever the interleaving of any number of relay
    workers, their failures and the transactions of the services: no event is in the batches
    of two workers; an event is announced once for every batch with it that was rolled back
    after announcing it, and once more if it is now published or announced by a worker that
    has not committed, so exactly once when no batch fails, and never published without
    having been announced; and no event is lost or altered. *)
Theorem relays_announce_exactly w n c :
  schema_ok (w_db w) -> rtc relay_step (relays_start w n) c ->
  NoDup (held (rl_workers c)) /\
  (forall i, (count i (rl_log c) + marked (w_db w) i =
    count i (rl_undone c) + (count i (announced (rl_workers c)) + marked (rl_db c) i))%nat) /\
  (forall i, (count i (announced (rl_workers c)) + marked (rl_db c) i <= 1)%nat) /\
  (forall i ev, outbox (w_db w) !! i = Some ev ->
    exists ev', outbox (rl_db c) !! i = Some ev' /\ same_event ev ev').
Proof.
  intros Hso Hrun. destruct (relays_run_ok (w_db w) _ _ (relays_start_ok w n Hso) Hrun) as [Hso' Hheld Hap Hkept Hcount].
  split; [exact Hap|]. split; [intros i; rewrite Hcount; lia|]. split; [|exact Hkept].
  intros i. pose proof (count_announced i (rl_workers c)) as Hle. rewrite (count_NoDup _ _ Hap) in Hle. revert Hle.
  case_decide as Hi; unfold marked; [|destruct (outbox (rl_db c) !! i) as [ev|]; [destruct (o_published_at ev)|]; lia].
  apply elem_of_held in Hi as (k & x & ev & Hk & Hev & <-). destruct (Hheld k x ev Hk Hev) as [-> ->]. lia.
Qed.

(** C32: relays are runs of the system.  At every moment of such an interleaving the tables
    are those a run of [system_step] leaves, in which each batch is one whole [drain_batch]
    at the place of its commit: all that is proved of the system holds with several relays
    that interleave with the services. *)
Theorem relays_are_system_runs w n c :
  schema_ok (w_db w) -> rtc relay_step (relays_start w n) c -> rtc system_step w (rl_world c).
Proof.
  intros Hso Hrun. change w with (rl_world (relays_start w n)) at 1.
  pose proof (relays_start_ok w n Hso) as Hok. revert Hok. generalize (w_db w) as db0. intros db0 Hok.
  induction Hrun as [c|c1 c2 c3 H12 _ IH]; [done|].
  etrans; [by eapply relay_step_system|]. by eapply IH, relay_step_ok.
Qed.

(** ** Workers can always finish *)

(** An environment in which no statement fails. *)
Definition calm : Env := mkEnv (fun _ => 0%N) (fun _ => 0) (fun _ => None).

Lemma publish_batch_runs events db :
  schema_ok db -> NoDup (map o_id events) ->
  (forall ev, ev ∈ events -> outbox db !! o_id ev = Some ev /\ o_published_at ev = None) ->
  exists n db', in_transaction calm (publish_batch events) db = (Ok n, db').
Proof.
  intros Hso Hnd Hev. unfold in_transaction, publish_batch. destruct events as [|ev events].
  { unfold mret, stm_ret. rewrite commit_nothing_pending_ok; [by eexists _, _|done..]. }
  set (es := ev :: events) in *. rewrite (bind_Ok _ _ _ _ _ (now_eq _)), (bind_Ok _ _ _ _ _ (publish_all_eq _ _ _)).
  destruct (exec_publish 0 es db) as (ob & Hex & _).
  { intros e He. destruct (Hev e He) as [Hrow _]. split; [by eexists|].
    destruct (so_outbox _ Hso _ _ Hrow) as (_ & H1 & H2 & H3). simpl. by rewrite H1, H2, H3. }
  unfold mret, stm_ret. rewrite (commit_reliable _ {| db with outbox := ob |}); [by eexists _, _|done|exact Hex|].
  simpl. by rewrite publish_ops_triggers.
Qed.

(** A worker announces what is left of its batch and commits. *)
Lemma worker_finishes db0 c k done_ todo :
  relays_ok db0 c -> rl_workers c !! k = Some (Draining done_ todo) ->
  exists c', rtc relay_step c c' /\ rl_workers c' = <[k := Free]> (rl_workers c) /\
    rl_undone c' = rl_undone c /\
    unpublished_ids (rl_db c') = unpublished_ids (rl_db c) ∖ list_to_set (map o_id (done_ ++ todo)).
Proof.
  revert c done_. induction todo as [|ev todo IH]; intros c done_ Hok Hk.
  - rewrite app_nil_r. pose proof (ro_schema _ _ Hok) as Hso. destruct (own_batch _ _ _ _ Hok Hk) as [Hnd Hev].
    destruct (publish_batch_runs done_ (rl_db c) Hso Hnd Hev) as (n & db' & Htx).
    eexists. split; [apply rtc_once; by eapply relay_commit|]. split; [done|]. split; [apply app_nil_r|].
    destruct (commit_outbox _ _ _ _ _ Hso Hnd Hev Htx) as (_ & ob & -> & Hin & Hout).
    apply set_eq. intros i. rewrite elem_of_difference, elem_of_list_to_set, !elem_of_unpublished_ids. simpl.
    destruct (decide (i ∈ map o_id done_)) as [Hi|Hi]; [|rewrite Hout by done; naive_solver].
    split; [|naive_solver]. intros (o & Ho & Hp). apply list_elem_of_fmap in Hi as (e & -> & He).
    rewrite (Hin e He) in Ho. by simplify_eq.
  - assert (Hst : relay_step c (worker_goes c k (Draining (done_ ++ [ev]) todo) (rl_world c) [o_id ev] []))
      by by apply relay_announce.
    destruct (IH _ (done_ ++ [ev]) (relay_step_ok _ _ _ Hok Hst)) as (c' & Hr & Hw & Hu & Hids).
    { simpl. by rewrite list_lookup_insert_eq by by eapply lookup_lt_Some. }
    exists c'. split; [by eapply rtc_l|]. simpl in *. rewrite Hw, Hu, Hids, list_insert_insert_eq, app_nil_r.
    by rewrite <- app_assoc.
Qed.

Lemma workers_finish db0 c m :
  relays_ok db0 c ->
  exists c', rtc relay_step c c' /\ rl_undone c' = rl_undone c /\
    List.length (rl_workers c') = List.length (rl_workers c) /\
    forall j w, (j < m)%nat -> rl_workers c' !! j = Some w -> w = Free.
Proof.
  intros Hok. induction m as [|m (c1 & Hr & Hu & Hlen & Hfree)]; [exists c; repeat split; [done|]; lia|].
  destruct (rl_workers c1 !! m) as [[|done_ todo]|] eqn:Hm.
  - exists c1. repeat (split; [done|]). intros j w Hj Hw. destruct (decide (j = m)) as [->|]; [congruence|].
    apply (Hfree j w); [lia|done].
  - destruct (worker_finishes db0 c1 m done_ todo) as (c2 & Hr2 & Hw2 & Hu2 & _); [by eapply relays_run_ok|done|].
    exists c2. split; [by etrans|]. rewrite Hw2, length_insert. split; [congruence|]. split; [done|].
    intros j w Hj Hw. apply list_lookup_insert_Some in Hw as [(_ & <- & _)|[Hne Hw]]; [done|].
    apply (Hfree j w); [lia|done].
  - exists c1. repeat (split; [done|]). intros j w Hj Hw. destruct (decide (j = m)) as [->|]; [congruence|].
    apply (Hfree j w); [lia|done].
Qed.

Lemma free_holds_nothing ws : Forall (eq Free) ws -> held ws = [].
Proof. induction 1 as [|w ws <- _ IH]; [done|exact IH]. Qed.

Lemma select_batch_runs row_order lk n db :
  exists s, select_batch row_order lk n (begin_session calm db) = Ok (next_batch row_order lk n db, s).
Proof.
  eexists. unfold select_batch. rewrite (bind_Ok _ _ _ _ _ (statement_reliable (begin_session calm db) ltac:(done))).
  unfold gets. unfold mbind at 1, stm_bind. by rewrite (bind_Ok _ _ _ _ _ (lock_outbox_eq _ _)).
Qed.

(** One free worker publishes what there is, batch by batch. *)
Lemma relay_drains db0 c m :
  relays_ok db0 c -> Forall (eq Free) (rl_workers c) -> (0 < List.length (rl_workers c))%nat ->
  (size (unpublished_ids (rl_db c)) <= m)%nat ->
  exists c', rtc relay_step c c' /\ rl_undone c' = rl_undone c /\ Forall (eq Free) (rl_workers c') /\
    unpublished_ids (rl_db c') ≡ ∅.
Proof.
  revert c. induction m as [|m IH]; intros c Hok Hfree Hlen Hsize.
  { exists c. repeat (split; [done|]). apply size_empty_iff. lia. }
  destruct (decide (unpublished_ids (rl_db c) ≡ ∅)) as [He|Hne]; [by exists c|].
  apply set_choose in Hne as [i Hi]. pose proof (ro_schema _ _ Hok) as Hso.
  assert (Hk : rl_workers c !! 0%nat = Some Free).
  { destruct (rl_workers c) as [|w ws]; simpl in *; [lia|]. by apply Forall_cons in Hfree as [<- _]. }
  set (lk := locked_by (rl_workers c)). set (events := next_batch id lk 50 (rl_db c)).
  assert (Hnone : forall j, lk j = false).
  { intros j. unfold lk, locked_by. rewrite free_holds_nothing by done. apply bool_decide_eq_false.
    apply not_elem_of_nil. }
  assert (Hevents : events <> []).
  { intros Hnil. apply elem_of_unpublished_ids in Hi as (o & Ho & Hp). destruct (so_outbox _ Hso _ _ Ho) as [<- _].
    assert (Hq : o ∈ queue id lk (rl_db c)) by (apply elem_of_queue; [done|done|]; by split_and!).
    unfold events in Hnil. rewrite batch_queue in Hnil. destruct (queue id lk (rl_db c)); [|done].
    by apply not_elem_of_nil in Hq. }
  destruct (select_batch_runs id lk 50 (rl_db c)) as [s Hs].
  assert (Hst : relay_step c (worker_goes c 0 (Draining [] events) (rl_world c) [] []))
    by (eapply relay_select; [done| |exact Hs|done]; done).
  pose proof (relay_step_ok _ _ _ Hok Hst) as Hok1.
  destruct (worker_finishes db0 _ 0 [] events Hok1) as (c2 & Hr2 & Hw2 & Hu2 & Hids); [by apply list_lookup_insert_eq|].
  simpl in Hw2, Hu2, Hids. rewrite list_insert_insert_eq in Hw2. rewrite app_nil_r in Hu2.
  assert (Hfree2 : Forall (eq Free) (rl_workers c2)) by (rewrite Hw2; by apply Forall_insert).
  destruct (IH c2) as (c' & Hr' & Hu' & Hf' & Hdone); [by eapply relays_run_ok|done|by rewrite Hw2, length_insert| |].
  - rewrite Hids. destruct events as [|ev es] eqn:Hes; [done|].
    assert (Hin : o_id ev ∈ unpublished_ids (rl_db c)).
    { assert (He : ev ∈ next_batch id lk 50 (rl_db c)) by (fold events; rewrite Hes; by left).
      apply batch_eligible in He as (Hrow & Hp & _); [|done..]. apply elem_of_unpublished_ids. by exists ev. }
    assert (Hlt : (size (unpublished_ids (rl_db c) ∖ list_to_set (map o_id (ev :: es))) <
                   size (unpublished_ids (rl_db c)))%nat); [|lia].
    apply subset_size. split; [set_solver|]. intros Hsub. specialize (Hsub _ Hin). set_solver.
  - exists c'. split; [eapply rtc_l; [exact Hst|]; by etrans|]. by rewrite Hu', Hu2.
Qed.

(** C33: no event is stuck.  From every moment of such an interleaving, whoever holds batches
    then, the workers can go on by themselves, without a failure, until every event is
    published and none of them holds a row; each event has then been announced once, and
    once more for every batch with it that had been rolled back before. *)
Theorem relays_can_publish_everything w n c :
  schema_ok (w_db w) -> (0 < n)%nat -> rtc relay_step (relays_start w n) c ->
  exists c', rtc relay_step c c' /\ Forall (eq Free) (rl_workers c') /\
    (forall i ev, outbox (rl_db c') !! i = Some ev -> o_published_at ev <> None) /\
    (forall i, (count i (rl_log c') + marked (w_db w) i = count i (rl_undone c) + marked (rl_db c') i)%nat).
Proof.
  intros Hso Hn Hrun. pose proof (relays_start_ok w n Hso) as Hok0.
  pose proof (relays_run_ok (w_db w) _ _ Hok0 Hrun) as Hok.
  destruct (workers_finish _ c (List.length (rl_workers c)) Hok) as (c1 & Hr1 & Hu1 & Hlen1 & Hfree1).
  assert (Hall : Forall (eq Free) (rl_workers c1)).
  { apply Forall_lookup. intros j x Hx. symmetry. apply (Hfree1 j x); [|done]. rewrite <- Hlen1.
    by eapply lookup_lt_Some. }
  assert (Hlen : List.length (rl_workers c) = n).
  { clear -Hrun. remember (relays_start w n) as c0. assert (H0 : List.length (rl_workers c0) = n)
      by (subst; apply length_replicate). clear Heqc0. induction Hrun as [c|c0 c1 c2 H01 _ IH]; [done|].
    apply IH. by destruct H01; simpl; rewrite ?length_insert. }
  destruct (relay_drains (w_db w) c1 (size (unpublished_ids (rl_db c1)))) as (c' & Hr' & Hu' & Hf' & Hdone);
    [by eapply relays_run_ok|done|lia|done|].
  exists c'. split; [by etrans|]. split; [done|].
  assert (Hok' : relays_ok (w_db w) c') by (eapply relays_run_ok; [exact Hok|by etrans]). split.
  - intros i ev Hev Hnone. apply (not_elem_of_empty (C:=gset N) i), Hdone, elem_of_unpublished_ids. eauto.
  - intros i. rewrite (ro_count _ _ Hok' i), Hu', Hu1.
    assert (Ha : announced (rl_workers c') = []) by (clear -Hf'; induction Hf' as [|x ws <- _ IH]; [done|exact IH]).
    rewrite Ha. simpl. lia.
Qed.

End theorems.

(** ** Witnesses: a worker fails in the middle of a batch, another takes it over *)

#[local] Existing Instance binary_datetime.

Definition event_31 : Outbox := demo_outbox_event 31 5 None.
Definition event_32 : Outbox := demo_outbox_event 32 3 None.

Definition idle_relays : Relays := relays_start (mkWorld backlog_db []) 2.
Definition selected : Relays := worker_goes idle_relays 0 (Draining [] [event_32; event_31]) (mkWorld backlog_db []) [] [].
Definition half_announced : Relays :=
  worker_goes selected 0 (Draining [event_32] [event_31]) (mkWorld backlog_db []) [32%N] [].
Definition failed : Relays := worker_goes half_announced 0 Free (mkWorld backlog_db []) [] [32%N].
Definition taken_over : Relays := worker_goes failed 1 (Draining [] [event_32; event_31]) (mkWorld backlog_db []) [] [].
Definition announced_again : Relays :=
  worker_goes taken_over 1 (Draining [event_32] [event_31]) (mkWorld backlog_db []) [32%N] [].

Lemma backlog_selected c k :
  rl_world c = mkWorld backlog_db [] -> rl_workers c = [Free; Free] -> rl_workers c !! k = Some Free ->
  relay_step c (worker_goes c k (Draining [] [event_32; event_31]) (rl_world c) [] []).
Proof.
  intros Hw Hfree Hk. destruct (select_batch_runs id (locked_by (rl_workers c)) 50 (rl_db c)) as [s Hs].
  assert (Hb : next_batch id (locked_by (rl_workers c)) 50 (rl_db c) = [event_32; event_31])
    by (rewrite Hw, Hfree; vm_compute; reflexivity).
  rewrite Hb in Hs. by apply (relay_select c k calm id _ s).
Qed.

Lemma takeover_reached : rtc relay_step idle_relays announced_again.
Proof.
  apply rtc_l with selected; [by apply backlog_selected|].
  apply rtc_l with half_announced; [exact (relay_announce selected 0 [] event_32 [event_31] eq_refl)|].
  apply rtc_l with failed; [exact (relay_fail half_announced 0 [event_32] [event_31] eq_refl)|].
  apply rtc_l with taken_over; [by apply backlog_selected|].
  apply rtc_once. exact (relay_announce taken_over 1 [] event_32 [event_31] eq_refl).
Qed.

Lemma relays_announce_exactly_witness :
  rl_log announced_again = [32%N; 32%N] /\
  (count 32 (rl_log announced_again) = count 32 (rl_undone announced_again) + 1)%nat.
Proof.
  destruct (relays_announce_exactly (mkWorld backlog_db []) 2 announced_again backlog_schema_ok takeover_reached)
    as (_ & Hcount & _). split; [reflexivity|exact (Hcount 32%N)].
Defined.

Lemma relays_are_system_runs_witness : rtc system_step (mkWorld backlog_db []) (rl_world announced_again).
Proof. exact (relays_are_system_runs (mkWorld backlog_db []) 2 announced_again backlog_schema_ok takeover_reached). Defined.

Lemma relays_can_publish_everything_witness :
  exists c', rtc relay_step announced_again c' /\ count 32 (rl_log c') = 2%nat.
Proof.
  destruct (relays_can_publish_everything (mkWorld backlog_db []) 2 announced_again backlog_schema_ok
    ltac:(lia) takeover_reached) as (c' & Hr & _ & Hpub & Hcount).
  exists c'. split; [exact Hr|].
  pose proof (ro_kept _ _ (relays_run_ok _ _ _ (relays_start_ok (mkWorld backlog_db []) 2 backlog_schema_ok)
    (transitivity takeover_reached Hr))) as Hkept.
  destruct (Hkept 32%N event_32 eq_refl) as (ev & Hev & _). specialize (Hpub _ _ Hev).
  specialize (Hcount 32%N). unfold marked at 2 in Hcount. rewrite Hev in Hcount.
  destruct (o_published_at ev) as [t|]; [|by destruct (Hpub eq_refl)].
  change (count 32 (rl_undone announced_again)) with 1%nat in Hcount.
  change (marked (w_db (mkWorld backlog_db [])) 32) with 0%nat in Hcount. lia.
Defined.
