(* ===== verification/ServiceTheorems.v ===== *)
(** * ServiceTheorems: what interleaved requests amount to

    The theorems about [ServiceJobs]: any number of payments, in either transaction, and
    refunds, interleaved statement by statement.  The rows of the model are those the code
    locks; every interleaving is explained by an order of its transactions, ends, lets one
    request claim a key, and is a run of [System.system_step]. *)

From S2P Require Import Prelude PyStd Domain Models Session Ledger Journal Fixtures Psp Idempotency Saga Locks Interleave Concurrency Schemas Payments PaymentTheorems Refunds Lifecycle LockOrder ServiceJobs System SystemTheorems.
From Stdlib Require Import String.

Abbreviation ServiceConc := (Conc DB ServiceJob ServiceAnswer Row).

(** The row locks among the rows of a plan. *)
Definition locks_of (rs : list Row) : list row_lock :=
  omap (fun r => match r with LockedRow l => Some l | KeyRow _ => None end) rs.

Lemma locks_of_post ps : validate_balanced ps = Ok tt ->
  locks_of (post_rows ps) = map LockBalance (sorted_account_ids ps).
Proof.
  intros Hv. unfold post_rows, post_ids. rewrite Hv.
  induction (sorted_account_ids ps) as [|a ids IH]; [done|]. simpl. f_equal. exact IH.
Qed.

Section theorems.
  Context {DT : DatetimeText}.

(** ** The plans are what the code locks *)

Lemma takes_post_rows ty ref ps : takes (post ty ref ps) (fun _ ls => ls = locks_of (post_rows ps)).
Proof.
  intros s txn s' Hso H. apply post_Ok_inv in H as (db0 & _ & _ & Hv & _ & _ & _ & _ & _ & Hl); [|done].
  eexists. split; [exact Hl|]. by rewrite locks_of_post.
Qed.

(** A posting and statements without locks. *)
Lemma takes_posting_rows {A} ty ref ps (f : LedgerTransaction -> M A) :
  (forall t, Lockless (f t)) -> takes (post ty ref ps ≫= f) (fun _ ls => ls = locks_of (post_rows ps)).
Proof. intros Hf. eapply takes_then; [apply _|apply takes_post_rows|done|done]. Qed.

(** A payment row that must be there, then what its program locks. *)
Lemma payment_first_locks {A} i (f : option Payment -> M A) (rows : Payment -> list Row) s a s' :
  schema_ok (s_db s) -> (select_payment_for_update i ≫= f) s = Ok (a, s') ->
  (forall s1, is_ok (f None s1) = false) ->
  (forall p0, takes (f (Some p0)) (fun _ ls => ls = locks_of (rows p0))) ->
  exists p0, payments (s_db s) !! i = Some p0 /\
    s_locks s' = s_locks s ++ LockPayment i :: locks_of (rows p0).
Proof.
  intros Hso H Hnone Hsome. inv_bind_as H row s1 H1 H2. pose proof (schema_ok_flushes _ _ _ _ H1 Hso) as Hso1.
  apply select_payment_Ok_inv in H1 as [-> ->]. destruct (payments (s_db s) !! i) as [p0|].
  - exists p0. split; [done|]. destruct (Hsome p0 _ _ _ Hso1 H2) as (ls & -> & ->). simpl.
    by rewrite <- app_assoc.
  - exfalso. match type of H2 with f None ?s1 = _ => specialize (Hnone s1) end. by rewrite H2 in Hnone.
Qed.

Lemma create_tx1_locks lock i k rq s r s' :
  schema_ok (s_db s) -> s_pending s = [] -> create_tx1 lock i k rq s = Ok (r, s') -> forall env,
  s_locks s' = s_locks s ++ locks_of (service_plan_rows (JCreate env lock i k rq) (s_db s)).
Proof.
  intros Hso Hp H env. unfold create_tx1 in H. inv_bind_as H claim s1 Hclaim H1.
  pose proof (schema_ok_flushes _ _ _ _ Hclaim Hso) as Hso1.
  apply claim_or_replay_inv in Hclaim as [[_ Hp1 _ Hl1] Hrow]; [|done].
  unfold service_plan_rows.
  destruct (idempotency_keys (s_db s) !! (cq_merchantId rq, k)) as [rw|].
  - destruct Hrow as ([code body] & _ & -> & _). unfold replay_payment in H1.
    destruct (model_validate body); msess. by rewrite Hl1, app_nil_r.
  - destruct Hrow as [-> _]. inv_bind_as H1 t s2 Hnow H2. rewrite now_eq in Hnow. injection Hnow as <- <-.
    inv_bind_as H2 p s3 Hhold Hret. apply ret_Ok_inv in Hret as [_ ->].
    apply hold_inv in Hhold as [-> (txn & o & Hph & _ & _ & _ & _ & _ & _ & Hl & _)]; [|done..].
    rewrite Hl. simpl. rewrite Hl1. by rewrite locks_of_post by apply (ph_valid _ _ _ _ _ _ Hph).
Qed.

Lemma create_tx2_locks i k m auth s r s' :
  schema_ok (s_db s) -> s_pending s = [] -> create_tx2 i k m auth s = Ok (r, s') -> forall env,
  s_locks s' = s_locks s ++ locks_of (service_plan_rows (JResolve env i k m auth) (s_db s)).
Proof.
  intros Hso Hp H env. unfold create_tx2 in H. inv_bind_as H p s1 Hstep H1. cbv zeta in H1.
  assert (Hrest : s_locks s' = s_locks s1).
  { assert (Hso1 : schema_ok (s_db s1)).
    { destruct (ar_outcome auth); exact (schema_ok_flushes _ _ _ _ Hstep Hso). }
    assert (Hll : Lockless (complete m k (p_id p) 201 (model_dump (payment_to_response p));;
                            mret (payment_to_response p))) by solve_lockless.
    destruct (Hll _ _ _ Hso1 H1) as (ls & -> & ->). by rewrite app_nil_r. }
  rewrite Hrest. clear H1 Hrest. unfold service_plan_rows, resolve_rows.
  destruct (ar_outcome auth).
  - apply settle_inv in Hstep as (p0 & t & Hrow & _ & txn & o & Hph & _ & _ & _ & _ & _ & _ & Hl & _); [|done..].
    rewrite Hl, Hrow. simpl. by rewrite locks_of_post by apply (ph_valid _ _ _ _ _ _ Hph).
  - unfold park_authorized in Hstep.
    destruct (payment_first_locks _ _ (fun _ => []) _ _ _ Hso Hstep) as (p0 & Hrow & Hl); [done| |].
    + intros p0. apply takes_lockless; [solve_lockless|done].
    + by rewrite Hl, Hrow.
  - apply reverse_inv in Hstep as (p0 & t & Hrow & _ & txn & o & Hph & _ & _ & _ & _ & _ & _ & Hl & _); [|done..].
    rewrite Hl, Hrow. simpl. by rewrite locks_of_post by apply (ph_valid _ _ _ _ _ _ Hph).
Qed.

Lemma refund_claimed_rows k i n s r s' :
  schema_ok (s_db s) -> refund_claimed k i n s = Ok (r, s') ->
  exists p0, payments (s_db s) !! i = Some p0 /\ s_locks s' = s_locks s ++ LockPayment i ::
    locks_of (if refund_allowedb p0 n then post_rows (refund_postings p0 n) else []).
Proof.
  intros Hso H. unfold refund_claimed in H.
  apply (payment_first_locks _ _ (fun p0 => if refund_allowedb p0 n then post_rows (refund_postings p0 n) else []))
    in H; [done|done|done|].
  intros p0. unfold refund_allowedb. destruct (refundable_status (p_status p0)); simpl; [|apply takes_throw].
  destruct (Z.ltb_spec (p_amount p0) (p_refunded_amount p0 + n)) as [Hlt|Hle]; [apply takes_throw|].
  rewrite (proj2 (Z.leb_le _ _) Hle). do 2 (apply takes_after; [apply _..|intros ?]). cbv zeta.
  do 3 (apply takes_after; [apply _..|intros ?]; cbv zeta).
  apply takes_posting_rows. intros ?. solve_lockless.
Qed.

Lemma refund_locks lock k i n s r s' :
  schema_ok (s_db s) -> s_pending s = [] -> refund lock k i n s = Ok (r, s') -> forall env,
  s_locks s' = s_locks s ++ locks_of (service_plan_rows (JRefund env lock k i n) (s_db s)).
Proof.
  intros Hso Hp H env. unfold refund in H. inv_bind_as H claim s1 Hclaim H1.
  pose proof (schema_ok_flushes _ _ _ _ Hclaim Hso) as Hso1.
  apply claim_or_replay_inv in Hclaim as [[_ Hp1 _ Hl1] Hrow]; [|done].
  unfold service_plan_rows.
  destruct (idempotency_keys (s_db s) !! (refund_merchant, k)) as [rw|].
  - destruct Hrow as ([code body] & _ & -> & _). destruct (model_validate body); msess.
    by rewrite Hl1, app_nil_r.
  - destruct Hrow as [-> [t [_ Hdb]%exec_op_Ok]].
    destruct (refund_claimed_rows _ _ _ _ _ _ Hso1 H1) as (p0 & Hpay & Hl).
    rewrite Hdb in Hpay. simpl in Hpay. rewrite Hl, Hl1, Hpay. done.
Qed.

(** The locks a transaction has taken when its program ends. *)
Definition service_locks (j : ServiceJob) (db : DB) : option (list row_lock) :=
  match j with
  | JCreate env lock i k rq =>
      match create_tx1 lock i k rq (begin_session env db) with Ok (_, s) => Some (s_locks s) | Err _ => None end
  | JResolve env i k m auth =>
      match create_tx2 i k m auth (begin_session env db) with Ok (_, s) => Some (s_locks s) | Err _ => None end
  | JRefund env lock k i n =>
      match refund lock k i n (begin_session env db) with Ok (_, s) => Some (s_locks s) | Err _ => None end
  end.

(** The rows a transaction locks.  Each transaction of a payment or refund that runs
    through has locked exactly the rows its plan asks for, in that order: its payment row,
    then the balance rows of its posting by ascending account id; a replayed key locks
    nothing.  The plan is what the interleavings go by. *)
Theorem plans_are_locked j db ls :
  schema_ok db -> service_locks j db = Some ls -> ls = locks_of (service_plan_rows j db).
Proof.
  intros Hso H. destruct j as [env lock i k rq|env i k m auth|env lock k i n]; unfold service_locks in H.
  - destruct (create_tx1 lock i k rq (begin_session env db)) as [[r s]|] eqn:Hrun; [|done].
    injection H as <-. exact (create_tx1_locks _ _ _ _ (begin_session env db) _ _ Hso eq_refl Hrun env).
  - destruct (create_tx2 i k m auth (begin_session env db)) as [[r s]|] eqn:Hrun; [|done].
    injection H as <-. exact (create_tx2_locks _ _ _ _ (begin_session env db) _ _ Hso eq_refl Hrun env).
  - destruct (refund lock k i n (begin_session env db)) as [[r s]|] eqn:Hrun; [|done].
    injection H as <-. exact (refund_locks _ _ _ _ (begin_session env db) _ _ Hso eq_refl Hrun env).
Qed.

(** ** Interleavings *)

(** A transaction that lost the race to insert a row that was not there at the start: its
    key, or the first balance row of an account. *)
Definition lost_insert (db : DB) (j : ServiceJob) (a : result exn ServiceAnswer) : Prop :=
  a = Err (DBAPIError UniqueViolation) /\
  ((exists key, idempotency_keys db !! key = None) \/ (exists b, account_balances db !! b = None)).

(** C5: requests are serializable.  Whatever the interleaving of the statements of any
    number of payments and refunds, on the same keys, payments and accounts, at every moment
    the tables are those that the transactions that have ended leave when run one after the
    other in some order, and each of these has the answer it has in that order.  The only
    transaction whose answer is not explained by the order is one that lost the race to
    insert its key or a first balance row; it leaves nothing. *)
Theorem services_serialize jobs db (c : ServiceConc) :
  schema_ok db -> rtc conc_step (start jobs db) c ->
  exists order rs,
    NoDup order /\
    run_jobs (omap (fun i => jobs !! i) order) db = (rs, c_db c) /\
    Forall2 (fun i a => exists j, c_jobs c !! i = Some (j, Finished a)) order rs /\
    (forall i j a, c_jobs c !! i = Some (j, Finished a) -> i ∈ order \/ lost_insert db j a).
Proof.
  intros Hso Hrun.
  destruct (interleaving_serializes jobs db c) as (order & rs & Hnd & Hrs & Hres & Hfin); [exact Hso|exact Hrun|].
  exists order, rs. repeat (split; [done|]). intros i j a Hi.
  destruct (Hfin i j a Hi) as [?|[Ha (s & r & _ & Hins & Hp)]]; [by left|right].
  split; [exact Ha|]. destruct r as [key|[p|b|o]]; try done; simpl in Hp; apply bool_decide_eq_false in Hp;
    apply eq_None_not_Some in Hp; eauto.
Qed.

(** Interleaved requests finish.  A transaction takes at most nine statements of the
    model (four rows, each looked at, waited for and locked, and its end), and none is stuck
    waiting for locks: as long as a transaction has not ended some transaction can go on,
    so that from every state a run leads to one in which all have ended. *)
Theorem services_always_finish jobs db (c : ServiceConc) :
  schema_ok db -> rtc conc_step (start jobs db) c ->
  (forall n, nsteps conc_step n (start jobs db) c -> (n <= 9 * List.length jobs)%nat) /\
  (forall i x, c_jobs c !! i = Some x -> ended x.2 = false -> exists c', conc_step c c') /\
  (exists c', rtc conc_step c c' /\ Forall (fun x => ended x.2 = true) (c_jobs c')).
Proof.
  intros Hso Hrun. change (good (Res := Row) db) in Hso.
  destruct (interleaving_finishes jobs db c Hso Hrun) as (Hn & Hgo & Hend).
  split; [|done]. intros n Hsteps. etrans; [by apply Hn|]. simpl. clear. induction jobs; simpl in *; lia.
Qed.

(** ** One request per key *)

(** A payment request that claimed [key]: its first transaction has committed the claim. *)
Definition claims (m k : string) (x : ServiceJob * Stage DB ServiceAnswer Row) : bool :=
  match x with
  | (JCreate _ _ _ k' rq, Finished (Ok (AnsCreate (inr _)))) => String.eqb m (cq_merchantId rq) && String.eqb k k'
  | _ => false
  end.

Lemma claims_inv m k x :
  claims m k x = true -> exists env lock i rq p, m = cq_merchantId rq /\
    x = (JCreate env lock i k rq, Finished (Ok (AnsCreate (inr p)))).
Proof.
  destruct x as [[env lock i k' rq| |] [| |[[[y|p]| |]|]]]; try done. simpl.
  intros [->%String.eqb_eq ->%String.eqb_eq]%andb_true_iff. by exists env, lock, i, rq, p.
Qed.

(** A claim finds the key free and leaves it taken. *)
Lemma claim_run env lock i k rq p db db' :
  schema_ok db -> run_service (JCreate env lock i k rq) db = (Ok (AnsCreate (inr p)), db') ->
  idempotency_keys db !! (cq_merchantId rq, k) = None /\
  row_present db' (KeyRow (cq_merchantId rq, k)) = true.
Proof.
  intros Hso (b & [= <-] & H)%answering_Ok.
  destruct (create_tx1_idem no_key _ _ _ _ _ _ _ _ Hso H) as [_ Hnew].
  destruct (Hnew p eq_refl) as (Hn & _ & _ & row & Hrow & _). split; [done|]. simpl in *. rewrite Hrow. done.
Qed.

(** C7: one request claims a key.  Of all payment requests with the same merchant and key,
    however their statements interleave, at most one has claimed the key and holds funds,
    and none if the key was used before: a retry that runs at the same time never pays
    twice. *)
Theorem one_claim_per_key jobs db (c : ServiceConc) m k :
  schema_ok db -> rtc conc_step (start jobs db) c ->
  (List.length (filter (fun x => claims m k x = true) (c_jobs c)) <=
   if decide (is_Some (idempotency_keys db !! (m, k))) then 0 else 1)%nat.
Proof.
  intros Hso Hrun. change (good (Res := Row) db) in Hso.
  etrans; [apply (one_inserter jobs db c (KeyRow (m, k)) (fun x => claims m k x = true) Hso Hrun)|].
  2:{ simpl. case_bool_decide; case_decide; tauto || lia. }
  intros x Hx. apply claims_inv in Hx as (env & lock & i & rq & p & -> & ->). do 2 eexists. split; [done|].
  intros s s' Hs Hr. apply claim_run in Hr as [Hn Hp]; [|exact Hs]. split; [|exact Hp].
  simpl. by rewrite Hn.
Qed.

(** ** Interleavings and the system *)

(** The request in flight a second transaction is of. *)
Definition resolve_of (j : ServiceJob) : option InFlight :=
  match j with JResolve _ i k m _ => Some (mkInFlight i m k) | _ => None end.

Lemma flights_after_submseteq i k rq r fls l : l ⊆+ fls -> l ⊆+ flights_after i k rq r fls.
Proof. intros H. destruct r as [[x|p]|e]; simpl; [done|by apply submseteq_cons|done]. Qed.

(** A transaction is a step of the system; [tl]: the requests in flight of later ones. *)
Lemma run_service_system j db a db' fls tl :
  run_service j db = (a, db') -> option_list (resolve_of j) ++ tl ⊆+ fls ->
  exists fls', system_step (mkWorld db fls) (mkWorld db' fls') /\ tl ⊆+ fls'.
Proof.
  intros Hj Hsub. destruct j as [env lock i k rq|env i k m auth|env lock k i n]; simpl in Hj, Hsub.
  - destruct (in_transaction env (create_tx1 lock i k rq) db) as [r d] eqn:Htx.
    assert (d = db') as -> by (by destruct r; injection Hj). eexists. split; [by eapply sys_create_tx1|].
    by apply flights_after_submseteq.
  - destruct (in_transaction env (create_tx2 i k m auth) db) as [r d] eqn:Htx.
    assert (d = db') as -> by (by destruct r; injection Hj).
    assert (Hin : mkInFlight i m k ∈ fls) by (eapply elem_of_submseteq; [|exact Hsub]; by left).
    apply list_elem_of_split in Hin as (f1 & f2 & ->).
    eexists. split; [by eapply (sys_create_tx2 env auth (mkInFlight i m k))|].
    rewrite <- (Permutation_middle f1 f2) in Hsub.
    by apply (submseteq_app_inv_l _ _ [mkInFlight i m k]).
  - destruct (in_transaction env (refund lock k i n) db) as [r d] eqn:Htx.
    assert (d = db') as -> by (by destruct r; injection Hj). eexists. split; [by eapply sys_refund|done].
Qed.

(** Transactions one after the other are steps of the system. *)
Lemma run_jobs_system js db rs db' fls :
  run_jobs js db = (rs, db') -> omap resolve_of js ⊆+ fls ->
  exists fls', rtc system_step (mkWorld db fls) (mkWorld db' fls').
Proof.
  revert db rs fls. induction js as [|j js IH]; intros db rs fls H Hsub; simpl in H.
  { injection H as _ <-. by exists fls. }
  destruct (run_service j db) as [a db1] eqn:Hj, (run_jobs js db1) as [rs1 db2] eqn:Hjs.
  injection H as _ <-. destruct (run_service_system _ _ _ _ fls (omap resolve_of js) Hj) as (fls1 & Hst & Hs1).
  { simpl in Hsub. by destruct (resolve_of j). }
  destruct (IH _ _ _ Hjs Hs1) as [fls' Hrun]. exists fls'. by eapply rtc_l.
Qed.

(** C6: interleavings are runs of the system.  From a good state, whatever the interleaving of
    the statements of any payments and refunds, where the second transactions are of
    requests in flight, the tables are those of a run of the system, transaction by
    transaction: what the theorems about [system_step] show holds of the requests as they
    run concurrently.  The state is good; no balance is negative and no money is made. *)
Theorem interleavings_are_system_runs jobs db fls (c : ServiceConc) :
  inv (mkWorld db fls) -> omap resolve_of jobs ⊆+ fls -> rtc conc_step (start jobs db) c ->
  exists fls', rtc system_step (mkWorld db fls) (mkWorld (c_db c) fls') /\ inv (mkWorld (c_db c) fls') /\
    (forall a b, account_balances (c_db c) !! a = Some b -> 0 <= ab_balance b <= int64_max) /\
    total_balance (c_db c) = total_balance db.
Proof.
  intros Hinv Hsub Hrun. pose proof (inv_schema _ Hinv) as Hso. change (good (Res := Row) db) in Hso.
  destruct (serial_run jobs db c Hso Hrun) as (order & rs & Hs).
  destruct (order_among _ _ _ _ _ Hs) as [rest Hrest].
  destruct (run_jobs_system _ _ _ _ fls (su_serial _ _ _ _ _ Hs)) as [fls' Hsys].
  { etrans; [|exact Hsub]. rewrite Hrest, omap_app. apply submseteq_inserts_r. reflexivity. }
  pose proof (system_inv _ _ Hinv Hsys) as Hinv'. exists fls'. split; [exact Hsys|]. split; [exact Hinv'|]. split.
  - intros a b Hb. apply (so_balance _ (inv_schema _ Hinv')) in Hb as (_ & H1 & H2 & _). lia.
  - refine (system_relation (fun d d' => total_balance d' = total_balance d) (mkWorld db fls)
      (mkWorld (c_db c) fls') _ _ Hinv Hsys).
    + split; [by intros d | by intros d1 d2 d3 -> ->].
    + intros d d' _. apply step_conserves.
Qed.

End theorems.

(** ** Witnesses: two requests with one key while a third is being resolved *)

#[local] Existing Instance binary_datetime.

Definition racing_key : Row := KeyRow ("merchant_1", "key-2").

Definition racer (env : Env) (i : uuid) : ServiceJob := JCreate env None i "key-2" (demo_request 500).

Definition resolver : ServiceJob :=
  JResolve (demo_env 5000) 9000 "key-1" "merchant_1" (mkAuthorizationResult CAPTURED (Some "psp_9") None).

Definition racing_jobs : list ServiceJob := [racer (demo_env 3000) 9100; racer (demo_env 4000) 9200; resolver].

(** Both have read that the key is free and go to insert it; the first has done so, the
    second waits for it. *)
Definition first_reads : ServiceConc :=
  goes (start racing_jobs held_db) 0 (racer (demo_env 3000) 9100) (Inserting [] racing_key) held_db.
Definition both_read : ServiceConc :=
  goes first_reads 1 (racer (demo_env 4000) 9200) (Inserting [] racing_key) held_db.
Definition racing : ServiceConc :=
  goes both_read 0 (racer (demo_env 3000) 9100) (Running [(racing_key, held_db)]) held_db.

Lemma racing_key_free : present held_db racing_key = false.
Proof. vm_compute. reflexivity. Qed.

Lemma racing_reached : rtc conc_step (start racing_jobs held_db) racing.
Proof.
  apply rtc_l with first_reads; [|apply rtc_l with both_read; [|apply rtc_once]].
  - exact (step_missing (start racing_jobs held_db) 0 (racer (demo_env 3000) 9100) [] racing_key
      eq_refl eq_refl racing_key_free eq_refl).
  - exact (step_missing first_reads 1 (racer (demo_env 4000) 9200) [] racing_key
      eq_refl eq_refl racing_key_free eq_refl).
  - apply (step_insert both_read 0 (racer (demo_env 3000) 9100) [] racing_key eq_refl racing_key_free).
    intros [|[|[|k]]] x Hk Hx; [done|..|done]; injection Hx as <-; apply not_elem_of_nil.
Qed.

Lemma held_inv : inv held_world.
Proof. exact (system_inv _ _ demo_inv held_run). Qed.

Lemma plans_are_locked_witness :
  [LockPayment 9000; LockBalance 101; LockBalance 202] =
  locks_of (service_plan_rows (JRefund (demo_env 1000) None "refund-1" 9000 500) paid_db).
Proof. apply plans_are_locked; [exact paid_schema_ok|vm_compute; reflexivity]. Defined.

Lemma services_serialize_witness :
  exists order rs,
    NoDup order /\
    run_jobs (omap (fun i => racing_jobs !! i) order) held_db = (rs, c_db racing) /\
    Forall2 (fun i a => exists j, c_jobs racing !! i = Some (j, Finished a)) order rs /\
    (forall i j a, c_jobs racing !! i = Some (j, Finished a) -> i ∈ order \/ lost_insert held_db j a).
Proof. exact (services_serialize racing_jobs held_db racing (inv_schema _ held_inv) racing_reached). Defined.

Lemma services_always_finish_witness :
  exists c : ServiceConc, rtc conc_step racing c /\ Forall (fun x => ended x.2 = true) (c_jobs c).
Proof.
  exact (proj2 (proj2 (services_always_finish racing_jobs held_db racing (inv_schema _ held_inv) racing_reached))).
Defined.

(** The two requests with one key, run to their ends. *)
Lemma one_claim_per_key_witness :
  exists c : ServiceConc, rtc conc_step racing c /\ Forall (fun x => ended x.2 = true) (c_jobs c) /\
    (List.length (filter (fun x => claims "merchant_1" "key-2" x = true) (c_jobs c)) <= 1)%nat.
Proof.
  pose proof (inv_schema _ held_inv) as Hso. change (good (Res := Row) held_db) in Hso.
  destruct (interleaving_finishes racing_jobs held_db racing Hso racing_reached) as (_ & _ & c & Hrun & Hend).
  exists c. split; [exact Hrun|]. split; [exact Hend|].
  pose proof (one_claim_per_key racing_jobs held_db c "merchant_1" "key-2" Hso
    (transitivity racing_reached Hrun)) as H.
  assert (Hnew : idempotency_keys held_db !! ("merchant_1"%string, "key-2"%string) = None)
    by (vm_compute; reflexivity).
  rewrite decide_False in H by (rewrite Hnew; by intros ?%is_Some_None). exact H.
Defined.

Lemma interleavings_are_system_runs_witness :
  exists c : ServiceConc, rtc conc_step racing c /\ Forall (fun x => ended x.2 = true) (c_jobs c) /\
    total_balance (c_db c) = 100000.
Proof.
  pose proof (inv_schema _ held_inv) as Hso. change (good (Res := Row) held_db) in Hso.
  destruct (interleaving_finishes racing_jobs held_db racing Hso racing_reached) as (_ & _ & c & Hrun & Hend).
  exists c. split; [exact Hrun|]. split; [exact Hend|].
  destruct (interleavings_are_system_runs racing_jobs held_db [held_flight] c held_inv)
    as (fls' & _ & _ & _ & ->); [reflexivity|by etrans; [exact racing_reached|]|].
  vm_compute. reflexivity.
Defined.
