(* ===== verification/HookTheorems.v ===== *)
(** * HookTheorems: what interleaved webhooks amount to

    The theorems about [HookJobs]: webhook deliveries interleaved statement by statement
    with each other, with payments in either transaction and with refunds, where no delivery
    looks for a reference that is about to be given.  The rows of the model are those the
    handler locks; every interleaving is explained by an order of its transactions,
    which is a run of [System.system_step]; it ends; and of all deliveries of an event one
    takes effect. *)

From S2P Require Import Prelude PyStd Domain Models Session Ledger Journal Fixtures Psp Idempotency Saga Locks Interleave Concurrency Schemas Payments PaymentTheorems Refunds Lifecycle LockOrder ServiceJobs Webhooks WebhookTheorems HookJobs System SystemTheorems ServiceTheorems.
From Stdlib Require Import String.

Abbreviation HookConc := (Conc DB HookJob HookAnswer HookRow).

(** ** The plan is what the handler locks *)

Definition hook_locks (rs : list HookRow) : list row_lock :=
  omap (fun r => match r with Base (LockedRow l) => Some l | _ => None end) rs.

Lemma hook_locks_base rs : hook_locks (map Base rs) = locks_of rs.
Proof. induction rs as [|[k|l] rs IH]; [done|exact IH|]. simpl. f_equal. exact IH. Qed.

(** The payment's row is asked for again by its transition. *)
Lemma acquisitions_again l ls :
  acquisitions (l :: l :: ls) = acquisitions (l :: ls).
Proof. unfold acquisitions. simpl. by rewrite decide_True by (by left). Qed.

Lemma acquisitions_distinct held ls :
  NoDup ls -> (forall l, l ∈ ls -> l ∉ held) -> acquired held ls = ls.
Proof.
  revert held. induction ls as [|l ls IH]; intros held Hnd Hh; [done|]. apply NoDup_cons in Hnd as [Hni Hnd].
  simpl. rewrite decide_False by (apply Hh; by left). f_equal. apply IH; [done|].
  intros l' Hl' [->|Hin]%elem_of_cons; [done|]. by apply (Hh l'); [right|].
Qed.

Lemma row_lt_irrefl r : ~ row_lt r r.
Proof. destruct (res_lt_strict (State := DB) (Res := Row)) as [Hirr _]. exact (Hirr r). Qed.

Lemma sorted_rows_NoDup rs : StronglySorted row_lt rs -> NoDup rs.
Proof.
  induction 1 as [|r rs Hs IH Hall]; constructor; [|done].
  intros Hin. rewrite Forall_forall in Hall. by apply (row_lt_irrefl r), Hall.
Qed.

Lemma locks_of_NoDup rs : NoDup rs -> NoDup (locks_of rs).
Proof.
  induction 1 as [|[k|l] rs Hni Hnd IH]; simpl; [constructor|done|]. constructor; [|done].
  intros Hin. apply Hni. unfold locks_of in Hin. apply list_elem_of_omap in Hin as ([k'|l'] & Hr & [= <-]). done.
Qed.

Lemma acquisitions_rows rs : StronglySorted row_lt rs -> acquisitions (locks_of rs) = locks_of rs.
Proof.
  intros Hs. apply acquisitions_distinct; [by apply locks_of_NoDup, sorted_rows_NoDup|].
  intros l _. apply not_elem_of_nil.
Qed.

(** A transition asks for its payment again, if at all, and for the rows of its posting. *)
Definition again (i : uuid) (ls : list row_lock) : Prop := ls = [] \/ ls = [LockPayment i].

Lemma transition_locks i a rows :
  again i a -> StronglySorted row_lt (LockedRow (LockPayment i) :: rows) ->
  acquisitions (LockPayment i :: a ++ locks_of rows) = locks_of (LockedRow (LockPayment i) :: rows).
Proof.
  intros [->| ->] Hs; [|change ([LockPayment i] ++ locks_of rows) with (LockPayment i :: locks_of rows);
                        rewrite acquisitions_again]; exact (acquisitions_rows _ Hs).
Qed.

Lemma phase_locks ops ty ref a b n ev ls s s' :
  phase_run ops ty ref (transfer a b n) ev ls s s' ->
  s_locks s' = s_locks s ++ ls ++ locks_of (post_rows (transfer a b n)).
Proof.
  intros (txn & o & Hph & _ & _ & _ & _ & _ & _ & Hl & _). rewrite Hl.
  by rewrite locks_of_post by apply (ph_valid _ _ _ _ _ _ Hph).
Qed.

Lemma transition_taken p ty r s u s' :
  schema_ok (s_db s) -> s_pending s = [] -> payments (s_db s) !! p_id p = Some p ->
  (if bool_decide (p_status p = AUTHORIZED) then
     is_capture ← lift (py_in_set ty capture_events);
     if (is_capture : bool) then settle (p_id p) r;; mret tt
     else
       is_fail ← lift (py_in_set ty fail_events);
       if (is_fail : bool) then reverse (p_id p);; mret tt else mret tt
   else mret tt) s = Ok (u, s') ->
  exists a, again (p_id p) a /\ s_locks s' = s_locks s ++ a ++ locks_of (transition_rows p ty).
Proof.
  intros Hso Hp Hrow H. assert (Hnone : s_locks s = s_locks s ++ [] ++ []) by (by rewrite app_nil_r).
  unfold transition_rows. destruct (bool_decide (p_status p = AUTHORIZED)); cbn [negb].
  2:{ msess. exists []. split; [by left|]. by destruct ty. }
  inv_bind_as H c s1 Hc H1. apply lift_Ok_inv in Hc as [Hc ->]. apply in_set_str in Hc as ->.
  destruct ty as [| | | |ty| |];
    try (inv_bind_as H1 f s2 Hf H2; apply lift_Ok_inv in Hf as [Hf ->]; apply in_set_str in Hf as ->;
         msess; exists []; split; [by left|done]).
  destruct (str_in ty capture_events).
  - inv_bind_as H1 q s2 Hset Hret. apply ret_Ok_inv in Hret as [_ ->].
    apply settle_inv in Hset as (p0 & t & Hp0 & _ & Hph); [|done..]. rewrite Hrow in Hp0. injection Hp0 as <-.
    exists [LockPayment (p_id p)]. split; [by right|]. exact (phase_locks _ _ _ _ _ _ _ _ _ _ Hph).
  - inv_bind_as H1 f s2 Hf H2. apply lift_Ok_inv in Hf as [Hf ->]. apply in_set_str in Hf as ->.
    destruct (str_in ty fail_events); [|msess; exists []; split; [by left|done]].
    inv_bind_as H2 q s3 Hrev Hret. apply ret_Ok_inv in Hret as [_ ->].
    apply reverse_inv in Hrev as (p0 & t & Hp0 & _ & Hph); [|done..]. rewrite Hrow in Hp0. injection Hp0 as <-.
    exists [LockPayment (p_id p)]. split; [by right|]. exact (phase_locks _ _ _ _ _ _ _ _ _ _ Hph).
Qed.

Lemma apply_event_locks ty ref s u s' :
  schema_ok (s_db s) -> s_pending s = [] -> apply_event ty ref s = Ok (u, s') ->
  exists ls, s_locks s' = s_locks s ++ ls /\ acquisitions ls = locks_of (event_rows (s_db s) ty ref).
Proof.
  intros Hso Hp H. unfold apply_event in H. destruct (py_truthy ref) eqn:Htr.
  2:{ msess. exists []. rewrite app_nil_r. split; [done|]. destruct ref as [| | | |r| |]; try done.
      simpl in Htr. unfold event_rows. by destruct (String.eqb r ""). }
  inv_bind_as H found s1 Hsel Hk. apply select_reference_exact in Hsel as (r & -> & -> & Hrows).
  pose proof (event_rows_sorted (s_db s) ty (JStr r)) as Hsorted.
  unfold event_rows, target in *. simpl in Htr. destruct (String.eqb r ""); [done|].
  destruct (payments_by_reference (s_db s) r) as [|p [|]] eqn:Hpr; [| |done].
  { subst found. msess. exists []. simpl. by rewrite app_nil_r. }
  subst found. destruct (by_reference_row (s_db s) r p Hso) as [Hrow _]; [rewrite Hpr; by left|].
  rewrite Hrow in *. apply transition_taken in Hk as (a & Ha & Hl); [|done..].
  exists (LockPayment (p_id p) :: a ++ locks_of (transition_rows p ty)). split.
  - rewrite Hl. simpl. by rewrite <- app_assoc.
  - by apply transition_locks.
Qed.

(** The rows a delivery locks.  A delivery that runs through has locked exactly the rows its
    plan asks for, in that order (counting the first request for each row): the payment
    with the reference, then the balance rows of its transition by ascending account id; a
    delivery of a recorded event locks nothing. *)
Theorem deliveries_are_locked {RES : Resolutions} env st ce jl raw sig fits db u s' :
  schema_ok db -> handle st ce jl raw sig (begin_session env db) = Ok (u, s') ->
  acquisitions (s_locks s') = hook_locks (hook_plan_rows (HHandle env st ce jl raw sig fits) db).
Proof.
  intros Hso Hrun. cbn [hook_plan_rows]. unfold handle in Hrun. unfold delivered_event.
  destruct (String.eqb sig ""); [done|].
  inv_bind_as Hrun v s1 Hv Hk. apply lift_Ok_inv in Hv as [-> ->].
  destruct v; [|done]. cbn [negb] in Hk. destruct (jl raw) as [data|]; [|done].
  inv_bind_as Hk draw s2 Hu Hk1. rewrite uuid4_eq in Hu. injection Hu as <- <-.
  inv_bind_as Hk1 ev s2 Hev Hk2. apply lift_Ok_inv in Hev as [Hev ->]. simpl in Hev. rewrite Hev.
  unfold handle_event in Hk2. inv_bind_as Hk2 seen s3 Hsel Hk3. unfold select_webhook_event in Hsel.
  destruct (ev_id ev) as [| | | |e| |]; msess; simpl in *; try done.
  destruct (webhook_events db !! e) as [w|]; [by msess|].
  inv_bind_as Hk3 t s4 Hn Hk4. rewrite now_eq in Hn. injection Hn as <- <-.
  inv_bind_as Hk4 u1 s4 Ha Hk5. rewrite session_add_eq in Ha. injection Ha as _ <-.
  inv_bind_as Hk5 u2 s4 Hfl Hk6. apply flush_Ok_inv in Hfl as (db1 & Hex & ->). simpl in Hex.
  apply result_bind_Ok_inv in Hex as (d & Hop & [= ->]). pose proof (exec_op_schema_ok _ _ _ Hso Hop) as Hso1.
  apply apply_event_locks in Hk6 as (ls & Hl & Hacq); [|done..]. simpl in Hl. rewrite Hl, Hacq.
  rewrite hook_locks_base. by apply exec_op_Ok in Hop as [_ ->].
Qed.

Section theorems.
  Context {DT : DatetimeText} {RES : Resolutions}.

(** ** Interleavings *)

(** A transaction that lost the race to insert a row that was not there at the start: its
    key, the first balance row of an account, or its event. *)
Definition lost_hook (db : DB) (a : result exn HookAnswer) : Prop :=
  a = Err (DBAPIError UniqueViolation) /\
  ((exists key, idempotency_keys db !! key = None) \/ (exists b, account_balances db !! b = None) \/
   (exists e, webhook_events db !! e = None)).

(** The request in flight a second transaction is of. *)
Definition hook_resolve_of (j : HookJob) : option InFlight :=
  match j with HService j _ => resolve_of j | HHandle _ _ _ _ _ _ _ => None end.

(** Jobs one after the other are steps of the system. *)
Lemma run_hook_system j db a db' fls tl :
  run_hook j db = (a, db') -> option_list (hook_resolve_of j) ++ tl ⊆+ fls ->
  exists fls', system_step (mkWorld db fls) (mkWorld db' fls') /\ tl ⊆+ fls'.
Proof.
  destruct j as [j fits|env st ce jl raw sig fits]; simpl; intros Hj Hsub.
  - destruct (run_service j db) as [x d] eqn:Hrun. assert (d = db') as -> by (by destruct x; injection Hj).
    by eapply run_service_system.
  - destruct (in_transaction env (handle st ce jl raw sig) db) as [x d] eqn:Htx.
    assert (d = db') as -> by (by destruct x; injection Hj). eexists. split; [by eapply sys_webhook|done].
Qed.

Lemma run_hooks_system (js : list HookJob) db rs db' fls :
  run_jobs js db = (rs, db') -> omap hook_resolve_of js ⊆+ fls ->
  exists fls', rtc system_step (mkWorld db fls) (mkWorld db' fls').
Proof.
  revert db rs fls. induction js as [|j js IH]; intros db rs fls H Hsub; simpl in H.
  { injection H as _ <-. by exists fls. }
  destruct (run_hook j db) as [a db1] eqn:Hj, (run_jobs js db1) as [rs1 db2] eqn:Hjs.
  injection H as _ <-. destruct (run_hook_system _ _ _ _ fls (omap hook_resolve_of js) Hj) as (fls1 & Hst & Hs1).
  { simpl in Hsub. by destruct (hook_resolve_of j). }
  destruct (IH _ _ _ Hjs Hs1) as [fls' Hrun]. exists fls'. by eapply rtc_l.
Qed.

(** C8: webhooks are serializable.  Whatever the interleaving of the statements of any number
    of webhook deliveries, payments, in either transaction, and refunds, of the same events
    and payments, where no delivery looks for a reference that one of the second transactions
    may give its payment: at every moment the tables are those that the transactions that
    have ended leave when run one after the other in some order, and each of these has the
    answer it has in that order, so that what is proved of [system_step] holds of them; the
    only others are those that lost the race to insert their key, event or first balance
    row.  A transaction takes at most nine statements of the model, and none is stuck. *)
Theorem webhooks_serialize jobs db (c : HookConc) fls :
  hook_good db -> omap hook_resolve_of jobs ⊆+ fls -> rtc conc_step (start jobs db) c ->
  (exists order rs,
    NoDup order /\
    run_jobs (omap (fun i => jobs !! i) order) db = (rs, c_db c) /\
    Forall2 (fun i a => exists j, c_jobs c !! i = Some (j, Finished a)) order rs /\
    (forall i j a, c_jobs c !! i = Some (j, Finished a) -> i ∈ order \/ lost_hook db a)) /\
  (exists fls', rtc system_step (mkWorld db fls) (mkWorld (c_db c) fls')) /\
  (forall n, nsteps conc_step n (start jobs db) c -> (n <= 9 * List.length jobs)%nat) /\
  (exists c', rtc conc_step c c' /\ Forall (fun x => ended x.2 = true) (c_jobs c')).
Proof.
  intros Hso Hsub Hrun. change (good (Res := HookRow) db) in Hso.
  destruct (interleaving_serializes jobs db c Hso Hrun) as (order & rs & Hnd & Hrs & Hres & Hfin).
  destruct (interleaving_finishes jobs db c Hso Hrun) as (Hn & _ & Hend). split; [|split; [|split; [|exact Hend]]].
  - exists order, rs. repeat (split; [done|]). intros i j a Hi.
    destruct (Hfin i j a Hi) as [?|[Ha (s & r & _ & Hins & Hp)]]; [by left|right]. split; [exact Ha|].
    destruct r as [e|[key|[p|b|o]]]; try done; simpl in Hp; apply bool_decide_eq_false in Hp;
      apply eq_None_not_Some in Hp; eauto.
  - destruct (serial_run jobs db c Hso Hrun) as (order' & rs' & Hs).
    destruct (order_among _ _ _ _ _ Hs) as [rest Hrest].
    eapply run_hooks_system; [exact (su_serial _ _ _ _ _ Hs)|]. etrans; [|exact Hsub].
    rewrite Hrest, omap_app. by apply submseteq_inserts_r.
  - intros n Hsteps. etrans; [by apply Hn|]. simpl. clear. induction jobs; simpl in *; lia.
Qed.

(** ** One delivery per event *)

(** A delivery that was the first of the event. *)
Definition takes_effect (e : string) (x : HookJob * Stage DB HookAnswer HookRow) : bool :=
  match x with
  | (j, Finished (Ok (AnsHandled true))) => bool_decide (event_key j = Some e)
  | _ => false
  end.

(** It found the event missing and leaves it recorded. *)
Lemma first_delivery e j db db' :
  schema_ok db -> event_key j = Some e -> run_hook j db = (Ok (AnsHandled true), db') ->
  present db (EventRow e) = false /\ present db' (EventRow e) = true.
Proof.
  intros Hso He Hrun. destruct j as [j Hj|env st ce jl raw sig Hfit]; [done|].
  cbn [run_hook] in Hrun. apply answering_with_Ok in Hrun as (u & [= Hnew] & Htx).
  unfold is_new_event in Hnew. rewrite He in Hnew. simpl in He.
  apply handle_delivered in Htx as (ev & Hev & Heff); [|done]. rewrite Hev in He. unfold webhook_effect in Heff.
  destruct (ev_id ev) as [| | | |e'| |]; try done. injection He as ->.
  destruct (webhook_events db !! e) as [w|] eqn:Hw; [done|]. simpl. rewrite Hw. split; [done|].
  destruct Heff as (t & db1 & Hop & Hact). pose proof (exec_op_schema_ok _ _ _ Hso Hop) as Hso1.
  apply exec_op_Ok in Hop as [_ Hdb1].
  apply (action_references db _ _ db1 db') in Hact as [-> _]; [|done|by rewrite Hdb1]. rewrite Hdb1. simpl. by rewrite lookup_insert_eq.
Qed.

(** C9: one delivery per event.  Of all deliveries of an event, however their statements
    interleave with each other and with payments and refunds (under the same condition on
    references), at most one takes effect, and none when the event was recorded before: a
    provider that sends an event twice at the same time never moves the money twice. *)
Theorem one_delivery_per_event jobs db (c : HookConc) e :
  hook_good db -> rtc conc_step (start jobs db) c ->
  (List.length (filter (fun x => takes_effect e x = true) (c_jobs c)) <=
   if decide (is_Some (webhook_events db !! e)) then 0 else 1)%nat.
Proof.
  intros Hso Hrun. change (good (Res := HookRow) db) in Hso.
  etrans; [apply (one_inserter jobs db c (EventRow e) (fun x => takes_effect e x = true) Hso Hrun)|].
  2:{ simpl. case_bool_decide; case_decide; tauto || lia. }
  intros [j [| |[[a|[]]|]]]; try done. simpl. intros He%bool_decide_eq_true. exists j, (AnsHandled true).
  split; [done|]. intros s s' [Hs _] Hr. by apply (first_delivery e j).
Qed.

End theorems.

(** ** Witnesses: an event delivered twice at the same time, a second transaction, a refund *)

#[local] Existing Instance binary_datetime.

#[local] Instance demo_resolutions : Resolutions := {
  resolving i := N.eqb i 9003;
  assigned r := String.eqb r "psp_9";
}.

(** A hold with its reference, a payment whose provider has just answered, a settled one. *)
Definition busy_db : DB :=
  demo_with paid_balances
    {[ 9000%N := paid_payment; 9001%N := old_hold;
       9003%N := mkPayment 9003 "merchant_1" wallet merchant 300 "INR" PROCESSING None 0 0 0 0 ]}.

Lemma busy_good : hook_good busy_db.
Proof.
  split; [apply demo_with_schema_ok; vm_compute; reflexivity|]. intros i r Hi%N.eqb_eq. subst i.
  intros H. discriminate H.
Qed.

Abbreviation capture_loads := (demo_loads (demo_payload "payment.captured" "psp_2")).

Lemma capture_fits base :
  event_fits (demo_env base) default_settings no_construct capture_loads demo_raw (demo_signature demo_raw) = true.
Proof. vm_compute. reflexivity. Qed.

Definition capture_delivery (base : N) : HookJob :=
  HHandle (demo_env base) default_settings no_construct capture_loads demo_raw (demo_signature demo_raw)
    (capture_fits base).

Definition busy_resolver : HookJob :=
  HService (JResolve (demo_env 5000) 9003 "key-1" "merchant_1" (mkAuthorizationResult CAPTURED (Some "psp_9"%string) None))
    eq_refl.
Definition other_refund : HookJob := HService (JRefund (demo_env 3000) None "refund-1" 9000 500) eq_refl.

Definition twice_jobs : list HookJob := [capture_delivery 50; capture_delivery 60; busy_resolver; other_refund].

(** Both deliveries have looked for the event and go to insert it; the first has done so. *)
Definition first_looked : HookConc :=
  goes (start twice_jobs busy_db) 0 (capture_delivery 50) (Inserting [] (EventRow "evt_1")) busy_db.
Definition both_looked : HookConc :=
  goes first_looked 1 (capture_delivery 60) (Inserting [] (EventRow "evt_1")) busy_db.
Definition twice : HookConc :=
  goes both_looked 0 (capture_delivery 50) (Running [(EventRow "evt_1", busy_db)]) busy_db.

Lemma new_event_free : present busy_db (EventRow "evt_1") = false.
Proof. vm_compute. reflexivity. Qed.

Lemma capture_delivery_first base :
  hook_plan_rows (capture_delivery base) busy_db !! 0%nat = Some (EventRow "evt_1").
Proof. vm_compute. reflexivity. Qed.

Lemma twice_reached : rtc conc_step (start twice_jobs busy_db) twice.
Proof.
  apply rtc_l with first_looked; [|apply rtc_l with both_looked; [|apply rtc_once]].
  - apply step_missing; [reflexivity|exact (capture_delivery_first 50)|exact new_event_free|reflexivity].
  - apply step_missing; [reflexivity|exact (capture_delivery_first 60)|exact new_event_free|reflexivity].
  - apply (step_insert both_looked 0 (capture_delivery 50) [] (EventRow "evt_1") eq_refl new_event_free).
    intros [|[|[|[|k]]]] x Hk Hx; [done|..|done]; injection Hx as <-; apply not_elem_of_nil.
Qed.

Lemma deliveries_are_locked_witness :
  match handle default_settings no_construct capture_loads demo_raw (demo_signature demo_raw)
          (begin_session (demo_env 50) busy_db) with
  | Ok (_, s) => acquisitions (s_locks s) = [LockPayment 9001; LockBalance 1; LockBalance 202]
  | Err _ => False
  end.
Proof.
  destruct (handle default_settings no_construct capture_loads demo_raw (demo_signature demo_raw)
              (begin_session (demo_env 50) busy_db)) as [[u s]|e] eqn:Hrun.
  - etrans; [exact (deliveries_are_locked _ _ _ _ _ _ (capture_fits 50) _ u s (proj1 busy_good) Hrun)|].
    vm_compute. reflexivity.
  - assert (Hok : is_ok (handle default_settings no_construct capture_loads demo_raw (demo_signature demo_raw)
      (begin_session (demo_env 50) busy_db)) = true) by (vm_compute; reflexivity).
    rewrite Hrun in Hok. discriminate Hok.
Defined.

Lemma webhooks_serialize_witness :
  (exists order rs,
    NoDup order /\ run_jobs (omap (fun i => twice_jobs !! i) order) busy_db = (rs, c_db twice)) /\
  (exists fls', rtc system_step (mkWorld busy_db [mkInFlight 9003 "merchant_1" "key-1"]) (mkWorld (c_db twice) fls')).
Proof.
  destruct (webhooks_serialize twice_jobs busy_db twice [mkInFlight 9003 "merchant_1" "key-1"] busy_good
    (reflexivity _) twice_reached) as ((order & rs & Hnd & Hrs & _) & Hsys & _).
  split; [exists order, rs; exact (conj Hnd Hrs)|exact Hsys].
Defined.

(** The two deliveries, run to their ends. *)
Lemma one_delivery_per_event_witness :
  exists c : HookConc, rtc conc_step twice c /\ Forall (fun x => ended x.2 = true) (c_jobs c) /\
    (List.length (filter (fun x => takes_effect "evt_1" x = true) (c_jobs c)) <= 1)%nat.
Proof.
  pose proof busy_good as Hso. change (good (Res := HookRow) busy_db) in Hso.
  destruct (interleaving_finishes twice_jobs busy_db twice Hso twice_reached) as (_ & _ & c & Hrun & Hend).
  exists c. split; [exact Hrun|]. split; [exact Hend|].
  pose proof (one_delivery_per_event twice_jobs busy_db c "evt_1" Hso (transitivity twice_reached Hrun)) as H.
  assert (Hnew : webhook_events busy_db !! "evt_1"%string = None) by (vm_compute; reflexivity).
  rewrite decide_False in H by (rewrite Hnew; by intros ?%is_Some_None). exact H.
Defined.
