(* ===== verification/Api.v ===== *)
(** * Api: [app/api/*.py] and the handlers of [app/main.py]

    One definition per endpoint: what it answers (status code and JSON body) and the tables
    it leaves.  A request arrives as FastAPI's parameter parsing leaves it: an absent header
    or a body without the fields of the model is [None]; the constraints of the models are
    checked here.  What the framework answers to an exception no handler is registered for,
    and the [details] of a validation error, are parameters. *)

From S2P Require Import Prelude PyStd Domain Models Session Ledger Journal Psp Idempotency Saga Schemas Payments Refunds Lifecycle Webhooks Reconciliation.
From Stdlib Require Import String.

(** ** Responses *)

Record Response := mkResponse { rs_status : Z; rs_body : json }.

(** [domain_exception_handler]: only domain exceptions carry a status code. *)
Definition domain_exception_handler (exc : exn) : option Response :=
  match status_code exc with
  | Some c => Some (mkResponse c (JObj [("error", JStr (exn_message exc));
                                        ("type", JStr (exn_class_name exc))]))
  | None => None
  end.

(** [validation_exception_handler]; [errors] is [exc.errors()]. *)
Definition validation_exception_handler (errors : json) : Response :=
  mkResponse 422 (JObj [("error", JStr "Request validation failed"); ("details", errors)]).

(** What FastAPI and Starlette decide. *)
Record Framework := mkFramework {
  fw_server_error : Response;
  fw_validation_errors : json;
}.

(** The response to what an endpoint returned or raised. *)
Definition respond {A : Type} (fw : Framework) (ok : A -> Response) (r : result exn A) : Response :=
  match r with
  | Ok a => ok a
  | Err e => from_option id (fw_server_error fw) (domain_exception_handler e)
  end.

(** A session that is closed without a commit: what it read is returned, nothing is kept. *)
Definition in_session {A : Type} (env : Env) (m : M A) (db : DB) : result exn A :=
  match m (begin_session env db) with Ok (a, _) => Ok a | Err e => Err e end.

(** ** Accounts: [app/api/accounts.py] *)

(** The row of the join of [account_balances] with [accounts]. *)
Definition balance_with_currency (account_id : uuid) (db : DB) : option (AccountBalance * string) :=
  match account_balances db !! account_id, accounts db !! account_id with
  | Some b, Some a => Some (b, acc_currency a)
  | _, _ => None
  end.

Definition get_balance (account_id : uuid) : M BalanceResponse :=
  statement;;
  row ← gets (fun s => balance_with_currency account_id (s_db s));
  match row with
  | None =>
      statement;;
      acc ← gets (fun s => accounts (s_db s) !! account_id);
      match acc with
      | None => mthrow (AccountNotFoundException account_id)
      | Some acc => mret (mkBalanceResponse account_id 0 (acc_currency acc) (acc_created_at acc))
      end
  | Some (balance_obj, currency) =>
      mret (mkBalanceResponse (ab_account_id balance_obj) (ab_balance balance_obj) currency
              (ab_updated_at balance_obj))
  end.

Definition newer_first (a b : LedgerEntry) : Prop := le_created_at b <= le_created_at a.
#[global] Instance newer_first_dec : RelDecision newer_first.
Proof. intros a b. unfold newer_first. apply _. Defined.

Definition entry_response (e : LedgerEntry) : LedgerEntryResponse :=
  mkLedgerEntryResponse (le_id e) (le_transaction_id e) (le_direction e) (le_amount e)
    (le_created_at e).

Section ledger_page.
  Variable row_order : list LedgerEntry -> list LedgerEntry.

(** ORDER BY created_at DESC LIMIT limit *)
Definition newest_entries (account_id : uuid) (limit : Z) (db : DB) : list LedgerEntry :=
  take (Z.to_nat limit) (merge_sort newer_first
    (row_order (filter (fun e => le_account_id e = account_id) (ledger_entries db)))).

Definition get_ledger_postings (account_id : uuid) (limit : Z) : M LedgerPageResponse :=
  statement;;
  entries ← gets (fun s => newest_entries account_id limit (s_db s));
  mret (mkLedgerPageResponse account_id (map entry_response entries)).

End ledger_page.

(** [Query(50, ge=1, le=100)] *)
Definition ledger_limit (limit : option Z) : option Z :=
  let l := from_option id 50 limit in
  if (1 <=? l) && (l <=? 100) then Some l else None.

(** ** Response bodies *)

Definition direction_value (d : Direction) : string :=
  match d with DEBIT => "DEBIT" | CREDIT => "CREDIT" end.

Section bodies.
  Context {DT : DatetimeText}.

Definition balance_response_dump (r : BalanceResponse) : dict :=
  [("accountId", JStr (uuid_str (br_accountId r))); ("balance", JInt (br_balance r));
   ("currency", JStr (br_currency r)); ("updatedAt", JStr (isoformat (br_updatedAt r)))].

Definition ledger_entry_dump (r : LedgerEntryResponse) : dict :=
  [("id", JInt (ler_id r)); ("transactionId", JStr (uuid_str (ler_transactionId r)));
   ("direction", JStr (direction_value (ler_direction r))); ("amount", JInt (ler_amount r));
   ("createdAt", JStr (isoformat (ler_createdAt r)))].

Definition ledger_page_dump (r : LedgerPageResponse) : dict :=
  [("accountId", JStr (uuid_str (lpr_accountId r)));
   ("entries", JList (map (fun e => JObj (ledger_entry_dump e)) (lpr_entries r)))].

End bodies.

Definition integrity_dump (r : IntegrityResponse) : dict :=
  [("balanced", JBool (ig_balanced r)); ("ledgerNet", JInt (ig_ledgerNet r));
   ("driftedAccountsCount", JInt (ig_driftedAccountsCount r))].

Definition ok_response (fields : dict) : Response := mkResponse 200 (JObj fields).

(** ** Endpoints *)

(** [stripe_signature or x_psp_signature or ""] *)
Definition webhook_signature (stripe_signature x_psp_signature : option string) : string :=
  str_or stripe_signature (str_or x_psp_signature "").

(** [health] *)
Definition health (st : Settings) : Response :=
  ok_response [("status", JStr "UP"); ("service", JStr (APP_NAME st))].

(** Everything the dependencies of the endpoints provide.  The Stripe SDK compares the time in
    the header with the current time: its verdict depends on when it is asked. *)
Record App (P : Type) := mkApp {
  app_settings : Settings;
  app_psp : P;
  app_lock : option RedisSet;
  app_construct_event : Z -> string -> string -> string -> Z -> bool;
  app_json_loads : string -> option json;
  app_framework : Framework;
}.
Arguments mkApp {P}.
Arguments app_settings {P}.
Arguments app_psp {P}.
Arguments app_lock {P}.
Arguments app_construct_event {P}.
Arguments app_json_loads {P}.
Arguments app_framework {P}.

Section endpoints.
  Context {DT : DatetimeText} {P : Type} `{PaymentProvider P}.
  Variable app : App P.

Definition invalid_request : Response :=
  validation_exception_handler (fw_validation_errors (app_framework app)).

(** [POST /v1/payments] *)
Definition create_payment (env1 env2 : Env) (payment_id draw : uuid)
    (idempotency_key : option string) (request : option CreatePaymentRequest) (db : DB)
  : Response * DB :=
  match idempotency_key, request with
  | Some k, Some rq =>
      if CreatePaymentRequest_valid rq then
        let '(r, db') := create (app_psp app) (app_lock app) env1 env2 payment_id draw k rq db in
        (respond (app_framework app)
           (fun '(code, payment_res) => mkResponse code (JObj (model_dump payment_res))) r, db')
      else (invalid_request, db)
  | _, _ => (invalid_request, db)
  end.

(** [GET /v1/payments/{payment_id}] *)
Definition get_payment_details (env : Env) (payment_id : uuid) (db : DB) : Response :=
  respond (app_framework app) (fun p => ok_response (model_dump p))
    (in_session env (get_payment payment_id) db).

(** [POST /v1/payments/{payment_id}/refunds] *)
Definition process_refund (env : Env) (payment_id : uuid) (idempotency_key : option string)
    (request : option RefundRequest) (db : DB) : Response * DB :=
  match idempotency_key, request with
  | Some k, Some rq =>
      if RefundRequest_valid rq then
        let '(r, db') := in_transaction env (refund (app_lock app) k payment_id (rq_amount rq)) db in
        (respond (app_framework app)
           (fun '(code, refund_res) => mkResponse code (JObj (model_dump refund_res))) r, db')
      else (invalid_request, db)
  | _, _ => (invalid_request, db)
  end.

(** [POST /v1/webhooks/psp] and [/stripe]; a body that is not UTF-8 is [None]. *)
Definition handle_webhook (env : Env) (raw_body : option string)
    (x_psp_signature stripe_signature : option string) (db : DB) : Response * DB :=
  match raw_body with
  | None => (fw_server_error (app_framework app), db)
  | Some raw =>
      let signature := webhook_signature stripe_signature x_psp_signature in
      let '(r, db') := in_transaction env
        (handle (app_settings app) (app_construct_event app (now_at env 0)) (app_json_loads app)
           raw signature) db in
      (respond (app_framework app) (fun _ => ok_response [("status", JStr "ok")]) r, db')
  end.

(** [GET /v1/accounts/{account_id}/balance] *)
Definition account_balance (env : Env) (account_id : uuid) (db : DB) : Response :=
  respond (app_framework app) (fun b => ok_response (balance_response_dump b))
    (in_session env (get_balance account_id) db).

(** [GET /v1/accounts/{account_id}/ledger] *)
Definition account_ledger (env : Env) (row_order : list LedgerEntry -> list LedgerEntry)
    (account_id : uuid) (limit : option Z) (db : DB) : Response :=
  match ledger_limit limit with
  | None => invalid_request
  | Some l => respond (app_framework app) (fun page => ok_response (ledger_page_dump page))
                (in_session env (get_ledger_postings row_order account_id l) db)
  end.

(** [GET /v1/reconciliation/report] *)
Definition get_integrity_report (env : Env) (db : DB) : Response :=
  respond (app_framework app) (fun rep => ok_response (integrity_dump rep))
    (in_session env audit_integrity db).

(** ** The application: the routes mounted in [app/main.py] *)

Inductive Request :=
| PostPayment (env1 env2 : Env) (payment_id draw : uuid) (idempotency_key : option string)
    (request : option CreatePaymentRequest)
| GetPayment (env : Env) (payment_id : uuid)
| PostRefund (env : Env) (payment_id : uuid) (idempotency_key : option string)
    (request : option RefundRequest)
| PostWebhook (env : Env) (raw_body x_psp_signature stripe_signature : option string)
| GetBalance (env : Env) (account_id : uuid)
| GetLedger (env : Env) (row_order : list LedgerEntry -> list LedgerEntry) (account_id : uuid)
    (limit : option Z)
| GetReport (env : Env)
| GetHealth.

Definition serve (rq : Request) (db : DB) : Response * DB :=
  match rq with
  | PostPayment env1 env2 i draw k body => create_payment env1 env2 i draw k body db
  | GetPayment env i => (get_payment_details env i db, db)
  | PostRefund env i k body => process_refund env i k body db
  | PostWebhook env raw x s => handle_webhook env raw x s db
  | GetBalance env a => (account_balance env a db, db)
  | GetLedger env order a l => (account_ledger env order a l db, db)
  | GetReport env => (get_integrity_report env db, db)
  | GetHealth => (health (app_settings app), db)
  end.

(** Requests one after the other, with their responses. *)
Fixpoint serve_all (rqs : list Request) (db : DB) : list Response * DB :=
  match rqs with
  | [] => ([], db)
  | rq :: rqs' =>
      let '(resp, db1) := serve rq db in
      let '(resps, db2) := serve_all rqs' db1 in
      (resp :: resps, db2)
  end.

End endpoints.
