(* ===== verification/ApiTheorems.v ===== *)
(** * ApiTheorems: what the HTTP interface answers

    The endpoints composed with the services: every request is a run of the system, what is
    refused changes nothing, and what the payment, balance and ledger endpoints answer. *)

From S2P Require Import Prelude PyStd Domain Models Session Ledger Journal Fixtures Psp Idempotency Saga Schemas Payments PaymentTheorems Refunds Lifecycle Webhooks Reconciliation ReconciliationTheorems OutboxRelay System SystemTheorems Api.
From Stdlib Require Import String.

Section api.
  Context {DT : DatetimeText} {P : Type} `{PaymentProvider P}.
  Variable app : App P.

(** ** Requests are runs of the system *)

Lemma serve_runs rq db fls resp db' :
  serve app rq db = (resp, db') ->
  exists fls', rtc system_step (mkWorld db fls) (mkWorld db' fls').
Proof.
  intros Hs. destruct rq as [env1 env2 i draw k body|env i|env i k body|env raw x sg|env a|env ro a l|env|];
    simpl in Hs; try (injection Hs as _ <-; by exists fls).
  - unfold create_payment in Hs. destruct k as [k|], body as [rq|];
      try (injection Hs as _ <-; by exists fls).
    destruct (CreatePaymentRequest_valid rq); [|injection Hs as _ <-; by exists fls].
    destruct (create _ _ _ _ _ _ _ _ _) as [r db1] eqn:Hc. injection Hs as _ <-.
    destruct (create_runs _ _ _ _ _ _ _ _ _ fls _ _ Hc) as (fls' & Hrun & _). by exists fls'.
  - unfold process_refund in Hs. destruct k as [k|], body as [rq|];
      try (injection Hs as _ <-; by exists fls).
    destruct (RefundRequest_valid rq); [|injection Hs as _ <-; by exists fls].
    destruct (in_transaction _ _ _) as [r db1] eqn:Htx. injection Hs as _ <-.
    exists fls. by eapply rtc_once, sys_refund.
  - unfold handle_webhook in Hs. destruct raw as [raw|]; [|injection Hs as _ <-; by exists fls].
    destruct (in_transaction _ _ _) as [r db1] eqn:Htx. injection Hs as _ <-.
    exists fls. by eapply rtc_once, sys_webhook.
Qed.

Lemma serve_all_runs rqs db fls resps db' :
  serve_all app rqs db = (resps, db') ->
  exists fls', rtc system_step (mkWorld db fls) (mkWorld db' fls').
Proof.
  revert db fls resps. induction rqs as [|rq rqs IH]; intros db fls resps Hs; simpl in Hs.
  { injection Hs as _ <-. by exists fls. }
  destruct (serve app rq db) as [resp db1] eqn:H1.
  destruct (serve_all app rqs db1) as [resps' db2] eqn:H2. injection Hs as _ <-.
  destruct (serve_runs _ _ fls _ _ H1) as (fls1 & R1).
  destruct (IH db1 fls1 resps' H2) as (fls2 & R2). exists fls2. by etrans.
Qed.

(** C15: the interface is safe.  Any sequence of HTTP requests, valid or not, with any failures
    of the database and the provider, is a run of the system: from a good state it leads to
    a good state, and the total of all balances is what it was. *)
Theorem api_requests_are_system_runs rqs db fls resps db' :
  inv (mkWorld db fls) -> serve_all app rqs db = (resps, db') ->
  exists fls', rtc system_step (mkWorld db fls) (mkWorld db' fls') /\ inv (mkWorld db' fls') /\
    total_balance db' = total_balance db /\ List.length resps = List.length rqs.
Proof.
  intros Hinv Hs. destruct (serve_all_runs _ _ fls _ _ Hs) as (fls' & Hrun). exists fls'.
  split; [done|]. split; [by eapply system_inv|]. split.
  - apply (system_relation (fun d d' => total_balance d' = total_balance d)
      (mkWorld db fls) (mkWorld db' fls')); [| |exact Hinv|exact Hrun].
    + split; [by intros d | by intros d1 d2 d3 -> ->].
    + intros d d' _. apply step_conserves.
  - clear Hinv Hrun fls'. revert db resps Hs. induction rqs as [|rq rqs IH]; intros db resps Hs; simpl in Hs.
    { by injection Hs as <- _. }
    destruct (serve app rq db) as [resp db1]. destruct (serve_all app rqs db1) as [resps' db2] eqn:H2.
    injection Hs as <- <-. simpl. f_equal. by eapply IH.
Qed.

(** ** What is refused changes nothing *)

Lemma respond_error e resp :
  from_option id (fw_server_error (app_framework app)) (domain_exception_handler e) = resp ->
  domain_exception_handler e = Some resp \/ resp = fw_server_error (app_framework app).
Proof. destruct (domain_exception_handler e); simpl; intros <-; [by left|by right]. Qed.

Lemma domain_status e resp : domain_exception_handler e = Some resp -> 400 <= rs_status resp.
Proof.
  unfold domain_exception_handler. destruct (status_code e) as [c|] eqn:Hc; [|done].
  intros [= <-]. simpl. destruct e; simpl in Hc; try done; injection Hc as <-; lia.
Qed.

Lemma refund_code_201 env lock k i n db code r db' :
  schema_ok db -> in_transaction env (refund lock k i n) db = (Ok (code, r), db') ->
  code = 201 \/ db' = db.
Proof.
  intros Hso Htx. apply refund_committed in Htx; [|done].
  destruct (idempotency_keys db !! (refund_merchant, k)).
  - right. by destruct Htx as (c & body & resp & _ & _ & _ & ->).
  - left. destruct Htx as (t0 & p0 & rid & t1 & t2 & db1 & db2 & _ & _ & _ & _ & [= -> _] & _). done.
Qed.

Lemma create_code_201 (psp : P) lock env1 env2 i draw k rq db code r db' :
  schema_ok db -> create psp lock env1 env2 i draw k rq db = (Ok (code, r), db') ->
  code = 201 \/ db' = db.
Proof.
  intros Hso Hc. unfold create in Hc.
  destruct (in_transaction env1 _ db) as [[[x|p]|e1] db1] eqn:Htx1; [| |done].
  - right. injection Hc as -> ->. apply create_tx1_committed in Htx1; [|done].
    destruct (idempotency_keys db !! (cq_merchantId rq, k)).
    + by destruct Htx1 as (c & body & resp & _ & _ & _ & ->).
    + by destruct Htx1 as (t1 & t2 & d & ? & _).
  - left. destruct (authorize psp draw p); [|done].
    destruct (in_transaction env2 _ db1) as [[r2|e2] db2]; [by injection Hc as <- _ _|done].
Qed.

(** C24: an unsuccessful request changes nothing.  If the framework answers an unhandled
    exception with an error status, then every response other than 200 and 201 leaves the
    tables exactly as they were, for every endpoint; the one exception is a payment whose
    funds were held and whose provider call or second transaction then failed: its payment
    is PROCESSING, its amount in suspense and its key IN_PROGRESS. *)
Theorem unsuccessful_requests_change_nothing rq db resp db' :
  schema_ok db -> 400 <= rs_status (fw_server_error (app_framework app)) ->
  serve app rq db = (resp, db') -> rs_status resp <> 200 -> rs_status resp <> 201 ->
  db' = db \/
  exists env1 env2 i draw k body t row,
    rq = PostPayment env1 env2 i draw (Some k) (Some body) /\ 400 <= rs_status resp /\
    let p := held_payment i body t in
    payments db !! i = None /\ payments db' = <[i := p]> (payments db) /\
    (forall a, balance_of db' a = balance_of db a + delta (hold_postings p) a) /\
    idempotency_keys db' = <[(cq_merchantId body, k) := row]> (idempotency_keys db) /\
    ir_status row = IN_PROGRESS.
Proof.
  intros Hso Hfw Hs H200 H201.
  destruct rq as [env1 env2 i draw k body|env i|env i k body|env raw x sg|env a|env ro a l|env|];
    simpl in Hs; try (injection Hs as _ <-; by left).
  - unfold create_payment in Hs. destruct k as [k|], body as [rq|];
      try (injection Hs as _ <-; by left).
    destruct (CreatePaymentRequest_valid rq); [|injection Hs as _ <-; by left].
    destruct (create _ _ _ _ _ _ _ _ _) as [[[code r]|e] db1] eqn:Hc; injection Hs as Hresp <-.
    + left. destruct (create_code_201 _ _ _ _ _ _ _ _ _ _ _ _ Hso Hc) as [->|]; [|done].
      simpl in Hresp. by rewrite <- Hresp in H201.
    + destruct (create_failed _ _ _ _ _ _ _ _ _ _ _ Hso Hc) as [->|(t & row & Hheld)]; [by left|].
      right. exists env1, env2, i, draw, k, rq, t, row. split; [done|]. split; [|exact Hheld].
      apply respond_error in Hresp as [Hd| ->]; [by eapply domain_status|done].
  - left. unfold process_refund in Hs. destruct k as [k|], body as [rq|];
      try (by injection Hs).
    destruct (RefundRequest_valid rq); [|by injection Hs].
    destruct (in_transaction _ _ _) as [[[code r]|e] db1] eqn:Htx; injection Hs as Hresp <-.
    + destruct (refund_code_201 _ _ _ _ _ _ _ _ _ Hso Htx) as [->|]; [|done].
      simpl in Hresp. by rewrite <- Hresp in H201.
    + by apply in_transaction_Err in Htx.
  - left. unfold handle_webhook in Hs. destruct raw as [raw|]; [|by injection Hs].
    destruct (in_transaction _ _ _) as [[u|e] db1] eqn:Htx; injection Hs as Hresp <-.
    + simpl in Hresp. by rewrite <- Hresp in H200.
    + by apply in_transaction_Err in Htx.
Qed.

(** ** Payments over HTTP *)

(** A payment over HTTP.  A valid request the engine can serve is answered 201 with the
    JSON of the payment's row, which a GET of the payment then answers too. *)
Theorem payment_created_and_read_back env1 env2 env3 i draw k rq db auth :
  CreatePaymentRequest_valid rq = true ->
  create_ready env1 i k rq db -> reliable env2 ->
  fresh_ids env2 (db_after_tx1 (app_lock app) env1 i k rq db) ->
  (forall t, authorize (app_psp app) draw (held_payment i rq t) = Ok auth) -> reference_fits auth ->
  reliable env3 ->
  exists t t' db2, let p := resolved (held_payment i rq t) auth t' in
    create_payment app env1 env2 i draw (Some k) (Some rq) db =
      (mkResponse 201 (JObj (model_dump (payment_to_response p))), db2) /\
    payments db2 = <[i := p]> (payments db) /\
    get_payment_details app env3 i db2 =
      mkResponse 200 (JObj (model_dump (payment_to_response p))).
Proof.
  intros Hval Hcr Hr2 Hf2 Hauth Href Hr3.
  destruct (create_served_lemma _ _ _ _ _ _ _ _ _ _ Hcr Hr2 Hf2 Hauth Href)
    as (t & t' & db2 & Hcreate & Hsv).
  exists t, t', db2. split; [unfold create_payment; by rewrite Hval, Hcreate|].
  pose proof (sv_payment _ _ _ _ _ _ _ _ Hsv) as Hpay. split; [done|].
  unfold get_payment_details, in_session, get_payment.
  rewrite (bind_Ok _ _ _ _ _ (statement_reliable (begin_session env3 db2) Hr3)).
  unfold gets, mbind, stm_bind. cbn. by rewrite Hpay, lookup_insert_eq.
Qed.

(** Refusals of a payment over HTTP.  A request without key, without the fields of the
    model or outside its constraints gets 422 and the validation details; one whose payer
    cannot fund it gets 422 with the balance and the amount; a key used with another payload
    gets 422, one whose first request is still in progress 409; nothing changes. *)
Theorem payment_refusals env1 env2 i draw k rq db :
  (forall key body, key = None \/ body = None \/
     (exists r, body = Some r /\ (cq_amount r <= 0 \/ str_len (cq_currency r) <> 3 \/
                                  cq_merchantId r = ""%string)) ->
     create_payment app env1 env2 i draw key body db =
       (mkResponse 422 (JObj [("error", JStr "Request validation failed");
          ("details", fw_validation_errors (app_framework app))]), db)) /\
  (CreatePaymentRequest_valid rq = true -> create_setup env1 i k rq db ->
   balance_of db (cq_payerAccountId rq) < cq_amount rq <= int64_max ->
   create_payment app env1 env2 i draw (Some k) (Some rq) db =
     (mkResponse 422 (JObj [("error", JStr ("Insufficient funds for account " +:+
          uuid_str (cq_payerAccountId rq) +:+ ": balance=" +:+
          pretty (balance_of db (cq_payerAccountId rq)) +:+ ", required=" +:+ pretty (cq_amount rq)));
        ("type", JStr "InsufficientFundsException")]), db)) /\
  (forall row, CreatePaymentRequest_valid rq = true -> reliable env1 ->
   idempotency_keys db !! (cq_merchantId rq, k) = Some row ->
   ir_request_hash row <> compute_hash (request_dump rq) ->
   exists m, create_payment app env1 env2 i draw (Some k) (Some rq) db =
     (mkResponse 422 (JObj [("error", JStr m); ("type", JStr "IdempotencyMismatchException")]), db)) /\
  (forall row, CreatePaymentRequest_valid rq = true -> reliable env1 ->
   idempotency_keys db !! (cq_merchantId rq, k) = Some row ->
   ir_request_hash row = compute_hash (request_dump rq) -> ir_status row = IN_PROGRESS ->
   exists m, create_payment app env1 env2 i draw (Some k) (Some rq) db =
     (mkResponse 409 (JObj [("error", JStr m); ("type", JStr "IdempotencyConflictException")]), db)).
Proof.
  split; [|split; [|split]].
  - intros key body Hbad. unfold create_payment. destruct key as [key|], body as [r|]; try done.
    destruct Hbad as [?|[?|(r' & [= <-] & Hr)]]; [done..|].
    assert (Hv : CreatePaymentRequest_valid r = false); [|by rewrite Hv].
    unfold CreatePaymentRequest_valid. destruct Hr as [Hr|[Hr|Hr]].
    + destruct (Z.ltb_spec 0 (cq_amount r)); [lia|]. by rewrite andb_false_r.
    + destruct (Z.eqb_spec (str_len (cq_currency r)) 3); [done|]. by rewrite andb_false_r.
    + rewrite Hr. done.
  - intros Hv Hset Hbal. unfold create_payment. by rewrite Hv, (create_unfunded _ _ _ _ _ _ _ _ _ Hset Hbal).
  - intros row Hv Hr Hrow Hh. eexists. unfold create_payment.
    rewrite Hv, (create_reused_key _ _ _ _ _ _ _ _ _ row Hr Hrow) by (by left).
    by rewrite decide_False.
  - intros row Hv Hr Hrow Hh Hst. eexists. unfold create_payment.
    rewrite Hv, (create_reused_key _ _ _ _ _ _ _ _ _ row Hr Hrow) by (by right).
    by rewrite decide_True.
Qed.

(** ** Reads *)

(** The balance endpoint answers the stored balance with the account's currency, zero for
    an account that has no balance row yet, and 404 for an unknown account. *)
Theorem balance_endpoint env a db :
  schema_ok db -> reliable env ->
  account_balance app env a db =
    match accounts db !! a with
    | Some acc => mkResponse 200 (JObj
        [("accountId", JStr (uuid_str a)); ("balance", JInt (balance_of db a));
         ("currency", JStr (acc_currency acc));
         ("updatedAt", JStr (isoformat match account_balances db !! a with
                                       | Some b => ab_updated_at b | None => acc_created_at acc end))])
    | None => mkResponse 404 (JObj [("error", JStr ("Account not found: " +:+ uuid_str a));
                                    ("type", JStr "AccountNotFoundException")])
    end.
Proof.
  intros Hso Hr. unfold account_balance, in_session, get_balance.
  rewrite (bind_Ok _ _ _ _ _ (statement_reliable (begin_session env db) Hr)).
  rewrite bind_gets. cbn [s_db begin_session tick].
  unfold balance_with_currency, balance_of, row_balance.
  destruct (account_balances db !! a) as [b|] eqn:Hb.
  - destruct (so_balance _ Hso _ _ Hb) as (Hid & _ & _ & acc & Hacc). rewrite Hacc. simpl. by rewrite Hid.
  - rewrite (bind_Ok _ _ _ _ _ (statement_reliable (tick (begin_session env db)) Hr)), bind_gets.
    cbn [s_db begin_session tick]. by destruct (accounts db !! a) as [acc|].
Qed.

(** *** The ledger page *)

Section page.
  Context (row_order : list LedgerEntry -> list LedgerEntry).
  Context (row_order_perm : forall l, row_order l ≡ₚ l).

#[local] Instance newer_first_total : Total newer_first.
Proof. intros a b. unfold newer_first. lia. Qed.
#[local] Instance newer_first_trans : Transitive newer_first.
Proof. intros a b c. unfold newer_first. lia. Qed.

Lemma newest_entries_spec a l db :
  0 <= l ->
  exists rest, newest_entries row_order a l db ++ rest ≡ₚ
      filter (fun e => le_account_id e = a) (ledger_entries db) /\
    StronglySorted newer_first (newest_entries row_order a l db ++ rest) /\
    (Z.of_nat (List.length (newest_entries row_order a l db)) = l \/ rest = [] /\
     Z.of_nat (List.length (newest_entries row_order a l db)) <= l).
Proof.
  intros Hl. unfold newest_entries.
  set (all := merge_sort newer_first _). exists (drop (Z.to_nat l) all).
  rewrite take_drop. split; [|split].
  - unfold all. by rewrite merge_sort_Permutation, row_order_perm.
  - apply (StronglySorted_merge_sort _).
  - rewrite length_take. destruct (Nat.le_gt_cases (Z.to_nat l) (List.length all)); [left; lia|].
    right. split; [apply drop_ge; lia|lia].
Qed.

(** The ledger endpoint answers the newest postings of the account: with a limit of 1 to
    100 (50 by default) the page holds entries of that account only, newest first, as many
    as there are up to the limit, and none older than an entry it leaves out; a limit out of
    range is a validation error. *)
Theorem ledger_endpoint env a limit db :
  reliable env ->
  match ledger_limit limit with
  | Some l => 1 <= l <= 100 /\
      exists page rest,
        account_ledger app env row_order a limit db =
          mkResponse 200 (JObj [("accountId", JStr (uuid_str a));
            ("entries", JList (map (fun e => JObj (ledger_entry_dump (entry_response e))) page))]) /\
        page ++ rest ≡ₚ filter (fun e => le_account_id e = a) (ledger_entries db) /\
        StronglySorted newer_first page /\
        (forall e e', e ∈ page -> e' ∈ rest -> le_created_at e' <= le_created_at e) /\
        (Z.of_nat (List.length page) = l \/ rest = [] /\ Z.of_nat (List.length page) <= l)
  | None => rs_status (account_ledger app env row_order a limit db) = 422
  end.
Proof.
  intros Hr. unfold account_ledger. destruct (ledger_limit limit) as [l|] eqn:Hl; [|done].
  assert (Hrange : 1 <= l <= 100).
  { unfold ledger_limit in Hl. destruct (_ && _) eqn:Hb; [|done]. injection Hl as <-.
    apply andb_true_iff in Hb as [H1%Z.leb_le H2%Z.leb_le]. done. }
  split; [done|].
  destruct (newest_entries_spec a l db) as (rest & Hperm & Hsorted & Hlen); [lia|].
  exists (newest_entries row_order a l db), rest. split; [|split; [done|split; [|split; [|done]]]].
  - unfold in_session, get_ledger_postings.
    rewrite (bind_Ok _ _ _ _ _ (statement_reliable (begin_session env db) Hr)), bind_gets.
    unfold respond, mret, stm_ret, ok_response, ledger_page_dump. cbn. by rewrite map_map.
  - by eapply StronglySorted_app_1_l.
  - intros e e' He He'. exact (StronglySorted_app_1_elem_of _ _ _ _ _ Hsorted He He').
Qed.

End page.

End api.

(** ** The theorems on the fixtures *)

#[local] Existing Instance binary_datetime.

Definition demo_framework : Framework :=
  mkFramework (mkResponse 500 (JStr "Internal Server Error")) (JList []).

(** The application with the mock provider, no Redis, no Stripe and no JSON reader. *)
Definition demo_app : App MockPspClient :=
  mkApp default_settings mkMockPspClient None (fun _ _ _ _ _ => false) (fun _ => None) demo_framework.

Definition demo_post : Request :=
  PostPayment (demo_env 1000) (demo_env 5000) 9000 77 (Some "key-1"%string) (Some (demo_request 2500)).

Lemma api_requests_are_system_runs_witness :
  exists resps db' fls',
    serve_all demo_app [demo_post; GetBalance (demo_env 0) wallet; GetHealth] demo_db = (resps, db') /\
    rtc system_step (mkWorld demo_db []) (mkWorld db' fls') /\ total_balance db' = 100000.
Proof.
  destruct (serve_all demo_app [demo_post; GetBalance (demo_env 0) wallet; GetHealth] demo_db)
    as [resps db'] eqn:Hs.
  destruct (api_requests_are_system_runs demo_app _ demo_db [] resps db' demo_inv Hs)
    as (fls' & Hrun & _ & Htotal & _).
  exists resps, db', fls'. split; [reflexivity|]. split; [exact Hrun|].
  rewrite <- demo_total. exact Htotal.
Defined.

(** A payment the wallet cannot fund: refused, and nothing has changed. *)
Lemma unsuccessful_requests_change_nothing_witness :
  exists resp db', serve demo_app (PostPayment (demo_env 1000) (demo_env 5000) 9000 77
      (Some "key-1"%string) (Some (demo_request 100001))) demo_db = (resp, db') /\
    rs_status resp = 422 /\
    (db' = demo_db \/ exists p, payments db' = <[9000%N := p]> (payments demo_db)).
Proof.
  destruct (serve demo_app (PostPayment (demo_env 1000) (demo_env 5000) 9000 77
      (Some "key-1"%string) (Some (demo_request 100001))) demo_db) as [resp db'] eqn:Hs.
  assert (Hst : rs_status resp = 422).
  { change resp with (fst (resp, db')). rewrite <- Hs. vm_compute. reflexivity. }
  exists resp, db'. split; [reflexivity|]. split; [exact Hst|].
  destruct (unsuccessful_requests_change_nothing demo_app _ demo_db resp db' demo_schema_ok
    ltac:(simpl; lia) Hs) as [Heq|(env1 & env2 & i & draw & k & body & t & row & Hrq & _ & _ & Hpay & _)].
  - rewrite Hst. discriminate.
  - rewrite Hst. discriminate.
  - left. exact Heq.
  - right. injection Hrq as _ _ <- _ _ _. eexists. exact Hpay.
Defined.

Lemma payment_created_and_read_back_witness :
  exists p db2,
    create_payment demo_app (demo_env 1000) (demo_env 5000) 9000 77 (Some "key-1"%string)
      (Some (demo_request 2500)) demo_db =
      (mkResponse 201 (JObj (model_dump (payment_to_response p))), db2) /\
    get_payment_details demo_app (demo_env 0) 9000 db2 =
      mkResponse 200 (JObj (model_dump (payment_to_response p))).
Proof.
  destruct (payment_created_and_read_back demo_app (demo_env 1000) (demo_env 5000) (demo_env 0) 9000 77
    "key-1" (demo_request 2500) demo_db (mock_authorize 77 (held_payment 9000 (demo_request 2500) 0)))
    as (t & t' & db2 & Hpost & _ & Hget).
  - reflexivity.
  - apply demo_create_ready. lia.
  - apply demo_reliable.
  - apply demo_fresh_ids. vm_compute. reflexivity.
  - reflexivity.
  - vm_compute. reflexivity.
  - apply demo_reliable.
  - eexists _, db2. split; [exact Hpost|exact Hget].
Defined.

Lemma payment_refusals_witness :
  create_payment demo_app (demo_env 1000) (demo_env 5000) 9000 77 None (Some (demo_request 500)) demo_db =
    (mkResponse 422 (JObj [("error", JStr "Request validation failed"); ("details", JList [])]), demo_db) /\
  exists m, create_payment demo_app (demo_env 1000) (demo_env 5000) 9000 77 (Some "key-1"%string)
      (Some (demo_request 700)) claimed_db =
    (mkResponse 422 (JObj [("error", JStr m); ("type", JStr "IdempotencyMismatchException")]), claimed_db).
Proof.
  split.
  - apply (proj1 (payment_refusals demo_app (demo_env 1000) (demo_env 5000) 9000 77 "key-1"
      (demo_request 500) demo_db)). by left.
  - apply (proj1 (proj2 (proj2 (payment_refusals demo_app (demo_env 1000) (demo_env 5000) 9000 77 "key-1"
      (demo_request 700) claimed_db))) (claim_row "merchant_1" "key-1" (request_dump (demo_request 500)) 0)).
    + reflexivity.
    + apply demo_reliable.
    + reflexivity.
    + vm_compute. discriminate.
Defined.

Lemma balance_endpoint_witness :
  rs_status (account_balance demo_app (demo_env 0) wallet demo_db) = 200 /\
  rs_status (account_balance demo_app (demo_env 0) 999 demo_db) = 404.
Proof.
  split.
  - rewrite (balance_endpoint demo_app (demo_env 0) wallet demo_db demo_schema_ok (demo_reliable 0)).
    reflexivity.
  - rewrite (balance_endpoint demo_app (demo_env 0) 999 demo_db demo_schema_ok (demo_reliable 0)).
    reflexivity.
Defined.

Lemma ledger_endpoint_witness :
  exists page (rest : list LedgerEntry), account_ledger demo_app (demo_env 0) (fun l => l) wallet (Some 1) cancelled_db =
      mkResponse 200 (JObj [("accountId", JStr (uuid_str wallet));
        ("entries", JList (map (fun e => JObj (ledger_entry_dump (entry_response e))) page))]) /\
    (Z.of_nat (List.length page) = 1 \/ rest = [] /\ Z.of_nat (List.length page) <= 1).
Proof.
  destruct (ledger_endpoint demo_app (fun l => l) (fun l => Permutation_refl l)
    (demo_env 0) wallet (Some 1) cancelled_db
    (demo_reliable 0)) as (_ & page & rest & Hresp & _ & _ & _ & Hlen).
  exists page, rest. split; [exact Hresp|exact Hlen].
Defined.
