(* ===== verification/DailyPush.v ===== *)
(** * DailyPush: [scripts/daily_push.py]

    The script that commits the repository's pending files, a few per day.  The machine it
    runs on - git, and the files below [REPO_DIR] - is the class [Machine]; a script
    changes it through [subprocess.run] only, and the commands it runs, with their return
    codes, and the messages it prints are recorded in order as [Event]s (a message stands
    for the [print] calls that show its values).  An exception ends the script but undoes nothing, so the monad keeps
    the state.  Reading [sys.argv] is argparse's: [main] starts from the parsed arguments. *)

From S2P Require Import Prelude PyStd PyText.
From Stdlib Require Import Ascii String.

(** ** Definitions *)

Definition FILE_COMMIT_MESSAGES : list (string * string) :=
  [("pyproject.toml",
    "chore(build): define python 3.13 project metadata and dependencies");
   ("requirements.txt",
    "chore(deps): add FastAPI, SQLAlchemy 2.0 async, and Stripe requirements");
   ("alembic.ini",
    "chore(db): configure alembic database migration environment");
   ("alembic/env.py",
    "feat(db): implement async migration runner in alembic");
   ("alembic/script.py.mako",
    "chore(db): add alembic script template");
   ("alembic/versions/001_initial_schema.py",
    "feat(db): create initial double-entry schema and postgresql triggers");
   ("alembic/versions/002_processed_events_and_refunds.py",
    "feat(db): add processed events dedupe and refunds tables");
   ("app/config.py",
    "feat(config): implement pydantic BaseSettings for database and redis configuration");
   ("app/domain/enums.py",
    "feat(domain): define domain enumerations for account types and payment states");
   ("app/domain/exceptions.py",
    "feat(domain): define domain exceptions for balance guards and idempotency");
   ("app/domain/models.py",
    "feat(domain): implement SQLAlchemy 2.0 async declarative models");
   ("app/domain/__init__.py",
    "feat(domain): expose domain models and exceptions in package init");
   ("app/infrastructure/database.py",
    "feat(infra): configure async SQLAlchemy engine and session dependency");
   ("app/infrastructure/redis_client.py",
    "feat(infra): implement async Redis connection pool and idempotency lock");
   ("app/infrastructure/psp/provider.py",
    "feat(psp): define PaymentProvider abstract interface and authorization results");
   ("app/infrastructure/psp/mock_psp.py",
    "feat(psp): implement MockPspClient for local testing and simulation");
   ("app/infrastructure/psp/stripe_psp.py",
    "feat(psp): implement StripePaymentProvider with manual capture method");
   ("app/infrastructure/psp/signature.py",
    "feat(security): add HMAC-SHA256 and Stripe webhook signature verifiers");
   ("app/infrastructure/psp/__init__.py",
    "feat(psp): package psp providers and signature verifiers");
   ("app/infrastructure/__init__.py",
    "feat(infra): expose database and redis infrastructure");
   ("app/application/schemas.py",
    "feat(app): define Pydantic v2 request and response DTO schemas");
   ("app/application/ledger_service.py",
    "feat(ledger): implement double-entry balance validation and row locking");
   ("app/application/idempotency_service.py",
    "feat(idempotency): implement two-tier Redis and Postgres idempotency engine");
   ("app/application/payment_saga.py",
    "feat(saga): implement Hold-Authorize-Settle distributed payment saga");
   ("app/application/payment_service.py",
    "feat(payments): implement PaymentService orchestrating payment lifecycle");
   ("app/application/refund_service.py",
    "feat(refunds): implement RefundService with over-refund protection");
   ("app/application/webhook_service.py",
    "feat(webhooks): implement WebhookService with deduplication and state guards");
   ("app/application/reconciliation_service.py",
    "feat(reconciliation): implement continuous ledger audit and hold expiry");
   ("app/application/outbox_relay.py",
    "feat(outbox): implement asynchronous OutboxRelay background worker");
   ("app/application/__init__.py",
    "feat(app): package application services and schemas");
   ("app/api/dependencies.py",
    "feat(api): define FastAPI dependency injection providers");
   ("app/api/payments.py",
    "feat(api): implement /v1/payments endpoints with idempotency support");
   ("app/api/accounts.py",
    "feat(api): implement /v1/accounts balance and ledger audit trail endpoints");
   ("app/api/refunds.py",
    "feat(api): implement /v1/payments/{id}/refunds endpoint");
   ("app/api/webhooks.py",
    "feat(api): implement /v1/webhooks for Stripe and custom PSP callbacks");
   ("app/api/reconciliation.py",
    "feat(api): implement /v1/reconciliation/report endpoint");
   ("app/api/__init__.py",
    "feat(api): expose API routers");
   ("app/main.py",
    "feat(core): initialize FastAPI application with Lifespan, Prometheus, and exception handlers");
   ("app/__init__.py",
    "feat(core): expose FastAPI app instance");
   ("tests/conftest.py",
    "test: configure pytest-asyncio test fixtures and in-memory database");
   ("tests/test_ledger.py",
    "test(ledger): verify double-entry invariant validation and balance checks");
   ("tests/test_concurrency.py",
    "test(concurrency): verify concurrent balance debits prevent oversell");
   ("tests/test_idempotency.py",
    "test(idempotency): verify response replay and payload mismatch rejection");
   ("tests/test_payments.py",
    "test(payments): verify hold-authorize-settle saga and failure reversals");
   ("tests/test_refunds.py",
    "test(refunds): verify full, partial, and over-refund protections");
   ("tests/test_webhooks.py",
    "test(webhooks): verify webhook signature checks and async capture");
   ("tests/test_reconciliation.py",
    "test(reconciliation): verify mathematical ledger integrity checks");
   ("Dockerfile",
    "ci(docker): configure multi-stage Python 3.13-slim container build");
   ("docker-compose.yml",
    "ci(docker): configure full stack orchestration with Postgres, Redis, and Grafana");
   ("README.md",
    "docs: update system architecture, double-entry specs, and Python API reference")].

Definition PREFERRED_ORDER : list string :=
  ["pyproject.toml";
   "requirements.txt";
   "alembic.ini";
   "alembic/env.py";
   "alembic/script.py.mako";
   "alembic/versions/001_initial_schema.py";
   "alembic/versions/002_processed_events_and_refunds.py";
   "app/config.py";
   "app/domain/enums.py";
   "app/domain/exceptions.py";
   "app/domain/models.py";
   "app/domain/__init__.py";
   "app/infrastructure/database.py";
   "app/infrastructure/redis_client.py";
   "app/infrastructure/psp/provider.py";
   "app/infrastructure/psp/mock_psp.py";
   "app/infrastructure/psp/stripe_psp.py";
   "app/infrastructure/psp/signature.py";
   "app/infrastructure/psp/__init__.py";
   "app/infrastructure/__init__.py";
   "app/application/schemas.py";
   "app/application/ledger_service.py";
   "app/application/idempotency_service.py";
   "app/application/payment_saga.py";
   "app/application/payment_service.py";
   "app/application/refund_service.py";
   "app/application/webhook_service.py";
   "app/application/reconciliation_service.py";
   "app/application/outbox_relay.py";
   "app/application/__init__.py";
   "app/api/dependencies.py";
   "app/api/payments.py";
   "app/api/accounts.py";
   "app/api/refunds.py";
   "app/api/webhooks.py";
   "app/api/reconciliation.py";
   "app/api/__init__.py";
   "app/main.py";
   "app/__init__.py";
   "tests/conftest.py";
   "tests/test_ledger.py";
   "tests/test_concurrency.py";
   "tests/test_idempotency.py";
   "tests/test_payments.py";
   "tests/test_refunds.py";
   "tests/test_webhooks.py";
   "tests/test_reconciliation.py";
   "Dockerfile";
   "docker-compose.yml";
   "README.md"].

(** What the script asks of the machine.  [subprocess.run], with the repository as working
    directory: return code, stdout and stderr, or [None] when it raised.  Paths are relative
    to [REPO_DIR]; [rglob w d] gives the parts of each path below [d]. *)
Class Machine (W : Type) : Type := {
  subprocess_run : list string -> W -> option (Z * string * string) * W;
  path_exists : W -> string -> bool;
  is_dir : W -> string -> bool;
  is_file : W -> string -> bool;
  rglob : W -> string -> list (list string);
}.

Inductive Message :=
| CleanTree
| BatchHeader (files : Z)
| NoSuchFile (file : string)
| NextCommit (file commit_msg : string)
| WouldCommit
| StagingError (err : string)
| CommitError (err : string)
| DryRunEnd
| Pushing
| PushReturned (text : string)
| Pushed (committed remaining : Z)
| QueueClean
| QueueHeader (pending days_needed per_day : Z)
| DayHeader (day_num files : Z)
| QueuedFile (file commit_msg : string)
| Usage.

Inductive Event :=
| Ran (cmd : list string) (code : option Z)
| Said (message : Message).

Inductive ScriptError := CommandRaised | ZeroDivisionError.

Record St (W : Type) : Type := mkSt { st_world : W; st_events : list Event }.
Arguments mkSt {W} _ _.
Arguments st_world {W} _.
Arguments st_events {W} _.

Definition script (W A : Type) : Type := St W -> result ScriptError A * St W.

#[global] Instance script_ret W : MRet (script W) := fun A a s => (Ok a, s).
#[global] Instance script_bind W : MBind (script W) := fun A B f m s =>
  match m s with (Ok a, s') => f a s' | (Err e, s') => (Err e, s') end.
#[global] Instance script_throw W : MThrow ScriptError (script W) := fun A e s => (Err e, s).

Definition say {W : Type} (m : Message) : script W unit :=
  fun s => (Ok tt, mkSt (st_world s) (st_events s ++ [Said m])).
Definition world {W : Type} : script W W := fun s => (Ok (st_world s), s).

Fixpoint say_all {W : Type} (ms : list Message) : script W unit :=
  match ms with
  | [] => mret tt
  | m :: ms' => say m;; say_all ms'
  end.

(** [sort_key]: listed files by their position, then the others by name. *)
Inductive SortKey := Listed (position : nat) | Unlisted (file : string).

Definition sort_key (f : string) : SortKey :=
  match list_find (fun g => g = f) PREFERRED_ORDER with
  | Some (i, _) => Listed i
  | None => Unlisted f
  end.

Definition key_leb (a b : SortKey) : bool :=
  match a, b with
  | Listed i, Listed j => (i <=? j)%nat
  | Listed _, Unlisted _ => true
  | Unlisted _, Listed _ => false
  | Unlisted f, Unlisted g => String.leb f g
  end.

Definition file_le (f g : string) : Prop := Is_true (key_leb (sort_key f) (sort_key g)).
#[global] Instance file_le_dec : RelDecision file_le.
Proof. intros f g. unfold file_le. apply _. Defined.

(** Paths compare part by part. *)
Fixpoint parts_leb (p q : list string) : bool :=
  match p, q with
  | [], _ => true
  | _ :: _, [] => false
  | a :: p', b :: q' => if String.eqb a b then parts_leb p' q' else String.leb a b
  end.
Definition parts_le (p q : list string) : Prop := Is_true (parts_leb p q).
#[global] Instance parts_le_dec : RelDecision parts_le.
Proof. intros p q. unfold parts_le. apply _. Defined.

Definition path_text (parts : list string) : string := Json.join "/" parts.

Definition ignored_suffixes : list string := [".pyc"; ".DS_Store"].
Definition ignored (path : string) : bool := endswith_any ignored_suffixes path.

(** [line[3:]], stripped of blanks and then of double quotes. *)
Definition raw_path (line : string) : string :=
  strip (Ascii.eqb double_quote) (strip py_isspace (str_drop 3 line)).

Definition generate_commit_message (filepath : string) : string :=
  match list_find (fun kv => kv.1 = filepath) FILE_COMMIT_MESSAGES with
  | Some (_, (_, message)) => message
  | None =>
      let name := basename filepath in
      if str_contains "test" (str_lower filepath) then "test: add test coverage for " +:+ name
      else if endswith_any [".py"; ".pyi"] filepath then "feat: implement updates in " +:+ name
      else if endswith_any [".yml"; ".yaml"; ".ini"; ".toml"; ".plist"] filepath
      then "chore(config): update configuration in " +:+ name
      else if endswith_any [".md"; ".txt"] filepath then "docs: update documentation in " +:+ name
      else "feat: update " +:+ name
  end.

Definition git_status : list string := ["git"; "status"; "--porcelain"].
Definition git_add (f : string) : list string := ["git"; "add"; f].
Definition git_commit (msg : string) : list string := ["git"; "commit"; "-m"; msg].
Definition git_push : list string := ["git"; "push"; "origin"; "main"].

(** [if s:] of a string, and of the optional [--file]. *)
Definition nonempty (s : string) : bool := negb (String.eqb s "").
Definition given (file : option string) : option string :=
  match file with Some f => if nonempty f then Some f else None | None => None end.

Definition reply_code (reply : option (Z * string * string)) : option Z :=
  match reply with Some (code, _, _) => Some code | None => None end.

Record Args : Type := mkArgs {
  arg_push : bool; arg_count : Z; arg_dry_run : bool; arg_status : bool; arg_file : option string }.

Section script.
  Context {W : Type} `{Machine W}.
  (** [str(REPO_DIR)] *)
  Variable repo_dir : string.

Definition run_cmd (cmd : list string) : script W (Z * string * string) := fun s =>
  let '(reply, w') := subprocess_run cmd (st_world s) in
  let s' := mkSt w' (st_events s ++ [Ran cmd (reply_code reply)]) in
  match reply with
  | Some (code, out, err) => (Ok (code, strip py_isspace out, strip py_isspace err), s')
  | None => (Err CommandRaised, s')
  end.

(** The files one line of [git status] contributes. *)
Definition files_of_path (w : W) (raw : string) : list string :=
  if is_dir w raw then
    map path_text
      (filter (fun p => is_file w (path_text p) && negb (ignored (repo_dir +:+ "/" +:+ path_text p)))
         (merge_sort parts_le (rglob w raw)))
  else if is_file w raw then if ignored raw then [] else [raw]
  else [].

Definition files_of_line (w : W) (line : string) : list string :=
  if (String.length line <? 4)%nat then [] else files_of_path w (raw_path line).

Definition get_pending_files : script W (list string) :=
  '(code, stdout, _) ← run_cmd git_status;
  if negb (code =? 0) || negb (nonempty stdout) then mret []
  else
    w ← world;
    let files := flat_map (files_of_line w) (splitlines stdout) in
    mret (merge_sort file_le (fromkeys files)).

(** The loop of [push_batch]; [None] is its [return False]. *)
Fixpoint commit_files (dry_run : bool) (files committed : list string)
  : script W (option (list string)) :=
  match files with
  | [] => mret (Some committed)
  | target :: files' =>
      w ← world;
      if negb (path_exists w target) then
        say (NoSuchFile target);; commit_files dry_run files' committed
      else
        let commit_msg := generate_commit_message target in
        say (NextCommit target commit_msg);;
        if dry_run then say WouldCommit;; commit_files dry_run files' committed
        else
          '(code, _, err) ← run_cmd (git_add target);
          if negb (code =? 0) then say (StagingError err);; mret None
          else
            '(code, _, err) ← run_cmd (git_commit commit_msg);
            if negb (code =? 0) then say (CommitError err);; mret None
            else commit_files dry_run files' (committed ++ [target])
  end.

Definition files_to_commit (count : Z) (specific_file : option string) (pending : list string)
  : list string :=
  match given specific_file with Some f => [f] | None => py_take count pending end.

Definition push_batch (count : Z) (dry_run : bool) (specific_file : option string) : script W bool :=
  pending ← get_pending_files;
  match pending with
  | [] => say CleanTree;; mret true
  | _ =>
      let files := files_to_commit count specific_file pending in
      say (BatchHeader (Z.of_nat (List.length files)));;
      outcome ← commit_files dry_run files [];
      match outcome with
      | None => mret false
      | Some committed =>
          if dry_run then say DryRunEnd;; mret true
          else
            say Pushing;;
            '(code, out, err) ← run_cmd git_push;
            if negb (code =? 0) then say (PushReturned (if nonempty err then err else out));; mret false
            else
              left ← get_pending_files;
              say (Pushed (Z.of_nat (List.length committed)) (Z.of_nat (List.length left)));;
              mret true
      end
  end.

Definition day_lines (day_num : Z) (files : list string) : list Message :=
  DayHeader day_num (Z.of_nat (List.length files)) ::
  map (fun f => QueuedFile f (generate_commit_message f)) files.

Definition list_queue (per_day : Z) : script W unit :=
  pending ← get_pending_files;
  match pending with
  | [] => say QueueClean
  | _ =>
      let n := Z.of_nat (List.length pending) in
      if per_day =? 0 then mthrow ZeroDivisionError
      else
        say (QueueHeader n ((n + per_day - 1) / per_day) per_day);;
        say_all (flat_map (fun i => day_lines (i / per_day + 1) (py_slice i (i + per_day) pending))
                   (py_range n per_day))
  end.

Definition main (args : Args) : script W unit :=
  if arg_status args then list_queue (arg_count args)
  else if arg_push args || arg_dry_run args ||
          match given (arg_file args) with Some _ => true | None => false end
  then push_batch (arg_count args) (arg_dry_run args) (arg_file args);; mret tt
  else list_queue (arg_count args);; say Usage.

End script.
