(* ===== verification/DailyPushTheorems.v ===== *)
(** * DailyPushTheorems: what the commit script finds, queues and commits

    The queue is exactly the files [git status] reports, in the preferred order - except
    for an unstaged change reported first, whose path loses its first character; it is
    listed in full, a few files per day; a batch runs [git add] and [git commit] for its
    files in order, stops at the first failure and pushes last; and on a repository with
    untracked files only, running it day after day commits all of them. *)

From S2P Require Import Prelude PyStd PyText DailyPush.
From Stdlib Require Import Ascii String.

(** ** The order of the queue *)

Lemma sort_key_inj f g : sort_key f = sort_key g -> f = g.
Proof.
  unfold sort_key.
  destruct (list_find _ PREFERRED_ORDER) as [[i x]|] eqn:Hf;
    destruct (list_find (fun h => h = g) PREFERRED_ORDER) as [[j y]|] eqn:Hg; intros [= ?]; [|done].
  apply list_find_Some in Hf as (Hi & -> & _). apply list_find_Some in Hg as (Hj & -> & _). congruence.
Qed.

#[global] Instance file_le_total : Total file_le.
Proof.
  intros f g. unfold file_le. destruct (sort_key f) as [i|a], (sort_key g) as [j|b]; simpl; auto.
  - destruct (Nat.leb_spec i j); [by left|]. right. apply Is_true_true, Nat.leb_le. lia.
  - apply strings.String.le_total.
Qed.

#[global] Instance file_le_trans : Transitive file_le.
Proof.
  intros f g h. unfold file_le.
  destruct (sort_key f) as [i|a], (sort_key g) as [j|b], (sort_key h) as [k|c]; simpl; try done.
  - rewrite !Is_true_true, !Nat.leb_le. lia.
  - apply (transitivity (R := strings.String.le)).
Qed.

#[global] Instance file_le_antisymm : AntiSymm (=) file_le.
Proof.
  intros f g. unfold file_le. intros H1 H2. apply sort_key_inj.
  destruct (sort_key f) as [i|a], (sort_key g) as [j|b]; simpl in *; try done; f_equal.
  - rewrite Is_true_true, Nat.leb_le in *. lia.
  - by apply (anti_symm strings.String.le).
Qed.

(** The queue of a list of files: each once, in the order of [sort_key]. *)
Definition queue_of (files : list string) : list string := merge_sort file_le (fromkeys files).

Lemma queue_of_sorted files : StronglySorted file_le (queue_of files).
Proof. apply (StronglySorted_merge_sort _). Qed.

Lemma queue_of_NoDup files : NoDup (queue_of files).
Proof. unfold queue_of. rewrite merge_sort_Permutation. apply fromkeys_NoDup. Qed.

Lemma elem_of_queue_of files f : f ∈ queue_of files <-> f ∈ files.
Proof. unfold queue_of. rewrite merge_sort_Permutation. apply fromkeys_elem. Qed.

(** Only the set of the files matters: neither the order of the directory listing nor that
    of the lines of [git status]. *)
Lemma queue_of_set files files' : (forall f, f ∈ files <-> f ∈ files') -> queue_of files = queue_of files'.
Proof.
  intros Heq. apply (StronglySorted_unique file_le); [apply queue_of_sorted..|].
  apply NoDup_Permutation; [apply queue_of_NoDup..|].
  intros f. by rewrite !elem_of_queue_of.
Qed.

Lemma queue_of_nil files : queue_of files = [] <-> files = [].
Proof.
  split; [|by intros ->]. intros H. destruct files as [|f files]; [done|].
  assert (f ∈ queue_of (f :: files)) as Hin by (apply elem_of_queue_of; by left).
  rewrite H in Hin. by apply not_elem_of_nil in Hin.
Qed.

(** Every file the order lists has its own commit message, and the other way round. *)
Example tables_agree : map fst FILE_COMMIT_MESSAGES = PREFERRED_ORDER /\ NoDup PREFERRED_ORDER.
Proof. split; [by vm_compute|]. apply (bool_decide_unpack _). vm_compute. exact I. Qed.

(** ** The output of [git status --porcelain] *)

Record StatusEntry : Type := mkEntry { se_x : ascii; se_y : ascii; se_path : string }.

Definition entry_line (e : StatusEntry) : string :=
  String (se_x e) (String (se_y e) (String " " (se_path e))).

Definition status_text (entries : list StatusEntry) : string :=
  foldr (fun e text => entry_line e +:+ newline +:+ text) EmptyString entries.

(** The characters of a path that git prints unquoted: printable ASCII but the blank, the
    double quote and the backslash. *)
Definition path_char (c : ascii) : bool :=
  let n := N_of_ascii c in
  (33 <=? n)%N && (n <=? 126)%N && negb (n =? 34)%N && negb (n =? 92)%N.

Definition printable (c : ascii) : bool := let n := N_of_ascii c in (32 <=? n)%N && (n <=? 126)%N.

(** An entry as git writes it: two status letters, not both blank, and a plain path. *)
Definition entry_ok (e : StatusEntry) : Prop :=
  printable (se_x e) = true /\ printable (se_y e) = true /\ ~ (se_x e = " " /\ se_y e = " ")%char /\
  all_chars path_char (se_path e) = true /\ se_path e <> "".

(** The paths the script reads: of a first entry whose first status letter is blank, the
    path without its first character, because [run_cmd] has stripped that blank. *)
Definition read_first (e : StatusEntry) : list string :=
  if Ascii.eqb (se_x e) " " then
    if (String.length (se_path e) =? 1)%nat then [] else [str_drop 1 (se_path e)]
  else [se_path e].
Definition read_paths (entries : list StatusEntry) : list string :=
  match entries with
  | [] => []
  | e :: entries' => read_first e ++ map se_path entries'
  end.

Lemma all_chars_impl p q s :
  (forall c, p c = true -> q c = true) -> all_chars p s = true -> all_chars q s = true.
Proof.
  intros Hpq. unfold all_chars. rewrite !forallb_forall. intros H c Hc. by apply Hpq, H.
Qed.

Ltac char_cases c :=
  destruct c as [[] [] [] [] [] [] [] []]; vm_compute; try done.

Lemma path_char_plain c :
  path_char c = true ->
  negb (py_isspace c) = true /\ negb (Ascii.eqb double_quote c) = true /\ negb (line_break c) = true.
Proof. char_cases c. Qed.

Lemma printable_no_break c : printable c = true -> negb (line_break c) = true.
Proof. char_cases c. Qed.

Lemma printable_space c : printable c = true -> py_isspace c = Ascii.eqb c " ".
Proof. char_cases c. Qed.

Lemma raw_path_clean p s : all_chars path_char p = true -> str_drop 3 s = p -> raw_path s = p.
Proof.
  intros Hp Hs. unfold raw_path. rewrite Hs.
  rewrite (strip_id py_isspace), strip_id; [done|..];
    (eapply all_chars_impl; [|exact Hp]); intros c Hc; by apply path_char_plain in Hc as (? & ? & ?).
Qed.

Lemma entry_line_app e : entry_line e = String (se_x e) (String (se_y e) " ") +:+ se_path e.
Proof. done. Qed.

Lemma rstrip_entry e : entry_ok e -> rstrip py_isspace (entry_line e) = entry_line e.
Proof.
  intros (_ & _ & _ & Hp & Hne). rewrite entry_line_app, rstrip_app, (rstrip_id _ (se_path e)).
  - by rewrite decide_False.
  - eapply all_chars_impl; [|exact Hp]. intros c Hc. by apply path_char_plain in Hc as (? & _).
Qed.

(** The text without its last newline: the lines, joined. *)
Lemma rstrip_status es :
  Forall entry_ok es -> rstrip py_isspace (status_text es) = Json.join newline (map entry_line es).
Proof.
  induction 1 as [|e es He Hes IH]; [done|]. cbn [status_text foldr]. fold (status_text es).
  destruct es as [|e' es'].
  - rewrite rstrip_app, decide_True by done. by rewrite rstrip_entry.
  - rewrite rstrip_app, newline_app. cbn [rstrip]. rewrite IH.
    cbn [map Json.join]. destruct (map entry_line es'); done.
Qed.

(** What is left of the first line after [run_cmd]. *)
Definition first_line (e : StatusEntry) : string :=
  if Ascii.eqb (se_x e) " " then str_drop 1 (entry_line e) else entry_line e.
Definition read_lines (es : list StatusEntry) : list string :=
  match es with [] => [] | e :: es' => first_line e :: map entry_line es' end.

Lemma join_cons_char c s ls : Json.join newline (String c s :: ls) = String c (Json.join newline (s :: ls)).
Proof. by destruct ls. Qed.

Lemma strip_status es :
  Forall entry_ok es -> strip py_isspace (status_text es) = Json.join newline (read_lines es).
Proof.
  intros Hes. unfold strip. rewrite rstrip_status by done.
  destruct Hes as [|[x y p] es (Hx & Hy & Hxy & _ & _) _]; [done|]. cbn [map read_lines].
  unfold first_line. change (entry_line (mkEntry x y p)) with (String x (String y (String " " p))).
  cbn [se_x se_y se_path str_drop] in *.
  rewrite join_cons_char. cbn [lstrip]. rewrite (printable_space _ Hx).
  destruct (Ascii.eqb_spec x " ") as [->|Hsp]; [|by rewrite (join_cons_char x)].
  rewrite join_cons_char. cbn [lstrip]. rewrite (printable_space _ Hy).
  destruct (Ascii.eqb_spec y " ") as [->|]; [by destruct Hxy|done].
Qed.

Lemma entry_line_no_break e :
  entry_ok e -> all_chars (fun c => negb (line_break c)) (entry_line e) = true.
Proof.
  intros (Hx & Hy & _ & Hp & _). unfold all_chars. cbn [entry_line list_ascii_of_string forallb].
  rewrite !printable_no_break by done. simpl.
  eapply all_chars_impl; [|exact Hp]. intros c Hc. by apply path_char_plain in Hc as (_ & _ & ?).
Qed.

Lemma splitlines_status es :
  Forall entry_ok es -> splitlines (strip py_isspace (status_text es)) = read_lines es.
Proof.
  intros Hes. rewrite strip_status by done. apply splitlines_join.
  assert (Hall : Forall (fun l => all_chars (fun c => negb (line_break c)) l = true /\ l <> "")
                   (map entry_line es)).
  { apply Forall_map. eapply Forall_impl; [exact Hes|]. intros e He. by split; [apply entry_line_no_break|]. }
  destruct es as [|e es]; [constructor|]. cbn [read_lines map] in *.
  apply Forall_cons in Hall as [[He _] Hall]. constructor; [|done].
  unfold first_line. destruct (Ascii.eqb (se_x e) " "); [|by split].
  split; [by apply all_chars_drop|done].
Qed.

Section reading.
  Context {W : Type} `{Machine W}.
  Variable repo_dir : string.
  Implicit Types (w : W) (es : list StatusEntry).

Abbreviation files_of := (files_of_path repo_dir).

Lemma files_of_line_read w l n :
  all_chars path_char (str_drop 3 l) = true -> String.length l = (3 + n)%nat ->
  files_of_line repo_dir w l = if (n =? 0)%nat then [] else files_of w (str_drop 3 l).
Proof.
  intros Hp Hlen. unfold files_of_line. rewrite Hlen, (raw_path_clean (str_drop 3 l)) by done.
  by destruct n.
Qed.

Lemma files_of_entry w e : entry_ok e -> files_of_line repo_dir w (entry_line e) = files_of w (se_path e).
Proof.
  intros (_ & _ & _ & Hp & Hne). rewrite (files_of_line_read _ _ (String.length (se_path e))) by done.
  change (str_drop 3 (entry_line e)) with (se_path e). by destruct (se_path e).
Qed.

Lemma files_of_first w e :
  entry_ok e -> files_of_line repo_dir w (first_line e) = flat_map (files_of w) (read_first e).
Proof.
  intros He. unfold first_line, read_first. destruct (Ascii.eqb (se_x e) " ").
  - destruct He as (_ & _ & _ & Hp & Hne).
    destruct (se_path e) as [|c p] eqn:Hpath; [done|]. unfold entry_line. rewrite Hpath.
    rewrite (files_of_line_read _ _ (String.length p)); [|by apply (all_chars_drop _ 1) in Hp|done].
    destruct p; [done|]. simpl. by rewrite app_nil_r.
  - simpl. rewrite app_nil_r. by apply files_of_entry.
Qed.

Lemma files_of_lines w es :
  Forall entry_ok es ->
  flat_map (files_of_line repo_dir w) (read_lines es) = flat_map (files_of w) (read_paths es).
Proof.
  intros Hes. destruct Hes as [|e es He Hes]; [done|].
  cbn [read_lines read_paths flat_map]. rewrite flat_map_app, files_of_first by done. f_equal.
  induction Hes as [|e' es' He' _ IH]; [done|]. simpl. by rewrite files_of_entry, IH.
Qed.

(** What [get_pending_files] answers to a successful [git status]. *)
Lemma get_pending_status w w' es err evs :
  Forall entry_ok es -> subprocess_run git_status w = (Some (0, status_text es, err), w') ->
  get_pending_files repo_dir (mkSt w evs) =
    (Ok (queue_of (flat_map (files_of w') (read_paths es))), mkSt w' (evs ++ [Ran git_status (Some 0)])).
Proof.
  intros Hes Hrun. unfold get_pending_files, run_cmd, mbind, script_bind. simpl. rewrite Hrun. simpl.
  unfold nonempty. destruct (String.eqb_spec (strip py_isspace (status_text es)) "") as [Hnil|Hne]; simpl.
  - rewrite <- files_of_lines, <- splitlines_status, Hnil by done. done.
  - unfold world, mret, script_ret. by rewrite splitlines_status, files_of_lines.
Qed.

End reading.

(** ** The queue is what git reports *)

Section queue.
  Context {W : Type} `{Machine W}.
  Variable repo_dir : string.

Lemma str_drop_1_ne s : s <> "" -> str_drop 1 s <> s.
Proof. intros Hs Heq. apply (f_equal String.length) in Heq. destruct s; simpl in Heq; [done|lia]. Qed.

Lemma files_of_plain (w : W) p f :
  is_dir w p = false -> f ∈ files_of_path repo_dir w p -> f = p.
Proof.
  intros Hd. unfold files_of_path. rewrite Hd. destruct (is_file w p), (ignored p); simpl; set_solver.
Qed.

Lemma read_paths_complete e es :
  se_x e <> " "%char -> read_paths (e :: es) = map se_path (e :: es).
Proof. intros Hx. simpl. unfold read_first. by destruct (Ascii.eqb_spec (se_x e) " "). Qed.

(** The entries outside [entry_ok].  A line whose path, as the script reads it, names neither a
    directory nor a file is dropped: a rename, whose path is then both paths and the arrow,
    and a path with characters that git escapes. *)
Lemma unread_path_is_dropped (w : W) line :
  is_dir w (raw_path line) = false -> is_file w (raw_path line) = false ->
  files_of_line repo_dir w line = [].
Proof.
  intros Hd Hf. unfold files_of_line, files_of_path. rewrite Hd, Hf. by destruct (_ <? _)%nat.
Qed.

Example rename_read : raw_path "R  old.txt -> new.txt" = "old.txt -> new.txt".
Proof. reflexivity. Qed.

(** C40: the queue is what git reports, of plain paths.  Let [git status] succeed with entries
    that are each two status letters and one path of printable ASCII without blank, double
    quote and backslash ([entry_ok]: no renames, which git reports with two paths, and no
    path that git quotes).  Then [get_pending_files] finds each file of the paths it reads
    (every file below a directory; no [.pyc] and [.DS_Store] files), once, listed files in
    the preferred order and then the others by name; and it reads all the paths of these
    entries when the first one has a staged or untracked status.  But when the first entry is
    an unstaged change (a blank first status letter), its path is read without its first
    character, and among plain files it is not in the queue. *)
Theorem pending_files_exact (w w' : W) es err evs :
  Forall entry_ok es -> subprocess_run git_status w = (Some (0, status_text es, err), w') ->
  exists files,
    get_pending_files repo_dir (mkSt w evs) = (Ok files, mkSt w' (evs ++ [Ran git_status (Some 0)])) /\
    StronglySorted file_le files /\ NoDup files /\
    (forall f, f ∈ files <-> exists p, p ∈ read_paths es /\ f ∈ files_of_path repo_dir w' p) /\
    match es with
    | [] => files = []
    | e :: es' =>
        if decide (se_x e = " "%char)
        then (forall p, is_dir w' p = false) -> se_path e ∉ map se_path es' -> se_path e ∉ files
        else read_paths es = map se_path es
    end.
Proof.
  intros Hes Hrun. eexists. split; [by apply (get_pending_status repo_dir w w' es err)|].
  split; [apply queue_of_sorted|]. split; [apply queue_of_NoDup|]. split.
  - intros f. by rewrite elem_of_queue_of, list_elem_of_In, in_flat_map; setoid_rewrite list_elem_of_In.
  - destruct Hes as [|e es' He Hes]; [done|]. case_decide as Hx; [|by apply read_paths_complete].
    intros Hdirs Hni. rewrite elem_of_queue_of, list_elem_of_In, in_flat_map.
    intros (p & Hp & Hin). apply list_elem_of_In, files_of_plain in Hin as <-; [|done].
    apply list_elem_of_In in Hp. cbn [read_paths] in Hp. apply elem_of_app in Hp as [Hp|Hp]; [|done].
    unfold read_first in Hp. rewrite Hx in Hp. simpl in Hp.
    destruct He as (_ & _ & _ & _ & Hne).
    destruct (_ =? 1)%nat; [by apply not_elem_of_nil in Hp|].
    apply list_elem_of_singleton in Hp. by apply (str_drop_1_ne _ Hne).
Qed.

(** ** The listing, day by day *)

Lemma say_all_eq (ms : list Message) (s : St W) :
  say_all ms s = (Ok tt, mkSt (st_world s) (st_events s ++ map Said ms)).
Proof.
  revert s. induction ms as [|m ms IH]; intros s; cbn [say_all map].
  - unfold mret, script_ret. rewrite app_nil_r. by destruct s.
  - unfold mbind, script_bind, say. rewrite IH. simpl. by rewrite <- app_assoc.
Qed.

End queue.

(** The [k]-th batch of [p] elements. *)
Definition batch_at {A : Type} (p k : nat) (l : list A) : list A := drop (k * p) (take (k * p + p) l).

Lemma concat_batches {A : Type} p m (l : list A) :
  List.concat (map (fun k => batch_at p k l) (seq 0 m)) = take (m * p) l.
Proof.
  induction m as [|m IH]; [done|].
  rewrite seq_S, map_app, concat_app, IH. simpl. rewrite app_nil_r. unfold batch_at.
  change (S m * p)%nat with (p + m * p)%nat. rewrite (Nat.add_comm p).
  rewrite <- (take_drop (m * p) (take (m * p + p) l)) at 2.
  by rewrite take_take, Nat.min_l by lia.
Qed.

Lemma length_batch {A : Type} p k (l : list A) :
  List.length (batch_at p k l) = Nat.min p (List.length l - k * p).
Proof. unfold batch_at. rewrite length_drop, length_take. lia. Qed.

Lemma py_slice_batch {A : Type} per_day k (l : list A) :
  0 <= per_day ->
  py_slice (Z.of_nat k * per_day) (Z.of_nat k * per_day + per_day) l = batch_at (Z.to_nat per_day) k l.
Proof.
  intros Hp. unfold py_slice, batch_at. rewrite py_take_nonneg by nia. f_equal; [|f_equal]; nia.
Qed.

Lemma flat_map_map {A B C : Type} (f : B -> list C) (g : A -> B) (l : list A) :
  flat_map f (map g l) = flat_map (fun a => f (g a)) l.
Proof. induction l as [|a l IH]; [done|]. simpl. by rewrite IH. Qed.

Lemma flat_map_ext_in {A B : Type} (f g : A -> list B) (l : list A) :
  (forall a, a ∈ l -> f a = g a) -> flat_map f l = flat_map g l.
Proof.
  induction l as [|a l IH]; intros Heq; [done|]. simpl. f_equal; [apply Heq; by left|].
  apply IH. intros b Hb. apply Heq. by right.
Qed.

Lemma imap_map_seq {A B : Type} (f : nat -> A -> B) (g : nat -> A) m :
  imap f (map g (seq 0 m)) = map (fun k => f k (g k)) (seq 0 m).
Proof.
  apply list_eq. intros i. rewrite list_lookup_imap, !list_lookup_fmap.
  destruct (decide (i < m)%nat).
  - by rewrite lookup_seq_lt.
  - by rewrite lookup_seq_ge by lia.
Qed.

Section listing.
  Context {W : Type} `{Machine W}.
  Variable repo_dir : string.

(** The days of a queue. *)
Definition queue_days (per_day : Z) (pending : list string) : list (list string) :=
  map (fun k => batch_at (Z.to_nat per_day) k pending)
    (seq 0 (Z.to_nat ((Z.of_nat (List.length pending) + per_day - 1) / per_day))).

Lemma day_messages per_day pending :
  0 < per_day ->
  flat_map (fun i => day_lines (i / per_day + 1) (py_slice i (i + per_day) pending))
    (py_range (Z.of_nat (List.length pending)) per_day) =
  List.concat (imap (fun k files => day_lines (Z.of_nat k + 1) files) (queue_days per_day pending)).
Proof.
  intros Hpos. unfold queue_days, py_range, range_len.
  destruct (Z.ltb_spec 0 per_day); [|lia]. rewrite Z.max_r by (apply Z.div_pos; lia).
  rewrite imap_map_seq, flat_map_map, flat_map_concat_map. f_equal. apply map_ext. intros k.
  rewrite Z.div_mul by lia. by rewrite py_slice_batch by lia.
Qed.

(** Rounding up. *)
Lemma ceil_bounds n d :
  0 <= n -> 0 < d ->
  let m := Z.to_nat ((n + d - 1) / d) in
  Z.of_nat m = (n + d - 1) / d /\ (Z.of_nat m - 1) * d < n <= Z.of_nat m * d.
Proof.
  intros Hn Hd m. assert (Hm : Z.of_nat m = (n + d - 1) / d).
  { unfold m. apply Z2Nat.id, Z.div_pos; lia. }
  split; [done|]. rewrite Hm. pose proof (Z.div_mod (n + d - 1) d ltac:(lia)).
  pose proof (Z.mod_pos_bound (n + d - 1) d Hd). nia.
Qed.

(** The listing shows the whole queue.  For [per_day > 0], [list_queue] prints the number
    of pending files and of days it announces, and then day by day all the files of the
    queue in its order: as many days as announced, none of them empty, all but the last
    full, and the first of them is the batch [push_batch] would commit today. *)
Theorem list_queue_shows_all per_day (s s1 : St W) pending :
  get_pending_files repo_dir s = (Ok pending, s1) -> pending <> [] -> 0 < per_day ->
  exists days : list (list string),
    list_queue repo_dir per_day s =
      (Ok tt, mkSt (st_world s1) (st_events s1 ++
         Said (QueueHeader (Z.of_nat (List.length pending)) (Z.of_nat (List.length days)) per_day) ::
         map Said (List.concat (imap (fun k files => day_lines (Z.of_nat k + 1) files) days)))) /\
    List.concat days = pending /\
    (forall k files, days !! k = Some files ->
       1 <= Z.of_nat (List.length files) <= per_day /\
       ((S k < List.length days)%nat -> Z.of_nat (List.length files) = per_day)) /\
    head days = Some (files_to_commit per_day None pending).
Proof.
  intros Hpending Hne Hpos. exists (queue_days per_day pending).
  assert (Hn : (0 < List.length pending)%nat) by (destruct pending; [done|simpl; lia]).
  pose proof (ceil_bounds (Z.of_nat (List.length pending)) per_day ltac:(lia) Hpos) as [Hm Hbounds].
  split; [|split; [|split]].
  - unfold list_queue, mbind at 1, script_bind at 1. rewrite Hpending.
    destruct pending as [|f0 fs] eqn:Hp; [done|]. rewrite <- Hp in *.
    destruct (Z.eqb_spec per_day 0); [lia|]. rewrite <- day_messages by done.
    unfold queue_days. rewrite length_map, length_seq, Hm.
    unfold mbind, script_bind, say. rewrite say_all_eq. cbn [st_world st_events].
    by rewrite <- app_assoc.
  - unfold queue_days. rewrite concat_batches. apply take_ge. nia.
  - intros k files Hk. unfold queue_days in *. rewrite length_map, length_seq.
    apply list_lookup_fmap_Some in Hk as (k' & -> & Hk').
    apply lookup_seq in Hk' as [-> Hk]. rewrite length_batch. split; nia.
  - unfold queue_days, files_to_commit. rewrite py_take_nonneg by lia.
    destruct (Z.to_nat ((_ + per_day - 1) / per_day)) as [|m] eqn:Heq; [exfalso; nia|]. done.
Qed.

End listing.

(** ** What a batch runs *)

(** The commands of a stretch of events, with their return codes. *)
Definition command_of (e : Event) : option (list string * option Z) :=
  match e with Ran cmd code => Some (cmd, code) | Said _ => None end.
Abbreviation commands := (omap command_of).

Definition all_zero (plan : list (list string)) : list (list string * option Z) :=
  map (fun cmd => (cmd, Some 0)) plan.

Lemma all_zero_app p q : all_zero (p ++ q) = all_zero p ++ all_zero q.
Proof. apply map_app. Qed.

(** A plan of commands is run to its end, or up to the first that does not return 0, whose
    code is then the outcome. *)
Inductive plan_run (plan : list (list string))
  : list (list string * option Z) -> option (option Z) -> Prop :=
| plan_done : plan_run plan (all_zero plan) None
| plan_stopped done_ cmd code rest :
    plan = done_ ++ cmd :: rest -> code <> Some 0 ->
    plan_run plan (all_zero done_ ++ [(cmd, code)]) (Some code).

Lemma plan_run_app p q c d o :
  plan_run p c None -> plan_run q d o -> plan_run (p ++ q) (c ++ d) o.
Proof.
  intros Hp Hq. inversion Hp; subst. inversion Hq; subst.
  - rewrite <- all_zero_app. apply plan_done.
  - rewrite (app_assoc (all_zero p)), <- all_zero_app.
    eapply plan_stopped; [|done]. by rewrite <- app_assoc.
Qed.

Lemma plan_run_stop p q c code : plan_run p c (Some code) -> plan_run (p ++ q) c (Some code).
Proof.
  intros Hp. inversion Hp; subst. eapply plan_stopped; [|done]. by rewrite <- app_assoc.
Qed.

Lemma plan_run_head cmd code rest :
  code <> Some 0 -> plan_run (cmd :: rest) [(cmd, code)] (Some code).
Proof. apply (plan_stopped _ [] cmd code rest). done. Qed.

Lemma plan_run_cons cmd p c o : plan_run p c o -> plan_run (cmd :: p) ((cmd, Some 0) :: c) o.
Proof. apply (plan_run_app [cmd] p [(cmd, Some 0)]), (plan_done [cmd]). Qed.

(** The commands that commit one file. *)
Definition commit_cmds (f : string) : list (list string) :=
  [git_add f; git_commit (generate_commit_message f)].

(** Commands of the script that leave the files themselves alone. *)
Definition keeps_files (W : Type) `{Machine W} : Prop :=
  forall cmd (w : W) f,
    cmd = git_status \/ cmd = git_push \/ (exists g, cmd = git_add g) \/ (exists m, cmd = git_commit m) ->
    path_exists (subprocess_run cmd w).2 f = path_exists w f.

Section batch.
  Context {W : Type} `{Machine W}.
  Variable repo_dir : string.
  Implicit Types (s : St W) (files : list string).

Definition present (w : W) files : list string := filter (fun f => path_exists w f = true) files.

(** How a stretch of the script extends the events. *)
Definition ran (s s' : St W) (c : list (list string * option Z)) : Prop :=
  exists evs, st_events s' = st_events s ++ evs /\ commands evs = c.

Lemma ran_refl s : ran s s [].
Proof. exists []. by rewrite app_nil_r. Qed.

Lemma ran_trans s1 s2 s3 c d : ran s1 s2 c -> ran s2 s3 d -> ran s1 s3 (c ++ d).
Proof.
  intros (e & He & <-) (e' & He' & <-). exists (e ++ e'). split.
  - by rewrite He', He, <- app_assoc.
  - apply omap_app.
Qed.

Lemma bind_say {A : Type} m (k : unit -> script W A) s :
  (say m ≫= k) s = k tt (mkSt (st_world s) (st_events s ++ [Said m])).
Proof. done. Qed.

Lemma ran_say m s : ran s (say m s).2 [].
Proof. by exists [Said m]. Qed.

Lemma ran_cmd cmd s r s' :
  run_cmd cmd s = (r, s') ->
  exists reply, subprocess_run cmd (st_world s) = (reply, st_world s') /\
    ran s s' [(cmd, reply_code reply)] /\
    r = match reply with
        | Some (code, out, err) => Ok (code, strip py_isspace out, strip py_isspace err)
        | None => Err CommandRaised
        end.
Proof.
  unfold run_cmd. destruct (subprocess_run cmd (st_world s)) as [reply w'] eqn:Hrun.
  intros Hr. exists reply. destruct reply as [[[code out] err]|]; injection Hr as <- <-;
    (split; [done|]; split; [by eexists|done]).
Qed.

(** One command and what follows it. *)
Lemma cmd_then {A : Type} cmd (k : Z * string * string -> script W A) s r s' :
  (run_cmd cmd ≫= k) s = (r, s') ->
  exists reply s1, subprocess_run cmd (st_world s) = (reply, st_world s1) /\
    ran s s1 [(cmd, reply_code reply)] /\
    match reply with
    | Some (code, out, err) => k (code, strip py_isspace out, strip py_isspace err) s1 = (r, s')
    | None => r = Err CommandRaised /\ s' = s1
    end.
Proof.
  unfold mbind, script_bind. destruct (run_cmd cmd s) as [r1 s1] eqn:Hcmd. intros Hk.
  apply ran_cmd in Hcmd as (reply & Hrun & Hran & ->). exists reply, s1. split; [done|]. split; [done|].
  by destruct reply as [[[code out] err]|]; [|injection Hk as <- <-].
Qed.

(** A stretch of events that keeps the files. *)
Definition same_files (w w' : W) : Prop := forall f, path_exists w' f = path_exists w f.

Lemma present_same w w' files : same_files w w' -> present w' files = present w files.
Proof. intros Hs. apply list_filter_iff. intros f. by rewrite Hs. Qed.

Context (Hkeeps : keeps_files W).

Lemma cmd_keeps cmd s s1 reply :
  subprocess_run cmd (st_world s) = (reply, st_world s1) ->
  cmd = git_status \/ cmd = git_push \/ (exists g, cmd = git_add g) \/ (exists m, cmd = git_commit m) ->
  same_files (st_world s) (st_world s1).
Proof. intros Hrun Hcmd f. pose proof (Hkeeps cmd (st_world s) f Hcmd) as Hk. by rewrite Hrun in Hk. Qed.

(** A command whose failure ends the function with [v]. *)
Lemma checked {A : Type} cmd (m : string -> string -> Message) (v : A)
    (k : string -> string -> script W A) s r s' :
  ('(code, out, err) ← run_cmd cmd;
   if negb (code =? 0) then say (m out err);; mret v else k out err) s = (r, s') ->
  cmd = git_status \/ cmd = git_push \/ (exists g, cmd = git_add g) \/ (exists m, cmd = git_commit m) ->
  (exists code, code <> Some 0 /\ ran s s' [(cmd, code)] /\ same_files (st_world s) (st_world s') /\
     r = match code with Some _ => Ok v | None => Err CommandRaised end) \/
  (exists s1 out err, ran s s1 [(cmd, Some 0)] /\ same_files (st_world s) (st_world s1) /\
     k out err s1 = (r, s')).
Proof.
  intros Hrun Hcmd. apply cmd_then in Hrun as (reply & s1 & Hreply & Hran & Hk).
  pose proof (cmd_keeps _ _ _ _ Hreply Hcmd) as Hsame.
  destruct reply as [[[code out] err]|]; simpl in Hran.
  - destruct (Z.eqb_spec code 0) as [->|Hne]; simpl in Hk; [right; by eauto 10|left].
    unfold mbind, script_bind, say in Hk. injection Hk as <- <-.
    exists (Some code). split; [by intros [= ?]|]. split; [|done].
    change [(cmd, Some code)] with ([(cmd, Some code)] ++ []). eapply ran_trans; [done|apply ran_say].
  - destruct Hk as [-> ->]. left. by exists None.
Qed.

(** The outcome of the loop, from that of its plan. *)
Definition loop_outcome (committed : list string) (o : option (option Z))
  : result ScriptError (option (list string)) :=
  match o with
  | None => Ok (Some committed)
  | Some (Some _) => Ok None
  | Some None => Err CommandRaised
  end.

Lemma commit_files_spec files committed s r s' :
  commit_files false files committed s = (r, s') ->
  exists c o, ran s s' c /\ same_files (st_world s) (st_world s') /\
    plan_run (flat_map commit_cmds (present (st_world s) files)) c o /\
    r = loop_outcome (committed ++ present (st_world s) files) o.
Proof.
  revert committed s. induction files as [|f files IH]; intros committed s Hrun.
  { injection Hrun as <- <-. exists [], None. rewrite app_nil_r.
    split; [apply ran_refl|]. split; [done|]. split; [apply (plan_done [])|done]. }
  cbn [commit_files] in Hrun. unfold world, mbind at 1, script_bind at 1 in Hrun.
  unfold present. rewrite filter_cons. fold (present (st_world s) files).
  destruct (path_exists (st_world s) f) eqn:Hf; cbn [negb] in Hrun;
    rewrite bind_say in Hrun; set (s0 := mkSt _ _) in Hrun.
  - rewrite decide_True by done. cbn [flat_map commit_cmds app].
    assert (Hran0 : ran s s0 []) by apply (ran_say (NextCommit f (generate_commit_message f))).
    apply checked in Hrun as [(code & Hne & Hran & Hsame & ->)|(s1 & _ & _ & Hran1 & Hsame1 & Hrun)]; [..|eauto].
    { exists [(git_add f, code)], (Some code). split; [by apply (ran_trans _ _ _ [] _ Hran0)|].
      split; [done|]. split; [by apply plan_run_head|by destruct code]. }
    apply checked in Hrun as [(code & Hne & Hran & Hsame & ->)|(s2 & _ & _ & Hran2 & Hsame2 & Hrun)]; [..|eauto].
    { exists [(git_add f, Some 0); (git_commit (generate_commit_message f), code)], (Some code).
      split; [by apply (ran_trans _ _ _ [] _ Hran0), (ran_trans _ _ _ _ _ Hran1)|].
      split; [by intros g; rewrite Hsame, <- Hsame1|].
      split; [by apply plan_run_cons, plan_run_head|by destruct code]. }
    apply IH in Hrun as (c & o & Hran & Hsame & Hplan & ->).
    assert (Hs2 : same_files (st_world s) (st_world s2)) by (intros g; by rewrite Hsame2, <- Hsame1).
    rewrite (present_same _ _ _ Hs2) in *.
    exists ((git_add f, Some 0) :: (git_commit (generate_commit_message f), Some 0) :: c), o.
    split; [|split; [by intros g; rewrite Hsame|]].
    + by apply (ran_trans _ _ _ [] _ Hran0), (ran_trans _ _ _ _ _ Hran1), (ran_trans _ _ _ _ _ Hran2).
    + split; [by do 2 apply plan_run_cons|]. by rewrite <- app_assoc.
  - rewrite decide_False by done.
    apply IH in Hrun as (c & o & Hran & Hsame & Hplan & ->). exists c, o.
    split; [|done]. eapply (ran_trans _ _ _ [] c); [apply (ran_say (NoSuchFile f))|exact Hran].
Qed.

(** A dry run commits nothing. *)
Lemma commit_files_dry files committed s :
  exists s', commit_files true files committed s = (Ok (Some committed), s') /\
    ran s s' [] /\ st_world s' = st_world s.
Proof.
  revert s. induction files as [|f files IH]; intros s.
  { exists s. split; [done|]. split; [apply ran_refl|done]. }
  cbn [commit_files]. unfold world, mbind at 1, script_bind at 1.
  destruct (path_exists (st_world s) f); cbn [negb]; rewrite !bind_say;
    edestruct IH as (s' & Hrun & Hran & Hw); rewrite Hrun; exists s'; (split; [done|]; split; [|exact Hw]).
  - by apply (ran_trans _ _ _ [] [] (ran_say (NextCommit f (generate_commit_message f)) s)),
      (ran_trans _ _ _ [] [] (ran_say WouldCommit _)).
  - by apply (ran_trans _ _ _ [] [] (ran_say (NoSuchFile f) s)).
Qed.

Lemma pending_ran s r s' :
  get_pending_files repo_dir s = (r, s') ->
  exists code, ran s s' [(git_status, code)] /\
    match code with Some _ => exists files, r = Ok files | None => r = Err CommandRaised end.
Proof.
  intros Hrun. unfold get_pending_files in Hrun.
  apply cmd_then in Hrun as (reply & s1 & _ & Hran & Hk). exists (reply_code reply).
  destruct reply as [[[code out] err]|]; [|by destruct Hk as [-> ->]]. simpl in *.
  destruct (_ || _) in Hk; injection Hk as <- <-; eauto.
Qed.

(** What a batch runs.  With files pending, [push_batch] plans [git add] and
    [git commit] with its message for each file of the batch that exists, in order, and
    [git push] at the end; it runs the plan up to the first command that does not return 0
    and answers [False] there, and when all return 0 it counts what is left ([git status])
    and answers [True].  It runs nothing else, and a dry run nothing at all. *)
Theorem push_batch_runs count dry_run specific_file s pending s1 r s' :
  get_pending_files repo_dir s = (Ok pending, s1) -> pending <> [] ->
  push_batch repo_dir count dry_run specific_file s = (r, s') ->
  if dry_run then r = Ok true /\ ran s1 s' [] /\ st_world s' = st_world s1
  else
    let files := present (st_world s1) (files_to_commit count specific_file pending) in
    exists c o, plan_run (flat_map commit_cmds files ++ [git_push]) c o /\
      match o with
      | Some code => ran s1 s' c /\
          r = match code with Some _ => Ok false | None => Err CommandRaised end
      | None => exists code, ran s1 s' (c ++ [(git_status, code)]) /\
          r = match code with Some _ => Ok true | None => Err CommandRaised end
      end.
Proof.
  intros Hpending Hne Hrun. unfold push_batch, mbind at 1, script_bind at 1 in Hrun.
  rewrite Hpending in Hrun. set (files := files_to_commit count specific_file pending) in *.
  destruct pending as [|p0 ps]; [done|]. clearbody files. rewrite bind_say in Hrun.
  set (s2 := mkSt _ _) in Hrun. assert (Hran2 : ran s1 s2 []) by apply (ran_say (BatchHeader _)).
  unfold mbind at 1, script_bind at 1 in Hrun.
  destruct dry_run.
  { destruct (commit_files_dry files [] s2) as (s3 & Hloop & Hran3 & Hw). rewrite Hloop in Hrun.
    rewrite bind_say in Hrun. injection Hrun as <- <-. split; [done|]. split; [|exact Hw].
    by apply (ran_trans _ _ _ [] [] Hran2), (ran_trans _ _ _ [] [] Hran3), (ran_say DryRunEnd). }
  destruct (commit_files false files [] s2) as [r3 s3] eqn:Hloop.
  apply commit_files_spec in Hloop as (c & o & Hran3 & _ & Hplan & ->).
  change (st_world s2) with (st_world s1) in Hplan.
  assert (Hran : ran s1 s3 c) by exact (ran_trans _ _ _ [] _ Hran2 Hran3).
  destruct o as [code|]; simpl in Hrun.
  { exists c, (Some code). split; [by apply plan_run_stop|].
    destruct code; by injection Hrun as <- <-. }
  rewrite bind_say in Hrun.
  apply checked in Hrun as [(code & Hcode & Hran4 & _ & ->)|(s4 & out & err & Hran4 & _ & Hrun)]; [..|eauto].
  { exists (c ++ [(git_push, code)]), (Some code). split.
    - eapply plan_run_app; [exact Hplan|]. by apply plan_run_head.
    - split; [|done]. apply (ran_trans _ _ _ _ _ Hran), (ran_trans _ _ _ [] _ (ran_say Pushing s3) Hran4). }
  unfold mbind at 1, script_bind at 1 in Hrun.
  destruct (get_pending_files repo_dir s4) as [r5 s5] eqn:Hleft.
  apply pending_ran in Hleft as (code & Hran5 & Hr5).
  exists (c ++ [(git_push, Some 0)]), None. split; [eapply plan_run_app; [exact Hplan|apply (plan_done [git_push])]|].
  assert (Hran' : ran s1 s5 ((c ++ [(git_push, Some 0)]) ++ [(git_status, code)])).
  { eapply ran_trans; [|exact Hran5].
    apply (ran_trans _ _ _ _ _ Hran), (ran_trans _ _ _ [] _ (ran_say Pushing s3) Hran4). }
  exists code. destruct code as [z|]; [|by subst r5; injection Hrun as <- <-].
  destruct Hr5 as [left ->]. rewrite bind_say in Hrun. injection Hrun as <- <-. split; [|done].
  rewrite <- (app_nil_r (_ ++ [(git_status, Some z)])). eapply ran_trans; [exact Hran'|apply (ran_say (Pushed _ _))].
Qed.

End batch.

(** ** Day after day *)

Definition untracked_entry (p : string) : StatusEntry := mkEntry "?" "?" p.

(** A working git repository, as the script needs it: new files only, an index that is empty
    between two files, and a remote that accepts the pushes.  [report w] is what
    [git status] prints of the untracked files: plain paths, a directory for all the files
    below it. *)
Class Repository (W : Type) `{Machine W} (repo_dir : string) : Type := {
  untracked : W -> gset string;
  staged : W -> gset string;
  report : W -> list string;
  report_plain w : Forall (fun p => all_chars path_char p = true /\ p <> "") (report w);
  report_covers w f : f ∈ untracked w <-> exists p, p ∈ report w /\ f ∈ files_of_path repo_dir w p;
  untracked_exists w f : f ∈ untracked w -> path_exists w f = true;
  status_reports w : staged w = ∅ ->
    subprocess_run git_status w = (Some (0, status_text (map untracked_entry (report w)), ""), w);
  add_stages w f : f ∈ untracked w -> staged w = ∅ ->
    exists out err w', subprocess_run (git_add f) w = (Some (0, out, err), w') /\
      untracked w' = untracked w ∖ {[f]} /\ staged w' = {[f]};
  commit_clears w msg : staged w <> ∅ ->
    exists out err w', subprocess_run (git_commit msg) w = (Some (0, out, err), w') /\
      untracked w' = untracked w /\ staged w' = ∅;
  push_accepted w : exists out err w', subprocess_run git_push w = (Some (0, out, err), w') /\
      untracked w' = untracked w /\ staged w' = staged w;
}.

Lemma NoDup_take {A : Type} n (l : list A) : NoDup l -> NoDup (take n l).
Proof. intros Hnd. exact (sublist_NoDup _ _ Hnd (sublist_take _ _)). Qed.

Section days.
  Context {W : Type} `{Machine W} {repo_dir : string} `{!Repository W repo_dir}.
  Implicit Types (s : St W) (files : list string).

(** [--push] on [n] days. *)
Fixpoint push_days (n : nat) (count : Z) : script W (list bool) :=
  match n with
  | O => mret []
  | S n' =>
      ok ← push_batch repo_dir count false None;
      oks ← push_days n' count;
      mret (ok :: oks)
  end.

Lemma read_paths_untracked ps : read_paths (map untracked_entry ps) = ps.
Proof. destruct ps as [|p ps]; [done|]. simpl. f_equal. by rewrite map_map, map_id. Qed.

Lemma untracked_pending s :
  staged (st_world s) = ∅ ->
  exists pending evs, get_pending_files repo_dir s = (Ok pending, mkSt (st_world s) evs) /\
    NoDup pending /\ (forall f, f ∈ pending <-> f ∈ untracked (st_world s)).
Proof.
  intros Hst. destruct s as [w evs]. simpl in *.
  assert (Hok : Forall entry_ok (map untracked_entry (report w))).
  { apply Forall_map. eapply Forall_impl; [apply report_plain|]. intros p [Hp Hne].
    by split; [done|split; [done|split; [intros [? _]|]]]. }
  rewrite (get_pending_status repo_dir w w _ "" evs Hok (status_reports w Hst)).
  do 2 eexists. split; [done|]. split; [apply queue_of_NoDup|]. intros f.
  rewrite elem_of_queue_of, read_paths_untracked, list_elem_of_In, in_flat_map, report_covers.
  by setoid_rewrite list_elem_of_In.
Qed.

Lemma run_cmd_ok cmd s out err w' :
  subprocess_run cmd (st_world s) = (Some (0, out, err), w') ->
  run_cmd cmd s = (Ok (0, strip py_isspace out, strip py_isspace err),
                   mkSt w' (st_events s ++ [Ran cmd (Some 0)])).
Proof. unfold run_cmd. by intros ->. Qed.

Lemma bind_run {A B : Type} (m : script W A) (k : A -> script W B) s a s1 :
  m s = (Ok a, s1) -> (m ≫= k) s = k a s1.
Proof. unfold mbind, script_bind. by intros ->. Qed.

Lemma commit_all files committed s :
  NoDup files -> (forall f, f ∈ files -> f ∈ untracked (st_world s)) -> staged (st_world s) = ∅ ->
  exists s', commit_files false files committed s = (Ok (Some (committed ++ files)), s') /\
    untracked (st_world s') = untracked (st_world s) ∖ list_to_set files /\ staged (st_world s') = ∅.
Proof.
  revert committed s. induction files as [|f files IH]; intros committed s Hnd Hin Hst.
  { exists s. rewrite app_nil_r. split; [done|]. split; [set_solver|done]. }
  apply NoDup_cons in Hnd as [Hni Hnd]. cbn [commit_files]. unfold world, mbind at 1, script_bind at 1.
  rewrite untracked_exists by (apply Hin; by left). cbn [negb]. rewrite bind_say.
  destruct (add_stages (st_world s) f) as (out & err & w1 & Hadd & Hu1 & Hs1); [apply Hin; by left|done|].
  set (s0 := mkSt (st_world s) _).
  rewrite (bind_run _ _ s0 _ _ (run_cmd_ok _ s0 _ _ _ Hadd)). cbn [negb Z.eqb].
  destruct (commit_clears w1 (generate_commit_message f)) as (out2 & err2 & w2 & Hcommit & Hu2 & Hs2);
    [rewrite Hs1; set_solver|].
  set (s1 := mkSt w1 _). rewrite (bind_run _ _ s1 _ _ (run_cmd_ok _ s1 _ _ _ Hcommit)). cbn [negb Z.eqb].
  destruct (IH (committed ++ [f]) (mkSt w2 (st_events s1 ++ [Ran (git_commit (generate_commit_message f)) (Some 0)])))
    as (s' & Hrun & Hu & Hs); [done|..|done|]; simpl in *; rewrite ?Hu2, ?Hu1 in *.
  { intros g Hg. apply elem_of_difference. split; [apply Hin; by right|set_solver]. }
  exists s'. split; [by rewrite Hrun, <- app_assoc|]. split; [|done]. rewrite Hu. set_solver.
Qed.

(** A day commits the first [count] files of the queue. *)
Lemma push_day count s :
  0 <= count -> staged (st_world s) = ∅ ->
  exists s' pending, push_batch repo_dir count false None s = (Ok true, s') /\
    NoDup pending /\ (forall f, f ∈ pending <-> f ∈ untracked (st_world s)) /\
    untracked (st_world s') = untracked (st_world s) ∖ list_to_set (take (Z.to_nat count) pending) /\
    staged (st_world s') = ∅.
Proof.
  intros Hcount Hst. destruct (untracked_pending s Hst) as (pending & evs & Hp & Hnd & Hin).
  unfold push_batch. rewrite (bind_run _ _ _ _ _ Hp).
  destruct pending as [|p0 ps] eqn:Heq.
  { eexists _, []. split; [done|]. split; [done|]. split; [done|]. rewrite take_nil. simpl.
    split; [set_solver|done]. }
  rewrite <- Heq in *. rewrite bind_say. unfold files_to_commit. cbn [given].
  rewrite py_take_nonneg by done. set (s1 := mkSt _ _).
  destruct (commit_all (take (Z.to_nat count) pending) [] s1) as (s2 & Hrun & Hu & Hs2);
    [by apply NoDup_take|intros f Hf; apply Hin; by apply subseteq_take in Hf|done|].
  rewrite (bind_run _ _ _ _ _ Hrun). rewrite bind_say. set (s3 := mkSt _ _).
  destruct (push_accepted (st_world s2)) as (out & err & w4 & Hpush & Hu4 & Hs4).
  rewrite (bind_run _ _ s3 _ _ (run_cmd_ok _ s3 _ _ _ Hpush)). cbn [negb Z.eqb]. set (s4 := mkSt w4 _).
  destruct (untracked_pending s4) as (left & evs5 & Hleft & _); [by simpl; rewrite Hs4|].
  rewrite (bind_run _ _ _ _ _ Hleft), bind_say.
  eexists _, pending. split; [done|]. split; [done|]. split; [done|]. simpl. by rewrite Hu4, Hs4.
Qed.

(** Running the script day after day commits everything.  In a repository of new files,
    [n] days of [--push] with a positive [count], enough for the number of untracked files,
    all succeed and leave no file untracked: the script then reports a clean tree. *)
Theorem pushes_commit_everything n count s :
  0 < count -> staged (st_world s) = ∅ ->
  Z.of_nat (size (untracked (st_world s))) <= Z.of_nat n * count ->
  exists s', push_days n count s = (Ok (replicate n true), s') /\
    untracked (st_world s') = ∅ /\ staged (st_world s') = ∅ /\
    push_batch repo_dir count false None s' = (Ok true, (say CleanTree (get_pending_files repo_dir s').2).2).
Proof.
  intros Hcount. revert s. induction n as [|n IH]; intros s Hst Hsize.
  - exists s. assert (Hempty : untracked (st_world s) = ∅) by (apply leibniz_equiv, size_empty_inv; lia).
    split; [done|]. split; [done|]. split; [done|].
    destruct (untracked_pending s Hst) as (pending & evs & Hp & _ & Hin).
    unfold push_batch. rewrite (bind_run _ _ _ _ _ Hp), Hp.
    destruct pending as [|f fs]; [done|]. rewrite Hempty in Hin. set_solver.
  - destruct (push_day count s) as (s1 & pending & Hrun & Hnd & Hin & Hu & Hs1); [lia|done|].
    destruct (IH s1 Hs1) as (s' & Hrun' & Hrest).
    { assert (Hset : untracked (st_world s) = list_to_set pending) by set_solver.
      rewrite Hu, size_difference; rewrite Hset; [|intros f; rewrite !elem_of_list_to_set; apply subseteq_take].
      rewrite !size_list_to_set, length_take by (first [done | by apply NoDup_take]).
      rewrite Hset, size_list_to_set in Hsize by done. nia. }
    exists s'. split; [|done]. cbn [push_days]. rewrite (bind_run _ _ _ _ _ Hrun).
    by rewrite (bind_run _ _ _ _ _ Hrun').
Qed.

End days.

(** ** Witnesses *)

(** A machine with two files, where every command succeeds and prints [text]. *)
Section fixed.
  Variable text : string.
Definition fixed_files : list string := ["app/main.py"; "notes.md"].
Definition fixed_machine : Machine unit := {|
  subprocess_run _ w := (Some (0, text, ""), w);
  path_exists _ f := bool_decide (f ∈ fixed_files);
  is_dir _ _ := false;
  is_file _ f := bool_decide (f ∈ fixed_files);
  rglob _ _ := [];
|}.
End fixed.

Definition unstaged_entries : list StatusEntry :=
  [mkEntry " " "M" "app/main.py"; mkEntry "?" "?" "notes.md"].
Definition staged_entries : list StatusEntry :=
  [mkEntry "?" "?" "notes.md"; mkEntry " " "M" "app/main.py"].

(** The unstaged change is reported first, and missed. *)
Lemma pending_files_exact_witness :
  let M := fixed_machine (status_text unstaged_entries) in
  (get_pending_files (W := unit) "/repo" (mkSt tt [])).1 = Ok ["notes.md"] /\ "app/main.py" ∉ ["notes.md"].
Proof.
  intros M.
  destruct (pending_files_exact (W := unit) "/repo" tt tt unstaged_entries "" []) as (files & Hrun & _ & _ & _ & Hlost).
  - repeat constructor; try done; by intros [].
  - reflexivity.
  - assert (Hf : files = ["notes.md"]) by (vm_compute in Hrun; by injection Hrun as <-). subst files.
    split; [by rewrite Hrun|]. simpl in Hlost. apply Hlost; [done|]. by apply (bool_decide_unpack _).
Defined.

Definition today : St unit := mkSt tt [].

Lemma list_queue_shows_all_witness :
  let M := fixed_machine (status_text staged_entries) in
  exists days, List.concat days = ["app/main.py"; "notes.md"] /\ head days = Some ["app/main.py"].
Proof.
  intros M.
  destruct (list_queue_shows_all (W := unit) "/repo" 1 today (mkSt tt [Ran git_status (Some 0)])
              ["app/main.py"; "notes.md"]) as (days & _ & Hconcat & _ & Htoday);
    [vm_compute; reflexivity|done|done|].
  by exists days.
Defined.

Lemma push_batch_runs_witness :
  let M := fixed_machine (status_text staged_entries) in
  exists c o, plan_run (flat_map commit_cmds ["app/main.py"] ++ [git_push]) c o.
Proof.
  intros M. assert (Hkeeps : keeps_files unit) by done.
  destruct (push_batch (W := unit) "/repo" 1 false None today) as [r s'] eqn:Hrun.
  destruct (push_batch_runs (W := unit) "/repo" Hkeeps 1 false None today ["app/main.py"; "notes.md"]
              (mkSt tt [Ran git_status (Some 0)]) r s') as (c & o & Hplan & _);
    [vm_compute; reflexivity|done|exact Hrun|].
  by exists c, o.
Defined.

(** A repository of new files. *)
Record Toy : Type := mkToy { ty_untracked : list string; ty_staged : list string }.

Definition plain_file (p : string) : bool :=
  all_chars path_char p && nonempty p && negb (ignored p).
Definition toy_report (w : Toy) : list string := filter (fun p => plain_file p = true) (ty_untracked w).

Definition toy_run (cmd : list string) (w : Toy) : option (Z * string * string) * Toy :=
  match cmd with
  | [_; "status"; _] =>
      (Some (0, status_text (map (mkEntry "A" " ") (ty_staged w) ++
                             map untracked_entry (toy_report w)), ""), w)
  | [_; "add"; f] =>
      (Some (0, "", ""), mkToy (filter (fun g => g <> f) (ty_untracked w)) (f :: ty_staged w))
  | [_; "commit"; _; _] =>
      if bool_decide (ty_staged w = []) then (Some (1, "nothing to commit", ""), w)
      else (Some (0, "", ""), mkToy (ty_untracked w) [])
  | _ => (Some (0, "", ""), w)
  end.

#[local] Instance toy_machine : Machine Toy := {|
  subprocess_run := toy_run;
  path_exists _ _ := true;
  is_dir _ _ := false;
  is_file _ _ := true;
  rglob _ _ := [];
|}.

Definition toy_untracked (w : Toy) : gset string := list_to_set (toy_report w).
Definition toy_staged (w : Toy) : gset string := list_to_set (ty_staged w).

Lemma toy_report_elem w p : p ∈ toy_report w <-> plain_file p = true /\ p ∈ ty_untracked w.
Proof. unfold toy_report. by rewrite list_elem_of_filter. Qed.

#[local] Instance toy_repository : Repository Toy "/repo".
Proof.
  refine {| untracked := toy_untracked; staged := toy_staged; report := toy_report |}.
  - intros w. apply Forall_forall. intros p [Hp _]%toy_report_elem. unfold plain_file, nonempty in Hp.
    rewrite !andb_true_iff, negb_true_iff in Hp. destruct Hp as [[Hp Hne] _]. split; [done|].
    by apply String.eqb_neq.
  - intros w f. unfold toy_untracked. rewrite elem_of_list_to_set. unfold files_of_path. simpl.
    split; [intros Hf; exists f; split; [done|]|intros (p & Hp & Hin)].
    + apply toy_report_elem in Hf as [Hf _]. unfold plain_file in Hf.
      rewrite !andb_true_iff, negb_true_iff in Hf. destruct Hf as [_ ->]. by left.
    + destruct (ignored p); [by apply not_elem_of_nil in Hin|]. by apply list_elem_of_singleton in Hin as ->.
  - done.
  - intros w Hst. unfold toy_staged in Hst. simpl. by destruct (ty_staged w); [|set_solver].
  - intros w f Hf Hst. do 3 eexists. split; [reflexivity|]. unfold toy_untracked, toy_staged in *.
    split; apply set_eq; intros g; simpl.
    + rewrite elem_of_difference, !elem_of_list_to_set, !toy_report_elem. simpl.
      rewrite list_elem_of_filter, not_elem_of_singleton. tauto.
    + set_solver.
  - intros w msg Hst. unfold toy_staged in *. simpl. case_bool_decide as Hnil; [by rewrite Hnil in Hst|].
    by do 3 eexists.
  - intros w. by do 3 eexists.
Defined.

Definition new_repo : Toy := mkToy ["notes.md"; "app/main.py"; "setup.cfg"; "app/config.py"] [].

(** Two days of three files are enough for four. *)
Lemma pushes_commit_everything_witness :
  exists s', push_days (repo_dir := "/repo") 2 3 (mkSt new_repo []) = (Ok [true; true], s') /\
    untracked (st_world s') = ∅.
Proof.
  destruct (pushes_commit_everything (repo_dir := "/repo") 2 3 (mkSt new_repo []))
    as (s' & Hrun & Hempty & _); [lia|reflexivity|vm_compute; discriminate|].
  exists s'. exact (conj Hrun Hempty).
Defined.
